(** * FLUX ML API server: the job-orchestration core

    A shallow embedding of [src/app.py] and [src/utils.py]: the cache-key
    fingerprint ([CacheManager.generate_cache_key]), the result cache and
    the task registry ([CacheManager]), the fixed-window rate limiter
    ([SecurityManager.check_rate_limit]), the submission and polling
    endpoints, the Celery workers and the duration estimates.

    Conventions.
    - A Python [str] is a [string] whose characters are the code points
      below 256; [bytes] are lists of [Z] in [0, 256).
    - A 32-bit word is a [Z] with the wrap-around written out.
    - Redis is one key/value map with expiry times, threaded explicitly
      through every call together with the Celery queue and the output
      directory; a command of the store may raise.
    - Python exceptions are the [Raise] outcomes of a small state and
      error monad. *)

From Stdlib Require Import ZArith List Ascii String Bool Lia.
From Stdlib Require Import DecimalString DecimalZ.
From Stdlib Require Import Reals Lra.
From Stdlib Require PrimFloat FloatOps SpecFloat FloatAxioms.
From stdpp Require Import base option gmap strings list sorting.

Import ListNotations.
Local Open Scope string_scope.
Local Open Scope list_scope.
Local Open Scope Z_scope.

(* ===================================================================== *)
(** ** Bytes and hexadecimal digits *)
(* ===================================================================== *)

Module Bytes.

(** Code point of a character. *)
Definition ord (c : ascii) : Z := Z.of_N (N_of_ascii c).

Definition chr (n : Z) : ascii := ascii_of_N (Z.to_N n).

(** [str.encode()]: UTF-8, for code points below 256 (one byte below
    128, two bytes from 128 on). *)
Definition utf8_char (c : ascii) : list Z :=
  let n := ord c in
  if n <? 128 then [n]
  else [Z.lor 192 (Z.shiftr n 6); Z.lor 128 (Z.land n 63)].

Fixpoint encode (s : string) : list Z :=
  match s with
  | EmptyString => []
  | String c r => utf8_char c ++ encode r
  end.

Definition hex_digit (n : Z) : ascii :=
  if n <? 10 then chr (48 + n) else chr (87 + n).

Definition hex_byte (b : Z) : string :=
  String (hex_digit (Z.shiftr b 4)) (String (hex_digit (Z.land b 15)) EmptyString).

(** [bytes.hex()] *)
Fixpoint hex (bs : list Z) : string :=
  match bs with
  | [] => EmptyString
  | b :: r => hex_byte b +:+ hex r
  end.

(** A 32-bit word as four bytes, least or most significant first. *)
Definition word_le (w : Z) : list Z :=
  [Z.land w 255; Z.land (Z.shiftr w 8) 255;
   Z.land (Z.shiftr w 16) 255; Z.land (Z.shiftr w 24) 255].

Definition word_be (w : Z) : list Z := rev (word_le w).

Fixpoint words_le (bs : list Z) : list Z :=
  match bs with
  | b0 :: b1 :: b2 :: b3 :: r =>
      (b0 + Z.shiftl b1 8 + Z.shiftl b2 16 + Z.shiftl b3 24) :: words_le r
  | _ => []
  end.

Fixpoint words_be (bs : list Z) : list Z :=
  match bs with
  | b0 :: b1 :: b2 :: b3 :: r =>
      (Z.shiftl b0 24 + Z.shiftl b1 16 + Z.shiftl b2 8 + b3) :: words_be r
  | _ => []
  end.

(** The message cut in blocks of sixteen words. *)
Fixpoint blocks (fuel : nat) (ws : list Z) : list (list Z) :=
  match fuel, ws with
  | S f, _ :: _ => firstn 16 ws :: blocks f (skipn 16 ws)
  | _, _ => []
  end.

(** The 64-bit length field and the padding shared by MD5 and SHA-256:
    a [0x80] byte, zeros up to 56 modulo 64, then the bit length. *)
Definition length_le (bits : Z) : list Z :=
  word_le (Z.land bits 4294967295) ++ word_le (Z.land (Z.shiftr bits 32) 4294967295).

Definition pad (msg : list Z) (len_field : list Z) : list Z :=
  let n := Z.of_nat (List.length msg) in
  msg ++ [128] ++ repeat 0 (Z.to_nat ((55 - n) mod 64)) ++ len_field.

End Bytes.

(* ===================================================================== *)
(** ** hashlib: MD5 (RFC 1321) and SHA-256 (FIPS 180-4) *)
(* ===================================================================== *)

Module Hashlib.
Import Bytes.

Definition mask32 : Z := 4294967295.
Definition add32 (x y : Z) : Z := Z.land (x + y) mask32.
Definition not32 (x : Z) : Z := Z.lxor x mask32.
Definition rotl32 (x : Z) (n : Z) : Z :=
  Z.land (Z.lor (Z.shiftl x n) (Z.shiftr x (32 - n))) mask32.
Definition rotr32 (x : Z) (n : Z) : Z := rotl32 x (32 - n).

(** *** MD5 *)

Definition md5_K : list Z :=
 [0xd76aa478; 0xe8c7b756; 0x242070db; 0xc1bdceee; 0xf57c0faf; 0x4787c62a; 0xa8304613; 0xfd469501;
  0x698098d8; 0x8b44f7af; 0xffff5bb1; 0x895cd7be; 0x6b901122; 0xfd987193; 0xa679438e; 0x49b40821;
  0xf61e2562; 0xc040b340; 0x265e5a51; 0xe9b6c7aa; 0xd62f105d; 0x02441453; 0xd8a1e681; 0xe7d3fbc8;
  0x21e1cde6; 0xc33707d6; 0xf4d50d87; 0x455a14ed; 0xa9e3e905; 0xfcefa3f8; 0x676f02d9; 0x8d2a4c8a;
  0xfffa3942; 0x8771f681; 0x6d9d6122; 0xfde5380c; 0xa4beea44; 0x4bdecfa9; 0xf6bb4b60; 0xbebfbc70;
  0x289b7ec6; 0xeaa127fa; 0xd4ef3085; 0x04881d05; 0xd9d4d039; 0xe6db99e5; 0x1fa27cf8; 0xc4ac5665;
  0xf4292244; 0x432aff97; 0xab9423a7; 0xfc93a039; 0x655b59c3; 0x8f0ccc92; 0xffeff47d; 0x85845dd1;
  0x6fa87e4f; 0xfe2ce6e0; 0xa3014314; 0x4e0811a1; 0xf7537e82; 0xbd3af235; 0x2ad7d2bb; 0xeb86d391].

Definition md5_S : list Z :=
 [7; 12; 17; 22; 7; 12; 17; 22; 7; 12; 17; 22; 7; 12; 17; 22;
  5; 9; 14; 20; 5; 9; 14; 20; 5; 9; 14; 20; 5; 9; 14; 20;
  4; 11; 16; 23; 4; 11; 16; 23; 4; 11; 16; 23; 4; 11; 16; 23;
  6; 10; 15; 21; 6; 10; 15; 21; 6; 10; 15; 21; 6; 10; 15; 21].

Record md5_state := Md5 { mA : Z; mB : Z; mC : Z; mD : Z }.

Definition md5_init : md5_state :=
  Md5 0x67452301 0xefcdab89 0x98badcfe 0x10325476.

Definition md5_step (M : list Z) (st : md5_state) (i : nat) : md5_state :=
  let '(Md5 a b c d) := st in
  let j := Z.of_nat i in
  let '(f, g) :=
    if j <? 16 then (Z.lor (Z.land b c) (Z.land (not32 b) d), j)
    else if j <? 32 then (Z.lor (Z.land d b) (Z.land (not32 d) c), (5 * j + 1) mod 16)
    else if j <? 48 then (Z.lxor b (Z.lxor c d), (3 * j + 5) mod 16)
    else (Z.lxor c (Z.lor b (not32 d)), (7 * j) mod 16) in
  let f' := add32 (add32 (add32 f a) (nth i md5_K 0)) (nth (Z.to_nat g) M 0) in
  Md5 d (add32 b (rotl32 f' (nth i md5_S 0))) b c.

Definition md5_block (st : md5_state) (M : list Z) : md5_state :=
  let '(Md5 a b c d) := fold_left (md5_step M) (seq 0 64) st in
  Md5 (add32 (mA st) a) (add32 (mB st) b) (add32 (mC st) c) (add32 (mD st) d).

Definition md5_digest (msg : list Z) : list Z :=
  let padded := pad msg (length_le (8 * Z.of_nat (List.length msg))) in
  let ws := words_le padded in
  let '(Md5 a b c d) := fold_left md5_block (blocks (List.length ws) ws) md5_init in
  word_le a ++ word_le b ++ word_le c ++ word_le d.

(** [hashlib.md5(data).hexdigest()] *)
Definition md5_hexdigest (msg : list Z) : string := hex (md5_digest msg).

(** *** SHA-256 *)

(** FIPS 180-4, 4.2.2 and 5.3.3: the round constants are the first 32
    bits of the fractional parts of the cube roots of the first
    sixty-four primes, the initial hash value those of the square roots
    of the first eight. *)
Definition primes : list Z :=
 [2; 3; 5; 7; 11; 13; 17; 19; 23; 29; 31; 37; 41; 43; 47; 53;
  59; 61; 67; 71; 73; 79; 83; 89; 97; 101; 103; 107; 109; 113; 127; 131;
  137; 139; 149; 151; 157; 163; 167; 173; 179; 181; 191; 193; 197; 199; 211; 223;
  227; 229; 233; 239; 241; 251; 257; 263; 269; 271; 277; 281; 283; 293; 307; 311].

(** The integer cube root of [n], one bit at a time from bit [bits - 1]. *)
Fixpoint cbrt_bits (bits : nat) (n r : Z) : Z :=
  match bits with
  | O => r
  | S b =>
      let r' := r + Z.shiftl 1 (Z.of_nat b) in
      cbrt_bits b n (if r' * r' * r' <=? n then r' else r)
  end.

Definition frac_cbrt (p : Z) : Z := Z.land (cbrt_bits 36 (Z.shiftl p 96) 0) mask32.
Definition frac_sqrt (p : Z) : Z := Z.land (Z.sqrt (Z.shiftl p 64)) mask32.

Definition sha256_K : list Z := Eval vm_compute in map frac_cbrt primes.
Definition sha256_init : list Z := Eval vm_compute in map frac_sqrt (firstn 8 primes).

Definition big_sigma0 (x : Z) := Z.lxor (rotr32 x 2) (Z.lxor (rotr32 x 13) (rotr32 x 22)).
Definition big_sigma1 (x : Z) := Z.lxor (rotr32 x 6) (Z.lxor (rotr32 x 11) (rotr32 x 25)).
Definition small_sigma0 (x : Z) := Z.lxor (rotr32 x 7) (Z.lxor (rotr32 x 18) (Z.shiftr x 3)).
Definition small_sigma1 (x : Z) := Z.lxor (rotr32 x 17) (Z.lxor (rotr32 x 19) (Z.shiftr x 10)).
Definition ch (x y z : Z) := Z.lxor (Z.land x y) (Z.land (not32 x) z).
Definition maj (x y z : Z) := Z.lxor (Z.land x y) (Z.lxor (Z.land x z) (Z.land y z)).

(** The message schedule: sixteen words of the block, then forty-eight
    derived ones. *)
Definition schedule_step (w : list Z) (t : nat) : list Z :=
  w ++ [add32 (add32 (small_sigma1 (nth (t - 2) w 0)) (nth (t - 7) w 0))
              (add32 (small_sigma0 (nth (t - 15) w 0)) (nth (t - 16) w 0))].

Definition schedule (M : list Z) : list Z := fold_left schedule_step (seq 16 48) M.

Definition sha256_round (W : list Z) (v : list Z) (t : nat) : list Z :=
  match v with
  | [a; b; c; d; e; f; g; h] =>
      let t1 := add32 (add32 (add32 h (big_sigma1 e)) (add32 (ch e f g) (nth t sha256_K 0)))
                      (nth t W 0) in
      let t2 := add32 (big_sigma0 a) (maj a b c) in
      [add32 t1 t2; a; b; c; add32 d t1; e; f; g]
  | _ => v
  end.

Fixpoint add32_all (xs ys : list Z) : list Z :=
  match xs, ys with
  | x :: xs', y :: ys' => add32 x y :: add32_all xs' ys'
  | _, _ => []
  end.

Definition sha256_block (H : list Z) (M : list Z) : list Z :=
  add32_all H (fold_left (sha256_round (schedule M)) (seq 0 64) H).

Definition length_be (bits : Z) : list Z :=
  word_be (Z.land (Z.shiftr bits 32) mask32) ++ word_be (Z.land bits mask32).

Definition sha256_digest (msg : list Z) : list Z :=
  let padded := pad msg (length_be (8 * Z.of_nat (List.length msg))) in
  let ws := words_be padded in
  flat_map word_be (fold_left sha256_block (blocks (List.length ws) ws) sha256_init).

(** [hashlib.sha256(data).hexdigest()] *)
Definition sha256_hexdigest (msg : list Z) : string := hex (sha256_digest msg).

End Hashlib.

(* ===================================================================== *)
(** ** Python values and json.dumps *)
(* ===================================================================== *)

Module Json.
Import Bytes.

(** The double quote and the backslash, by code point. *)
Definition QUOTE : ascii := chr 34.
Definition BACKSLASH : ascii := chr 92.

(** [str(n)] of an [int]: decimal digits, a minus sign when negative. *)
Definition str_int (z : Z) : string := NilEmpty.string_of_int (Z.to_int z).

(** A [float], identified with the decimal literal that [float.__repr__]
    prints for it (the shortest one that reads back to the same binary64
    value, so that [repr] is injective): integer digits, a point, fraction
    digits. 7.5 is [PyFloat (Pos (D7 Nil)) (D5 Nil)]. Exponent notation
    (magnitudes from 1e16 or below 1e-4), [inf] and [nan] are outside this
    type. *)
Record pyfloat := PyFloat { int_digits : Decimal.int; frac_digits : Decimal.uint }.

Definition repr_float (f : pyfloat) : string :=
  NilEmpty.string_of_int (int_digits f) +:+ "." +:+ NilEmpty.string_of_uint (frac_digits f).

(** The values that reach [json.dumps] in this program. *)
Inductive pyval :=
| PyNone
| PyInt (z : Z)
| PyFlt (f : pyfloat)
| PyStr (s : string).

(** [json.encoder.py_encode_basestring_ascii]: every character outside
    [' ' .. '~'], the quote and the backslash are escaped. *)
Definition escape_char (c : ascii) : string :=
  let n := ord c in
  if n =? 34 then String BACKSLASH (String QUOTE "")
  else if n =? 92 then String BACKSLASH (String BACKSLASH "")
  else if n =? 10 then String BACKSLASH "n"
  else if n =? 13 then String BACKSLASH "r"
  else if n =? 9 then String BACKSLASH "t"
  else if n =? 8 then String BACKSLASH "b"
  else if n =? 12 then String BACKSLASH "f"
  else if (n <? 32) || (126 <? n) then String BACKSLASH ("u00" +:+ hex_byte n)
  else String c "".

Fixpoint escape (s : string) : string :=
  match s with
  | EmptyString => ""
  | String c r => escape_char c +:+ escape r
  end.

Definition dumps_str (s : string) : string :=
  String QUOTE (escape s +:+ String QUOTE "").

Definition dumps_val (v : pyval) : string :=
  match v with
  | PyNone => "null"
  | PyInt z => str_int z
  | PyFlt f => repr_float f
  | PyStr s => dumps_str s
  end.

(** A [dict] keeps its items in insertion order. *)
Definition dict := list (string * pyval).

Fixpoint dict_get (k : string) (d : dict) : option pyval :=
  match d with
  | [] => None
  | (k', v) :: r => if String.eqb k k' then Some v else dict_get k r
  end.

Fixpoint join (sep : string) (l : list string) : string :=
  match l with
  | [] => ""
  | [x] => x
  | x :: r => x +:+ sep +:+ join sep r
  end.

Definition dumps_item (d : dict) (k : string) : string :=
  dumps_str k +:+ ": " +:+
  match dict_get k d with Some v => dumps_val v | None => "null" end.

(** [json.dumps(d, sort_keys=True)] with the default separators: the
    items are emitted in the order of their sorted keys, which Python
    compares by code point ([String.le]). (CPython sorts the (key, value)
    pairs; keys of a dict are distinct, so the values are never
    compared.) *)
Definition dumps_sorted (d : dict) : string :=
  "{" +:+ join ", " (map (dumps_item d) (merge_sort String.le (map fst d))) +:+ "}".

End Json.

(* ===================================================================== *)
(** ** utils.CacheManager.generate_cache_key *)
(* ===================================================================== *)

Import Json.

(** The digest of the adapter reference: [None] when [lora_data] is
    falsy, that is absent or the empty string. *)
Definition lora_digest (lora_data : option string) : pyval :=
  match lora_data with
  | Some (String c r) => PyStr (Hashlib.md5_hexdigest (Bytes.encode (String c r)))
  | _ => PyNone
  end.

Definition opt_int (o : option Z) : pyval :=
  match o with Some z => PyInt z | None => PyNone end.

Definition cache_data (prompt : string) (width height steps : Z) (guidance : pyfloat)
    (seed : option Z) (lora_data : option string) : dict :=
  [ ("prompt", PyStr prompt);
    ("width", PyInt width);
    ("height", PyInt height);
    ("steps", PyInt steps);
    ("guidance", PyFlt guidance);
    ("seed", opt_int seed);
    ("lora", lora_digest lora_data) ].

Definition cache_string (prompt : string) (width height steps : Z) (guidance : pyfloat)
    (seed : option Z) (lora_data : option string) : string :=
  dumps_sorted (cache_data prompt width height steps guidance seed lora_data).

Definition generate_cache_key (prompt : string) (width height steps : Z) (guidance : pyfloat)
    (seed : option Z) (lora_data : option string) : string :=
  "flux_cache:" +:+
  Hashlib.sha256_hexdigest
    (Bytes.encode (cache_string prompt width height steps guidance seed lora_data)).

(* ===================================================================== *)
(** ** Python floats used in arithmetic (binary64) *)
(* ===================================================================== *)

Module PyFloat64.

Definition float := PrimFloat.float.

(** [float(n)] of an [int]: the nearest binary64 value. *)
Definition of_int (z : Z) : float :=
  FloatOps.SF2Prim (SpecFloat.binary_normalize FloatOps.prec FloatOps.emax z 0 false).

(** [int(x)]: truncation toward zero; [None] stands for the
    [ValueError] or [OverflowError] raised on [nan] and the infinities. *)
Definition to_int (x : float) : option Z :=
  match FloatOps.Prim2SF x with
  | SpecFloat.S754_zero _ => Some 0
  | SpecFloat.S754_finite s m e =>
      let mag := if 0 <=? e then Z.shiftl (Z.pos m) e else Z.shiftr (Z.pos m) (- e) in
      Some (if s then - mag else mag)
  | _ => None
  end.

(** An [int] as a significand with exponent 0, of any size. *)
Definition exact_int (z : Z) : SpecFloat.spec_float :=
  match z with
  | Z0 => SpecFloat.S754_zero false
  | Zpos p => SpecFloat.S754_finite false p 0
  | Zneg p => SpecFloat.S754_finite true p 0
  end.

(** [a / b] on two [int]s (true division), for a divisor that is not
    zero: the quotient of the two integers themselves, rounded once to
    the nearest binary64 value, ties to even. Where CPython raises
    [OverflowError] because the quotient is too large for a float, the
    value here is an infinity, which [to_int] refuses. *)
Definition int_truediv (a b : Z) : float :=
  FloatOps.SF2Prim (SpecFloat.SFdiv FloatOps.prec FloatOps.emax (exact_int a) (exact_int b)).

End PyFloat64.

(* ===================================================================== *)
(** ** app.estimate_generation_time, app.estimate_video_generation_time *)
(* ===================================================================== *)

Definition estimate_generation_time (width height num_steps : Z) : option Z :=
  let base_time := 10 in
  let pixel_factor := PyFloat64.int_truediv (width * height) (512 * 512) in
  let step_factor := PyFloat64.int_truediv num_steps 50 in
  PyFloat64.to_int
    (PrimFloat.mul (PrimFloat.mul (PyFloat64.of_int base_time) pixel_factor) step_factor).

(** [frames = int(duration * fps)] *)
Definition video_frames (duration : PyFloat64.float) (fps : Z) : option Z :=
  PyFloat64.to_int (PrimFloat.mul duration (PyFloat64.of_int fps)).

Definition estimate_video_generation_time (duration : PyFloat64.float)
    (width height fps : Z) : option Z :=
  match video_frames duration fps with
  | None => None
  | Some frames =>
      match estimate_generation_time width height 20 with
      | None => None
      | Some per_frame =>
          let time_per_frame := PyFloat64.int_truediv per_frame 4 in
          PyFloat64.to_int (PrimFloat.mul (PyFloat64.of_int frames) time_per_frame)
      end
  end.

(* ===================================================================== *)
(** ** The shared state: Redis, the Celery queue, the output directory *)
(* ===================================================================== *)

(** What [update_task_status] stores under [task:<id>]: the fixed keys
    and the keyword arguments the workers pass. *)
Record task_data := TaskData {
  td_task_id : string;
  td_status : string;
  td_updated_at : Z;
  td_user_id : option string;
  td_output_path : option string;
  td_generation_time : option Z;
  td_error : option string }.

(** What [cache_result] stores under a cache key. *)
Record result_data := ResultData {
  rd_image_url : string;
  rd_generation_time : Z }.

(** A stored value. Redis holds byte strings: the counter written by
    [setex(key, window, 1)] and the [json.dumps] of the two dicts above;
    [json.loads] and [int] read them back unchanged. *)
Inductive rval :=
| VInt (n : Z)
| VTask (t : task_data)
| VResult (r : result_data).

Record entry := Entry { value : rval; expiry : option Z }.

Record image_job := ImageJobArgs {
  ij_task_id : string;
  ij_prompt : string;
  ij_width : Z;
  ij_height : Z;
  ij_num_inference_steps : Z;
  ij_guidance_scale : pyfloat;
  ij_seed : option Z;
  ij_lora_path : option string;
  ij_cache_key : string;
  ij_user_id : string }.

Record video_job := VideoJobArgs {
  vj_task_id : string;
  vj_prompt : string;
  vj_duration : PyFloat64.float;
  vj_width : Z;
  vj_height : Z;
  vj_fps : Z;
  vj_seed : option Z;
  vj_lora_path : option string;
  vj_user_id : string }.

Inductive job :=
| ImageJob (j : image_job)
| VideoJob (j : video_job).

(** [redis_faults] is the fate of the coming commands, [true] for one
    that raises (connection lost); commands succeed once it is
    exhausted. [redis_log] is a history variable: every value written,
    in order. *)
Record world := World {
  redis_kv : gmap string entry;
  redis_faults : list bool;
  redis_log : list (string * rval);
  celery_queue : list job;
  output_files : gset string }.

Definition with_faults (fs : list bool) (w : world) : world :=
  World (redis_kv w) fs (redis_log w) (celery_queue w) (output_files w).

Definition write (key : string) (e : entry) (w : world) : world :=
  World (<[key := e]> (redis_kv w)) (redis_faults w) (redis_log w ++ [(key, value e)])
        (celery_queue w) (output_files w).

Definition enqueue (j : job) (w : world) : world :=
  World (redis_kv w) (redis_faults w) (redis_log w) (celery_queue w ++ [j]) (output_files w).

Definition save_file (path : string) (w : world) : world :=
  World (redis_kv w) (redis_faults w) (redis_log w) (celery_queue w) ({[path]} ∪ output_files w).

(** *** Exceptions over the state *)

Inductive outcome (A : Type) : Type :=
| Ret (a : A)
| Raise (e : string).
Arguments Ret {A} a.
Arguments Raise {A} e.

Definition M (A : Type) : Type := world -> outcome A * world.

Definition ret {A} (a : A) : M A := fun w => (Ret a, w).
Definition raise {A} (e : string) : M A := fun w => (Raise e, w).

Definition bind {A B} (m : M A) (k : A -> M B) : M B :=
  fun w => match m w with
           | (Ret a, w') => k a w'
           | (Raise e, w') => (Raise e, w')
           end.

(** [try: m  except Exception as e: h e] *)
Definition try_except {A} (m : M A) (h : string -> M A) : M A :=
  fun w => match m w with
           | (Ret a, w') => (Ret a, w')
           | (Raise e, w') => h e w'
           end.

Notation "x <- m ;; k" := (bind m (fun x => k))
  (at level 100, m at next level, right associativity).
Notation "m ;;; k" := (bind m (fun _ => k))
  (at level 100, right associativity).

(** *** Redis commands *)

Definition live (now : Z) (e : entry) : bool :=
  match expiry e with
  | Some t => now <? t
  | None => true
  end.

Definition live_entry (now : Z) (key : string) (w : world) : option entry :=
  match redis_kv w !! key with
  | Some e => if live now e then Some e else None
  | None => None
  end.

Definition command {A} (run : M A) : M A :=
  fun w => match redis_faults w with
           | true :: fs => (Raise "ConnectionError", with_faults fs w)
           | false :: fs => run (with_faults fs w)
           | [] => run w
           end.

Definition redis_get (now : Z) (key : string) : M (option rval) :=
  command (fun w => (Ret (value <$> live_entry now key w), w)).

Definition redis_setex (now : Z) (key : string) (ttl : Z) (v : rval) : M unit :=
  command (fun w => (Ret tt, write key (Entry v (Some (now + ttl))) w)).

(** The coming command of the store raises. *)
Definition store_is_down (w : world) : bool :=
  match redis_faults w with
  | true :: _ => true
  | _ => false
  end.

(** INCR keeps the expiry of a counter it finds and creates a missing one
    at 1 with no expiry. *)
Definition redis_incr (now : Z) (key : string) : M Z :=
  command (fun w =>
    match live_entry now key w with
    | None => (Ret 1, write key (Entry (VInt 1) None) w)
    | Some (Entry (VInt n) t) => (Ret (n + 1), write key (Entry (VInt (n + 1)) t) w)
    | Some _ => (Raise "ResponseError", w)
    end).

(* ===================================================================== *)
(** ** utils.CacheManager *)
(* ===================================================================== *)

Definition cache_ttl : Z := 3600 * 24.
Definition task_ttl : Z := 3600 * 2.

Definition task_key (task_id : string) : string := "task:" +:+ task_id.

Definition get_cached_result_try (now : Z) (cache_key : string) : M (option result_data) :=
  cached_data <- redis_get now cache_key ;;
  match cached_data with
  | None => ret None
  | Some (VResult r) => ret (Some r)
  | Some _ => raise "JSONDecodeError"
  end.

Definition get_cached_result (now : Z) (cache_key : string) : M (option result_data) :=
  try_except (get_cached_result_try now cache_key) (fun _ => ret None).

Definition cache_result (now : Z) (cache_key : string) (r : result_data) : M unit :=
  try_except (redis_setex now cache_key cache_ttl (VResult r)) (fun _ => ret tt).

(** The keyword arguments of [update_task_status]. *)
Record kwargs := Kwargs {
  kw_user_id : option string;
  kw_output_path : option string;
  kw_generation_time : option Z;
  kw_error : option string }.

Definition update_task_status (now : Z) (task_id status : string) (kw : kwargs) : M unit :=
  try_except
    (let task := TaskData task_id status now (kw_user_id kw) (kw_output_path kw)
                          (kw_generation_time kw) (kw_error kw) in
     redis_setex now (task_key task_id) task_ttl (VTask task))
    (fun _ => ret tt).

Definition get_task_info_try (now : Z) (task_id : string) : M (option task_data) :=
  task <- redis_get now (task_key task_id) ;;
  match task with
  | None => ret None
  | Some (VTask t) => ret (Some t)
  | Some _ => raise "JSONDecodeError"
  end.

Definition get_task_info (now : Z) (task_id : string) : M (option task_data) :=
  try_except (get_task_info_try now task_id) (fun _ => ret None).

(* ===================================================================== *)
(** ** utils.SecurityManager *)
(* ===================================================================== *)

Record user_info := UserInfo {
  ui_user_id : string;
  ui_tier : string;
  ui_rate_limit : Z }.

Definition rate_limit_window : Z := 60.

Definition valid_api_keys : list (string * user_info) :=
  [ ("flux-api-key-demo", UserInfo "demo_user" "basic" 10);
    ("flux-api-key-premium", UserInfo "premium_user" "premium" 100) ].

(** [next((info for info in valid_api_keys.values() if info['user_id'] ==
    user_id), {}).get('rate_limit', 10)] *)
Definition rate_limit_of (user_id : string) : Z :=
  match find (fun info => String.eqb (ui_user_id info) user_id) (map snd valid_api_keys) with
  | Some info => ui_rate_limit info
  | None => 10
  end.

Definition rate_key (user_id endpoint_type : string) : string :=
  "rate_limit:" +:+ user_id +:+ ":" +:+ endpoint_type.

(** The two commands of a call reach the store one after the other:
    the GET at [now], the SETEX or INCR that follows it at [later]. *)
Definition check_rate_limit_try (now later : Z) (user_id endpoint_type : string) : M bool :=
  let key := rate_key user_id endpoint_type in
  current_count <- redis_get now key ;;
  match current_count with
  | None =>
      redis_setex later key rate_limit_window (VInt 1) ;;;
      ret true
  | Some (VInt current_count) =>
      let rate_limit := rate_limit_of user_id in
      if rate_limit <=? current_count then ret false
      else redis_incr later key ;;; ret true
  | Some _ => raise "ValueError"
  end.

Definition check_rate_limit (now later : Z) (user_id endpoint_type : string) : M bool :=
  try_except (check_rate_limit_try now later user_id endpoint_type) (fun _ => ret true).

(* ===================================================================== *)
(** ** app: configuration, requests and responses *)
(* ===================================================================== *)

(** The defaults of [CONFIG]. *)
Definition MAX_IMAGE_SIZE : Z := 1024.
Definition MAX_VIDEO_DURATION : Z := 30.
Definition OUTPUT_DIR : string := "/app/outputs".

(** [s.endswith('/')] *)
Fixpoint endswith_sep (s : string) : bool :=
  match s with
  | EmptyString => false
  | String c EmptyString => Ascii.eqb c "/"%char
  | String _ r => endswith_sep r
  end.

(** [os.path.join(a, b)] on POSIX paths: a [b] that begins with [/]
    replaces [a]. *)
Definition os_path_join (a b : string) : string :=
  if String.prefix "/" b then b
  else match a with
       | EmptyString => b
       | _ => if endswith_sep a then a +:+ b else a +:+ "/" +:+ b
       end.

(** The JSON body of [POST /generate-image]; a missing key is [None]. *)
Record image_request := ImageRequest {
  ir_prompt : option string;
  ir_lora : option string;
  ir_width : option Z;
  ir_height : option Z;
  ir_num_inference_steps : option Z;
  ir_guidance_scale : option pyfloat;
  ir_seed : option Z }.

(** The JSON body of [POST /generate-video]; [vr_duration] is
    [float(data['duration'])]. *)
Record video_request := VideoRequest {
  vr_prompt : option string;
  vr_duration : option PyFloat64.float;
  vr_lora : option string;
  vr_width : option Z;
  vr_height : option Z;
  vr_fps : option Z;
  vr_seed : option Z }.

(** The answer of a cache hit. *)
Record cached_response := CachedResponse {
  cr_task_id : string;
  cr_status : string;
  cr_image_url : string;
  cr_cached : bool;
  cr_generation_time : Z }.

(** The answer of an accepted submission. *)
Record accepted_response := AcceptedResponse {
  ar_task_id : string;
  ar_status : string;
  ar_estimated_time : Z;
  ar_celery_task_id : string }.

Inductive body :=
| JError (error : string)
| JCached (r : cached_response)
| JAccepted (r : accepted_response)
| JTask (t : task_data)
| SendFile (path download_name : string).

Record response := Response { status_code : Z; payload : body }.

(** What a request reads from outside the program: the time at which
    the GET of the rate limiter reaches the store, the seconds that pass
    until the command that follows it and from there until the lookup in
    the cache, the two fresh identifiers ([uuid.uuid4()] and the id
    Celery gives the job) and [LoRAManager.process_lora], which fetches
    and checks the adapter file and answers [None] on any failure. *)
Record request_env := RequestEnv {
  clock : Z;
  write_lag : nat;
  cache_lag : nat;
  uuid4 : string;
  celery_uuid : string;
  process_lora : string -> string -> option string }.

(** When the SETEX or INCR of the rate limiter reaches the store. *)
Definition write_clock (env : request_env) : Z := clock env + Z.of_nat (write_lag env).

(** When the GET of the cache lookup reaches the store. *)
Definition cache_clock (env : request_env) : Z := write_clock env + Z.of_nat (cache_lag env).

(** Messages, with their accented letters by code point. *)
Definition ch (n : Z) : string := String (Bytes.chr n) "".

Definition msg_rate_limit : string := "Rate limit excedido".
Definition msg_prompt_required : string :=
  "Prompt " +:+ ch 233 +:+ " obrigat" +:+ ch 243 +:+ "rio".
Definition msg_prompt_too_long : string :=
  "Prompt muito longo (m" +:+ ch 225 +:+ "ximo 1000 caracteres)".
Definition msg_steps_range : string := "num_inference_steps deve estar entre 1 e 100".
Definition msg_internal : string := "Erro interno do servidor".
Definition msg_prompt_duration_required : string :=
  "Prompt e duration s" +:+ ch 227 +:+ "o obrigat" +:+ ch 243 +:+ "rios".
Definition msg_duration_range : string :=
  "Duration deve estar entre 0 e " +:+ str_int MAX_VIDEO_DURATION +:+ " segundos".
Definition msg_fps_range : string := "FPS deve estar entre 1 e 60".
Definition msg_task_not_found : string :=
  "Tarefa n" +:+ ch 227 +:+ "o encontrada".
Definition msg_task_not_completed : string :=
  "Tarefa ainda n" +:+ ch 227 +:+ "o foi completada".
Definition msg_file_not_found : string :=
  "Arquivo de resultado n" +:+ ch 227 +:+ "o encontrado".

Definition error_response (code : Z) (msg : string) : response :=
  Response code (JError msg).

Definition ok_response (b : body) : response := Response 200 b.

(** The outer [try ... except Exception] of every endpoint. *)
Definition endpoint (m : M response) : world -> response * world :=
  fun w => match m w with
           | (Ret r, w') => (r, w')
           | (Raise _, w') => (error_response 500 msg_internal, w')
           end.

(** [task.delay(...)]: the message is published to the broker, which is
    the same Redis ([broker=redis_url]), so the call is a command of the
    store: the job joins the queue and the call returns its Celery id, or
    the call raises and nothing is queued. *)
Definition delay (celery_id : string) (j : job) : M string :=
  command (fun w => (Ret celery_id, enqueue j w)).

(** A Python call that raises where the model has [None]. *)
Definition py {A} (e : string) (o : option A) : M A :=
  match o with
  | Some a => ret a
  | None => raise e
  end.

Definition get_default {A} (o : option A) (d : A) : A :=
  match o with Some a => a | None => d end.

Definition falsy (s : option string) : bool :=
  match s with
  | Some (String _ _) => false
  | _ => true
  end.

Definition default_guidance : pyfloat :=
  PyFloat (Decimal.Pos (Decimal.D7 Decimal.Nil)) (Decimal.D5 Decimal.Nil).

(* ===================================================================== *)
(** ** app.generate_image, app.generate_video *)
(* ===================================================================== *)

Definition generate_image_try (env : request_env) (user_id : string)
    (data : option image_request) : M response :=
  admitted <- check_rate_limit (clock env) (write_clock env) user_id "image" ;;
  if negb admitted then ret (error_response 429 msg_rate_limit) else
  match data with
  | None => ret (error_response 400 msg_prompt_required)
  | Some data =>
  match ir_prompt data with
  | None => ret (error_response 400 msg_prompt_required)
  | Some prompt =>
      let width := Z.min (get_default (ir_width data) 512) MAX_IMAGE_SIZE in
      let height := Z.min (get_default (ir_height data) 512) MAX_IMAGE_SIZE in
      let num_inference_steps := get_default (ir_num_inference_steps data) 50 in
      let guidance_scale := get_default (ir_guidance_scale data) default_guidance in
      let seed := ir_seed data in
      let lora_data := ir_lora data in
      if 1000 <? Z.of_nat (String.length prompt)
      then ret (error_response 400 msg_prompt_too_long) else
      if (num_inference_steps <? 1) || (100 <? num_inference_steps)
      then ret (error_response 400 msg_steps_range) else
      let task_id := uuid4 env in
      let cache_key := generate_cache_key prompt width height num_inference_steps
                         guidance_scale seed lora_data in
      cached_result <- get_cached_result (cache_clock env) cache_key ;;
      match cached_result with
      | Some cached =>
          ret (ok_response (JCached
                 (CachedResponse task_id "completed" (rd_image_url cached) true 0)))
      | None =>
          let lora_path :=
            match lora_data with
            | Some l => if falsy lora_data then None else process_lora env l task_id
            | None => None
            end in
          celery_id <- delay (celery_uuid env)
            (ImageJob (ImageJobArgs task_id prompt width height num_inference_steps
                         guidance_scale seed lora_path cache_key user_id)) ;;
          estimated <- py "OverflowError"
                          (estimate_generation_time width height num_inference_steps) ;;
          ret (ok_response (JAccepted
                 (AcceptedResponse task_id "processing" estimated celery_id)))
      end
  end
  end.

Definition generate_image (env : request_env) (user_id : string)
    (data : option image_request) : world -> response * world :=
  endpoint (generate_image_try env user_id data).

(** [min(float(data['duration']), CONFIG['MAX_VIDEO_DURATION'])]: the
    bound when it is strictly smaller, else the first argument. *)
Definition clamp_duration (d : PyFloat64.float) : PyFloat64.float :=
  let bound := PyFloat64.of_int MAX_VIDEO_DURATION in
  if PrimFloat.ltb bound d then bound else d.

Definition generate_video_try (env : request_env) (user_id : string)
    (data : option video_request) : M response :=
  admitted <- check_rate_limit (clock env) (write_clock env) user_id "video" ;;
  if negb admitted then ret (error_response 429 msg_rate_limit) else
  match data with
  | None => ret (error_response 400 msg_prompt_duration_required)
  | Some data =>
  match vr_prompt data, vr_duration data with
  | Some prompt, Some raw_duration =>
      let duration := clamp_duration raw_duration in
      let width := Z.min (get_default (vr_width data) 512) MAX_IMAGE_SIZE in
      let height := Z.min (get_default (vr_height data) 512) MAX_IMAGE_SIZE in
      let fps := get_default (vr_fps data) 24 in
      let seed := vr_seed data in
      let lora_data := vr_lora data in
      if PrimFloat.leb duration PrimFloat.zero
         || PrimFloat.ltb (PyFloat64.of_int MAX_VIDEO_DURATION) duration
      then ret (error_response 400 msg_duration_range) else
      if (fps <? 1) || (60 <? fps)
      then ret (error_response 400 msg_fps_range) else
      let task_id := uuid4 env in
      let lora_path :=
        match lora_data with
        | Some l => if falsy lora_data then None else process_lora env l task_id
        | None => None
        end in
      celery_id <- delay (celery_uuid env)
        (VideoJob (VideoJobArgs task_id prompt duration width height fps seed
                     lora_path user_id)) ;;
      estimated <- py "OverflowError"
                      (estimate_video_generation_time duration width height fps) ;;
      ret (ok_response (JAccepted
             (AcceptedResponse task_id "processing" estimated celery_id)))
  | _, _ => ret (error_response 400 msg_prompt_duration_required)
  end
  end.

Definition generate_video (env : request_env) (user_id : string)
    (data : option video_request) : world -> response * world :=
  endpoint (generate_video_try env user_id data).

(* ===================================================================== *)
(** ** app.get_task_status, app.get_task_result *)
(* ===================================================================== *)

(** [task_info.get('user_id') != user_id] *)
Definition not_owner (t : task_data) (user_id : string) : bool :=
  match td_user_id t with
  | Some owner => negb (String.eqb owner user_id)
  | None => true
  end.

Definition get_task_status_try (now : Z) (user_id task_id : string) : M response :=
  task_info <- get_task_info now task_id ;;
  match task_info with
  | None => ret (error_response 404 msg_task_not_found)
  | Some t =>
      if not_owner t user_id then ret (error_response 404 msg_task_not_found)
      else ret (ok_response (JTask t))
  end.

Definition get_task_status (now : Z) (user_id task_id : string) : world -> response * world :=
  endpoint (get_task_status_try now user_id task_id).

(** [file_path.split('.')[-1]] *)
Fixpoint after_last_dot (s acc : string) : string :=
  match s with
  | EmptyString => acc
  | String c r =>
      if Ascii.eqb c "."%char then after_last_dot r ""
      else after_last_dot r (acc +:+ String c "")
  end.

Definition path_exists (path : string) (w : world) : bool :=
  bool_decide (path ∈ output_files w).

Definition get_task_result_try (now : Z) (user_id task_id : string) : M response :=
  task_info <- get_task_info now task_id ;;
  match task_info with
  | None => ret (error_response 404 msg_task_not_found)
  | Some t =>
      if not_owner t user_id then ret (error_response 404 msg_task_not_found)
      else if negb (String.eqb (td_status t) "completed")
      then ret (error_response 400 msg_task_not_completed)
      else fun w =>
        match td_output_path t with
        | Some file_path =>
            if falsy (Some file_path) || negb (path_exists file_path w)
            then ret (error_response 404 msg_file_not_found) w
            else ret (ok_response
                        (SendFile file_path
                           (task_id +:+ "." +:+ after_last_dot file_path ""))) w
        | None => ret (error_response 404 msg_file_not_found) w
        end
  end.

Definition get_task_result (now : Z) (user_id task_id : string) : world -> response * world :=
  endpoint (get_task_result_try now user_id task_id).

(* ===================================================================== *)
(** ** app.generate_image_task, app.generate_video_task (Celery workers) *)
(* ===================================================================== *)

(** What a worker run reads from outside the program: the clock when it
    starts and when generation ends, whether the model is already loaded,
    and the outcome of each call into the model, the adapter loader, the
    generator and the file system ([Some e]: the call raises [e]). *)
Record worker_env := WorkerEnv {
  started_at : Z;
  finished_at : Z;
  is_loaded : bool;
  load_base_model : option string;
  load_lora : option string;
  generate : option string;
  save : option string }.

Definition external (raises : option string) : M unit :=
  match raises with
  | Some e => raise e
  | None => ret tt
  end.

Definition store_file (path : string) : M unit := fun w => (Ret tt, save_file path w).

Definition result_url (task_id : string) : string := "/task/" +:+ task_id +:+ "/result".

Definition generate_image_task (env : worker_env) (j : image_job) : M result_data :=
  let task_id := ij_task_id j in
  let user_id := Some (ij_user_id j) in
  try_except
    (update_task_status (started_at env) task_id "processing"
       (Kwargs user_id None None None) ;;;
     let start_time := started_at env in
     (if is_loaded env then ret tt else external (load_base_model env)) ;;;
     (if falsy (ij_lora_path j) then ret tt else external (load_lora env)) ;;;
     external (generate env) ;;;
     let output_path := os_path_join OUTPUT_DIR (task_id +:+ ".png") in
     external (save env) ;;;
     store_file output_path ;;;
     let generation_time := finished_at env - start_time in
     let result := ResultData (result_url task_id) generation_time in
     cache_result (finished_at env) (ij_cache_key j) result ;;;
     update_task_status (finished_at env) task_id "completed"
       (Kwargs user_id (Some output_path) (Some generation_time) None) ;;;
     ret result)
    (fun e =>
       update_task_status (finished_at env) task_id "failed"
         (Kwargs user_id None None (Some e)) ;;;
       raise e).

Definition generate_video_task (env : worker_env) (j : video_job) : M result_data :=
  let task_id := vj_task_id j in
  let user_id := Some (vj_user_id j) in
  try_except
    (update_task_status (started_at env) task_id "processing"
       (Kwargs user_id None None None) ;;;
     let start_time := started_at env in
     (if is_loaded env then ret tt
      else try_except (external (load_base_model env)) (fun _ => ret tt)) ;;;
     (if falsy (vj_lora_path j) then ret tt else external (load_lora env)) ;;;
     let output_path := os_path_join OUTPUT_DIR (task_id +:+ ".mp4") in
     external (generate env) ;;;
     external (save env) ;;;
     store_file output_path ;;;
     let generation_time := finished_at env - start_time in
     update_task_status (finished_at env) task_id "completed"
       (Kwargs user_id (Some output_path) (Some generation_time) None) ;;;
     ret (ResultData (result_url task_id) generation_time))
    (fun e =>
       update_task_status (finished_at env) task_id "failed"
         (Kwargs user_id None None (Some e)) ;;;
       raise e).

Definition run_job (env : worker_env) (j : job) : M result_data :=
  match j with
  | ImageJob a => generate_image_task env a
  | VideoJob a => generate_video_task env a
  end.

(** A worker takes the oldest job of the queue and runs it. *)
Definition worker_step (env : worker_env) (w : world) : world :=
  match celery_queue w with
  | [] => w
  | j :: q =>
      snd (run_job env j
             (World (redis_kv w) (redis_faults w) (redis_log w) q (output_files w)))
  end.

(** *** Observations *)

(** The record the registry holds for a task at a given time. *)
Definition task_record (now : Z) (task_id : string) (w : world) : option task_data :=
  match live_entry now (task_key task_id) w with
  | Some (Entry (VTask t) _) => Some t
  | _ => None
  end.

(** The states ever recorded for a task, oldest first. *)
Definition recorded_states (task_id : string) (log : list (string * rval)) : list string :=
  omap (fun kv => match kv with
                  | (k, VTask t) => if String.eqb k (task_key task_id)
                                    then Some (td_status t) else None
                  | _ => None
                  end) log.

(** The live rate-limit counter of a window. *)
Definition counter (now : Z) (user_id endpoint_type : string) (w : world) : option Z :=
  match live_entry now (rate_key user_id endpoint_type) w with
  | Some (Entry (VInt n) _) => Some n
  | _ => None
  end.

(** *** Concrete inputs for the examples *)

Definition empty_world : world := World ∅ [] [] [] ∅.

(** A request at time [t], its commands in the same second, that draws
    the task id [id]; no adapter file is ever accepted. *)
Definition demo_env (t : Z) (id : string) : request_env :=
  RequestEnv t 0 0 id ("celery-" +:+ id) (fun _ _ => None).

(** prompt="a red cube", seed=42, every other key left to its default. *)
Definition red_cube : image_request :=
  ImageRequest (Some "a red cube") None None None None None (Some 42).

(** A worker run in which every outside call succeeds. *)
Definition happy (t0 t1 : Z) : worker_env := WorkerEnv t0 t1 true None None None None.

(* ===================================================================== *)
(** ** utils.SecurityManager: API keys; app.create_token *)
(* ===================================================================== *)

(** The value of ['api_key'] in the body of [POST /auth/token]: missing
    or [null], a string, another hashable value (a number, a boolean), or
    an unhashable one (a list, an object). *)
Inductive api_key_value :=
| KeyNone
| KeyString (s : string)
| KeyHashable
| KeyUnhashable.

(** [d.get(api_key)] on [valid_api_keys]; hashing a list or a dict
    raises. *)
Definition api_key_lookup (api_key : api_key_value) : outcome (option user_info) :=
  match api_key with
  | KeyString s => Ret (snd <$> find (fun kv => String.eqb (fst kv) s) valid_api_keys)
  | KeyNone | KeyHashable => Ret None
  | KeyUnhashable => Raise "TypeError"
  end.

(** [api_key in self.valid_api_keys] *)
Definition validate_api_key (api_key : api_key_value) : outcome bool :=
  match api_key_lookup api_key with
  | Ret o => Ret (bool_decide (is_Some o))
  | Raise e => Raise e
  end.

(** [self.valid_api_keys.get(api_key, {})]; [None] is the empty dict. *)
Definition get_user_info (api_key : api_key_value) : outcome (option user_info) :=
  api_key_lookup api_key.

Inductive token_body :=
| TokenError (error : string)
| TokenIssued (access_token : string) (info : user_info).

Record token_response := TokenResponse { tr_status_code : Z; tr_payload : token_body }.

Definition msg_invalid_api_key : string := "API key inv" +:+ ch 225 +:+ "lida".

(** [flask_jwt_extended.create_access_token(identity, additional_claims =
    {'tier', 'rate_limit'})], from outside the program: the token, or
    [None] when the call raises. *)
Definition token_signer : Type := string -> string -> Z -> option string.

(** [data] is [request.get_json()] when it is a JSON object, given by its
    ['api_key']; [None] stands for every other body, on which
    [request.get_json()] or [data.get] raises. Both entries of
    [valid_api_keys] have a tier and a rate limit, so the two defaults of
    the claims are never used. *)
Definition create_token (create_access_token : token_signer)
    (data : option api_key_value) : token_response :=
  let internal := TokenResponse 500 (TokenError msg_internal) in
  match data with
  | None => internal
  | Some api_key =>
      match validate_api_key api_key with
      | Raise _ => internal
      | Ret false => TokenResponse 401 (TokenError msg_invalid_api_key)
      | Ret true =>
          match get_user_info api_key with
          | Ret (Some user_info) =>
              match create_access_token (ui_user_id user_info) (ui_tier user_info)
                      (ui_rate_limit user_info) with
              | Some access_token => TokenResponse 200 (TokenIssued access_token user_info)
              | None => internal
              end
          | _ => internal
          end
      end
  end.

(* ===================================================================== *)
(** ** utils.FluxModelManager; app.initialize_models *)
(* ===================================================================== *)

Module FluxModelManager.

(** What the program does to the diffusers pipeline it holds. *)
Record pipeline_state := Pipeline {
  on_device : bool;
  attention_slicing : bool;
  memory_efficient_attention : bool;
  compiled : bool }.

(** The attributes of the manager that change, and its three switches. *)
Record manager := Manager {
  pipeline : option pipeline_state;
  model_loaded : bool;
  enable_attention_slicing : bool;
  enable_memory_efficient_attention : bool;
  enable_cpu_offload : bool }.

(** [__init__]: attention slicing and memory-efficient attention are on,
    CPU offload follows the environment variable. *)
Definition init (cpu_offload : bool) : manager := Manager None false true true cpu_offload.

(** torch and diffusers, from outside the program: whether CUDA is
    there, whether the pipeline and torch have the optional entry points,
    and for each call whether it raises ([Some e]). *)
Record torch_env := TorchEnv {
  cuda_available : bool;
  from_pretrained : option string;
  to_device : option string;
  slicing : option string;
  has_memory_efficient_attention : bool;
  efficient_attention : option string;
  has_compile : bool;
  compile : option string;
  memory_stats : option string;
  empty_cache : option string;
  run_pipeline : option string }.

Definition with_pipeline (p : option pipeline_state) (m : manager) : manager :=
  Manager p (model_loaded m) (enable_attention_slicing m)
          (enable_memory_efficient_attention m) (enable_cpu_offload m).

Definition with_loaded (b : bool) (m : manager) : manager :=
  Manager (pipeline m) b (enable_attention_slicing m)
          (enable_memory_efficient_attention m) (enable_cpu_offload m).

(** [_apply_optimizations]: the first call that raises ends the method
    with a warning; a failing [torch.compile] is skipped on its own. *)
Definition apply_optimizations (env : torch_env) (m : manager) : manager :=
  match pipeline m with
  | None => m
  | Some p =>
      let sliced :=
        if enable_attention_slicing m
        then match slicing env with
             | Some e => inr p
             | None => inl (Pipeline (on_device p) true (memory_efficient_attention p)
                                     (compiled p))
             end
        else inl p in
      match sliced with
      | inr p' => with_pipeline (Some p') m
      | inl p1 =>
          let attended :=
            if enable_memory_efficient_attention m && has_memory_efficient_attention env
            then match efficient_attention env with
                 | Some e => inr p1
                 | None => inl (Pipeline (on_device p1) (attention_slicing p1) true
                                         (compiled p1))
                 end
            else inl p1 in
          match attended with
          | inr p' => with_pipeline (Some p') m
          | inl p2 =>
              if has_compile env && cuda_available env
              then match compile env with
                   | Some e => with_pipeline (Some p2) m
                   | None => with_pipeline
                               (Some (Pipeline (on_device p2) (attention_slicing p2)
                                        (memory_efficient_attention p2) true)) m
                   end
              else with_pipeline (Some p2) m
          end
      end
  end.

(** [load_base_model]: every exception is logged and raised again; what
    was assigned before it stays. *)
Definition load_base_model (env : torch_env) (m : manager) : outcome unit * manager :=
  match from_pretrained env with
  | Some e => (Raise e, m)
  | None =>
      let m1 := with_pipeline (Some (Pipeline false false false false)) m in
      let moved :=
        if negb (enable_cpu_offload m1)
        then match to_device env with
             | Some e => inr e
             | None => inl (with_pipeline (Some (Pipeline true false false false)) m1)
             end
        else inl m1 in
      match moved with
      | inr e => (Raise e, m1)
      | inl m2 =>
          let m3 := with_loaded true (apply_optimizations env m2) in
          if cuda_available env
          then match memory_stats env with
               | Some e => (Raise e, m3)
               | None => (Ret tt, m3)
               end
          else (Ret tt, m3)
      end
  end.

(** [is_loaded] *)
Definition is_loaded (m : manager) : bool :=
  model_loaded m && bool_decide (is_Some (pipeline m)).

(** [unload_model] *)
Definition unload_model (env : torch_env) (m : manager) : outcome unit * manager :=
  match pipeline m with
  | Some _ =>
      let m1 := with_loaded false (with_pipeline None m) in
      if cuda_available env
      then match empty_cache env with
           | Some e => (Raise e, m1)
           | None => (Ret tt, m1)
           end
      else (Ret tt, m1)
  | None => (Ret tt, m)
  end.

Definition msg_not_loaded : string := "Modelo n" +:+ ch 227 +:+ "o foi carregado".

(** [generate_image]: the guard, then the call of the pipeline, which
    raises on a manager that holds none. The image itself is outside the
    model. *)
Definition generate_image (env : torch_env) (m : manager) : outcome unit :=
  if negb (model_loaded m) then Raise msg_not_loaded
  else match pipeline m with
       | None => Raise "TypeError"
       | Some _ =>
           match run_pipeline env with
           | Some e => Raise e
           | None => Ret tt
           end
       end.

(** [app.initialize_models], run before every request: the path of the
    request decides; whatever [load_base_model] raises is logged and
    dropped. *)
Definition initialize_models (env : torch_env) (path : string) (m : manager) : manager :=
  if negb (is_loaded m)
  then if String.eqb path "/health" then m
       else snd (load_base_model env m)
  else m.

End FluxModelManager.

(* ===================================================================== *)
(** ** utils.VideoGenerator *)
(* ===================================================================== *)

Module VideoGenerator.

(** One call of [_generate_frame]. *)
Record frame_call := FrameCall {
  fc_prompt : string;
  fc_width : Z;
  fc_height : Z;
  fc_seed : option Z }.

(** One run of ffmpeg: the lines of the frame list it reads, the value of
    its [fps] filter and the output path. *)
Record ffmpeg_run := FfmpegRun {
  fr_lines : list string;
  fr_fps : string;
  fr_output : string }.

(** The temporary directory: the frame files in it, the lines of
    [frame_list.txt] when it exists, and two history variables: the calls
    of [_generate_frame] and the runs of ffmpeg, oldest first. *)
Record disk := Disk {
  frames : gset string;
  frame_list : option (list string);
  frame_calls : list frame_call;
  ffmpeg_runs : list ffmpeg_run }.

(** From outside the program: [str(time.time())] at the [i]-th frame,
    whether creating or saving the [i]-th image raises, whether opening
    the frame list for writing raises, whether writing it raises and
    after how many lines, what ffmpeg returns ([inl e]: the call itself
    raises; [inr (returncode, stderr)] otherwise), whether the [i]-th
    [os.remove] of a frame raises and whether the one of the list does. *)
Record video_env := VideoEnv {
  frame_time : nat -> string;
  frame_raises : nat -> option string;
  list_raises : option string;
  list_write_raises : option (string * nat);
  ffmpeg : ffmpeg_run -> string + (Z * string);
  frame_remove_raises : nat -> bool;
  list_remove_raises : bool }.

Definition temp_dir : string := "/tmp/flux_video".

(** [seed or 0] *)
Definition seed_or_0 (seed : option Z) : Z :=
  match seed with Some s => s | None => 0 end.

(** [self.temp_dir / f"frame_{time.time()}_{seed or 0}.png"] *)
Definition frame_path (time : string) (seed : option Z) : string :=
  temp_dir +:+ "/frame_" +:+ time +:+ "_" +:+ str_int (seed_or_0 seed) +:+ ".png".

(** [_generate_frame], called for the [i]-th frame. *)
Definition generate_frame (env : video_env) (i : nat) (call : frame_call) (d : disk)
    : outcome string * disk :=
  let d1 := Disk (frames d) (frame_list d) (frame_calls d ++ [call]) (ffmpeg_runs d) in
  let path := frame_path (frame_time env i) (fc_seed call) in
  match frame_raises env i with
  | Some e => (Raise e, d1)
  | None => (Ret path, Disk ({[path]} ∪ frames d1) (frame_list d1) (frame_calls d1)
                            (ffmpeg_runs d1))
  end.

(** [seed + i if seed else None]: a seed of 0 is falsy. *)
Definition frame_seed (seed : option Z) (i : nat) : option Z :=
  match seed with
  | Some s => if s =? 0 then None else Some (s + Z.of_nat i)
  | None => None
  end.

(** [f"{prompt}, frame {i+1} of {total_frames}"] *)
Definition frame_prompt (prompt : string) (i : nat) (total_frames : Z) : string :=
  prompt +:+ ", frame " +:+ str_int (Z.of_nat i + 1) +:+ " of " +:+ str_int total_frames.

(** The loop of [generate_video], from frame [i] on, [count] frames to
    go. *)
Fixpoint generate_frames (env : video_env) (prompt : string) (width height : Z)
    (seed : option Z) (total_frames : Z) (i count : nat) (d : disk)
    : outcome (list string) * disk :=
  match count with
  | O => (Ret [], d)
  | S count' =>
      let call := FrameCall (frame_prompt prompt i total_frames) width height
                            (frame_seed seed i) in
      match generate_frame env i call d with
      | (Raise e, d1) => (Raise e, d1)
      | (Ret frame, d1) =>
          match generate_frames env prompt width height seed total_frames (S i) count' d1 with
          | (Raise e, d2) => (Raise e, d2)
          | (Ret rest, d2) => (Ret (frame :: rest), d2)
          end
      end
  end.

Definition msg_ffmpeg (stderr : string) : string := "Erro no ffmpeg: " +:+ stderr.

(** [f"file '{frame_path}'\n"], without the line end. *)
Definition list_line (frame : string) : string :=
  "file '" +:+ frame +:+ "'".

(** The loop that removes the frames, from the [i]-th on: each
    [os.remove] takes the file away, or raises and is skipped. *)
Fixpoint remove_frames (env : video_env) (i : nat) (frame_paths : list string)
    (files : gset string) : gset string :=
  match frame_paths with
  | [] => files
  | frame :: rest =>
      remove_frames env (S i) rest
        (if frame_remove_raises env i then files else files ∖ {[frame]})
  end.

(** [_frames_to_video]: the list, ffmpeg, then the removal of the frames
    and of the list, where a file that cannot be removed is skipped. The
    list exists as soon as it is opened, so a write that raises leaves
    the lines written before it. *)
Definition frames_to_video (env : video_env) (frame_paths : list string) (fps : Z)
    (output_path : string) (d : disk) : outcome string * disk :=
  match list_raises env with
  | Some e => (Raise e, d)
  | None =>
      let lines := map list_line frame_paths in
      match list_write_raises env with
      | Some (e, written) =>
          (Raise e, Disk (frames d) (Some (firstn written lines)) (frame_calls d)
                         (ffmpeg_runs d))
      | None =>
          let run := FfmpegRun lines (str_int fps) output_path in
          let d1 := Disk (frames d) (Some lines) (frame_calls d) (ffmpeg_runs d ++ [run]) in
          match ffmpeg env run with
          | inl e => (Raise e, d1)
          | inr (returncode, stderr) =>
              if negb (returncode =? 0) then (Raise (msg_ffmpeg stderr), d1)
              else (Ret output_path,
                    Disk (remove_frames env 0 frame_paths (frames d1))
                         (if list_remove_raises env then Some lines else None)
                         (frame_calls d1) (ffmpeg_runs d1))
          end
      end
  end.

(** [generate_video]: [range(total_frames)] is empty for a count of zero
    or below. *)
Definition generate_video (env : video_env) (prompt : string) (duration : PyFloat64.float)
    (width height fps : Z) (seed : option Z) (output_path : string) (d : disk)
    : outcome string * disk :=
  match video_frames duration fps with
  | None =>
      (Raise (if PrimFloat.is_nan (PrimFloat.mul duration (PyFloat64.of_int fps))
              then "cannot convert float NaN to integer"
              else "cannot convert float infinity to integer"), d)
  | Some total_frames =>
      match generate_frames env prompt width height seed total_frames 0
              (Z.to_nat total_frames) d with
      | (Raise e, d1) => (Raise e, d1)
      | (Ret frame_paths, d1) => frames_to_video env frame_paths fps output_path d1
      end
  end.

End VideoGenerator.

(* ===================================================================== *)
(** ** utils.LoRAManager.process_lora *)
(* ===================================================================== *)

Module LoRAManager.

(** [lora_data]: a string, a dict given by its ['data'] ([None]: no such
    key; [Some None]: a value that is no string), or anything else. *)
Inductive lora_value :=
| LoraStr (s : string)
| LoraDict (data : option (option string))
| LoraOther.

(** From outside the program: [requests.get(url).content] after
    [raise_for_status], [base64.b64decode], whether opening the adapter
    file for writing raises, whether [f.write] raises and after how many
    bytes, the tensor names [safetensors.load_file] finds in a file, and
    whether [os.remove] raises. *)
Record lora_env := LoraEnv {
  download : string -> outcome (list Z);
  b64decode : string -> outcome (list Z);
  open_raises : option string;
  write_raises : option (string * nat);
  load_file : list Z -> outcome (list string);
  remove_raises : option string }.

(** [s.startswith(prefix)] *)
Definition startswith (s prefix : string) : bool := String.prefix prefix s.

(** [s.split(',', 1)[1]]; [None] is the [IndexError] of a string without
    a comma. *)
Fixpoint after_first_comma (s : string) : option string :=
  match s with
  | EmptyString => None
  | String c r => if Ascii.eqb c ","%char then Some r else after_first_comma r
  end.

(** [str.lower] on the code points below 256. *)
Definition lower_char (c : ascii) : ascii :=
  let n := Bytes.ord c in
  if ((65 <=? n) && (n <=? 90)) || ((192 <=? n) && (n <=? 222) && negb (n =? 215))
  then Bytes.chr (n + 32) else c.

Fixpoint lower (s : string) : string :=
  match s with
  | EmptyString => ""
  | String c r => String (lower_char c) (lower r)
  end.

(** [needle in s] *)
Fixpoint contains (needle s : string) : bool :=
  if String.prefix needle s then true
  else match s with
       | EmptyString => false
       | String _ r => contains needle r
       end.

(** [f"/tmp/lora_{task_id}.safetensors"] *)
Definition lora_path (task_id : string) : string :=
  "/tmp/lora_" +:+ task_id +:+ ".safetensors".

(** [with open(path, 'wb') as f: f.write(content)]: the file is there,
    empty, as soon as it is opened, so a write that raises leaves the
    bytes written before it. *)
Definition write_file (env : lora_env) (path : string) (content : list Z) (fs : gmap string (list Z))
    : outcome string * gmap string (list Z) :=
  match open_raises env with
  | Some e => (Raise e, fs)
  | None =>
      match write_raises env with
      | Some (e, written) => (Raise e, <[path := firstn written content]> fs)
      | None => (Ret path, <[path := content]> fs)
      end
  end.

(** [_download_lora] *)
Definition download_lora (env : lora_env) (url task_id : string) (fs : gmap string (list Z))
    : outcome string * gmap string (list Z) :=
  match download env url with
  | Raise e => (Raise e, fs)
  | Ret content => write_file env (lora_path task_id) content fs
  end.

(** [_decode_base64_lora] *)
Definition decode_base64_lora (env : lora_env) (data_url task_id : string) (fs : gmap string (list Z))
    : outcome string * gmap string (list Z) :=
  let base64_data :=
    if startswith data_url "data:" then after_first_comma data_url else Some data_url in
  match base64_data with
  | None => (Raise "IndexError", fs)
  | Some base64_data =>
      match b64decode env base64_data with
      | Raise e => (Raise e, fs)
      | Ret lora_bytes => write_file env (lora_path task_id) lora_bytes fs
      end
  end.

(** [_validate_lora_file]: some tensor name contains [lora], in any
    case of the letters; every exception is a [False]. *)
Definition validate_lora_file (env : lora_env) (path : string) (fs : gmap string (list Z)) : bool :=
  match fs !! path with
  | None => false
  | Some content =>
      match load_file env content with
      | Raise _ => false
      | Ret tensors =>
          match tensors with
          | [] => false
          | _ => existsb (fun k => contains "lora" (lower k)) tensors
          end
      end
  end.

Definition base64_header : string := "data:application/octet-stream;base64,".

(** [process_lora]: the path of the adapter file, or [None]. *)
Definition process_lora (env : lora_env) (lora_data : lora_value) (task_id : string)
    (fs : gmap string (list Z)) : option string * gmap string (list Z) :=
  let fetched : outcome (option string) * gmap string (list Z) :=
    match lora_data with
    | LoraStr s =>
        let r := if startswith s "http" then download_lora env s task_id fs
                 else if startswith s "data:" then decode_base64_lora env s task_id fs
                 else decode_base64_lora env (base64_header +:+ s) task_id fs in
        match r with
        | (Ret p, fs1) => (Ret (Some p), fs1)
        | (Raise e, fs1) => (Raise e, fs1)
        end
    | LoraDict (Some (Some s)) =>
        match decode_base64_lora env s task_id fs with
        | (Ret p, fs1) => (Ret (Some p), fs1)
        | (Raise e, fs1) => (Raise e, fs1)
        end
    | LoraDict (Some None) => (Raise "AttributeError", fs)
    | LoraDict None | LoraOther => (Ret None, fs)
    end in
  match fetched with
  | (Raise _, fs1) => (None, fs1)
  | (Ret None, fs1) => (None, fs1)
  | (Ret (Some p), fs1) =>
      if negb (falsy (Some p)) && bool_decide (is_Some (fs1 !! p))
      then if validate_lora_file env p fs1 then (Some p, fs1)
           else match remove_raises env with
                | Some _ => (None, fs1)
                | None => (None, delete p fs1)
                end
      else (None, fs1)
  end.

Definition msg_lora_not_found (lora_path : string) : string :=
  "Arquivo LoRA n" +:+ ch 227 +:+ "o encontrado: " +:+ lora_path.

(** [load_lora], on the attribute [current_lora]: the path must be there;
    the exception is logged and raised again. *)
Definition load_lora (fs : gmap string (list Z)) (lora_path : string)
    (current_lora : option string) : outcome unit * option string :=
  if negb (bool_decide (is_Some (fs !! lora_path)))
  then (Raise (msg_lora_not_found lora_path), current_lora)
  else (Ret tt, Some lora_path).

(** [unload_lora]: an empty path counts as none. *)
Definition unload_lora (current_lora : option string) : option string :=
  if falsy current_lora then current_lora else None.

End LoRAManager.

(* ===================================================================== *)
(** ** app.health_check *)
(* ===================================================================== *)

Module Health.

(** torch.cuda and the built-in [round], from outside the program;
    [hc_round2 x] is [round(x, 2)]. *)
Record health_env := HealthEnv {
  hc_time : Z;
  hc_is_available : bool;
  hc_device_count : outcome Z;
  hc_memory_allocated : Z -> outcome Z;
  hc_memory_reserved : Z -> outcome Z;
  hc_round2 : PyFloat64.float -> PyFloat64.float }.

Record gpu_entry := GpuEntry {
  ge_device : Z;
  ge_allocated_gb : PyFloat64.float;
  ge_reserved_gb : PyFloat64.float }.

Record health_config := HealthConfig {
  max_image_size : Z;
  max_video_duration : Z;
  model_offload_enabled : bool }.

Inductive health_body :=
| Healthy (timestamp : Z) (gpu_available : bool) (gpu_count : Z)
          (gpu_memory : list gpu_entry) (redis_status : string) (model_loaded : bool)
          (config : health_config)
| Unhealthy (error : string) (timestamp : Z).

Record health_response := HealthResponse { hr_status_code : Z; hr_payload : health_body }.

(** The default of [CONFIG['ENABLE_MODEL_OFFLOAD']]. *)
Definition ENABLE_MODEL_OFFLOAD : bool := true.

(** The loop over the devices, from device [i] on, [count] to go. *)
Fixpoint gpu_memory_from (env : health_env) (i : Z) (count : nat)
    : outcome (list gpu_entry) :=
  match count with
  | O => Ret []
  | S count' =>
      match hc_memory_allocated env i with
      | Raise e => Raise e
      | Ret allocated =>
          match hc_memory_reserved env i with
          | Raise e => Raise e
          | Ret reserved =>
              let entry :=
                GpuEntry i
                  (hc_round2 env (PyFloat64.int_truediv allocated (1024 ^ 3)))
                  (hc_round2 env (PyFloat64.int_truediv reserved (1024 ^ 3))) in
              match gpu_memory_from env (i + 1) count' with
              | Raise e => Raise e
              | Ret rest => Ret (entry :: rest)
              end
          end
      end
  end.

(** [redis_client.ping()] *)
Definition redis_ping : M unit := command (fun w => (Ret tt, w)).

(** The first half of [health_check]: the GPU figures. *)
Definition gpu_report (env : health_env) : outcome (Z * list gpu_entry) :=
  if hc_is_available env
  then match hc_device_count env with
       | Raise e => Raise e
       | Ret gpu_count =>
           match gpu_memory_from env 0 (Z.to_nat gpu_count) with
           | Raise e => Raise e
           | Ret gpu_memory => Ret (gpu_count, gpu_memory)
           end
       end
  else Ret (0, []).

(** [health_check]; [model_loaded] is [model_manager.is_loaded()]. *)
Definition health_check (env : health_env) (model_loaded : bool)
    : world -> health_response * world :=
  fun w =>
    match gpu_report env with
    | Raise e => (HealthResponse 500 (Unhealthy e (hc_time env)), w)
    | Ret (gpu_count, gpu_memory) =>
        let (redis_status, w') :=
          match redis_ping w with
          | (Ret _, w') => ("connected", w')
          | (Raise _, w') => ("disconnected", w')
          end in
        (HealthResponse 200
           (Healthy (hc_time env) (hc_is_available env) gpu_count gpu_memory redis_status
              model_loaded
              (HealthConfig MAX_IMAGE_SIZE MAX_VIDEO_DURATION ENABLE_MODEL_OFFLOAD)), w')
    end.

End Health.

(* ===================================================================== *)
(** ** utils.ModelOptimizer *)
(* ===================================================================== *)

Module ModelOptimizer.

Inductive setting :=
| SBool (b : bool)
| SInt (n : Z)
| SFloat (f : pyfloat)
| SStr (s : string).

(** A dict of settings, in insertion order. *)
Definition settings := list (string * setting).

Fixpoint get (k : string) (d : settings) : option setting :=
  match d with
  | [] => None
  | (k', v) :: r => if String.eqb k k' then Some v else get k r
  end.

(** [d[k] = v]: a key that is there keeps its place. *)
Fixpoint set_item (k : string) (v : setting) (d : settings) : settings :=
  match d with
  | [] => [(k, v)]
  | (k', v') :: r => if String.eqb k k' then (k', v) :: r else (k', v') :: set_item k v r
  end.

(** [d.update(new)] *)
Definition update (new d : settings) : settings :=
  fold_left (fun acc kv => set_item (fst kv) (snd kv) acc) new d.

(** [self.gpu_info]; the CPU entry has no name. *)
Record gpu_info := GpuInfo {
  gi_type : string;
  gi_name : option string;
  gi_memory_gb : PyFloat64.float }.

(** [_get_gpu_info]; [cuda] is the name and the total memory in bytes of
    device 0 when CUDA is available. *)
Definition get_gpu_info (cuda : option (string * Z)) : gpu_info :=
  match cuda with
  | None => GpuInfo "cpu" None (PyFloat64.of_int 0)
  | Some (gpu_name, total_memory) =>
      let memory_gb := PyFloat64.int_truediv total_memory (1024 ^ 3) in
      let gpu_type :=
        if LoRAManager.contains "A100" gpu_name then "a100"
        else if LoRAManager.contains "A10G" gpu_name then "a10g"
        else if LoRAManager.contains "V100" gpu_name then "v100"
        else if LoRAManager.contains "T4" gpu_name then "t4"
        else "unknown" in
      GpuInfo gpu_type (Some gpu_name) memory_gb
  end.

Definition fraction (tenths : Decimal.uint) : pyfloat :=
  PyFloat (Decimal.Pos (Decimal.D0 Decimal.Nil)) tenths.

(** [get_optimal_settings] *)
Definition get_optimal_settings (info : gpu_info) : settings :=
  let settings :=
    [ ("batch_size", SInt 1);
      ("enable_attention_slicing", SBool true);
      ("enable_cpu_offload", SBool false);
      ("precision", SStr "fp16");
      ("max_memory_fraction", SFloat (fraction (Decimal.D8 Decimal.Nil))) ] in
  let gpu_type := gi_type info in
  let memory_gb := gi_memory_gb info in
  if String.eqb gpu_type "a100" then
    update [ ("batch_size", SInt 2);
             ("enable_attention_slicing", SBool false);
             ("max_memory_fraction", SFloat (fraction (Decimal.D9 Decimal.Nil)));
             ("enable_flash_attention", SBool true) ] settings
  else if String.eqb gpu_type "a10g" then
    update [ ("batch_size", SInt 1);
             ("enable_attention_slicing", SBool true);
             ("enable_cpu_offload", SBool (PrimFloat.ltb memory_gb (PyFloat64.of_int 20)));
             ("max_memory_fraction", SFloat (fraction (Decimal.D7 Decimal.Nil))) ] settings
  else if String.eqb gpu_type "t4" then
    update [ ("batch_size", SInt 1);
             ("enable_attention_slicing", SBool true);
             ("enable_cpu_offload", SBool true);
             ("precision", SStr "fp16");
             ("max_memory_fraction", SFloat (fraction (Decimal.D6 Decimal.Nil))) ] settings
  else settings.

End ModelOptimizer.

(* ===================================================================== *)
(** * Properties *)
(* ===================================================================== *)

(** ** Duration estimates *)

(** The exact value of the linear formula [10 * (w*h / 512^2) * (s / 50)],
    rounded down. *)
Definition exact_estimate (width height num_steps : Z) : Z :=
  (10 * (width * height) * num_steps) / (512 * 512 * 50).

(** *** Rounding to binary64

    What [SpecFloat.binary_round_aux] does to a significand of more than
    53 bits, away from the subnormal numbers and from overflow: the facts
    about [float(n)], [a / b] and [x * y] that the estimates rest on. *)

Module Binary64.
Import SpecFloat.

Lemma digits2_size p : digits2_pos p = Pos.size p.
Proof. induction p; simpl; congruence. Qed.

Lemma digits_bounds (p : positive) :
  2 ^ (Z.pos (digits2_pos p) - 1) <= Z.pos p < 2 ^ Z.pos (digits2_pos p).
Proof.
  rewrite digits2_size. split.
  - pose proof (Pos.size_le p) as H.
    assert (H' : 2 ^ Z.pos (Pos.size p) <= 2 * Z.pos p).
    { change 2 with (Z.pos 2) at 1. rewrite <- Pos2Z.inj_pow. 
      change (2 * Z.pos p) with (Z.pos (p~0)). apply Pos2Z.pos_le_pos. exact H. }
    replace (Z.pos (Pos.size p)) with (Z.succ (Z.pos (Pos.size p) - 1)) in H' by lia.
    rewrite Z.pow_succ_r in H' by lia. lia.
  - pose proof (Pos.size_gt p) as H.
    change 2 with (Z.pos 2). rewrite <- Pos2Z.inj_pow. apply Pos2Z.pos_lt_pos. exact H.
Qed.

Lemma digits_unique (p : positive) (k : Z) :
  2 ^ (k - 1) <= Z.pos p < 2 ^ k -> Z.pos (digits2_pos p) = k.
Proof.
  intros [Hlo Hhi]. pose proof (digits_bounds p) as [Dlo Dhi].
  set (d := Z.pos (digits2_pos p)) in *.
  assert (Hk : 0 < k).
  { destruct (Z_lt_le_dec 0 k) as [|Hk]; [assumption|].
    assert (2 ^ k <= 1).
    { destruct (Z.eq_dec k 0) as [->|]; [simpl; lia|]. rewrite Z.pow_neg_r; lia. }
    lia. }
  destruct (Z_lt_le_dec d k) as [Hlt|Hge].
  - assert (2 ^ d <= 2 ^ (k - 1)) by (apply Z.pow_le_mono_r; lia). lia.
  - destruct (Z_lt_le_dec k d) as [Hlt|Hle]; [|lia].
    assert (2 ^ k <= 2 ^ (d - 1)) by (apply Z.pow_le_mono_r; lia). lia.
Qed.

Lemma shr_1_spec m r s :
  0 <= m ->
  shr_1 (Build_shr_record m r s) = Build_shr_record (m / 2) (Z.odd m) (r || s).
Proof.
  intros Hm. rewrite <- Z.div2_div.
  destruct m as [|[p|p|]|p]; try lia; reflexivity.
Qed.

Lemma iter_pos_nat {A} (f : A -> A) (n : positive) :
  forall x, iter_pos f n x = Nat.iter (Pos.to_nat n) f x.
Proof.
  induction n as [n IH|n IH|]; intros x; cbn [iter_pos].
  - rewrite !IH. rewrite Pos2Nat.inj_xI.
    replace (S (2 * Pos.to_nat n))%nat with (Pos.to_nat n + (Pos.to_nat n + 1))%nat by lia.
    rewrite Nat.iter_add. f_equal. rewrite Nat.iter_add. reflexivity.
  - rewrite !IH. rewrite Pos2Nat.inj_xO.
    replace (2 * Pos.to_nat n)%nat with (Pos.to_nat n + Pos.to_nat n)%nat by lia.
    rewrite Nat.iter_add. reflexivity.
  - reflexivity.
Qed.

(** The low [k+1] bits: the bit of weight [2^k] and the bits below. *)
Lemma low_bits (m : Z) (k : Z) :
  0 <= k ->
  m mod 2 ^ (k + 1) = m mod 2 ^ k + 2 ^ k * (if Z.odd (m / 2 ^ k) then 1 else 0).
Proof.
  intros Hk. rewrite Z.pow_add_r by lia. change (2 ^ 1) with 2.
  rewrite Z.rem_mul_r by lia. f_equal. f_equal.
  rewrite Zodd_mod. pose proof (Z.mod_pos_bound (m / 2 ^ k) 2 ltac:(lia)).
  destruct (Z.eqb_spec ((m / 2 ^ k) mod 2) 1); lia.
Qed.

Lemma shr_iter (k : nat) (m : Z) :
  0 <= m ->
  Nat.iter (S k) shr_1 (Build_shr_record m false false)
  = Build_shr_record (m / 2 ^ Z.of_nat (S k)) (Z.odd (m / 2 ^ Z.of_nat k))
                     (negb (m mod 2 ^ Z.of_nat k =? 0)).
Proof.
  intros Hm. induction k as [|k IH].
  - cbn [Nat.iter]. rewrite shr_1_spec by exact Hm. 
    change (2 ^ Z.of_nat 1) with 2. change (2 ^ Z.of_nat 0) with 1.
    rewrite Z.div_1_r, Z.mod_1_r. reflexivity.
  - change (Nat.iter (S (S k)) shr_1 ?x) with (shr_1 (Nat.iter (S k) shr_1 x)).
    rewrite IH. rewrite shr_1_spec by (apply Z.div_pos; lia).
    f_equal.
    + rewrite Z.div_div by lia. f_equal.
      rewrite (Nat2Z.inj_succ (S k)), Z.pow_succ_r by lia. lia.
    + pose proof (low_bits m (Z.of_nat k) ltac:(lia)) as Hl.
      replace (Z.of_nat (S k)) with (Z.of_nat k + 1) by lia. rewrite Hl.
      pose proof (Z.mod_pos_bound m (2 ^ Z.of_nat k) ltac:(lia)) as Hb.
      assert (0 < 2 ^ Z.of_nat k) by lia.
      destruct (Z.odd (m / 2 ^ Z.of_nat k));
        destruct (Z.eqb_spec (m mod 2 ^ Z.of_nat k) 0);
        match goal with |- context [?x =? 0] => destruct (Z.eqb_spec x 0) end;
        cbn [orb negb]; try reflexivity; lia.
Qed.

(** Rounding to nearest even after a shift by [k+1] bits. *)
Lemma round_shift (k : nat) (m : Z) :
  0 <= m ->
  let n := Z.of_nat (S k) in
  let mrs := Nat.iter (S k) shr_1 (Build_shr_record m false false) in
  let m1 := round_nearest_even (shr_m mrs) (loc_of_shr_record mrs) in
  m / 2 ^ n <= m1 <= m / 2 ^ n + 1 /\
  2 * Z.abs (m1 * 2 ^ n - m) <= 2 ^ n /\
  (m mod 2 ^ n = 0 -> m1 = m / 2 ^ n).
Proof.
  intros Hm n mrs m1. unfold m1, mrs. rewrite shr_iter by exact Hm.
  cbn [shr_m loc_of_shr_record]. fold n.
  pose proof (low_bits m (Z.of_nat k) ltac:(lia)) as Hl.
  replace (Z.of_nat k + 1) with n in Hl by (unfold n; lia).
  assert (Hp : 2 ^ n = 2 * 2 ^ Z.of_nat k).
  { unfold n. rewrite Nat2Z.inj_succ, Z.pow_succ_r by lia. reflexivity. }
  assert (Hpos : 0 < 2 ^ Z.of_nat k) by lia.
  pose proof (Z.mod_pos_bound m (2 ^ Z.of_nat k) ltac:(lia)) as Hb.
  pose proof (Z.div_mod m (2 ^ n) ltac:(lia)) as Hdm.
  set (q := m / 2 ^ n) in *. set (a := m mod 2 ^ Z.of_nat k) in *.
  set (P := 2 ^ Z.of_nat k) in *.
  destruct (Z.odd (m / P)); destruct (Z.eqb_spec a 0) as [Ha|Ha]; cbn [negb round_nearest_even].
  - (* tie *) destruct (Z.even q); repeat split; try lia.
  - repeat split; try lia.
  - repeat split; try lia.
  - repeat split; try lia.
Qed.


Lemma fexp_normal (x : Z) :
  -1074 <= x - 53 -> fexp FloatOps.prec FloatOps.emax x = x - 53.
Proof. intros H. unfold fexp, emin, FloatOps.prec, FloatOps.emax. lia. Qed.

Lemma shr_fexp_shift (m : positive) (e : Z) (k : nat) :
  fexp FloatOps.prec FloatOps.emax (Z.pos (digits2_pos m) + e) - e = Z.of_nat (S k) ->
  shr_fexp FloatOps.prec FloatOps.emax (Z.pos m) e loc_Exact
  = (Nat.iter (S k) shr_1 (Build_shr_record (Z.pos m) false false), e + Z.of_nat (S k)).
Proof.
  intros H. unfold shr_fexp. cbn [Zdigits2 shr_record_of_loc]. rewrite H.
  unfold shr. destruct (Z.of_nat (S k)) as [|p|p] eqn:Hp; try lia.
  rewrite iter_pos_nat. do 2 f_equal. lia.
Qed.

Lemma shr_fexp_keep (m : positive) (e : Z) :
  fexp FloatOps.prec FloatOps.emax (Z.pos (digits2_pos m) + e) - e = 0 ->
  shr_fexp FloatOps.prec FloatOps.emax (Z.pos m) e loc_Exact
  = (Build_shr_record (Z.pos m) false false, e).
Proof.
  intros H. unfold shr_fexp. cbn [Zdigits2 shr_record_of_loc]. rewrite H. reflexivity.
Qed.

(** The rounding of a significand of more than 53 bits, away from the
    subnormal numbers and from overflow. *)
Lemma binary_round_aux_normal (sx : bool) (m : positive) (e : Z) :
  let d := Z.pos (digits2_pos m) in
  54 <= d ->
  -1074 <= d + e - 53 ->
  d + e <= 1023 ->
  exists m2 e2,
    binary_round_aux FloatOps.prec FloatOps.emax sx (Z.pos m) e loc_Exact
      = S754_finite sx m2 e2 /\
    Z.pos (digits2_pos m2) = 53 /\
    bounded FloatOps.prec FloatOps.emax m2 e2 = true /\
    d + e - 53 <= e2 <= d + e - 52 /\
    2 ^ 53 * Z.abs (Z.pos m2 * 2 ^ (e2 - e) - Z.pos m) <= Z.pos m /\
    (Z.pos m mod 2 ^ (d - 53) = 0 -> Z.pos m2 * 2 ^ (e2 - e) = Z.pos m).
Proof.
  intros d Hd Hmin Hmax.
  pose proof (digits_bounds m) as [Dlo Dhi]. fold d in Dlo, Dhi.
  set (k := Z.to_nat (d - 54)).
  assert (Hn : Z.of_nat (S k) = d - 53) by (unfold k; lia).
  set (n := Z.of_nat (S k)) in *.
  assert (Hshift : fexp FloatOps.prec FloatOps.emax (d + e) - e = n).
  { rewrite fexp_normal by lia. lia. }
  unfold binary_round_aux. rewrite (shr_fexp_shift m e k Hshift). fold n.
  destruct (round_shift k (Z.pos m) ltac:(lia)) as (Hq & Herr & Hexact). fold n in Hq, Herr, Hexact.
  set (mrs := Nat.iter (S k) shr_1 (Build_shr_record (Z.pos m) false false)) in *.
  set (m1 := round_nearest_even (shr_m mrs) (loc_of_shr_record mrs)) in *.
  assert (Hpn : 0 < 2 ^ n) by (apply Z.pow_pos_nonneg; lia).
  assert (Hsplit : 2 ^ (d - 1) = 2 ^ 52 * 2 ^ n).
  { rewrite <- Z.pow_add_r by lia. f_equal. lia. }
  assert (Hsplit' : 2 ^ d = 2 ^ n * 2 ^ 53).
  { rewrite <- Z.pow_add_r by lia. f_equal. lia. }
  assert (Hq52 : 2 ^ 52 <= Z.pos m / 2 ^ n < 2 ^ 53).
  { split.
    - apply Z.div_le_lower_bound; lia.
    - apply Z.div_lt_upper_bound; lia. }
  assert (Hhalf : 2 ^ 53 * 2 ^ n <= 2 * Z.pos m) by lia.
  destruct (Z_lt_le_dec m1 (2 ^ 53)) as [Hlt | Hge].
  - (* the rounded significand has 53 bits *)
    destruct m1 as [|p1|p1] eqn:Hm1; try lia.
    assert (Hd1 : Z.pos (digits2_pos p1) = 53) by (apply digits_unique; lia).
    rewrite (shr_fexp_keep p1 (e + n)) by (rewrite Hd1, fexp_normal; lia).
    cbn [shr_m].
    replace (e + n <=? FloatOps.emax - FloatOps.prec) with true
      by (symmetry; apply Z.leb_le; unfold FloatOps.emax, FloatOps.prec; lia).
    exists p1, (e + n). split; [reflexivity|]. split; [exact Hd1|]. split.
    { unfold bounded, canonical_mantissa. rewrite Hd1, fexp_normal by lia.
      apply andb_true_iff. split; [apply Z.eqb_eq; lia|].
      apply Z.leb_le. unfold FloatOps.emax, FloatOps.prec. lia. }
    split; [lia|].
    replace (e + n - e) with n by lia. split; [nia|].
    intros H0. rewrite <- Hn in H0. rewrite (Hexact H0).
    pose proof (Z.div_mod (Z.pos m) (2 ^ n) ltac:(lia)). lia.
  - (* the rounding carried into a 54th bit *)
    assert (Hm1 : m1 = 2 ^ 53) by lia.
    rewrite Hm1. change (2 ^ 53) with (Z.pos (2 ^ 53)).
    rewrite (shr_fexp_shift (2 ^ 53) (e + n) 0).
    2:{ change (Z.pos (digits2_pos (2 ^ 53))) with 54. rewrite fexp_normal by lia. lia. }
    cbn [Nat.iter]. rewrite shr_1_spec by lia. cbn [shr_m].
    change (Z.pos (2 ^ 53) / 2) with (Z.pos (2 ^ 52)). cbv iota.
    replace (e + n + Z.of_nat 1 <=? FloatOps.emax - FloatOps.prec) with true
      by (symmetry; apply Z.leb_le; unfold FloatOps.emax, FloatOps.prec; lia).
    exists (2 ^ 52)%positive, (e + n + Z.of_nat 1).
    split; [reflexivity|]. split; [reflexivity|]. split.
    { unfold bounded, canonical_mantissa.
      change (Z.pos (digits2_pos (2 ^ 52))) with 53. rewrite fexp_normal by lia.
      apply andb_true_iff. split; [apply Z.eqb_eq; lia|].
      apply Z.leb_le. unfold FloatOps.emax, FloatOps.prec. lia. }
    split; [lia|].
    replace (e + n + Z.of_nat 1 - e) with (n + 1) by lia.
    rewrite Z.pow_add_r by lia. change (2 ^ 1) with 2.
    change (Z.pos (2 ^ 52)) with (2 ^ 52).
    assert (E : 2 ^ 52 * (2 ^ n * 2) = 2 ^ 53 * 2 ^ n) by (change (2 ^ 53) with (2 ^ 52 * 2); lia).
    rewrite E. rewrite Hm1 in Herr. split; [nia|].
    intros H0. rewrite <- Hn in H0. specialize (Hexact H0). lia.
Qed.


(** A 53-bit significand with an exponent of the normal range. *)
Definition canon (m : positive) (e : Z) : Prop :=
  Z.pos (digits2_pos m) = 53 /\ -1074 <= e <= 971.

Lemma canon_bounded m e : canon m e -> bounded FloatOps.prec FloatOps.emax m e = true.
Proof.
  intros [Hd He]. unfold bounded, canonical_mantissa. rewrite Hd, fexp_normal by lia.
  apply andb_true_iff. split; [apply Z.eqb_eq; lia|].
  apply Z.leb_le. unfold FloatOps.emax, FloatOps.prec. lia.
Qed.

Lemma canon_range m e : canon m e -> 2 ^ 52 <= Z.pos m < 2 ^ 53.
Proof.
  intros [Hd _]. pose proof (digits_bounds m) as H. rewrite Hd in H.
  change (53 - 1) with 52 in H. exact H.
Qed.

Lemma binary_round_aux_canon sx m e :
  canon m e ->
  binary_round_aux FloatOps.prec FloatOps.emax sx (Z.pos m) e loc_Exact = S754_finite sx m e.
Proof.
  intros [Hd He]. unfold binary_round_aux.
  rewrite (shr_fexp_keep m e) by (rewrite Hd, fexp_normal; lia).
  cbn [shr_m loc_of_shr_record round_nearest_even].
  rewrite (shr_fexp_keep m e) by (rewrite Hd, fexp_normal; lia).
  cbn [shr_m].
  replace (e <=? FloatOps.emax - FloatOps.prec) with true
    by (symmetry; apply Z.leb_le; unfold FloatOps.emax, FloatOps.prec; lia).
  reflexivity.
Qed.

Lemma digits_le_53 (p : positive) : Z.pos p < 2 ^ 53 -> Z.pos (digits2_pos p) <= 53.
Proof.
  intros H. pose proof (digits_bounds p) as [Hlo _].
  destruct (Z_le_gt_dec (Z.pos (digits2_pos p)) 53) as [|Hgt]; [assumption|].
  assert (2 ^ 53 <= 2 ^ (Z.pos (digits2_pos p) - 1)) by (apply Z.pow_le_mono_r; lia).
  lia.
Qed.

Lemma digits_scaled (p q : positive) (j : Z) :
  0 <= j -> Z.pos q = Z.pos p * 2 ^ j ->
  Z.pos (digits2_pos q) = Z.pos (digits2_pos p) + j.
Proof.
  intros Hj Hq. pose proof (digits_bounds p) as [Hlo Hhi].
  assert (0 < 2 ^ j) by (apply Z.pow_pos_nonneg; lia).
  apply digits_unique. rewrite Hq.
  replace (Z.pos (digits2_pos p) + j - 1) with (Z.pos (digits2_pos p) - 1 + j) by lia.
  rewrite !Z.pow_add_r by lia. nia.
Qed.

(** A significand that is a number of at most 53 bits times a power of
    two loses nothing in the rounding. *)
Lemma exact_factor (M : positive) (K j : Z) :
  Z.pos M = K * 2 ^ j -> 0 <= j -> 0 < K < 2 ^ 53 ->
  54 <= Z.pos (digits2_pos M) ->
  Z.pos M mod 2 ^ (Z.pos (digits2_pos M) - 53) = 0.
Proof.
  intros HM Hj HK Hd. destruct K as [|pk|pk]; try lia.
  pose proof (digits_le_53 pk ltac:(lia)) as HdK.
  rewrite (digits_scaled pk M j Hj HM) in *.
  rewrite HM.
  replace j with ((j - (Z.pos (digits2_pos pk) + j - 53)) + (Z.pos (digits2_pos pk) + j - 53)) at 1 by lia.
  rewrite Z.pow_add_r by lia. rewrite Z.mul_assoc.
  apply Z.mod_mul.
  apply Z.pow_nonzero; lia.
Qed.

Lemma mul_digits (m1 m2 : positive) :
  Z.pos (digits2_pos m1) = 53 -> Z.pos (digits2_pos m2) = 53 ->
  105 <= Z.pos (digits2_pos (m1 * m2)) <= 106.
Proof.
  intros H1 H2.
  pose proof (digits_bounds m1) as B1. rewrite H1 in B1. change (53 - 1) with 52 in B1.
  pose proof (digits_bounds m2) as B2. rewrite H2 in B2. change (53 - 1) with 52 in B2.
  pose proof (digits_bounds (m1 * m2)) as [Blo Bhi]. rewrite Pos2Z.inj_mul in Blo, Bhi.
  assert (L : 2 ^ 104 <= Z.pos m1 * Z.pos m2).
  { change (2 ^ 104) with (2 ^ 52 * 2 ^ 52). nia. }
  assert (U : Z.pos m1 * Z.pos m2 < 2 ^ 106).
  { change (2 ^ 106) with (2 ^ 53 * 2 ^ 53). nia. }
  set (d := Z.pos (digits2_pos (m1 * m2))) in *.
  split.
  - destruct (Z_le_gt_dec 105 d) as [|Hlt]; [assumption|].
    assert (2 ^ d <= 2 ^ 104) by (apply Z.pow_le_mono_r; lia). lia.
  - destruct (Z_le_gt_dec d 106) as [|Hgt]; [assumption|].
    assert (2 ^ 106 <= 2 ^ (d - 1)) by (apply Z.pow_le_mono_r; lia). lia.
Qed.

(** The product of two normal numbers, in the normal range: one rounding. *)
Lemma SFmul_canon (m1 : positive) (e1 : Z) (m2 : positive) (e2 : Z) :
  canon m1 e1 -> canon m2 e2 ->
  -1074 <= e1 + e2 + 52 -> e1 + e2 + 106 <= 1023 ->
  exists m3 e3,
    SFmul FloatOps.prec FloatOps.emax (S754_finite false m1 e1) (S754_finite false m2 e2)
      = S754_finite false m3 e3 /\
    canon m3 e3 /\
    e1 + e2 + 52 <= e3 <= e1 + e2 + 54 /\
    2 ^ 53 * Z.abs (Z.pos m3 * 2 ^ (e3 - (e1 + e2)) - Z.pos m1 * Z.pos m2)
      <= Z.pos m1 * Z.pos m2 /\
    (forall K j, Z.pos m1 * Z.pos m2 = K * 2 ^ j -> 0 <= j -> 0 < K < 2 ^ 53 ->
       Z.pos m3 * 2 ^ (e3 - (e1 + e2)) = Z.pos m1 * Z.pos m2).
Proof.
  intros [H1 He1] [H2 He2] Hlo Hhi.
  pose proof (mul_digits m1 m2 H1 H2) as Hd.
  destruct (binary_round_aux_normal false (m1 * m2) (e1 + e2)) as (m3 & e3 & Hr & Hd3 & _ & He3 & Herr & Hex);
    try lia.
  exists m3, e3. cbn [SFmul xorb]. split; [exact Hr|].
  split; [split; [exact Hd3 | lia]|].
  split; [lia|].
  rewrite Pos2Z.inj_mul in Herr, Hex.
  split; [exact Herr|].
  intros K j HM Hj HK. apply Hex.
  rewrite <- Pos2Z.inj_mul.
  apply (exact_factor (m1 * m2) K j); [rewrite Pos2Z.inj_mul; exact HM | exact Hj | exact HK | lia].
Qed.

Lemma iter_xO (d : positive) (z : positive) :
  Z.pos (Pos.iter xO z d) = Z.pos z * 2 ^ Z.pos d.
Proof.
  induction d as [|d IH] using Pos.peano_ind.
  - cbn [Pos.iter]. lia.
  - rewrite Pos.iter_succ. rewrite Pos2Z.inj_xO, IH.
    rewrite Pos2Z.inj_succ, Z.pow_succ_r by lia. lia.
Qed.

(** An integer of at most 53 bits is a float: [binary_normalize] only
    aligns it. *)
Lemma binary_normalize_exact (z : positive) :
  Z.pos z < 2 ^ 53 ->
  exists m e,
    binary_normalize FloatOps.prec FloatOps.emax (Z.pos z) 0 false = S754_finite false m e /\
    canon m e /\ e = Z.pos (digits2_pos z) - 53 /\ Z.pos m = Z.pos z * 2 ^ (- e).
Proof.
  intros Hz. pose proof (digits_le_53 z Hz) as Hd.
  assert (Hd0 : 0 < Z.pos (digits2_pos z)) by lia.
  cbn [binary_normalize]. unfold binary_round, shl_align.
  rewrite Z.add_0_r, fexp_normal by lia. rewrite Z.sub_0_r.
  destruct (Z.pos (digits2_pos z) - 53) as [|p|p] eqn:Hp; try lia.
  - rewrite binary_round_aux_canon by (split; lia).
    exists z, 0. split; [reflexivity|]. split; [split; lia|]. split; [lia|].
    cbn. lia.
  - pose proof (iter_xO p z) as Hs.
    assert (Hc : canon (Pos.iter xO z p) (Z.neg p)).
    { split; [|lia]. rewrite (digits_scaled z _ (Z.pos p) ltac:(lia) Hs). lia. }
    rewrite binary_round_aux_canon by exact Hc.
    exists (Pos.iter xO z p), (Z.neg p). split; [reflexivity|]. split; [exact Hc|].
    split; [reflexivity|]. rewrite Hs. reflexivity.
Qed.

(** An integer of at most 53 bits divided by a power of two: the
    quotient is a float. *)
Lemma SFdiv_pow2 (a b : positive) (k : Z) :
  Z.pos b = 2 ^ k -> 0 <= k <= 64 -> Z.pos a < 2 ^ 53 ->
  exists m e,
    SFdiv FloatOps.prec FloatOps.emax (S754_finite false a 0) (S754_finite false b 0)
      = S754_finite false m e /\
    canon m e /\ e = Z.pos (digits2_pos a) - 53 - k /\
    Z.pos m = Z.pos a * 2 ^ (53 - Z.pos (digits2_pos a)).
Proof.
  intros Hb Hk Ha. pose proof (digits_le_53 a Ha) as Hda.
  set (da := Z.pos (digits2_pos a)) in *.
  assert (Hda0 : 0 < da) by (unfold da; lia).
  assert (Hdb : Z.pos (digits2_pos b) = k + 1).
  { apply digits_unique. rewrite Hb. replace (k + 1 - 1) with k by lia.
    rewrite Z.pow_add_r by lia. change (2 ^ 1) with 2.
    assert (0 < 2 ^ k) by (apply Z.pow_pos_nonneg; lia). lia. }
  cbn [SFdiv xorb]. unfold SFdiv_core_binary. cbn [Zdigits2]. fold da. rewrite Hdb.
  rewrite !Z.add_0_r. rewrite fexp_normal by lia.
  replace (Z.min (da - (k + 1) - 53) (0 - 0)) with (da - k - 54) by lia.
  replace (0 - 0 - (da - k - 54)) with (k + 54 - da) by lia.
  destruct (k + 54 - da) as [|s|s] eqn:Hs; try lia.
  rewrite Z.shiftl_mul_pow2 by lia. rewrite <- Hs.
  assert (Hpk : 0 < 2 ^ k) by (apply Z.pow_pos_nonneg; lia).
  assert (Hsplit : Z.pos a * 2 ^ (k + 54 - da) = Z.pos a * 2 ^ (54 - da) * Z.pos b).
  { rewrite Hb. replace (k + 54 - da) with (54 - da + k) by lia.
    rewrite Z.pow_add_r by lia. lia. }
  pose proof (Z.div_mul (Z.pos a * 2 ^ (54 - da)) (Z.pos b) ltac:(lia)) as Hq.
  pose proof (Z.mod_mul (Z.pos a * 2 ^ (54 - da)) (Z.pos b) ltac:(lia)) as Hr.
  rewrite <- Hsplit in Hq, Hr. unfold Z.div in Hq. unfold Z.modulo in Hr.
  destruct (Z.div_eucl (Z.pos a * 2 ^ (k + 54 - da)) (Z.pos b)) as [q r].
  cbn [fst snd] in Hq, Hr. subst q r.
  assert (Hloc : new_location (Z.pos b) 0 = loc_Exact).
  { unfold new_location, new_location_even, new_location_odd.
    destruct (Z.even (Z.pos b)); reflexivity. }
  rewrite Hloc.
  assert (Hp54 : 0 < 2 ^ (54 - da)) by (apply Z.pow_pos_nonneg; lia).
  destruct (Z.pos a * 2 ^ (54 - da)) as [|q|q] eqn:Hq; try lia.
  pose proof (digits_scaled a q (54 - da) ltac:(lia) (eq_sym Hq)) as Hdq.
  fold da in Hdq. replace (da + (54 - da)) with 54 in Hdq by lia.
  destruct (binary_round_aux_normal false q (da - k - 54)) as (m & e & Hround & Hdm & _ & He & _ & Hex);
    try (rewrite Hdq; lia).
  rewrite Hdq in He, Hex. change (2 ^ (54 - 53)) with 2 in Hex.
  assert (Hq2 : Z.pos q = 2 * (Z.pos a * 2 ^ (53 - da))).
  { rewrite <- Hq. replace (54 - da) with (Z.succ (53 - da)) by lia.
    rewrite Z.pow_succ_r by lia. lia. }
  assert (Hmod : Z.pos q mod 2 = 0).
  { rewrite Hq2, Z.mul_comm. apply Z.mod_mul. lia. }
  specialize (Hex Hmod).
  pose proof (digits_bounds m) as Bm. rewrite Hdm in Bm. change (53 - 1) with 52 in Bm.
  pose proof (digits_bounds q) as Bq. rewrite Hdq in Bq. change (54 - 1) with 53 in Bq.
  assert (He' : e = da - k - 53).
  { destruct (Z.eq_dec e (da - k - 53)) as [|Hne]; [assumption|].
    assert (E2 : e - (da - k - 54) = 2) by lia.
    rewrite E2 in Hex. change (2 ^ 2) with 4 in Hex.
    change (2 ^ 54) with (4 * 2 ^ 52) in Bq. lia. }
  exists m, e. split; [exact Hround|].
  split; [split; [exact Hdm | lia]|].
  split; [lia|].
  rewrite He' in Hex. replace (da - k - 53 - (da - k - 54)) with 1 in Hex by lia.
  change (2 ^ 1) with 2 in Hex. lia.
Qed.


(** *** Values as real numbers *)

Definition value (m : positive) (e : Z) : R := (IZR (Z.pos m) * powerRZ 2 e)%R.

(** Half a unit in the last place, relative: 2^-53. *)
Definition u : R := (/ 9007199254740992)%R.

Lemma pow2_pos (e : Z) : (0 < powerRZ 2 e)%R.
Proof. apply powerRZ_lt. lra. Qed.

Lemma IZR_pow2 (k : Z) : 0 <= k -> IZR (2 ^ k) = powerRZ 2 k.
Proof.
  intros Hk. rewrite <- (Z2Nat.id k Hk). rewrite <- pow_IZR. apply pow_powerRZ.
Qed.

Lemma value_pos (m : positive) (e : Z) : (0 < value m e)%R.
Proof.
  unfold value. apply Rmult_lt_0_compat; [|apply pow2_pos].
  apply IZR_lt. lia.
Qed.

Lemma value_scaled (m : positive) (e : Z) (M j : Z) :
  0 <= j -> Z.pos m = M * 2 ^ j -> value m e = (IZR M * powerRZ 2 (j + e))%R.
Proof.
  intros Hj Hm. unfold value. rewrite Hm, mult_IZR, IZR_pow2 by exact Hj.
  rewrite powerRZ_add by lra. ring.
Qed.

Lemma value_unscaled (m : positive) (e e0 : Z) :
  e0 <= e -> value m e = (IZR (Z.pos m * 2 ^ (e - e0)) * powerRZ 2 e0)%R.
Proof.
  intros He. unfold value. rewrite mult_IZR, IZR_pow2 by lia.
  rewrite Rmult_assoc, <- powerRZ_add by lra.
  do 2 f_equal. lia.
Qed.

Lemma value_product (m1 : positive) (e1 : Z) (m2 : positive) (e2 : Z) :
  (IZR (Z.pos m1 * Z.pos m2) * powerRZ 2 (e1 + e2))%R = (value m1 e1 * value m2 e2)%R.
Proof.
  unfold value. rewrite mult_IZR, powerRZ_add by lra. ring.
Qed.

Lemma rounding_error (m3 : positive) (e3 : Z) (M e : Z) :
  e <= e3 ->
  2 ^ 53 * Z.abs (Z.pos m3 * 2 ^ (e3 - e) - M) <= M ->
  (Rabs (value m3 e3 - IZR M * powerRZ 2 e) <= u * (IZR M * powerRZ 2 e))%R.
Proof.
  intros He H.
  rewrite (value_unscaled m3 e3 e He).
  pose proof (pow2_pos e) as Hp.
  change (2 ^ 53) with 9007199254740992 in H.
  apply IZR_le in H. rewrite mult_IZR, abs_IZR, minus_IZR in H.
  rewrite <- Rmult_minus_distr_r, Rabs_mult, (Rabs_pos_eq (powerRZ 2 e)) by lra.
  set (r := Rabs (IZR (Z.pos m3 * 2 ^ (e3 - e)) - IZR M)) in *.
  assert (Hr : (r <= u * IZR M)%R) by (unfold u; lra).
  replace (u * (IZR M * powerRZ 2 e))%R with (u * IZR M * powerRZ 2 e)%R by ring.
  apply Rmult_le_compat_r; lra.
Qed.

(** [v] is [x] rounded once: within the relative error [u]. *)
Definition near (x v : R) : Prop := ((1 - u) * x <= v <= (1 + u) * x)%R.

Lemma near_of_error (x v : R) :
  (0 <= x)%R -> (Rabs (v - x) <= u * x)%R -> near x v.
Proof.
  intros Hx H. unfold near. unfold Rabs in H.
  destruct (Rcase_abs (v - x)) in H; lra.
Qed.

(** The product of two normal numbers as a real number. *)
Lemma SFmul_value (m1 : positive) (e1 : Z) (m2 : positive) (e2 : Z) :
  canon m1 e1 -> canon m2 e2 ->
  -1074 <= e1 + e2 + 52 -> e1 + e2 + 106 <= 1023 ->
  exists m3 e3,
    SFmul FloatOps.prec FloatOps.emax (S754_finite false m1 e1) (S754_finite false m2 e2)
      = S754_finite false m3 e3 /\
    canon m3 e3 /\
    e1 + e2 + 52 <= e3 <= e1 + e2 + 54 /\
    near (value m1 e1 * value m2 e2) (value m3 e3) /\
    (forall K j, Z.pos m1 * Z.pos m2 = K * 2 ^ j -> 0 <= j -> 0 < K < 2 ^ 53 ->
       value m3 e3 = (value m1 e1 * value m2 e2)%R).
Proof.
  intros C1 C2 Hlo Hhi.
  destruct (SFmul_canon m1 e1 m2 e2 C1 C2 Hlo Hhi) as (m3 & e3 & Hm & C3 & He3 & Herr & Hex).
  exists m3, e3. split; [exact Hm|]. split; [exact C3|]. split; [exact He3|].
  split.
  - apply near_of_error.
    + pose proof (value_pos m1 e1). pose proof (value_pos m2 e2).
      apply Rmult_le_pos; lra.
    + rewrite <- value_product. apply rounding_error; [lia | exact Herr].
  - intros K j HM Hj HK. specialize (Hex K j HM Hj HK).
    rewrite <- value_product.
    rewrite (value_unscaled m3 e3 (e1 + e2)) by lia. rewrite Hex. reflexivity.
Qed.

(** Truncation toward zero of a positive value is its floor. *)
Definition trunc (m : positive) (e : Z) : Z :=
  if 0 <=? e then Z.shiftl (Z.pos m) e else Z.shiftr (Z.pos m) (- e).

Lemma trunc_floor (m : positive) (e : Z) :
  (IZR (trunc m e) <= value m e < IZR (trunc m e) + 1)%R.
Proof.
  unfold trunc. destruct (Z.leb_spec 0 e) as [He|He].
  - rewrite Z.shiftl_mul_pow2 by lia.
    rewrite (value_unscaled m e 0) by lia. rewrite Z.sub_0_r. cbn [powerRZ]. lra.
  - rewrite Z.shiftr_div_pow2 by lia.
    assert (Hp : 0 < 2 ^ (- e)) by (apply Z.pow_pos_nonneg; lia).
    pose proof (Z.div_mod (Z.pos m) (2 ^ (- e)) ltac:(lia)) as Hdm.
    pose proof (Z.mod_pos_bound (Z.pos m) (2 ^ (- e)) Hp) as Hr.
    set (t := Z.pos m / 2 ^ (- e)) in *. set (r := Z.pos m mod 2 ^ (- e)) in *.
    unfold value. rewrite Hdm, plus_IZR, mult_IZR, IZR_pow2 by lia.
    assert (Hr1 : (0 <= IZR r)%R) by (apply IZR_le; lia).
    assert (Hr2 : (IZR r < powerRZ 2 (- e))%R) by (rewrite <- IZR_pow2 by lia; apply IZR_lt; lia).
    pose proof (pow2_pos e) as Pe. pose proof (pow2_pos (- e)) as Pne.
    assert (Hinv : (powerRZ 2 (- e) * powerRZ 2 e = 1)%R).
    { rewrite <- powerRZ_add by lra. replace (- e + e) with 0 by lia. reflexivity. }
    set (a := powerRZ 2 (- e)) in *. set (b := powerRZ 2 e) in *.
    replace ((a * IZR t + IZR r) * b)%R with (IZR t * (a * b) + IZR r * b)%R by ring.
    rewrite Hinv. 
    assert (0 <= IZR r * b)%R by (apply Rmult_le_pos; lra).
    assert (IZR r * b < a * b)%R by (apply Rmult_lt_compat_r; lra).
    lra.
Qed.


Lemma pow2_neg (k : Z) : 0 <= k -> powerRZ 2 (- k) = (/ IZR (2 ^ k))%R.
Proof. intros Hk. rewrite powerRZ_neg', IZR_pow2 by exact Hk. reflexivity. Qed.

(** *** Primitive floats *)

Lemma Prim2SF_canon (m : positive) (e : Z) :
  canon m e ->
  FloatOps.Prim2SF (FloatOps.SF2Prim (S754_finite false m e)) = S754_finite false m e.
Proof.
  intros C. apply FloatAxioms.Prim2SF_SF2Prim. cbn [valid_binary]. apply canon_bounded, C.
Qed.

Lemma Prim2SF_mul (x y : PrimFloat.float) :
  FloatOps.Prim2SF (PrimFloat.mul x y)
  = SFmul FloatOps.prec FloatOps.emax (FloatOps.Prim2SF x) (FloatOps.Prim2SF y).
Proof. apply FloatAxioms.mul_spec. Qed.

(** [float(n)] of a positive [int] below 2^53 is [n]. *)
Lemma of_int_value (z : positive) :
  Z.pos z < 2 ^ 53 ->
  exists m e,
    FloatOps.Prim2SF (PyFloat64.of_int (Z.pos z)) = S754_finite false m e /\
    canon m e /\ -52 <= e <= 0 /\ Z.pos m = Z.pos z * 2 ^ (- e) /\
    value m e = IZR (Z.pos z).
Proof.
  intros Hz. destruct (binary_normalize_exact z Hz) as (m & e & Hn & C & He & Hm).
  pose proof (digits_le_53 z Hz).
  exists m, e. unfold PyFloat64.of_int. rewrite Hn.
  split; [apply Prim2SF_canon, C|]. split; [exact C|]. split; [lia|]. split; [exact Hm|].
  rewrite (value_scaled m e (Z.pos z) (- e)) by (lia || exact Hm).
  replace (- e + e) with 0 by lia. cbn [powerRZ]. ring.
Qed.

(** [a / 2^k] on a positive [int] below 2^53 is exact. *)
Lemma int_truediv_pow2_value (a b : positive) (k : Z) :
  Z.pos b = 2 ^ k -> 0 <= k <= 64 -> Z.pos a < 2 ^ 53 ->
  exists m e,
    FloatOps.Prim2SF (PyFloat64.int_truediv (Z.pos a) (Z.pos b)) = S754_finite false m e /\
    canon m e /\ -52 - k <= e <= - k /\
    Z.pos m = Z.pos a * 2 ^ (- k - e) /\
    value m e = (IZR (Z.pos a) * / IZR (2 ^ k))%R.
Proof.
  intros Hb Hk Ha. destruct (SFdiv_pow2 a b k Hb Hk Ha) as (m & e & Hd & C & He & Hm).
  pose proof (digits_le_53 a Ha).
  exists m, e. unfold PyFloat64.int_truediv. cbn [PyFloat64.exact_int]. rewrite Hd.
  split; [apply Prim2SF_canon, C|]. split; [exact C|]. split; [lia|].
  assert (Hm' : Z.pos m = Z.pos a * 2 ^ (- k - e)).
  { rewrite Hm. do 2 f_equal. lia. }
  split; [exact Hm'|].
  rewrite (value_scaled m e (Z.pos a) (- k - e)) by (lia || exact Hm').
  replace (- k - e + e) with (- k) by lia. rewrite pow2_neg by lia. reflexivity.
Qed.

(** [int(x)] of a positive float. *)
Lemma to_int_finite (x : PrimFloat.float) (m : positive) (e : Z) :
  FloatOps.Prim2SF x = S754_finite false m e ->
  PyFloat64.to_int x = Some (trunc m e).
Proof. intros H. unfold PyFloat64.to_int. rewrite H. reflexivity. Qed.


(** *** The estimates *)

Lemma near_chain (a c vb vc vd : R) :
  (0 <= a)%R -> (0 <= c)%R ->
  near a vb -> near c vc -> near (vb * vc) vd ->
  ((1 - u) * ((1 - u) * ((1 - u) * (a * c))) <= vd
   <= (1 + u) * ((1 + u) * ((1 + u) * (a * c))))%R.
Proof.
  unfold near. intros Ha Hc [Hb1 Hb2] [Hc1 Hc2] [Hd1 Hd2].
  assert (Hu : (0 < u < 1)%R) by (unfold u; lra).
  assert (L : ((1 - u) * a * ((1 - u) * c) <= vb * vc)%R).
  { apply Rmult_le_compat; try assumption; apply Rmult_le_pos; lra. }
  assert (U : (vb * vc <= (1 + u) * a * ((1 + u) * c))%R).
  { assert (0 <= (1 - u) * a)%R by (apply Rmult_le_pos; lra).
    assert (0 <= (1 - u) * c)%R by (apply Rmult_le_pos; lra).
    apply Rmult_le_compat; lra. }
  split.
  - apply Rle_trans with ((1 - u) * (vb * vc))%R; [|exact Hd1].
    replace ((1 - u) * ((1 - u) * (a * c)))%R with ((1 - u) * a * ((1 - u) * c))%R by ring.
    apply Rmult_le_compat_l; lra.
  - apply Rle_trans with ((1 + u) * (vb * vc))%R; [exact Hd2|].
    replace ((1 + u) * ((1 + u) * (a * c)))%R with ((1 + u) * a * ((1 + u) * c))%R by ring.
    apply Rmult_le_compat_l; lra.
Qed.

(** The floor of a value within three roundings of [N / 13107200]. *)
Lemma estimate_floor (N t : Z) (v : R) :
  0 < N <= 1099511627776000 ->
  (IZR t <= v < IZR t + 1)%R ->
  ((1 - u) * ((1 - u) * ((1 - u) * (IZR N / 13107200))) <= v
   <= (1 + u) * ((1 + u) * ((1 + u) * (IZR N / 13107200))))%R ->
  0 <= t /\
  (t = N / 13107200 \/ t = N / 13107200 - 1) /\
  (N mod 13107200 <> 0 -> t = N / 13107200).
Proof.
  intros HN [Ht1 Ht2] [Hv1 Hv2].
  pose proof (Z.div_mod N 13107200 ltac:(lia)) as Hdm.
  pose proof (Z.mod_pos_bound N 13107200 ltac:(lia)) as Hr.
  set (E := N / 13107200) in *. set (r := N mod 13107200) in *.
  assert (HNR : IZR N = (13107200 * IZR E + IZR r)%R).
  { rewrite Hdm at 1. rewrite plus_IZR, mult_IZR. reflexivity. }
  assert (Hr0 : (0 <= IZR r)%R) by (apply IZR_le; lia).
  assert (Hr1 : (IZR r <= 13107199)%R) by (apply IZR_le; lia).
  assert (HN0 : (1 <= IZR N)%R) by (apply IZR_le; lia).
  assert (HN1 : (IZR N <= 1099511627776000)%R) by (apply IZR_le; lia).
  unfold u in Hv1, Hv2.
  assert (Hle : t < E + 1).
  { apply lt_IZR. rewrite plus_IZR. lra. }
  assert (Hge : E - 1 < t + 1).
  { apply lt_IZR. rewrite plus_IZR, minus_IZR. lra. }
  assert (H0 : 0 < t + 1).
  { apply lt_IZR. rewrite plus_IZR. lra. }
  split; [lia|]. split; [lia|].
  intros Hne.
  assert (Hr2 : (1 <= IZR r)%R) by (apply IZR_le; lia).
  assert (E < t + 1); [|lia].
  apply lt_IZR. rewrite plus_IZR. lra.
Qed.

End Binary64.

Definition lattice (n : nat) : list Z := map Z.of_nat (seq 1 n).

Lemma in_lattice (n : nat) (z : Z) : 1 <= z <= Z.of_nat n -> In z (lattice n).
Proof.
  intros Hz. unfold lattice. apply in_map_iff. exists (Z.to_nat z). split.
  - lia.
  - apply in_seq. lia.
Qed.

(** [num_steps / 50] for one step count: a normal number within one
    rounding of the quotient, checked on integers scaled by 2^58. *)
Definition step_factor_ok (s : Z) : bool :=
  match FloatOps.Prim2SF (PyFloat64.int_truediv s 50) with
  | SpecFloat.S754_finite false m e =>
      (Z.pos (SpecFloat.digits2_pos m) =? 53) && (-58 <=? e) && (e <=? -51)
      && (9007199254740991 * (s * 288230376151711744)
            <=? 9007199254740992 * (50 * (Z.pos m * 2 ^ (e + 58))))
      && (9007199254740992 * (50 * (Z.pos m * 2 ^ (e + 58)))
            <=? 9007199254740993 * (s * 288230376151711744))
  | _ => false
  end.

Lemma step_factor_ok_all : forallb step_factor_ok (lattice 100) = true.
Proof. vm_compute. reflexivity. Qed.

Lemma step_factor_value (s : Z) :
  1 <= s <= 100 ->
  exists m e,
    FloatOps.Prim2SF (PyFloat64.int_truediv s 50) = SpecFloat.S754_finite false m e /\
    Binary64.canon m e /\ -58 <= e <= -51 /\
    Binary64.near (IZR s / 50) (Binary64.value m e).
Proof.
  intros Hs. pose proof step_factor_ok_all as H.
  rewrite forallb_forall in H. specialize (H s (in_lattice 100 s Hs)).
  unfold step_factor_ok in H.
  destruct (FloatOps.Prim2SF (PyFloat64.int_truediv s 50)) as [| | |[|] m e]; try discriminate.
  repeat (apply andb_true_iff in H; destruct H as [H ?]).
  apply Z.eqb_eq in H. 
  repeat match goal with Hx : (_ <=? _) = true |- _ => apply Z.leb_le in Hx end.
  exists m, e. split; [reflexivity|]. split; [split; [exact H | lia]|]. split; [lia|].
  rewrite (Binary64.value_unscaled m e (-58)) by lia.
  replace (e - -58) with (e + 58) by lia.
  pose proof (Binary64.pow2_neg 58 ltac:(lia)) as Hp.
  change (Z.opp 58) with (Z.neg 58) in Hp. rewrite Hp.
  change (2 ^ 58) with 288230376151711744.
  match goal with Hx : 9007199254740991 * _ <= _ |- _ =>
    apply IZR_le in Hx; rewrite !mult_IZR in Hx end.
  match goal with Hx : _ <= 9007199254740993 * _ |- _ =>
    apply IZR_le in Hx; rewrite !mult_IZR in Hx end.
  rewrite mult_IZR.
  set (V := (IZR (Z.pos m) * IZR (2 ^ (e + 58)))%R) in *.
  unfold Binary64.near, Binary64.u. lra.
Qed.

(** The image estimate on a positive pixel count up to 2^40 and 1 to 100
    steps: the floor of the linear formula, or one less where the formula
    gives a whole number. *)
Lemma estimate_generation_time_spec (width height num_steps : Z) :
  0 < width * height <= 2 ^ 40 -> 1 <= num_steps <= 100 ->
  exists e, estimate_generation_time width height num_steps = Some e /\
            0 <= e /\
            (e = exact_estimate width height num_steps \/
             e = exact_estimate width height num_steps - 1) /\
            ((10 * (width * height) * num_steps) mod (512 * 512 * 50) <> 0 ->
             e = exact_estimate width height num_steps).
Proof.
  intros HP Hs. unfold estimate_generation_time, exact_estimate.
  destruct (width * height) as [|p|p] eqn:Hp; try lia.
  change (512 * 512 * 50) with 13107200. change (512 * 512) with 262144.
  change (2 ^ 40) with 1099511627776 in HP.
  destruct (Binary64.of_int_value 10 ltac:(reflexivity)) as (mt & et & Ht & Ct & Het & _ & Vt).
  destruct (Binary64.int_truediv_pow2_value p 262144 18 eq_refl ltac:(lia)
              ltac:(change (2 ^ 53) with 9007199254740992; lia))
    as (ma & ea & Ha & Ca & Hea & _ & Va).
  change (2 ^ 18) with 262144 in Va.
  destruct (step_factor_value num_steps Hs) as (mc & ec & Hc & Cc & Hec & Vc).
  destruct (Binary64.SFmul_value mt et ma ea Ct Ca ltac:(lia) ltac:(lia))
    as (mb & eb & Hb & Cb & Heb & Vb & _).
  destruct (Binary64.SFmul_value mb eb mc ec Cb Cc ltac:(lia) ltac:(lia))
    as (md & ed & Hd & Cd & Hed & Vd & _).
  assert (Hprim : FloatOps.Prim2SF
            (PrimFloat.mul (PrimFloat.mul (PyFloat64.of_int 10)
                              (PyFloat64.int_truediv (Z.pos p) 262144))
                           (PyFloat64.int_truediv num_steps 50))
          = SpecFloat.S754_finite false md ed).
  { rewrite !Binary64.Prim2SF_mul, Ht, Ha, Hb, Hc. exact Hd. }
  rewrite (Binary64.to_int_finite _ md ed Hprim).
  exists (Binary64.trunc md ed). split; [reflexivity|].
  rewrite Vt, Va in Vb.
  assert (HpR : (1 <= IZR (Z.pos p))%R) by (apply IZR_le; lia).
  assert (HsR : (1 <= IZR num_steps)%R) by (apply IZR_le; lia).
  assert (Ha0 : (0 <= 10 * (IZR (Z.pos p) * / 262144))%R) by lra.
  assert (Hc0 : (0 <= IZR num_steps / 50)%R) by lra.
  pose proof (Binary64.near_chain _ _ _ _ _ Ha0 Hc0 Vb Vc Vd) as Hv.
  replace (10 * (IZR (Z.pos p) * / 262144) * (IZR num_steps / 50))%R
    with (IZR (10 * Z.pos p * num_steps) / 13107200)%R in Hv
    by (rewrite !mult_IZR; field).
  apply (Binary64.estimate_floor (10 * Z.pos p * num_steps) _ (Binary64.value md ed)).
  - nia.
  - apply Binary64.trunc_floor.
  - exact Hv.
Qed.

(** Without pixels the estimate is zero. *)
Lemma estimate_generation_time_zero (width height num_steps : Z) :
  width * height = 0 -> 1 <= num_steps <= 100 ->
  estimate_generation_time width height num_steps = Some 0.
Proof.
  intros HP Hs. unfold estimate_generation_time. rewrite HP.
  destruct (step_factor_value num_steps Hs) as (mc & ec & Hc & _).
  destruct (Binary64.of_int_value 10 ltac:(reflexivity)) as (mt & et & Ht & _).
  unfold PyFloat64.to_int.
  rewrite !Binary64.Prim2SF_mul, Ht, Hc.
  assert (Hz : FloatOps.Prim2SF (PyFloat64.int_truediv 0 (512 * 512)) = SpecFloat.S754_zero false)
    by (vm_compute; reflexivity).
  rewrite Hz. reflexivity.
Qed.

(** The last line of [estimate_video_generation_time]. *)
Definition video_total (frames per_frame : Z) : option Z :=
  PyFloat64.to_int (PrimFloat.mul (PyFloat64.of_int frames)
                                  (PyFloat64.int_truediv per_frame 4)).

Lemma Prim2SF_of_int_0 : FloatOps.Prim2SF (PyFloat64.of_int 0) = SpecFloat.S754_zero false.
Proof. vm_compute. reflexivity. Qed.

Lemma Prim2SF_truediv_0 : FloatOps.Prim2SF (PyFloat64.int_truediv 0 4) = SpecFloat.S754_zero false.
Proof. vm_compute. reflexivity. Qed.

(** A product of two floats that hold integers, itself below 2^53. *)
Lemma exact_product (x y : PrimFloat.float) (a b : positive) (k : Z)
    (mx : positive) (ex : Z) (my : positive) (ey : Z) :
  FloatOps.Prim2SF x = SpecFloat.S754_finite false mx ex ->
  FloatOps.Prim2SF y = SpecFloat.S754_finite false my ey ->
  Binary64.canon mx ex -> Binary64.canon my ey ->
  -52 <= ex <= 0 -> -52 - k <= ey <= - k -> 0 <= k <= 64 ->
  Z.pos mx = Z.pos a * 2 ^ (- ex) ->
  Z.pos my = Z.pos b * 2 ^ (- k - ey) ->
  Z.pos a * Z.pos b < 2 ^ 53 ->
  PyFloat64.to_int (PrimFloat.mul x y) = Some ((Z.pos a * Z.pos b) / 2 ^ k).
Proof.
  intros Hx Hy Cx Cy Hex Hey Hk Hmx Hmy Hab.
  destruct (Binary64.SFmul_value mx ex my ey Cx Cy ltac:(lia) ltac:(lia))
    as (md & ed & Hd & Cd & Hed & _ & Vd).
  assert (Hprim : FloatOps.Prim2SF (PrimFloat.mul x y) = SpecFloat.S754_finite false md ed).
  { rewrite Binary64.Prim2SF_mul, Hx, Hy. exact Hd. }
  rewrite (Binary64.to_int_finite _ md ed Hprim). f_equal.
  specialize (Vd (Z.pos a * Z.pos b) (- ex + (- k - ey))
                ltac:(rewrite Hmx, Hmy, Z.pow_add_r by lia; ring) ltac:(lia) ltac:(lia)).
  pose proof (Binary64.trunc_floor md ed) as [T1 T2].
  set (t := Binary64.trunc md ed) in *.
  rewrite Vd in T1, T2. clear Vd.
  rewrite (Binary64.value_scaled mx ex (Z.pos a) (- ex)) in T1, T2 by (lia || exact Hmx).
  rewrite (Binary64.value_scaled my ey (Z.pos b) (- k - ey)) in T1, T2 by (lia || exact Hmy).
  replace (- ex + ex) with 0 in T1, T2 by lia.
  replace (- k - ey + ey) with (- k) in T1, T2 by lia.
  rewrite Binary64.pow2_neg in T1, T2 by lia. cbn [powerRZ] in T1, T2.
  assert (Hpk : 0 < 2 ^ k) by (apply Z.pow_pos_nonneg; lia).
  assert (Hc : (0 < IZR (2 ^ k))%R) by (apply IZR_lt; exact Hpk).
  set (c := IZR (2 ^ k)) in *.
  assert (E : (IZR (Z.pos a) * 1 * (IZR (Z.pos b) * / c) * c
               = IZR (Z.pos a) * IZR (Z.pos b))%R) by (field; lra).
  assert (L : (IZR t * c <= IZR (Z.pos a) * IZR (Z.pos b))%R).
  { rewrite <- E. apply Rmult_le_compat_r; lra. }
  assert (U : (IZR (Z.pos a) * IZR (Z.pos b) < (IZR t + 1) * c)%R).
  { rewrite <- E. apply Rmult_lt_compat_r; lra. }
  unfold c in L, U. rewrite <- !mult_IZR in L. 
  rewrite <- (plus_IZR t 1), <- !mult_IZR in U.
  apply le_IZR in L. apply lt_IZR in U.
  apply (Z.div_unique _ _ t (Z.pos a * Z.pos b - 2 ^ k * t)); lia.
Qed.

(** [int(float(frames) * (per_frame / 4))] *)
Lemma video_total_spec (frames per_frame : Z) :
  0 <= frames < 2 ^ 53 -> 0 <= per_frame < 2 ^ 53 -> frames * per_frame < 2 ^ 53 ->
  video_total frames per_frame = Some ((frames * per_frame) / 4).
Proof.
  intros Hf Hp Hfp. unfold video_total.
  destruct frames as [|f|f]; try lia.
  - unfold PyFloat64.to_int. rewrite Binary64.Prim2SF_mul, Prim2SF_of_int_0.
    cbn [Z.mul]. change (0 / 4) with 0.
    destruct per_frame as [|q|q]; try lia.
    + rewrite Prim2SF_truediv_0. reflexivity.
    + destruct (Binary64.int_truediv_pow2_value q 4 2 eq_refl ltac:(lia) ltac:(lia))
        as (m & e & Hq & _).
      rewrite Hq. reflexivity.
  - destruct per_frame as [|q|q]; try lia.
    + unfold PyFloat64.to_int. rewrite Binary64.Prim2SF_mul, Prim2SF_truediv_0.
      destruct (Binary64.of_int_value f ltac:(lia)) as (m & e & Hm & _).
      rewrite Hm. rewrite Z.mul_0_r. reflexivity.
    + destruct (Binary64.of_int_value f ltac:(lia)) as (mx & ex & Hx & Cx & Hex & Hmx & _).
      destruct (Binary64.int_truediv_pow2_value q 4 2 eq_refl ltac:(lia) ltac:(lia))
        as (my & ey & Hy & Cy & Hey & Hmy & _).
      rewrite (exact_product _ _ f q 2 mx ex my ey Hx Hy Cx Cy Hex Hey ltac:(lia) Hmx Hmy Hfp).
      reflexivity.
Qed.

(** Whole seconds times frames per second: the frame count is exact. *)
Lemma video_frames_whole (d fps : Z) :
  0 < d -> 0 < fps -> d * fps < 2 ^ 53 ->
  video_frames (PyFloat64.of_int d) fps = Some (d * fps).
Proof.
  intros Hd Hf Hdf. unfold video_frames.
  destruct d as [|a|a]; try lia. destruct fps as [|b|b]; try lia.
  destruct (Binary64.of_int_value a ltac:(nia)) as (mx & ex & Hx & Cx & Hex & Hmx & _).
  destruct (Binary64.of_int_value b ltac:(nia)) as (my & ey & Hy & Cy & Hey & Hmy & _).
  rewrite (exact_product _ _ a b 0 mx ex my ey Hx Hy Cx Cy Hex ltac:(lia) ltac:(lia) Hmx
             ltac:(rewrite Hmy; do 2 f_equal; lia) Hdf).
  change (2 ^ 0) with 1. rewrite Z.div_1_r. reflexivity.
Qed.

(** C8, what the code does where the claim fails: at 512x512 and 25 steps
    the estimate is 5 seconds, below the 10-second base the claim says it
    never goes under. *)
Lemma C8_estimate_below_base :
  estimate_generation_time 512 512 25 = Some 5 /\ 5 < 10.
Proof. split; [vm_compute; reflexivity | lia]. Qed.

(** C8, as amended: the image estimate is the linear formula
    [10 * (w*h / 512^2) * (steps / 50)] evaluated in binary64 and truncated
    to an integer, with no floor at the base constant. It is 10 at the
    512x512, 50-step baseline. For every width and height whose product is
    positive and at most 2^40, and every step count from 1 to 100, it is
    the exact value of the formula rounded down, or one less; one less can
    happen only where the formula gives a whole number, which the binary64
    product may miss from below. Without pixels it is 0. The frame count
    is [int(duration * fps)]: 720 for 30 seconds at 24 frames per second,
    and the product itself for whole seconds. The video estimate is the
    frame count times a quarter of the per-frame estimate at 20 steps,
    truncated, for any duration, as long as the product stays below 2^53. *)
Theorem C8_estimates_truncate_the_linear_formula :
  estimate_generation_time 512 512 50 = Some 10 /\
  (forall width height num_steps,
     0 < width * height <= 2 ^ 40 -> 1 <= num_steps <= 100 ->
     exists e, estimate_generation_time width height num_steps = Some e /\
               0 <= e /\
               (e = exact_estimate width height num_steps \/
                e = exact_estimate width height num_steps - 1) /\
               ((10 * (width * height) * num_steps) mod (512 * 512 * 50) <> 0 ->
                e = exact_estimate width height num_steps)) /\
  (forall width height num_steps,
     width * height = 0 -> 1 <= num_steps <= 100 ->
     estimate_generation_time width height num_steps = Some 0) /\
  video_frames (PyFloat64.of_int 30) 24 = Some 720 /\
  (forall d fps, 0 < d -> 0 < fps -> d * fps < 2 ^ 53 ->
     video_frames (PyFloat64.of_int d) fps = Some (d * fps)) /\
  (forall duration width height fps frames per_frame,
     video_frames duration fps = Some frames ->
     estimate_generation_time width height 20 = Some per_frame ->
     0 <= frames < 2 ^ 53 -> 0 <= per_frame < 2 ^ 53 -> frames * per_frame < 2 ^ 53 ->
     estimate_video_generation_time duration width height fps
       = Some ((frames * per_frame) / 4)) /\
  (forall duration width height fps,
     video_frames duration fps = None ->
     estimate_video_generation_time duration width height fps = None).
Proof.
  split; [vm_compute; reflexivity|].
  split; [exact estimate_generation_time_spec|].
  split; [exact estimate_generation_time_zero|].
  split; [vm_compute; reflexivity|].
  split; [exact video_frames_whole|].
  split.
  - intros duration width height fps frames per_frame Hfr He Hf Hp Hfp.
    unfold estimate_video_generation_time. rewrite Hfr, He.
    apply (video_total_spec frames per_frame Hf Hp Hfp).
  - intros duration width height fps Hfr.
    unfold estimate_video_generation_time. rewrite Hfr. reflexivity.
Qed.

(** The amended C8 at 640x1024 with 58 steps, where the formula gives the
    whole number 29 and the binary64 product falls short of it, and for a
    video of 720 frames at 512x512, 4 seconds a frame. *)
Lemma C8_estimates_witness :
  ((0 < 640 * 1024 <= 2 ^ 40 /\ 1 <= 58 <= 100) /\
   exists e, estimate_generation_time 640 1024 58 = Some e /\
             0 <= e /\
             (e = exact_estimate 640 1024 58 \/ e = exact_estimate 640 1024 58 - 1) /\
             ((10 * (640 * 1024) * 58) mod (512 * 512 * 50) <> 0 ->
              e = exact_estimate 640 1024 58)) /\
  estimate_video_generation_time (PyFloat64.of_int 30) 512 512 24 = Some ((720 * 4) / 4).
Proof.
  split.
  - split; [lia|].
    apply (proj1 (proj2 C8_estimates_truncate_the_linear_formula) 640 1024 58); lia.
  - apply (proj1 (proj2 (proj2 (proj2 (proj2 (proj2 C8_estimates_truncate_the_linear_formula)))))
             (PyFloat64.of_int 30) 512 512 24 720 4);
      try (vm_compute; reflexivity); lia.
Defined.

(* ===================================================================== *)
(** ** Running the monad *)
(* ===================================================================== *)

Lemma live_entry_with_faults now key fs w :
  live_entry now key (with_faults fs w) = live_entry now key w.
Proof. reflexivity. Qed.

(** The three fates of a command. *)
Lemma command_cases {A} (run : M A) (w : world) :
  (exists fs, redis_faults w = true :: fs /\
              command run w = (Raise "ConnectionError", with_faults fs w)) \/
  (exists fs, redis_faults w = false :: fs /\ command run w = run (with_faults fs w)) \/
  (redis_faults w = [] /\ command run w = run w).
Proof.
  unfold command. destruct (redis_faults w) as [|[] fs]; eauto.
Qed.

Lemma command_quiet {A} (run : M A) (w : world) :
  redis_faults w = [] -> command run w = run w.
Proof. intros H. unfold command. rewrite H. reflexivity. Qed.

Lemma bind_ret {A B} (m : M A) (k : A -> M B) w a w' :
  m w = (Ret a, w') -> bind m k w = k a w'.
Proof. intros H. unfold bind. rewrite H. reflexivity. Qed.

Lemma bind_raise {A B} (m : M A) (k : A -> M B) w e w' :
  m w = (Raise e, w') -> bind m k w = (Raise e, w').
Proof. intros H. unfold bind. rewrite H. reflexivity. Qed.

(** [get_task_info] never raises: it answers the live record, or [None]
    when the read fails. *)
Lemma get_task_info_cases now task_id w :
  exists w', redis_kv w' = redis_kv w /\ output_files w' = output_files w /\
    (get_task_info now task_id w = (Ret (task_record now task_id w), w') \/
     get_task_info now task_id w = (Ret None, w')).
Proof.
  unfold get_task_info, try_except, get_task_info_try, bind, redis_get, task_record.
  destruct (command_cases
              (fun w0 => (Ret (value <$> live_entry now (task_key task_id) w0), w0)) w)
    as [(fs & _ & ->) | [(fs & _ & ->) | (_ & ->)]].
  - exists (with_faults fs w). auto.
  - exists (with_faults fs w). rewrite live_entry_with_faults.
    destruct (live_entry now (task_key task_id) w) as [[[n|t|r] ex]|]; simpl; auto.
  - exists w.
    destruct (live_entry now (task_key task_id) w) as [[[n|t|r] ex]|]; simpl; auto.
Qed.

Lemma not_owner_mismatch t caller : td_user_id t <> Some caller -> not_owner t caller = true.
Proof.
  unfold not_owner. intros H. destruct (td_user_id t) as [o|]; [|reflexivity].
  apply negb_true_iff, String.eqb_neq. congruence.
Qed.

Definition not_found : response := error_response 404 msg_task_not_found.

Lemma status_of_info now caller task_id w o w' :
  get_task_info now task_id w = (Ret o, w') ->
  (o = None \/ exists t, o = Some t /\ td_user_id t <> Some caller) ->
  fst (get_task_status now caller task_id w) = not_found.
Proof.
  intros Hinfo Ho. unfold get_task_status, endpoint, get_task_status_try, bind.
  rewrite Hinfo. destruct Ho as [-> | (t & -> & Ht)]; [reflexivity|].
  rewrite (not_owner_mismatch t caller Ht). reflexivity.
Qed.

Lemma result_of_info now caller task_id w o w' :
  get_task_info now task_id w = (Ret o, w') ->
  (o = None \/ exists t, o = Some t /\ td_user_id t <> Some caller) ->
  fst (get_task_result now caller task_id w) = not_found.
Proof.
  intros Hinfo Ho. unfold get_task_result, endpoint, get_task_result_try, bind.
  rewrite Hinfo. destruct Ho as [-> | (t & -> & Ht)]; [reflexivity|].
  rewrite (not_owner_mismatch t caller Ht). reflexivity.
Qed.

Lemma polling_not_found now caller task_id w :
  (task_record now task_id w = None \/
   exists t, task_record now task_id w = Some t /\ td_user_id t <> Some caller) ->
  fst (get_task_status now caller task_id w) = not_found /\
  fst (get_task_result now caller task_id w) = not_found.
Proof.
  intros H.
  destruct (get_task_info_cases now task_id w) as (w' & _ & _ & [Hi | Hi]).
  - split; [eapply status_of_info | eapply result_of_info]; eauto.
  - split; [eapply status_of_info | eapply result_of_info]; eauto.
Qed.

(** ** Authorization isolation *)

(** C7: when the stored task belongs to another user, [get_task_status]
    and [get_task_result] answer exactly what they answer for a task id
    with no stored task: status 404 with the body
    [{'error': 'Tarefa nao encontrada'}] (with its accent). This holds
    whatever the store does, faults included. *)
Theorem C7_owner_mismatch_looks_like_absence :
  forall now caller task_id unknown_id (w w' : world) (t : task_data),
    task_record now task_id w = Some t ->
    td_user_id t <> Some caller ->
    task_record now unknown_id w' = None ->
    fst (get_task_status now caller task_id w)
      = fst (get_task_status now caller unknown_id w') /\
    fst (get_task_result now caller task_id w)
      = fst (get_task_result now caller unknown_id w') /\
    fst (get_task_status now caller task_id w) = Response 404 (JError msg_task_not_found) /\
    fst (get_task_result now caller task_id w) = Response 404 (JError msg_task_not_found).
Proof.
  intros now caller task_id unknown_id w w' t Ht Howner Hnone.
  destruct (polling_not_found now caller task_id w) as [Hs Hr]; [eauto|].
  destruct (polling_not_found now caller unknown_id w') as [Hs' Hr']; [eauto|].
  rewrite Hs, Hr, Hs', Hr'. repeat split; reflexivity.
Qed.

(** A task finished by a worker, for the examples. *)
Definition submitted_world : world :=
  snd (generate_image (demo_env 0 "t1") "demo_user" (Some red_cube) empty_world).

Definition completed_world : world := worker_step (happy 1 5) submitted_world.

Definition completed_task : task_data :=
  TaskData "t1" "completed" 5 (Some "demo_user") (Some "/app/outputs/t1.png") (Some 4) None.

(** C7 on a concrete registry: "premium_user" polls the finished task of
    "demo_user" and gets what an unknown id gets. *)
Lemma C7_owner_mismatch_witness :
  fst (get_task_status 10 "premium_user" "t1" completed_world)
    = fst (get_task_status 10 "premium_user" "t9" empty_world) /\
  fst (get_task_result 10 "premium_user" "t1" completed_world)
    = fst (get_task_result 10 "premium_user" "t9" empty_world) /\
  fst (get_task_status 10 "premium_user" "t1" completed_world)
    = Response 404 (JError msg_task_not_found) /\
  fst (get_task_result 10 "premium_user" "t1" completed_world)
    = Response 404 (JError msg_task_not_found).
Proof.
  apply (C7_owner_mismatch_looks_like_absence
           10 "premium_user" "t1" "t9" completed_world empty_world completed_task).
  - vm_compute. reflexivity.
  - simpl. discriminate.
  - vm_compute. reflexivity.
Defined.

(** ** What the submission endpoints do after validation *)

Arguments generate_cache_key : simpl never.
Arguments estimate_generation_time : simpl never.
Arguments estimate_video_generation_time : simpl never.

Definition image_width (data : image_request) : Z :=
  Z.min (get_default (ir_width data) 512) MAX_IMAGE_SIZE.
Definition image_height (data : image_request) : Z :=
  Z.min (get_default (ir_height data) 512) MAX_IMAGE_SIZE.
Definition image_steps (data : image_request) : Z :=
  get_default (ir_num_inference_steps data) 50.
Definition image_guidance (data : image_request) : pyfloat :=
  get_default (ir_guidance_scale data) default_guidance.

(** The fingerprint of a request, from its effective parameters. *)
Definition image_cache_key (data : image_request) (prompt : string) : string :=
  generate_cache_key prompt (image_width data) (image_height data) (image_steps data)
    (image_guidance data) (ir_seed data) (ir_lora data).

(** The request passes the validation of [generate_image]. *)
Definition image_valid (data : image_request) (prompt : string) : Prop :=
  ir_prompt data = Some prompt /\
  Z.of_nat (String.length prompt) <= 1000 /\
  1 <= image_steps data <= 100.

Definition lora_path_of (env : request_env) (lora_data : option string) : option string :=
  match lora_data with
  | Some l => if falsy lora_data then None else process_lora env l (uuid4 env)
  | None => None
  end.

Definition image_job_of (env : request_env) (user_id : string) (data : image_request)
    (prompt : string) : job :=
  ImageJob (ImageJobArgs (uuid4 env) prompt (image_width data) (image_height data)
              (image_steps data) (image_guidance data) (ir_seed data)
              (lora_path_of env (ir_lora data)) (image_cache_key data prompt) user_id).

(** The part of [generate_image] that follows validation. *)
Definition image_after_validation (env : request_env) (user_id : string)
    (data : image_request) (prompt : string) : M response :=
  cached_result <- get_cached_result (cache_clock env) (image_cache_key data prompt) ;;
  match cached_result with
  | Some cached =>
      ret (ok_response (JCached
             (CachedResponse (uuid4 env) "completed" (rd_image_url cached) true 0)))
  | None =>
      celery_id <- delay (celery_uuid env) (image_job_of env user_id data prompt) ;;
      estimated <- py "OverflowError"
                      (estimate_generation_time (image_width data) (image_height data)
                         (image_steps data)) ;;
      ret (ok_response (JAccepted
             (AcceptedResponse (uuid4 env) "processing" estimated celery_id)))
  end.

Lemma generate_image_try_valid env user_id data prompt :
  image_valid data prompt ->
  generate_image_try env user_id (Some data) =
  (admitted <- check_rate_limit (clock env) (write_clock env) user_id "image" ;;
   if negb admitted then ret (error_response 429 msg_rate_limit)
   else image_after_validation env user_id data prompt).
Proof.
  intros (Hp & Hlen & Hsteps). unfold generate_image_try. rewrite Hp.
  fold (image_steps data).
  replace (1000 <? Z.of_nat (String.length prompt)) with false
    by (symmetry; apply Z.ltb_ge; lia).
  replace (image_steps data <? 1) with false by (symmetry; apply Z.ltb_ge; lia).
  replace (100 <? image_steps data) with false by (symmetry; apply Z.ltb_ge; lia).
  reflexivity.
Qed.

(** ** The rate limiter and the cache when the store fails *)

Lemma check_rate_limit_total now later user_id endpoint_type w :
  exists b w', check_rate_limit now later user_id endpoint_type w = (Ret b, w').
Proof.
  unfold check_rate_limit, try_except, ret.
  destruct (check_rate_limit_try now later user_id endpoint_type w) as [[b|e] w']; eauto.
Qed.

Lemma get_cached_result_total now key w :
  exists o w', get_cached_result now key w = (Ret o, w').
Proof.
  unfold get_cached_result, try_except, ret.
  destruct (get_cached_result_try now key w) as [[o|e] w']; eauto.
Qed.

Lemma check_rate_limit_down now later user_id endpoint_type w fs :
  redis_faults w = true :: fs ->
  check_rate_limit now later user_id endpoint_type w = (Ret true, with_faults fs w).
Proof.
  intros H. unfold check_rate_limit, try_except, check_rate_limit_try, bind, redis_get, command.
  rewrite H. reflexivity.
Qed.

Lemma get_cached_result_down now key w fs :
  redis_faults w = true :: fs ->
  get_cached_result now key w = (Ret None, with_faults fs w).
Proof.
  intros H. unfold get_cached_result, try_except, get_cached_result_try, bind, redis_get, command.
  rewrite H. reflexivity.
Qed.

(** Publishing a job: it raises when the store is down and queues the
    job otherwise. *)
Lemma delay_down celery_id j w fs :
  redis_faults w = true :: fs ->
  delay celery_id j w = (Raise "ConnectionError", with_faults fs w).
Proof. intros H. unfold delay, command. rewrite H. reflexivity. Qed.

Lemma delay_up celery_id j w :
  store_is_down w = false ->
  delay celery_id j w = (Ret celery_id, enqueue j (with_faults (tail (redis_faults w)) w)).
Proof.
  unfold store_is_down, delay, command. destruct w as [kv fs log q files]. cbn [redis_faults].
  destruct fs as [|[] fs]; [reflexivity | discriminate | reflexivity].
Qed.


Lemma delay_cases celery_id j w :
  (store_is_down w = true /\
   exists fs, redis_faults w = true :: fs /\
              delay celery_id j w = (Raise "ConnectionError", with_faults fs w)) \/
  (store_is_down w = false /\
   delay celery_id j w = (Ret celery_id, enqueue j (with_faults (tail (redis_faults w)) w))).
Proof.
  destruct (store_is_down w) eqn:Hd.
  - left. split; [reflexivity|]. unfold store_is_down in Hd.
    destruct (redis_faults w) as [|[] fs] eqn:Hf; try discriminate.
    exists fs. split; [reflexivity|]. apply delay_down. exact Hf.
  - right. split; [reflexivity|]. apply delay_up. exact Hd.
Qed.

(** C5, what the code does where the claim fails. The broker of the job
    queue is the same Redis. When the store is down for the whole
    request, the rate limiter admits and the cache reports a miss, but
    publishing the job raises as well: the valid red-cube request is
    answered 500 and nothing is queued, so it does not degrade to a
    fresh generation. *)
Lemma C5_store_down_answers_500 :
  generate_image (demo_env 0 "t1") "demo_user" (Some red_cube)
    (with_faults [true; true; true] empty_world)
  = (Response 500 (JError msg_internal), empty_world) /\
  celery_queue (snd (generate_image (demo_env 0 "t1") "demo_user" (Some red_cube)
                       (with_faults [true; true; true] empty_world))) = [].
Proof. vm_compute. split; reflexivity. Qed.

(** C5, as amended: a store command that raises inside
    [check_rate_limit] or [get_cached_result] is absorbed there.
    Whatever the command and whatever it raises, the rate limiter
    answers [True] and the cache answers [None], and neither call ever
    raises. A valid image request that finds the store down for both
    round trips is admitted, misses the cache and goes on to publish the
    job: when the broker takes it, the job is queued for a fresh
    generation and the answer is 200; when the store is still down, the
    publishing raises, the answer is 500 and nothing is queued. *)
Theorem C5_store_failures_are_absorbed :
  (forall now later user_id endpoint_type w e w',
     check_rate_limit_try now later user_id endpoint_type w = (Raise e, w') ->
     check_rate_limit now later user_id endpoint_type w = (Ret true, w')) /\
  (forall now cache_key w e w',
     get_cached_result_try now cache_key w = (Raise e, w') ->
     get_cached_result now cache_key w = (Ret None, w')) /\
  (forall now later user_id endpoint_type w,
     exists b w', check_rate_limit now later user_id endpoint_type w = (Ret b, w')) /\
  (forall now cache_key w,
     exists o w', get_cached_result now cache_key w = (Ret o, w')) /\
  (forall env user_id data prompt w fs estimated,
     image_valid data prompt ->
     estimate_generation_time (image_width data) (image_height data) (image_steps data)
       = Some estimated ->
     redis_faults w = true :: true :: fs ->
     store_is_down (with_faults fs w) = false ->
     generate_image env user_id (Some data) w =
       (Response 200 (JAccepted (AcceptedResponse (uuid4 env) "processing" estimated
                                   (celery_uuid env))),
        enqueue (image_job_of env user_id data prompt) (with_faults (tail fs) w))) /\
  (forall env user_id data prompt w fs,
     image_valid data prompt ->
     redis_faults w = true :: true :: true :: fs ->
     generate_image env user_id (Some data) w
       = (Response 500 (JError msg_internal), with_faults fs w)).
Proof.
  split; [|split; [|split; [|split; [|split]]]].
  - intros now later user_id endpoint_type w e w' H.
    unfold check_rate_limit, try_except. rewrite H. reflexivity.
  - intros now cache_key w e w' H.
    unfold get_cached_result, try_except. rewrite H. reflexivity.
  - intros. apply check_rate_limit_total.
  - intros. apply get_cached_result_total.
  - intros env user_id data prompt w fs estimated Hvalid Hest Hdown Hup.
    unfold generate_image, endpoint.
    rewrite (generate_image_try_valid env user_id data prompt Hvalid).
    rewrite (bind_ret _ _ _ _ _ (check_rate_limit_down _ _ _ _ w (true :: fs) Hdown)).
    cbn [negb]. unfold image_after_validation.
    rewrite (bind_ret _ _ _ _ _
               (get_cached_result_down _ _ (with_faults (true :: fs) w) fs eq_refl)).
    rewrite (bind_ret _ _ _ _ _
               (delay_up (celery_uuid env) (image_job_of env user_id data prompt)
                  (with_faults fs (with_faults (true :: fs) w)) Hup)).
    unfold bind, py. rewrite Hest. reflexivity.
  - intros env user_id data prompt w fs Hvalid Hdown.
    unfold generate_image, endpoint.
    rewrite (generate_image_try_valid env user_id data prompt Hvalid).
    rewrite (bind_ret _ _ _ _ _ (check_rate_limit_down _ _ _ _ w (true :: true :: fs) Hdown)).
    cbn [negb]. unfold image_after_validation.
    rewrite (bind_ret _ _ _ _ _
               (get_cached_result_down _ _ (with_faults (true :: true :: fs) w) (true :: fs)
                  eq_refl)).
    rewrite (bind_raise _ _ _ _ _
               (delay_down (celery_uuid env) (image_job_of env user_id data prompt)
                  (with_faults (true :: fs) (with_faults (true :: true :: fs) w)) fs eq_refl)).
    reflexivity.
Qed.

(** C5 on the red-cube request, with the store down for the two round
    trips of the rate limiter and the cache and back for the publishing. *)
Lemma C5_store_failures_witness :
  generate_image (demo_env 0 "t1") "demo_user" (Some red_cube)
    (with_faults [true; true] empty_world) =
  (Response 200 (JAccepted (AcceptedResponse "t1" "processing" 10 "celery-t1")),
   enqueue (image_job_of (demo_env 0 "t1") "demo_user" red_cube "a red cube")
     (with_faults (tail []) (with_faults [true; true] empty_world))).
Proof.
  apply (proj1 (proj2 (proj2 (proj2 (proj2 C5_store_failures_are_absorbed))))
           (demo_env 0 "t1") "demo_user" red_cube "a red cube"
           (with_faults [true; true] empty_world) [] 10).
  - unfold image_valid. repeat split; try reflexivity; vm_compute; discriminate.
  - vm_compute. reflexivity.
  - reflexivity.
  - reflexivity.
Defined.

(** ** The fixed-window rate limiter on a store that answers *)


Lemma check_rate_limit_first now later user_id endpoint_type w :
  redis_faults w = [] ->
  live_entry now (rate_key user_id endpoint_type) w = None ->
  check_rate_limit now later user_id endpoint_type w =
    (Ret true, write (rate_key user_id endpoint_type)
                 (Entry (VInt 1) (Some (later + rate_limit_window))) w).
Proof.
  intros Hq Hnone.
  unfold check_rate_limit, try_except, check_rate_limit_try, bind, redis_get, redis_setex.
  rewrite (command_quiet _ w Hq), Hnone. simpl.
  rewrite command_quiet by exact Hq. reflexivity.
Qed.

(** What INCR leaves of a counter [c] with expiry [t] when it reaches
    the store at [later]: the counter plus one, or, when the counter has
    expired in the meantime, a new counter at 1 that never expires. *)
Definition incremented (later c : Z) (t : option Z) : entry :=
  if live later (Entry (VInt c) t) then Entry (VInt (c + 1)) t else Entry (VInt 1) None.

Lemma live_entry_later now later key w e :
  live_entry now key w = Some e ->
  live_entry later key w = if live later e then Some e else None.
Proof.
  unfold live_entry. destruct (redis_kv w !! key) as [e'|]; [|discriminate].
  destruct (live now e'); [|discriminate]. intros [= ->]. reflexivity.
Qed.

Lemma check_rate_limit_next now later user_id endpoint_type w c t :
  redis_faults w = [] ->
  live_entry now (rate_key user_id endpoint_type) w = Some (Entry (VInt c) t) ->
  c < rate_limit_of user_id ->
  check_rate_limit now later user_id endpoint_type w =
    (Ret true, write (rate_key user_id endpoint_type) (incremented later c t) w).
Proof.
  intros Hq Hlive Hc.
  unfold check_rate_limit, try_except, check_rate_limit_try, bind, redis_get, redis_incr.
  rewrite (command_quiet _ w Hq), Hlive. simpl.
  replace (rate_limit_of user_id <=? c) with false by (symmetry; apply Z.leb_gt; lia).
  rewrite command_quiet by exact Hq.
  rewrite (live_entry_later now later _ w _ Hlive). unfold incremented.
  destruct (live later (Entry (VInt c) t)); reflexivity.
Qed.

Lemma check_rate_limit_full now later user_id endpoint_type w c t :
  redis_faults w = [] ->
  live_entry now (rate_key user_id endpoint_type) w = Some (Entry (VInt c) t) ->
  rate_limit_of user_id <= c ->
  check_rate_limit now later user_id endpoint_type w = (Ret false, w).
Proof.
  intros Hq Hlive Hc.
  unfold check_rate_limit, try_except, check_rate_limit_try, bind, redis_get.
  rewrite (command_quiet _ w Hq), Hlive. simpl.
  replace (rate_limit_of user_id <=? c) with true by (symmetry; apply Z.leb_le; lia).
  reflexivity.
Qed.

Lemma live_entry_write_same now key e w :
  live now e = true -> live_entry now key (write key e w) = Some e.
Proof.
  intros H. unfold live_entry, write. simpl. rewrite lookup_insert_eq, H. reflexivity.
Qed.

Lemma live_entry_stored now key e w :
  redis_kv w !! key = Some e -> live now e = true -> live_entry now key w = Some e.
Proof. intros H1 H2. unfold live_entry. rewrite H1, H2. reflexivity. Qed.


(** A run of requests of one user on one endpoint; each request is
    given by the time of its GET and the time of the command that
    follows it. *)
Fixpoint admit_all (user_id endpoint_type : string) (times : list (Z * Z)) (w : world)
  : list bool * world :=
  match times with
  | [] => ([], w)
  | (t, t') :: ts =>
      match check_rate_limit t t' user_id endpoint_type w with
      | (Ret b, w') =>
          let (bs, w'') := admit_all user_id endpoint_type ts w' in (b :: bs, w'')
      | (Raise _, w') => ([], w')
      end
  end.



(** The world of the two requests below: the first opens a window that
    closes at time 60; the GET of the second reaches the store at 59,
    its INCR at 60. *)
Definition straddled_world : world :=
  snd (admit_all "demo_user" "image" [(0, 0); (59, 60)] empty_world).

(** C4, the code on the run where it misses the claim. The GET and the
    INCR of a request are two round trips. When the counter expires
    between them, INCR creates it again at 1 with no expiry: the window
    never closes. The request that comes long after the window has
    elapsed is admitted with the counter going to 2, not reset to 1; and
    once ten requests were admitted, "demo_user" is refused whatever the
    time. *)
Lemma C4_window_that_never_closes :
  redis_kv straddled_world !! rate_key "demo_user" "image" = Some (Entry (VInt 1) None) /\
  check_rate_limit 1000 1000 "demo_user" "image" straddled_world
    = (Ret true, write (rate_key "demo_user" "image") (Entry (VInt 2) None) straddled_world) /\
  fst (admit_all "demo_user" "image" (repeat (1000, 1000) 9 ++ [(1000000, 1000000)])
         straddled_world)
    = repeat true 9 ++ [false].
Proof. vm_compute. repeat split; reflexivity. Qed.



(** ** What a call leaves untouched *)

(** [w'] differs from [w] at most in the fault schedule, in the value
    under [key] and in writes of counters under [key]. *)
Definition counter_write (key : string) (kv : string * rval) : Prop :=
  exists n, kv = (key, VInt n).

Definition only_counter (key : string) (w w' : world) : Prop :=
  celery_queue w' = celery_queue w /\
  output_files w' = output_files w /\
  (forall k, k <> key -> redis_kv w' !! k = redis_kv w !! k) /\
  exists l, redis_log w' = redis_log w ++ l /\ Forall (counter_write key) l.

Lemma only_counter_refl key w : only_counter key w w.
Proof.
  repeat split. exists []. rewrite app_nil_r. split; [reflexivity | constructor].
Qed.

Lemma only_counter_faults key fs w : only_counter key w (with_faults fs w).
Proof.
  repeat split. exists []. simpl. rewrite app_nil_r. split; [reflexivity | constructor].
Qed.

Lemma only_counter_trans key w1 w2 w3 :
  only_counter key w1 w2 -> only_counter key w2 w3 -> only_counter key w1 w3.
Proof.
  intros (Hq1 & Hf1 & Hk1 & l1 & Hl1 & HF1) (Hq2 & Hf2 & Hk2 & l2 & Hl2 & HF2).
  repeat split; try congruence.
  - intros k Hk. rewrite Hk2, Hk1; auto.
  - exists (l1 ++ l2). rewrite Hl2, Hl1, app_assoc. split; [reflexivity|].
    apply Forall_app; auto.
Qed.

Lemma only_counter_write key n t w : only_counter key w (write key (Entry (VInt n) t) w).
Proof.
  repeat split.
  - intros k Hk. unfold write. simpl. apply lookup_insert_ne. congruence.
  - exists [(key, VInt n)]. split; [reflexivity|]. repeat constructor. exists n. reflexivity.
Qed.

Lemma only_counter_after_faults key fs w w' :
  only_counter key (with_faults fs w) w' -> only_counter key w w'.
Proof. apply only_counter_trans, only_counter_faults. Qed.

(** The body of [check_rate_limit] once its read has answered. *)
Lemma check_rate_limit_frame_read now later user_id endpoint_type w :
  only_counter (rate_key user_id endpoint_type) w
    (snd (try_except
            (match value <$> live_entry now (rate_key user_id endpoint_type) w with
             | None =>
                 redis_setex later (rate_key user_id endpoint_type) rate_limit_window (VInt 1) ;;;
                 ret true
             | Some (VInt current_count) =>
                 if rate_limit_of user_id <=? current_count then ret false
                 else redis_incr later (rate_key user_id endpoint_type) ;;; ret true
             | Some _ => raise "ValueError"
             end) (fun _ => ret true) w)).
Proof.
  assert (Hincr : forall w0, redis_kv w0 = redis_kv w -> redis_log w0 = redis_log w ->
            celery_queue w0 = celery_queue w -> output_files w0 = output_files w ->
            only_counter (rate_key user_id endpoint_type) w
              (snd (match live_entry later (rate_key user_id endpoint_type) w0 with
                    | None => (Ret 1, write (rate_key user_id endpoint_type)
                                        (Entry (VInt 1) None) w0)
                    | Some (Entry (VInt n) t) =>
                        (Ret (n + 1), write (rate_key user_id endpoint_type)
                                        (Entry (VInt (n + 1)) t) w0)
                    | Some _ => (Raise "ResponseError", w0)
                    end))).
  { intros w0 Hkv Hlog Hqu Hfi.
    assert (H0 : only_counter (rate_key user_id endpoint_type) w w0).
    { repeat split; try congruence. exists []. rewrite app_nil_r. split; [congruence | constructor]. }
    destruct (live_entry later (rate_key user_id endpoint_type) w0) as [[[n|t|r] ex]|];
      cbn [snd]; try exact H0;
      (eapply only_counter_trans; [exact H0 | apply only_counter_write]). }
  unfold try_except, bind, redis_setex, redis_incr, command, ret, raise.
  destruct (live_entry now (rate_key user_id endpoint_type) w) as [[[n|t|r] ex]|] eqn:Hlive;
    cbn [fmap option_fmap option_map value].
  - destruct (rate_limit_of user_id <=? n); [apply only_counter_refl|].
    destruct (redis_faults w) as [|[] fs]; cbn [snd].
    + specialize (Hincr w eq_refl eq_refl eq_refl eq_refl).
      destruct (live_entry later (rate_key user_id endpoint_type) w) as [[[n'|t'|r'] ex']|];
        cbn [snd] in *; exact Hincr.
    + apply only_counter_faults.
    + specialize (Hincr (with_faults fs w) eq_refl eq_refl eq_refl eq_refl).
      destruct (live_entry later (rate_key user_id endpoint_type) (with_faults fs w))
        as [[[n'|t'|r'] ex']|]; cbn [snd] in *; exact Hincr.
  - apply only_counter_refl.
  - apply only_counter_refl.
  - destruct (redis_faults w) as [|[] fs]; cbn [snd].
    + apply only_counter_write.
    + apply only_counter_faults.
    + eapply only_counter_trans; [apply only_counter_faults | apply only_counter_write].
Qed.

Lemma check_rate_limit_frame now later user_id endpoint_type w :
  only_counter (rate_key user_id endpoint_type) w
    (snd (check_rate_limit now later user_id endpoint_type w)).
Proof.
  pose proof (check_rate_limit_frame_read now later user_id endpoint_type) as Hread.
  unfold check_rate_limit, check_rate_limit_try, redis_get.
  unfold try_except at 1. unfold bind at 1. unfold command at 1.
  unfold try_except in Hread.
  destruct (redis_faults w) as [|[] fs] eqn:Hf.
  - apply Hread.
  - apply only_counter_faults.
  - eapply only_counter_after_faults. apply Hread.
Qed.

(** The cache lookup changes nothing but the fault schedule. *)
Lemma get_cached_result_frame now key w :
  exists fs, snd (get_cached_result now key w) = with_faults fs w.
Proof.
  unfold get_cached_result, try_except, get_cached_result_try, bind, redis_get, command,
    ret, raise.
  destruct (redis_faults w) as [|[] fs] eqn:Hf; simpl.
  - exists []. rewrite <- Hf.
    destruct (live_entry now key w) as [[[?|?|?] ?]|]; simpl; destruct w; reflexivity.
  - exists fs. reflexivity.
  - exists fs. rewrite live_entry_with_faults.
    destruct (live_entry now key w) as [[[?|?|?] ?]|]; reflexivity.
Qed.

(** The three classes of keys never collide. *)
Lemma task_key_not_rate_key task_id user_id endpoint_type :
  task_key task_id <> rate_key user_id endpoint_type.
Proof. unfold task_key, rate_key. simpl. discriminate. Qed.

Lemma cache_key_not_rate_key prompt width height steps guidance seed lora user_id endpoint_type :
  generate_cache_key prompt width height steps guidance seed lora
    <> rate_key user_id endpoint_type.
Proof. unfold generate_cache_key, rate_key. simpl. discriminate. Qed.

Lemma task_key_not_cache_key task_id prompt width height steps guidance seed lora :
  task_key task_id <> generate_cache_key prompt width height steps guidance seed lora.
Proof. unfold generate_cache_key, task_key. simpl. discriminate. Qed.

(** ** The shape of a submission *)

(** [generate_image] is the rate-limit check followed by one of three
    things: a 429, a 400 of the validation, or the validated tail. *)
Lemma generate_image_cases env user_id data w :
  exists b w1,
    check_rate_limit (clock env) (write_clock env) user_id "image" w = (Ret b, w1) /\
    ((b = false /\
      generate_image env user_id data w = (error_response 429 msg_rate_limit, w1)) \/
     (b = true /\
      (exists msg, generate_image env user_id data w = (error_response 400 msg, w1)) /\
      (forall d prompt, data = Some d -> ~ image_valid d prompt)) \/
     (b = true /\
      exists d prompt, data = Some d /\ image_valid d prompt /\
        generate_image env user_id data w
          = endpoint (image_after_validation env user_id d prompt) w1)).
Proof.
  destruct (check_rate_limit_total (clock env) (write_clock env) user_id "image" w) as (b & w1 & Hc).
  exists b, w1. split; [exact Hc|].
  destruct b.
  2:{ left. split; [reflexivity|]. unfold generate_image, endpoint, generate_image_try.
      rewrite (bind_ret _ _ _ _ _ Hc). reflexivity. }
  right.
  destruct data as [d|].
  2:{ left. split; [reflexivity|]. split; [|intros ? ? [=]].
      exists msg_prompt_required. unfold generate_image, endpoint, generate_image_try.
      rewrite (bind_ret _ _ _ _ _ Hc). reflexivity. }
  destruct (ir_prompt d) as [prompt|] eqn:Hp.
  2:{ left. split; [reflexivity|]. split.
      - exists msg_prompt_required. unfold generate_image, endpoint, generate_image_try.
        rewrite (bind_ret _ _ _ _ _ Hc). cbn [negb]. rewrite Hp. reflexivity.
      - intros d' p' [= <-] (Hp' & _). congruence. }
  destruct (1000 <? Z.of_nat (String.length prompt)) eqn:Hlen.
  { left. split; [reflexivity|]. split.
    - exists msg_prompt_too_long. unfold generate_image, endpoint, generate_image_try.
      rewrite (bind_ret _ _ _ _ _ Hc). cbn [negb]. rewrite Hp, Hlen. reflexivity.
    - intros d' p' [= <-] (Hp' & Hl & _). apply Z.ltb_lt in Hlen.
      assert (p' = prompt) by congruence. subst. lia. }
  destruct ((image_steps d <? 1) || (100 <? image_steps d)) eqn:Hsteps.
  { left. split; [reflexivity|]. split.
    - exists msg_steps_range. unfold generate_image, endpoint, generate_image_try.
      rewrite (bind_ret _ _ _ _ _ Hc). cbn [negb]. rewrite Hp, Hlen.
      fold (image_steps d). rewrite Hsteps. reflexivity.
    - intros d' p' [= <-] (_ & _ & Hs).
      apply orb_true_iff in Hsteps. destruct Hsteps as [H|H]; apply Z.ltb_lt in H; lia. }
  right. split; [reflexivity|]. exists d, prompt.
  assert (Hvalid : image_valid d prompt).
  { apply Z.ltb_ge in Hlen. apply orb_false_iff in Hsteps. destruct Hsteps as [H1 H2].
    apply Z.ltb_ge in H1, H2. repeat split; auto; lia. }
  split; [reflexivity|]. split; [exact Hvalid|].
  unfold generate_image, endpoint.
  rewrite (generate_image_try_valid env user_id d prompt Hvalid).
  rewrite (bind_ret _ _ _ _ _ Hc). reflexivity.
Qed.

(** The validated tail: a cache hit answers at once; a miss publishes
    the job, and the answer is 500 when the publishing raises or, the
    job queued, when the estimate does. *)
Lemma image_after_validation_cases env user_id d prompt w1 :
  exists o fs,
    get_cached_result (cache_clock env) (image_cache_key d prompt) w1
      = (Ret o, with_faults fs w1) /\
    ((exists cached,
        o = Some cached /\
        endpoint (image_after_validation env user_id d prompt) w1
          = (Response 200 (JCached (CachedResponse (uuid4 env) "completed"
                                      (rd_image_url cached) true 0)),
             with_faults fs w1)) \/
     (o = None /\ store_is_down (with_faults fs w1) = true /\
      exists fs',
        endpoint (image_after_validation env user_id d prompt) w1
          = (error_response 500 msg_internal, with_faults fs' w1)) \/
     (o = None /\ store_is_down (with_faults fs w1) = false /\
      endpoint (image_after_validation env user_id d prompt) w1
        = (match estimate_generation_time (image_width d) (image_height d) (image_steps d) with
           | Some estimated =>
               Response 200 (JAccepted (AcceptedResponse (uuid4 env) "processing" estimated
                                          (celery_uuid env)))
           | None => error_response 500 msg_internal
           end,
           enqueue (image_job_of env user_id d prompt) (with_faults (tail fs) w1)))).
Proof.
  destruct (get_cached_result_total (cache_clock env) (image_cache_key d prompt) w1)
    as (o & w2 & Hg).
  destruct (get_cached_result_frame (cache_clock env) (image_cache_key d prompt) w1)
    as (fs & Hfs).
  rewrite Hg in Hfs. simpl in Hfs. subst w2.
  exists o, fs. split; [exact Hg|].
  unfold endpoint, image_after_validation. rewrite (bind_ret _ _ _ _ _ Hg).
  destruct o as [cached|]; [left; eauto|]. right.
  destruct (delay_cases (celery_uuid env) (image_job_of env user_id d prompt)
              (with_faults fs w1)) as [(Hd & fs' & _ & Hrun) | (Hd & Hrun)].
  - left. split; [reflexivity|]. split; [exact Hd|]. exists fs'.
    rewrite (bind_raise _ _ _ _ _ Hrun). reflexivity.
  - right. split; [reflexivity|]. split; [exact Hd|].
    rewrite (bind_ret _ _ _ _ _ Hrun). unfold bind, py.
    destruct (estimate_generation_time (image_width d) (image_height d) (image_steps d));
      reflexivity.
Qed.

(** What the cache answers is what the store holds. *)
Lemma get_cached_result_hit now key w r w' :
  get_cached_result now key w = (Ret (Some r), w') ->
  exists t, redis_kv w !! key = Some (Entry (VResult r) t) /\ live now (Entry (VResult r) t) = true.
Proof.
  unfold get_cached_result, try_except, get_cached_result_try, bind, redis_get, command,
    ret, raise.
  assert (Hl : forall w0, redis_kv w0 = redis_kv w ->
            forall o, value <$> live_entry now key w0 = Some (VResult o) ->
            exists t, redis_kv w !! key = Some (Entry (VResult o) t)
                      /\ live now (Entry (VResult o) t) = true).
  { intros w0 Hkv o. unfold live_entry. rewrite Hkv.
    destruct (redis_kv w !! key) as [[v t]|]; [|discriminate].
    destruct (live now (Entry v t)) eqn:Hlive; [|discriminate].
    simpl. intros [= ->]. eauto. }
  destruct (redis_faults w) as [|[] fs]; simpl.
  - destruct (value <$> live_entry now key w) as [[?|?|?]|] eqn:E; simpl; intros [= <- <-].
    eapply Hl; eauto.
  - discriminate.
  - destruct (value <$> live_entry now key (with_faults fs w)) as [[?|?|?]|] eqn:E; simpl;
      intros [= <- <-].
    eapply Hl; [|exact E]. reflexivity.
Qed.

Lemma get_cached_result_quiet now key w r t :
  redis_faults w = [] ->
  redis_kv w !! key = Some (Entry (VResult r) t) ->
  live now (Entry (VResult r) t) = true ->
  get_cached_result now key w = (Ret (Some r), w).
Proof.
  intros Hq Hkv Hlive.
  unfold get_cached_result, try_except, get_cached_result_try, bind, redis_get.
  rewrite (command_quiet _ w Hq). rewrite (live_entry_stored _ _ _ _ Hkv Hlive). reflexivity.
Qed.

(** *** Video submissions *)

Definition video_width (data : video_request) : Z :=
  Z.min (get_default (vr_width data) 512) MAX_IMAGE_SIZE.
Definition video_height (data : video_request) : Z :=
  Z.min (get_default (vr_height data) 512) MAX_IMAGE_SIZE.
Definition video_fps (data : video_request) : Z := get_default (vr_fps data) 24.

(** The duration test of [generate_video], on the clamped duration. *)
Definition duration_rejected (duration : PyFloat64.float) : bool :=
  PrimFloat.leb duration PrimFloat.zero
  || PrimFloat.ltb (PyFloat64.of_int MAX_VIDEO_DURATION) duration.

(** The request passes the validation of [generate_video]. *)
Definition video_valid (data : video_request) (prompt : string) (raw : PyFloat64.float) : Prop :=
  vr_prompt data = Some prompt /\
  vr_duration data = Some raw /\
  duration_rejected (clamp_duration raw) = false /\
  1 <= video_fps data <= 60.

Definition video_job_of (env : request_env) (user_id : string) (data : video_request)
    (prompt : string) (raw : PyFloat64.float) : job :=
  VideoJob (VideoJobArgs (uuid4 env) prompt (clamp_duration raw) (video_width data)
              (video_height data) (video_fps data) (vr_seed data)
              (lora_path_of env (vr_lora data)) user_id).

(** The part of [generate_video] that follows validation. *)
Definition video_after_validation (env : request_env) (user_id : string)
    (data : video_request) (prompt : string) (raw : PyFloat64.float) : M response :=
  celery_id <- delay (celery_uuid env) (video_job_of env user_id data prompt raw) ;;
  estimated <- py "OverflowError"
                  (estimate_video_generation_time (clamp_duration raw) (video_width data)
                     (video_height data) (video_fps data)) ;;
  ret (ok_response (JAccepted
         (AcceptedResponse (uuid4 env) "processing" estimated celery_id))).

Lemma generate_video_cases env user_id data w :
  exists b w1,
    check_rate_limit (clock env) (write_clock env) user_id "video" w = (Ret b, w1) /\
    ((b = false /\
      generate_video env user_id data w = (error_response 429 msg_rate_limit, w1)) \/
     (b = true /\
      (exists msg, generate_video env user_id data w = (error_response 400 msg, w1)) /\
      (forall d prompt raw, data = Some d -> ~ video_valid d prompt raw)) \/
     (b = true /\
      exists d prompt raw, data = Some d /\ video_valid d prompt raw /\
        generate_video env user_id data w
          = endpoint (video_after_validation env user_id d prompt raw) w1)).
Proof.
  destruct (check_rate_limit_total (clock env) (write_clock env) user_id "video" w) as (b & w1 & Hc).
  exists b, w1. split; [exact Hc|].
  unfold generate_video, endpoint, generate_video_try. rewrite (bind_ret _ _ _ _ _ Hc).
  destruct b; cbn [negb]; [right | left; split; reflexivity].
  destruct data as [d|].
  2:{ left. split; [reflexivity|]. split; [eexists; reflexivity | intros ? ? ? [=]]. }
  destruct (vr_prompt d) as [prompt|] eqn:Hp.
  2:{ left. split; [reflexivity|]. split; [eexists; reflexivity|].
      intros d' p' r' [= <-] (Hp' & _). congruence. }
  destruct (vr_duration d) as [raw|] eqn:Hd.
  2:{ left. split; [reflexivity|]. split; [eexists; reflexivity|].
      intros d' p' r' [= <-] (_ & Hd' & _). congruence. }
  fold (duration_rejected (clamp_duration raw)). fold (video_fps d).
  destruct (duration_rejected (clamp_duration raw)) eqn:Hdur.
  { left. split; [reflexivity|]. split; [eexists; reflexivity|].
    intros d' p' r' [= <-] (_ & Hd' & Hr & _).
    assert (r' = raw) by congruence. subst. congruence. }
  destruct ((video_fps d <? 1) || (60 <? video_fps d)) eqn:Hfps.
  { left. split; [reflexivity|]. split; [eexists; reflexivity|].
    intros d' p' r' [= <-] (_ & _ & _ & Hf).
    apply orb_true_iff in Hfps. destruct Hfps as [H|H]; apply Z.ltb_lt in H; lia. }
  right. split; [reflexivity|]. exists d, prompt, raw.
  split; [reflexivity|]. split; [|reflexivity].
  apply orb_false_iff in Hfps. destruct Hfps as [H1 H2]. apply Z.ltb_ge in H1, H2.
  repeat split; auto; lia.
Qed.

Lemma video_after_validation_cases env user_id d prompt raw w1 :
  (store_is_down w1 = true /\
   exists fs,
     endpoint (video_after_validation env user_id d prompt raw) w1
       = (error_response 500 msg_internal, with_faults fs w1)) \/
  (store_is_down w1 = false /\
   endpoint (video_after_validation env user_id d prompt raw) w1 =
     (match estimate_video_generation_time (clamp_duration raw) (video_width d)
              (video_height d) (video_fps d) with
      | Some estimated =>
          Response 200 (JAccepted (AcceptedResponse (uuid4 env) "processing" estimated
                                     (celery_uuid env)))
      | None => error_response 500 msg_internal
      end,
      enqueue (video_job_of env user_id d prompt raw)
        (with_faults (tail (redis_faults w1)) w1))).
Proof.
  unfold endpoint, video_after_validation.
  destruct (delay_cases (celery_uuid env) (video_job_of env user_id d prompt raw) w1)
    as [(Hd & fs & _ & Hrun) | (Hd & Hrun)].
  - left. split; [exact Hd|]. exists fs. rewrite (bind_raise _ _ _ _ _ Hrun). reflexivity.
  - right. split; [exact Hd|]. rewrite (bind_ret _ _ _ _ _ Hrun). unfold bind, py.
    destruct (estimate_video_generation_time (clamp_duration raw) (video_width d)
                (video_height d) (video_fps d)); reflexivity.
Qed.

(** ** Rejected requests and the quota *)

Lemma image_tail_status env user_id d prompt w1 :
  status_code (fst (endpoint (image_after_validation env user_id d prompt) w1)) <> 400.
Proof.
  destruct (image_after_validation_cases env user_id d prompt w1)
    as (o & fs & _ & [(cached & _ & ->) | [(_ & _ & fs' & ->) | (_ & _ & ->)]]).
  - simpl. discriminate.
  - simpl. discriminate.
  - destruct (estimate_generation_time _ _ _); simpl; discriminate.
Qed.

Lemma video_tail_status env user_id d prompt raw w1 :
  status_code (fst (endpoint (video_after_validation env user_id d prompt raw) w1)) <> 400.
Proof.
  destruct (video_after_validation_cases env user_id d prompt raw w1)
    as [(_ & fs & ->) | (_ & ->)].
  - simpl. discriminate.
  - destruct (estimate_video_generation_time _ _ _ _); simpl; discriminate.
Qed.

(** The live counter at the time of a write: nothing when the entry,
    dead already at [now], is read at [later]. *)
Lemma live_entry_none_later now later key w :
  now <= later -> live_entry now key w = None -> live_entry later key w = None.
Proof.
  intros Hle. unfold live_entry. destruct (redis_kv w !! key) as [e|]; [|reflexivity].
  unfold live. destruct (expiry e) as [t|]; [|discriminate].
  destruct (now <? t) eqn:Hn; [discriminate|]. intros _.
  apply Z.ltb_ge in Hn. replace (later <? t) with false; [reflexivity|].
  symmetry. apply Z.ltb_ge. lia.
Qed.

(** The counter after an admitted request on a store that answers, read
    at the time of the write. *)
Lemma counter_after_admission now later user_id endpoint_type w :
  now <= later ->
  redis_faults w = [] ->
  (live_entry now (rate_key user_id endpoint_type) w = None \/
   exists c t, live_entry now (rate_key user_id endpoint_type) w = Some (Entry (VInt c) t)
               /\ c < rate_limit_of user_id) ->
  exists w',
    check_rate_limit now later user_id endpoint_type w = (Ret true, w') /\
    counter later user_id endpoint_type w'
      = Some (match counter later user_id endpoint_type w with
              | Some c => c + 1
              | None => 1
              end).
Proof.
  intros Hle Hq [Hnone | (c & t & Hlive & Hc)].
  - rewrite (check_rate_limit_first _ later _ _ w Hq Hnone). eexists. split; [reflexivity|].
    unfold counter. rewrite (live_entry_none_later now later _ w Hle Hnone).
    rewrite live_entry_write_same; [reflexivity|].
    simpl. unfold rate_limit_window. apply Z.ltb_lt. lia.
  - rewrite (check_rate_limit_next _ later _ _ w c t Hq Hlive Hc). eexists.
    split; [reflexivity|].
    unfold counter. rewrite (live_entry_later now later _ w _ Hlive). unfold incremented.
    destruct (live later (Entry (VInt c) t)) eqn:Hl.
    + rewrite live_entry_write_same; [reflexivity | exact Hl].
    + rewrite live_entry_write_same; reflexivity.
Qed.

Lemma write_clock_later env : clock env <= write_clock env.
Proof. unfold write_clock. lia. Qed.

(** C10: the rate-limit check runs before any validation. A request that
    [generate_image] or [generate_video] answers with a 400 (missing
    prompt or duration, prompt over 1000 characters, step count outside
    1..100, duration or fps out of range) leaves the state exactly as the
    admitting [check_rate_limit] left it; on a store that answers, for a
    user below the ceiling, every request that fails validation gets a
    400 and the window's counter, read when the write of the rate
    limiter reaches the store, is one higher than before (or 1 when the
    window opens). *)
Theorem C10_rejected_requests_consume_quota :
  (forall env user_id data w resp w',
     generate_image env user_id data w = (resp, w') ->
     status_code resp = 400 ->
     check_rate_limit (clock env) (write_clock env) user_id "image" w = (Ret true, w')) /\
  (forall env user_id data w resp w',
     generate_video env user_id data w = (resp, w') ->
     status_code resp = 400 ->
     check_rate_limit (clock env) (write_clock env) user_id "video" w = (Ret true, w')) /\
  (forall env user_id data w,
     redis_faults w = [] ->
     (live_entry (clock env) (rate_key user_id "image") w = None \/
      exists c t, live_entry (clock env) (rate_key user_id "image") w
                    = Some (Entry (VInt c) t) /\ c < rate_limit_of user_id) ->
     (forall d prompt, data = Some d -> ~ image_valid d prompt) ->
     exists msg w',
       generate_image env user_id data w = (Response 400 (JError msg), w') /\
       counter (write_clock env) user_id "image" w'
         = Some (match counter (write_clock env) user_id "image" w with
                 | Some c => c + 1
                 | None => 1
                 end)) /\
  (forall env user_id data w,
     redis_faults w = [] ->
     (live_entry (clock env) (rate_key user_id "video") w = None \/
      exists c t, live_entry (clock env) (rate_key user_id "video") w
                    = Some (Entry (VInt c) t) /\ c < rate_limit_of user_id) ->
     (forall d prompt raw, data = Some d -> ~ video_valid d prompt raw) ->
     exists msg w',
       generate_video env user_id data w = (Response 400 (JError msg), w') /\
       counter (write_clock env) user_id "video" w'
         = Some (match counter (write_clock env) user_id "video" w with
                 | Some c => c + 1
                 | None => 1
                 end)).
Proof.
  split; [|split; [|split]].
  - intros env user_id data w resp w' Hrun Hcode.
    destruct (generate_image_cases env user_id data w)
      as (b & w1 & Hc & [(-> & H) | [(-> & (msg & H) & _) | (-> & d & p & _ & _ & H)]]).
    + rewrite H in Hrun. injection Hrun as <- <-. discriminate.
    + rewrite H in Hrun. injection Hrun as <- <-. exact Hc.
    + pose proof (image_tail_status env user_id d p w1) as Hne.
      rewrite <- H, Hrun in Hne. contradiction.
  - intros env user_id data w resp w' Hrun Hcode.
    destruct (generate_video_cases env user_id data w)
      as (b & w1 & Hc & [(-> & H) | [(-> & (msg & H) & _) | (-> & d & p & r & _ & _ & H)]]).
    + rewrite H in Hrun. injection Hrun as <- <-. discriminate.
    + rewrite H in Hrun. injection Hrun as <- <-. exact Hc.
    + pose proof (video_tail_status env user_id d p r w1) as Hne.
      rewrite <- H, Hrun in Hne. contradiction.
  - intros env user_id data w Hq Hroom Hinvalid.
    destruct (counter_after_admission _ _ _ _ w (write_clock_later env) Hq Hroom)
      as (w' & Hadm & Hcount).
    destruct (generate_image_cases env user_id data w)
      as (b & w1 & Hc & [(-> & H) | [(-> & (msg & H) & _) | (-> & d & p & Hd & Hv & _)]]).
    + congruence.
    + exists msg, w1. split; [exact H|]. congruence.
    + exfalso. exact (Hinvalid d p Hd Hv).
  - intros env user_id data w Hq Hroom Hinvalid.
    destruct (counter_after_admission _ _ _ _ w (write_clock_later env) Hq Hroom)
      as (w' & Hadm & Hcount).
    destruct (generate_video_cases env user_id data w)
      as (b & w1 & Hc & [(-> & H) | [(-> & (msg & H) & _) | (-> & d & p & r & Hd & Hv & _)]]).
    + congruence.
    + exists msg, w1. split; [exact H|]. congruence.
    + exfalso. exact (Hinvalid d p r Hd Hv).
Qed.

(** A request with 500 inference steps. *)
Definition too_many_steps : image_request :=
  ImageRequest (Some "a red cube") None None None (Some 500) None None.

(** C10 on a fresh window: the request with 500 steps is refused with a
    400 and the counter of "demo_user" is 1. *)
Lemma C10_rejected_requests_witness :
  exists msg w',
    generate_image (demo_env 0 "t1") "demo_user" (Some too_many_steps) empty_world
      = (Response 400 (JError msg), w') /\
    counter (write_clock (demo_env 0 "t1")) "demo_user" "image" w'
      = Some (match counter (write_clock (demo_env 0 "t1")) "demo_user" "image" empty_world with
              | Some c => c + 1
              | None => 1
              end).
Proof.
  apply (proj1 (proj2 (proj2 C10_rejected_requests_consume_quota))
           (demo_env 0 "t1") "demo_user" (Some too_many_steps) empty_world).
  - reflexivity.
  - left. vm_compute. reflexivity.
  - intros d prompt [= <-] (_ & _ & Hs). vm_compute in Hs. destruct Hs as [_ Hs].
    apply Hs. reflexivity.
Defined.

(** ** The registry across a submission *)

Lemma task_record_faults now task_id fs w :
  task_record now task_id (with_faults fs w) = task_record now task_id w.
Proof. reflexivity. Qed.

Lemma task_record_enqueue now task_id j w :
  task_record now task_id (enqueue j w) = task_record now task_id w.
Proof. reflexivity. Qed.

Lemma recorded_states_app task_id l1 l2 :
  recorded_states task_id (l1 ++ l2)
    = recorded_states task_id l1 ++ recorded_states task_id l2.
Proof. unfold recorded_states. apply omap_app. Qed.

Lemma recorded_states_counters task_id key l :
  Forall (counter_write key) l -> recorded_states task_id l = [].
Proof.
  induction 1 as [|kv l (n & ->) _ IH]; [reflexivity|].
  unfold recorded_states in *. simpl. exact IH.
Qed.

Lemma only_counter_registry key w w' :
  only_counter key w w' ->
  (forall now task_id, task_key task_id <> key ->
     task_record now task_id w' = task_record now task_id w) /\
  (forall task_id, recorded_states task_id (redis_log w')
                   = recorded_states task_id (redis_log w)).
Proof.
  intros (_ & _ & Hkv & l & Hlog & Hl). split.
  - intros now task_id Hne. unfold task_record, live_entry. rewrite (Hkv _ Hne). reflexivity.
  - intros task_id. rewrite Hlog, recorded_states_app.
    rewrite (recorded_states_counters task_id key l Hl). apply app_nil_r.
Qed.

(** Whatever a submission answers, it leaves every task record and every
    recorded state as they were. *)
Lemma generate_image_registry env user_id data w :
  let w' := snd (generate_image env user_id data w) in
  (forall now task_id, task_record now task_id w' = task_record now task_id w) /\
  (forall task_id, recorded_states task_id (redis_log w')
                   = recorded_states task_id (redis_log w)).
Proof.
  pose proof (check_rate_limit_frame (clock env) (write_clock env) user_id "image" w) as Hframe.
  destruct (generate_image_cases env user_id data w)
    as (b & w1 & Hc & [(_ & H) | [(_ & (msg & H) & _) | (_ & d & p & _ & _ & H)]]);
    rewrite Hc in Hframe; simpl in Hframe;
    destruct (only_counter_registry _ _ _ Hframe) as [Hrec Hst];
    cbv zeta; rewrite H.
  - split; [intros; apply Hrec, task_key_not_rate_key | exact Hst].
  - split; [intros; apply Hrec, task_key_not_rate_key | exact Hst].
  - destruct (image_after_validation_cases env user_id d p w1)
      as (o & fs & _ & [(cached & _ & ->) | [(_ & _ & fs' & ->) | (_ & _ & ->)]]);
      simpl; (split; [intros; apply Hrec, task_key_not_rate_key | exact Hst]).
Qed.

Lemma generate_video_registry env user_id data w :
  let w' := snd (generate_video env user_id data w) in
  (forall now task_id, task_record now task_id w' = task_record now task_id w) /\
  (forall task_id, recorded_states task_id (redis_log w')
                   = recorded_states task_id (redis_log w)).
Proof.
  pose proof (check_rate_limit_frame (clock env) (write_clock env) user_id "video" w) as Hframe.
  destruct (generate_video_cases env user_id data w)
    as (b & w1 & Hc & [(_ & H) | [(_ & (msg & H) & _) | (_ & d & p & r & _ & _ & H)]]);
    rewrite Hc in Hframe; simpl in Hframe;
    destruct (only_counter_registry _ _ _ Hframe) as [Hrec Hst];
    cbv zeta; rewrite H.
  - split; [intros; apply Hrec, task_key_not_rate_key | exact Hst].
  - split; [intros; apply Hrec, task_key_not_rate_key | exact Hst].
  - destruct (video_after_validation_cases env user_id d p r w1)
      as [(_ & fs & ->) | (_ & ->)];
      simpl; (split; [intros; apply Hrec, task_key_not_rate_key | exact Hst]).
Qed.

(** An accepted image submission: what was answered and what was queued. *)
Lemma generate_image_accepted env user_id data w r w' :
  generate_image env user_id data w = (Response 200 (JAccepted r), w') ->
  exists d prompt estimated,
    data = Some d /\ image_valid d prompt /\
    r = AcceptedResponse (uuid4 env) "processing" estimated (celery_uuid env) /\
    celery_queue w' = celery_queue w ++ [image_job_of env user_id d prompt].
Proof.
  intros Hrun.
  pose proof (check_rate_limit_frame (clock env) (write_clock env) user_id "image" w) as Hframe.
  destruct (generate_image_cases env user_id data w)
    as (b & w1 & Hc & [(_ & H) | [(_ & (msg & H) & _) | (_ & d & p & Hd & Hv & H)]]);
    rewrite Hc in Hframe; simpl in Hframe; rewrite H in Hrun.
  - discriminate.
  - discriminate.
  - destruct (image_after_validation_cases env user_id d p w1)
      as (o & fs & _ & [(cached & _ & Htail) | [(_ & _ & fs' & Htail) | (_ & _ & Htail)]]);
      rewrite Htail in Hrun; try discriminate.
    destruct (estimate_generation_time _ _ _) as [est|]; [|discriminate].
    injection Hrun as <- <-. exists d, p, est.
    split; [exact Hd|]. split; [exact Hv|]. split; [reflexivity|].
    destruct Hframe as (Hq & _). unfold enqueue, with_faults. cbn [celery_queue].
    rewrite Hq. reflexivity.
Qed.

Lemma generate_video_accepted env user_id data w r w' :
  generate_video env user_id data w = (Response 200 (JAccepted r), w') ->
  exists d prompt raw estimated,
    data = Some d /\ video_valid d prompt raw /\
    r = AcceptedResponse (uuid4 env) "processing" estimated (celery_uuid env) /\
    celery_queue w' = celery_queue w ++ [video_job_of env user_id d prompt raw].
Proof.
  intros Hrun.
  pose proof (check_rate_limit_frame (clock env) (write_clock env) user_id "video" w) as Hframe.
  destruct (generate_video_cases env user_id data w)
    as (b & w1 & Hc & [(_ & H) | [(_ & (msg & H) & _) | (_ & d & p & raw & Hd & Hv & H)]]);
    rewrite Hc in Hframe; simpl in Hframe; rewrite H in Hrun.
  - discriminate.
  - discriminate.
  - destruct (video_after_validation_cases env user_id d p raw w1)
      as [(_ & fs & Htail) | (_ & Htail)]; rewrite Htail in Hrun; [discriminate|].
    destruct (estimate_video_generation_time _ _ _ _) as [est|]; [|discriminate].
    injection Hrun as <- <-. exists d, p, raw, est.
    split; [exact Hd|]. split; [exact Hv|]. split; [reflexivity|].
    destruct Hframe as (Hq & _). unfold enqueue, with_faults. cbn [celery_queue].
    rewrite Hq. reflexivity.
Qed.

(** A four-second clip at the default size and frame rate. *)
Definition short_clip : video_request :=
  VideoRequest (Some "a red cube") (Some (PyFloat64.of_int 4)) None None None None None.

(** C1, what the code does where the claim fails: the red-cube request
    and the four-second clip are both accepted on an empty store, and when
    the call has returned the registry holds no record for the returned
    task id, in state [queued] or any other: polling it answers 404. *)
Lemma C1_no_record_after_submission :
  fst (generate_image (demo_env 0 "t1") "demo_user" (Some red_cube) empty_world)
    = Response 200 (JAccepted (AcceptedResponse "t1" "processing" 10 "celery-t1")) /\
  redis_kv (snd (generate_image (demo_env 0 "t1") "demo_user" (Some red_cube) empty_world))
    !! task_key "t1" = None /\
  fst (get_task_status 0 "demo_user" "t1"
         (snd (generate_image (demo_env 0 "t1") "demo_user" (Some red_cube) empty_world)))
    = Response 404 (JError msg_task_not_found) /\
  fst (generate_video (demo_env 0 "t2") "demo_user" (Some short_clip) empty_world)
    = Response 200 (JAccepted (AcceptedResponse "t2" "processing" 96 "celery-t2")) /\
  redis_kv (snd (generate_video (demo_env 0 "t2") "demo_user" (Some short_clip) empty_world))
    !! task_key "t2" = None.
Proof. vm_compute. repeat split; reflexivity. Qed.

(** ** The workers *)

(** [update_task_status] never raises: it writes the record, or nothing
    when the store fails. *)
Definition task_written (now : Z) (task_id status : string) (kw : kwargs) (w : world) : world :=
  write (task_key task_id)
    (Entry (VTask (TaskData task_id status now (kw_user_id kw) (kw_output_path kw)
                     (kw_generation_time kw) (kw_error kw)))
           (Some (now + task_ttl))) w.

Lemma update_task_status_cases now task_id status kw w :
  (redis_faults w = [] /\
   update_task_status now task_id status kw w = (Ret tt, task_written now task_id status kw w)) \/
  (exists fs, redis_faults w = false :: fs /\
     update_task_status now task_id status kw w
       = (Ret tt, task_written now task_id status kw (with_faults fs w))) \/
  (exists fs, redis_faults w = true :: fs /\
     update_task_status now task_id status kw w = (Ret tt, with_faults fs w)).
Proof.
  unfold update_task_status, try_except, redis_setex, command, task_written.
  destruct (redis_faults w) as [|[] fs]; eauto.
Qed.

Lemma cache_result_cases now key r w :
  (redis_faults w = [] /\
   cache_result now key r w = (Ret tt, write key (Entry (VResult r) (Some (now + cache_ttl))) w)) \/
  (exists fs, redis_faults w = false :: fs /\
     cache_result now key r w
       = (Ret tt, write key (Entry (VResult r) (Some (now + cache_ttl))) (with_faults fs w))) \/
  (exists fs, redis_faults w = true :: fs /\
     cache_result now key r w = (Ret tt, with_faults fs w)).
Proof.
  unfold cache_result, try_except, redis_setex, command.
  destruct (redis_faults w) as [|[] fs]; eauto.
Qed.

(** The states a call adds to the history of a task. *)
Definition adds (task_id : string) (w w' : world) (l : list string) : Prop :=
  recorded_states task_id (redis_log w') = recorded_states task_id (redis_log w) ++ l.

Lemma adds_refl task_id w : adds task_id w w [].
Proof. unfold adds. symmetry. apply app_nil_r. Qed.

Lemma adds_faults task_id fs w : adds task_id w (with_faults fs w) [].
Proof. unfold adds. symmetry. apply app_nil_r. Qed.

Lemma adds_trans task_id w1 w2 w3 l1 l2 :
  adds task_id w1 w2 l1 -> adds task_id w2 w3 l2 -> adds task_id w1 w3 (l1 ++ l2).
Proof. unfold adds. intros H1 H2. rewrite H2, H1. symmetry. apply app_assoc. Qed.

Lemma recorded_states_one task_id key t :
  recorded_states task_id [(key, VTask t)]
    = if String.eqb key (task_key task_id) then [td_status t] else [].
Proof. unfold recorded_states. cbn [omap list_omap]. destruct (String.eqb _ _); reflexivity. Qed.

Lemma recorded_states_task_written task_id now status kw w :
  adds task_id w (task_written now task_id status kw w) [status].
Proof.
  unfold adds, task_written, write. cbn [redis_log value].
  rewrite recorded_states_app. f_equal.
  rewrite recorded_states_one, String.eqb_refl. reflexivity.
Qed.

Lemma task_key_inj a b : task_key a = task_key b -> a = b.
Proof. unfold task_key. simpl. intros [= H]. exact H. Qed.

Lemma recorded_states_task_written_other task_id other now status kw w :
  other <> task_id ->
  adds other w (task_written now task_id status kw w) [].
Proof.
  intros Hne. unfold adds, task_written, write. cbn [redis_log value].
  rewrite recorded_states_app. f_equal. rewrite recorded_states_one.
  destruct (String.eqb_spec (task_key task_id) (task_key other)) as [E|E]; [|reflexivity].
  apply task_key_inj in E. congruence.
Qed.

(** One [update_task_status]: the state is recorded, unless the store
    fails; nothing is recorded for another task. *)
Lemma update_task_status_adds now task_id status kw w :
  exists w',
    update_task_status now task_id status kw w = (Ret tt, w') /\
    (adds task_id w w' [status] \/ adds task_id w w' []) /\
    (redis_faults w = [] -> adds task_id w w' [status] /\ redis_faults w' = []) /\
    (forall other, other <> task_id -> adds other w w' []).
Proof.
  destruct (update_task_status_cases now task_id status kw w)
    as [(Hq & ->) | [(fs & Hf & ->) | (fs & Hf & ->)]]; eexists; (split; [reflexivity|]).
  - split; [left; apply recorded_states_task_written|].
    split; [intros _; split; [apply recorded_states_task_written | exact Hq]|].
    intros other Hne. apply recorded_states_task_written_other. exact Hne.
  - split; [left; apply (recorded_states_task_written task_id now status kw (with_faults fs w))|].
    split; [intros Hq; congruence|].
    intros other Hne.
    apply (recorded_states_task_written_other task_id other now status kw (with_faults fs w) Hne).
  - split; [right; apply adds_faults|].
    split; [intros Hq; congruence|].
    intros other Hne. apply adds_faults.
Qed.

Lemma cache_result_adds now key r w :
  exists w',
    cache_result now key r w = (Ret tt, w') /\
    (forall task_id, adds task_id w w' []) /\
    (redis_faults w = [] ->
     redis_faults w' = [] /\ w' = write key (Entry (VResult r) (Some (now + cache_ttl))) w).
Proof.
  destruct (cache_result_cases now key r w)
    as [(Hq & ->) | [(fs & Hf & ->) | (fs & Hf & ->)]]; eexists; (split; [reflexivity|]).
  - split; [|intros _; split; [exact Hq | reflexivity]].
    intros task_id. unfold adds, write. simpl. rewrite recorded_states_app. reflexivity.
  - split; [|intros Hq; congruence].
    intros task_id. unfold adds, write. simpl. rewrite recorded_states_app. reflexivity.
  - split; [|intros Hq; congruence].
    intros task_id. apply adds_faults.
Qed.

(** The first outside call of an image job that raises, if any. *)
Definition image_failure (env : worker_env) (j : image_job) : option string :=
  match (if is_loaded env then None else load_base_model env) with
  | Some e => Some e
  | None =>
      match (if falsy (ij_lora_path j) then None else load_lora env) with
      | Some e => Some e
      | None =>
          match generate env with
          | Some e => Some e
          | None => save env
          end
      end
  end.

Definition image_output_path (j : image_job) : string :=
  os_path_join OUTPUT_DIR (ij_task_id j +:+ ".png").

Definition image_result (env : worker_env) (j : image_job) : result_data :=
  ResultData (result_url (ij_task_id j)) (finished_at env - started_at env).

(** The run of an image job as a straight line: the [processing] update,
    then either the [failed] update, or the file, the cache entry and the
    [completed] update. *)
Lemma generate_image_task_run env j w :
  generate_image_task env j w =
  (let w1 := snd (update_task_status (started_at env) (ij_task_id j) "processing"
                    (Kwargs (Some (ij_user_id j)) None None None) w) in
   match image_failure env j with
   | Some e =>
       (Raise e,
        snd (update_task_status (finished_at env) (ij_task_id j) "failed"
               (Kwargs (Some (ij_user_id j)) None None (Some e)) w1))
   | None =>
       let w2 := save_file (image_output_path j) w1 in
       let w3 := snd (cache_result (finished_at env) (ij_cache_key j) (image_result env j) w2) in
       (Ret (image_result env j),
        snd (update_task_status (finished_at env) (ij_task_id j) "completed"
               (Kwargs (Some (ij_user_id j)) (Some (image_output_path j))
                  (Some (finished_at env - started_at env)) None) w3))
   end).
Proof.
  cbv zeta. unfold generate_image_task, image_failure.
  fold (image_output_path j). fold (image_result env j).
  destruct (update_task_status_adds (started_at env) (ij_task_id j) "processing"
              (Kwargs (Some (ij_user_id j)) None None None) w) as (w1 & H1 & _).
  assert (Hfail : forall e, exists w2,
            update_task_status (finished_at env) (ij_task_id j) "failed"
              (Kwargs (Some (ij_user_id j)) None None (Some e)) w1 = (Ret tt, w2)).
  { intros e. destruct (update_task_status_adds (finished_at env) (ij_task_id j) "failed"
                (Kwargs (Some (ij_user_id j)) None None (Some e)) w1) as (w2 & H2 & _).
    eauto. }
  destruct (cache_result_adds (finished_at env) (ij_cache_key j) (image_result env j)
              (save_file (image_output_path j) w1)) as (w3 & H3 & _).
  destruct (update_task_status_adds (finished_at env) (ij_task_id j) "completed"
              (Kwargs (Some (ij_user_id j)) (Some (image_output_path j))
                 (Some (finished_at env - started_at env)) None) w3) as (w4 & H4 & _).
  unfold try_except, bind, store_file.
  rewrite H1. cbn [snd]. rewrite H3. cbn [snd]. rewrite H4. cbn [snd].
  destruct (is_loaded env); destruct (load_base_model env) as [e1|];
    destruct (falsy (ij_lora_path j)); destruct (load_lora env) as [e2|];
    destruct (generate env) as [e3|]; destruct (save env) as [e4|];
    unfold external, ret, raise; cbv beta iota;
    try (rewrite H3; cbv beta iota; rewrite H4; reflexivity);
    match goal with
    | |- context [update_task_status _ _ "failed" (Kwargs _ _ _ (Some ?e)) w1] =>
        destruct (Hfail e) as (w2 & H2); rewrite H2; reflexivity
    end.
Qed.

(** The first outside call of a video job that raises, if any; a model
    that fails to load is ignored. *)
Definition video_failure (env : worker_env) (j : video_job) : option string :=
  match (if falsy (vj_lora_path j) then None else load_lora env) with
  | Some e => Some e
  | None =>
      match generate env with
      | Some e => Some e
      | None => save env
      end
  end.

Definition video_output_path (j : video_job) : string :=
  os_path_join OUTPUT_DIR (vj_task_id j +:+ ".mp4").

Lemma generate_video_task_run env j w :
  generate_video_task env j w =
  (let w1 := snd (update_task_status (started_at env) (vj_task_id j) "processing"
                    (Kwargs (Some (vj_user_id j)) None None None) w) in
   match video_failure env j with
   | Some e =>
       (Raise e,
        snd (update_task_status (finished_at env) (vj_task_id j) "failed"
               (Kwargs (Some (vj_user_id j)) None None (Some e)) w1))
   | None =>
       (Ret (ResultData (result_url (vj_task_id j)) (finished_at env - started_at env)),
        snd (update_task_status (finished_at env) (vj_task_id j) "completed"
               (Kwargs (Some (vj_user_id j)) (Some (video_output_path j))
                  (Some (finished_at env - started_at env)) None)
               (save_file (video_output_path j) w1)))
   end).
Proof.
  cbv zeta. unfold generate_video_task, video_failure.
  fold (video_output_path j).
  destruct (update_task_status_adds (started_at env) (vj_task_id j) "processing"
              (Kwargs (Some (vj_user_id j)) None None None) w) as (w1 & H1 & _).
  assert (Hfail : forall e, exists w2,
            update_task_status (finished_at env) (vj_task_id j) "failed"
              (Kwargs (Some (vj_user_id j)) None None (Some e)) w1 = (Ret tt, w2)).
  { intros e. destruct (update_task_status_adds (finished_at env) (vj_task_id j) "failed"
                (Kwargs (Some (vj_user_id j)) None None (Some e)) w1) as (w2 & H2 & _).
    eauto. }
  destruct (update_task_status_adds (finished_at env) (vj_task_id j) "completed"
              (Kwargs (Some (vj_user_id j)) (Some (video_output_path j))
                 (Some (finished_at env - started_at env)) None)
              (save_file (video_output_path j) w1)) as (w4 & H4 & _).
  unfold try_except, bind, store_file.
  rewrite H1. cbn [snd]. rewrite H4. cbn [snd].
  destruct (is_loaded env); destruct (load_base_model env) as [e1|];
    destruct (falsy (vj_lora_path j)); destruct (load_lora env) as [e2|];
    destruct (generate env) as [e3|]; destruct (save env) as [e4|];
    unfold external, ret, raise; cbv beta iota;
    try (rewrite H4; reflexivity);
    match goal with
    | |- context [update_task_status _ _ "failed" (Kwargs _ _ _ (Some ?e)) w1] =>
        destruct (Hfail e) as (w2 & H2); rewrite H2; reflexivity
    end.
Qed.

Definition job_task_id (j : job) : string :=
  match j with
  | ImageJob a => ij_task_id a
  | VideoJob a => vj_task_id a
  end.

Lemma adds_save_file task_id path w : adds task_id w (save_file path w) [].
Proof. unfold adds. symmetry. apply app_nil_r. Qed.

(** The history a worker run writes: [processing], then one terminal
    state; on a store that fails, either write may be lost. *)
Definition run_history (l : list string) : Prop :=
  exists final,
    (final = "completed" \/ final = "failed") /\
    (l = ["processing"; final] \/ l = ["processing"] \/ l = [final] \/ l = []).

Lemma two_updates_history task_id final w w1 w1' w2 :
  (final = "completed" \/ final = "failed") ->
  (adds task_id w w1 ["processing"] \/ adds task_id w w1 []) ->
  adds task_id w1 w1' [] ->
  (adds task_id w1' w2 [final] \/ adds task_id w1' w2 []) ->
  exists l, adds task_id w w2 l /\ run_history l.
Proof.
  intros Hfinal [H1 | H1] Hmid [H2 | H2];
    pose proof (adds_trans _ _ _ _ _ _ (adds_trans _ _ _ _ _ _ H1 Hmid) H2) as H;
    simpl in H; eexists; (split; [exact H|]); exists final; (split; [exact Hfinal|]); auto.
Qed.

Lemma run_job_history env j w :
  exists l,
    adds (job_task_id j) w (snd (run_job env j w)) l /\
    run_history l /\
    (redis_faults w = [] ->
     l = ["processing"; "completed"] \/ l = ["processing"; "failed"]).
Proof.
  destruct j as [a | a]; simpl run_job; simpl job_task_id.
  - rewrite generate_image_task_run. cbv zeta.
    destruct (update_task_status_adds (started_at env) (ij_task_id a) "processing"
                (Kwargs (Some (ij_user_id a)) None None None) w) as (w1 & H1 & Ha1 & Hq1 & _).
    rewrite H1. cbn [snd].
    destruct (image_failure env a) as [e|]; cbn [snd].
    + destruct (update_task_status_adds (finished_at env) (ij_task_id a) "failed"
                  (Kwargs (Some (ij_user_id a)) None None (Some e)) w1)
        as (w2 & H2 & Ha2 & Hq2 & _).
      rewrite H2. cbn [snd].
      destruct (two_updates_history (ij_task_id a) "failed" w w1 w1 w2
                  (or_intror eq_refl) Ha1 (adds_refl _ _) Ha2) as (l & Hl & Hh).
      exists l. split; [exact Hl|]. split; [exact Hh|].
      intros Hq. destruct (Hq1 Hq) as [Hp Hq']. destruct (Hq2 Hq') as [Hf _].
      pose proof (adds_trans _ _ _ _ _ _ Hp Hf) as Hl'. simpl in Hl'.
      unfold adds in Hl, Hl'. rewrite Hl in Hl'. apply app_inv_head in Hl'. auto.
    + destruct (cache_result_adds (finished_at env) (ij_cache_key a) (image_result env a)
                  (save_file (image_output_path a) w1)) as (w3 & H3 & Ha3 & Hq3).
      rewrite H3. cbn [snd].
      destruct (update_task_status_adds (finished_at env) (ij_task_id a) "completed"
                  (Kwargs (Some (ij_user_id a)) (Some (image_output_path a))
                     (Some (finished_at env - started_at env)) None) w3)
        as (w4 & H4 & Ha4 & Hq4 & _).
      rewrite H4. cbn [snd].
      pose proof (adds_trans _ _ _ _ _ _ (adds_save_file (ij_task_id a) (image_output_path a) w1)
                    (Ha3 (ij_task_id a))) as Hmid. simpl in Hmid.
      destruct (two_updates_history (ij_task_id a) "completed" w w1 w3 w4
                  (or_introl eq_refl) Ha1 Hmid Ha4) as (l & Hl & Hh).
      exists l. split; [exact Hl|]. split; [exact Hh|].
      intros Hq. destruct (Hq1 Hq) as [Hp Hq'].
      destruct (Hq3 Hq') as [Hq'' _]. destruct (Hq4 Hq'') as [Hf _].
      pose proof (adds_trans _ _ _ _ _ _ (adds_trans _ _ _ _ _ _ Hp Hmid) Hf) as Hl'.
      simpl in Hl'. unfold adds in Hl, Hl'. rewrite Hl in Hl'. apply app_inv_head in Hl'. auto.
  - rewrite generate_video_task_run. cbv zeta.
    destruct (update_task_status_adds (started_at env) (vj_task_id a) "processing"
                (Kwargs (Some (vj_user_id a)) None None None) w) as (w1 & H1 & Ha1 & Hq1 & _).
    rewrite H1. cbn [snd].
    destruct (video_failure env a) as [e|]; cbn [snd].
    + destruct (update_task_status_adds (finished_at env) (vj_task_id a) "failed"
                  (Kwargs (Some (vj_user_id a)) None None (Some e)) w1)
        as (w2 & H2 & Ha2 & Hq2 & _).
      rewrite H2. cbn [snd].
      destruct (two_updates_history (vj_task_id a) "failed" w w1 w1 w2
                  (or_intror eq_refl) Ha1 (adds_refl _ _) Ha2) as (l & Hl & Hh).
      exists l. split; [exact Hl|]. split; [exact Hh|].
      intros Hq. destruct (Hq1 Hq) as [Hp Hq']. destruct (Hq2 Hq') as [Hf _].
      pose proof (adds_trans _ _ _ _ _ _ Hp Hf) as Hl'. simpl in Hl'.
      unfold adds in Hl, Hl'. rewrite Hl in Hl'. apply app_inv_head in Hl'. auto.
    + destruct (update_task_status_adds (finished_at env) (vj_task_id a) "completed"
                  (Kwargs (Some (vj_user_id a)) (Some (video_output_path a))
                     (Some (finished_at env - started_at env)) None)
                  (save_file (video_output_path a) w1))
        as (w4 & H4 & Ha4 & Hq4 & _).
      rewrite H4. cbn [snd].
      destruct (two_updates_history (vj_task_id a) "completed" w w1
                  (save_file (video_output_path a) w1) w4
                  (or_introl eq_refl) Ha1 (adds_save_file _ _ _) Ha4) as (l & Hl & Hh).
      exists l. split; [exact Hl|]. split; [exact Hh|].
      intros Hq. destruct (Hq1 Hq) as [Hp Hq']. destruct (Hq4 Hq') as [Hf _].
      pose proof (adds_trans _ _ _ _ _ _
                    (adds_trans _ _ _ _ _ _ Hp (adds_save_file _ (video_output_path a) w1)) Hf)
        as Hl'.
      simpl in Hl'. unfold adds in Hl, Hl'. rewrite Hl in Hl'. apply app_inv_head in Hl'. auto.
Qed.

(** *** What a worker run leaves untouched *)

Lemma update_task_status_kv now task_id status kw w k :
  k <> task_key task_id ->
  redis_kv (snd (update_task_status now task_id status kw w)) !! k = redis_kv w !! k.
Proof.
  intros Hk.
  destruct (update_task_status_cases now task_id status kw w)
    as [(_ & ->) | [(fs & _ & ->) | (fs & _ & ->)]]; cbn [snd];
    unfold task_written, write, with_faults; cbn [redis_kv];
    try reflexivity; apply lookup_insert_ne; congruence.
Qed.

Lemma cache_result_kv now key r w k :
  k <> key ->
  redis_kv (snd (cache_result now key r w)) !! k = redis_kv w !! k.
Proof.
  intros Hk.
  destruct (cache_result_cases now key r w)
    as [(_ & ->) | [(fs & _ & ->) | (fs & _ & ->)]]; cbn [snd];
    unfold write, with_faults; cbn [redis_kv];
    try reflexivity; apply lookup_insert_ne; congruence.
Qed.

(** The cache key a job carries, if it is an image job. *)
Definition job_cache_key (j : job) : option string :=
  match j with
  | ImageJob a => Some (ij_cache_key a)
  | VideoJob _ => None
  end.

(** A run touches the record of its own task and its own cache entry. *)
Lemma run_job_kv env j w k :
  k <> task_key (job_task_id j) ->
  job_cache_key j <> Some k ->
  redis_kv (snd (run_job env j w)) !! k = redis_kv w !! k.
Proof.
  intros Hk Hc. destruct j as [a | a]; simpl run_job; simpl in Hk, Hc.
  - rewrite generate_image_task_run. cbv zeta.
    destruct (image_failure env a); cbn [snd].
    + rewrite !update_task_status_kv by exact Hk. reflexivity.
    + rewrite update_task_status_kv by exact Hk.
      rewrite cache_result_kv by congruence.
      unfold save_file. cbn [redis_kv].
      rewrite update_task_status_kv by exact Hk. reflexivity.
  - rewrite generate_video_task_run. cbv zeta.
    destruct (video_failure env a); cbn [snd].
    + rewrite !update_task_status_kv by exact Hk. reflexivity.
    + rewrite update_task_status_kv by exact Hk.
      unfold save_file. cbn [redis_kv].
      rewrite update_task_status_kv by exact Hk. reflexivity.
Qed.

Lemma run_job_other_history env j w other :
  other <> job_task_id j ->
  recorded_states other (redis_log (snd (run_job env j w)))
    = recorded_states other (redis_log w).
Proof.
  intros Hne.
  assert (Hup : forall now status kw w0,
            adds other w0 (snd (update_task_status now (job_task_id j) status kw w0)) []).
  { intros now status kw w0.
    destruct (update_task_status_adds now (job_task_id j) status kw w0) as (w' & -> & _ & _ & H).
    apply H. exact Hne. }
  assert (Hca : forall now key r w0, adds other w0 (snd (cache_result now key r w0)) []).
  { intros now key r w0. destruct (cache_result_adds now key r w0) as (w' & -> & H & _).
    apply H. }
  enough (adds other w (snd (run_job env j w)) []) as H
    by (unfold adds in H; rewrite app_nil_r in H; exact H).
  destruct j as [a | a]; simpl run_job; simpl job_task_id in *.
  - rewrite generate_image_task_run. cbv zeta.
    destruct (image_failure env a); cbn [snd].
    + exact (adds_trans _ _ _ _ _ _ (Hup (started_at env) "processing"
               (Kwargs (Some (ij_user_id a)) None None None) w)
               (Hup (finished_at env) "failed" _ _)).
    + exact (adds_trans _ _ _ _ _ _
               (adds_trans _ _ _ _ _ _
                  (adds_trans _ _ _ _ _ _
                     (Hup (started_at env) "processing"
                        (Kwargs (Some (ij_user_id a)) None None None) w)
                     (adds_save_file other (image_output_path a) _))
                  (Hca (finished_at env) (ij_cache_key a) (image_result env a) _))
               (Hup (finished_at env) "completed" _ _)).
  - rewrite generate_video_task_run. cbv zeta.
    destruct (video_failure env a); cbn [snd].
    + exact (adds_trans _ _ _ _ _ _ (Hup (started_at env) "processing"
               (Kwargs (Some (vj_user_id a)) None None None) w)
               (Hup (finished_at env) "failed" _ _)).
    + exact (adds_trans _ _ _ _ _ _
               (adds_trans _ _ _ _ _ _
                  (Hup (started_at env) "processing"
                     (Kwargs (Some (vj_user_id a)) None None None) w)
                  (adds_save_file other (video_output_path a) _))
               (Hup (finished_at env) "completed" _ _)).
Qed.

(** ** Task lifecycle *)

(** C2, what the code does where the claim fails: the states recorded
    for the finished task "t1" are [processing, completed], which is no
    prefix of [queued, processing, completed] nor of [queued, processing,
    failed]; and [update_task_status] itself overwrites the completed
    record with whatever state it is given, here [queued]. *)
Lemma C2_history_is_not_as_claimed :
  recorded_states "t1" (redis_log completed_world) = ["processing"; "completed"] /\
  ~ (["processing"; "completed"] `prefix_of` ["queued"; "processing"; "completed"]) /\
  ~ (["processing"; "completed"] `prefix_of` ["queued"; "processing"; "failed"]) /\
  td_status <$> task_record 6 "t1" completed_world = Some "completed" /\
  td_status <$> task_record 6 "t1"
    (snd (update_task_status 6 "t1" "queued" (Kwargs (Some "demo_user") None None None)
            completed_world)) = Some "queued".
Proof.
  split; [vm_compute; reflexivity|].
  split; [intros [k Hk]; discriminate|].
  split; [intros [k Hk]; discriminate|].
  split; vm_compute; reflexivity.
Qed.

(** C2, as amended: the state [queued] is never recorded. A worker run
    records [processing] and then exactly one of [completed] and
    [failed] for its own task and nothing for any other task; an update
    that the store refuses is dropped silently, so either of the two may
    be missing from the history, but nothing follows the terminal state
    and the order is never reversed. The submission endpoints record
    nothing. The order comes from the worker's control flow alone:
    [update_task_status] appends whatever state it is given. *)
Theorem C2_worker_records_processing_then_terminal :
  (forall env j w,
     exists l,
       recorded_states (job_task_id j) (redis_log (snd (run_job env j w)))
         = recorded_states (job_task_id j) (redis_log w) ++ l /\
       run_history l /\
       (redis_faults w = [] ->
        l = ["processing"; "completed"] \/ l = ["processing"; "failed"])) /\
  (forall env j w other,
     other <> job_task_id j ->
     recorded_states other (redis_log (snd (run_job env j w)))
       = recorded_states other (redis_log w)) /\
  (forall env user_id data w task_id,
     recorded_states task_id (redis_log (snd (generate_image env user_id data w)))
       = recorded_states task_id (redis_log w)) /\
  (forall env user_id data w task_id,
     recorded_states task_id (redis_log (snd (generate_video env user_id data w)))
       = recorded_states task_id (redis_log w)) /\
  (forall now task_id status kw w,
     redis_faults w = [] ->
     recorded_states task_id (redis_log (snd (update_task_status now task_id status kw w)))
       = recorded_states task_id (redis_log w) ++ [status]).
Proof.
  split; [|split; [|split; [|split]]].
  - intros env j w. destruct (run_job_history env j w) as (l & Hl & Hh & Hq). eauto.
  - intros env j w other Hne. apply run_job_other_history. exact Hne.
  - intros env user_id data w task_id.
    apply (proj2 (generate_image_registry env user_id data w)).
  - intros env user_id data w task_id.
    apply (proj2 (generate_video_registry env user_id data w)).
  - intros now task_id status kw w Hq.
    destruct (update_task_status_adds now task_id status kw w) as (w' & -> & _ & H & _).
    apply H. exact Hq.
Qed.

(** C2 on the red-cube job, run by a worker whose generator raises. *)
Lemma C2_worker_history_witness :
  exists l,
    recorded_states "t1"
      (redis_log (snd (run_job (WorkerEnv 1 5 true None None (Some "CUDA out of memory") None)
                         (image_job_of (demo_env 0 "t1") "demo_user" red_cube "a red cube")
                         empty_world)))
      = recorded_states "t1" (redis_log empty_world) ++ l /\
    run_history l /\
    (redis_faults empty_world = [] ->
     l = ["processing"; "completed"] \/ l = ["processing"; "failed"]).
Proof.
  apply (proj1 C2_worker_records_processing_then_terminal
           (WorkerEnv 1 5 true None None (Some "CUDA out of memory") None)
           (image_job_of (demo_env 0 "t1") "demo_user" red_cube "a red cube") empty_world).
Defined.

(** ** Submission and the registry *)

(** A validated image request once the rate limiter has admitted it. *)
Lemma generate_image_admitted env user_id d prompt w w1 :
  image_valid d prompt ->
  check_rate_limit (clock env) (write_clock env) user_id "image" w = (Ret true, w1) ->
  generate_image env user_id (Some d) w
    = endpoint (image_after_validation env user_id d prompt) w1.
Proof.
  intros Hv Hc. unfold generate_image, endpoint.
  rewrite (generate_image_try_valid env user_id d prompt Hv).
  rewrite (bind_ret _ _ _ _ _ Hc). reflexivity.
Qed.

(** A validated video request once the rate limiter has admitted it. *)
Lemma generate_video_admitted env user_id d prompt raw w w1 :
  video_valid d prompt raw ->
  check_rate_limit (clock env) (write_clock env) user_id "video" w = (Ret true, w1) ->
  generate_video env user_id (Some d) w
    = endpoint (video_after_validation env user_id d prompt raw) w1.
Proof.
  intros Hv Hc.
  destruct (generate_video_cases env user_id (Some d) w)
    as (b & w2 & Hc2 & [(-> & _) | [(-> & _ & Hnot) | (-> & d2 & p2 & raw2 & Hd2 & Hv2 & Hr2)]]).
  - rewrite Hc in Hc2. discriminate.
  - exfalso. exact (Hnot d prompt raw eq_refl Hv).
  - injection Hd2 as <-. rewrite Hc in Hc2. injection Hc2 as <-.
    destruct Hv as (Hp & Hraw & _), Hv2 as (Hp2 & Hraw2 & _).
    assert (p2 = prompt) by congruence. assert (raw2 = raw) by congruence. subst.
    exact Hr2.
Qed.

(** Polling a task id that has no record. *)
Lemma fresh_id_not_found env user_id w w' :
  (forall now task_id, task_record now task_id w' = task_record now task_id w) ->
  forall now, task_record now (uuid4 env) w = None ->
    fst (get_task_status now user_id (uuid4 env) w') = Response 404 (JError msg_task_not_found).
Proof.
  intros Hrec now Hfresh.
  apply (polling_not_found now user_id (uuid4 env) w'). left. rewrite Hrec. exact Hfresh.
Qed.

(** C1, as amended: no submission writes a task record, whatever it
    answers: every record and every recorded state is as before the
    call, so a fresh task id is not retrievable when the call returns
    (polling answers 404). An image or video submission that passes rate
    limiting and validation and misses the cache publishes the job. When
    the broker takes it, the job is on the queue and the answer is 200
    with status [processing] and the fresh task id, or 500 when the
    estimate of the answer raises, the job queued all the same; when the
    publishing raises, the answer is 500 and nothing is queued. Every
    200 answer with status [processing] carries the fresh task id and
    comes with the job queued. The first record of the task is written
    by the worker that runs the job, in state [processing], and
    [queued] is never recorded. *)
Theorem C1_submission_creates_no_task_record :
  (forall env user_id data w,
     let w' := snd (generate_image env user_id data w) in
     (forall now task_id, task_record now task_id w' = task_record now task_id w) /\
     (forall task_id, recorded_states task_id (redis_log w')
                      = recorded_states task_id (redis_log w)) /\
     (forall now, task_record now (uuid4 env) w = None ->
        fst (get_task_status now user_id (uuid4 env) w')
          = Response 404 (JError msg_task_not_found))) /\
  (forall env user_id data w,
     let w' := snd (generate_video env user_id data w) in
     (forall now task_id, task_record now task_id w' = task_record now task_id w) /\
     (forall task_id, recorded_states task_id (redis_log w')
                      = recorded_states task_id (redis_log w)) /\
     (forall now, task_record now (uuid4 env) w = None ->
        fst (get_task_status now user_id (uuid4 env) w')
          = Response 404 (JError msg_task_not_found))) /\
  (forall env user_id d prompt w w1 w2,
     image_valid d prompt ->
     check_rate_limit (clock env) (write_clock env) user_id "image" w = (Ret true, w1) ->
     get_cached_result (cache_clock env) (image_cache_key d prompt) w1 = (Ret None, w2) ->
     let resp := fst (generate_image env user_id (Some d) w) in
     let w' := snd (generate_image env user_id (Some d) w) in
     (store_is_down w2 = false ->
      celery_queue w' = celery_queue w ++ [image_job_of env user_id d prompt] /\
      resp = match estimate_generation_time (image_width d) (image_height d)
                     (image_steps d) with
             | Some estimated =>
                 Response 200 (JAccepted (AcceptedResponse (uuid4 env) "processing" estimated
                                            (celery_uuid env)))
             | None => Response 500 (JError msg_internal)
             end) /\
     (store_is_down w2 = true ->
      celery_queue w' = celery_queue w /\ resp = Response 500 (JError msg_internal))) /\
  (forall env user_id d prompt raw w w1,
     video_valid d prompt raw ->
     check_rate_limit (clock env) (write_clock env) user_id "video" w = (Ret true, w1) ->
     let resp := fst (generate_video env user_id (Some d) w) in
     let w' := snd (generate_video env user_id (Some d) w) in
     (store_is_down w1 = false ->
      celery_queue w' = celery_queue w ++ [video_job_of env user_id d prompt raw] /\
      resp = match estimate_video_generation_time (clamp_duration raw) (video_width d)
                     (video_height d) (video_fps d) with
             | Some estimated =>
                 Response 200 (JAccepted (AcceptedResponse (uuid4 env) "processing" estimated
                                            (celery_uuid env)))
             | None => Response 500 (JError msg_internal)
             end) /\
     (store_is_down w1 = true ->
      celery_queue w' = celery_queue w /\ resp = Response 500 (JError msg_internal))) /\
  (forall env user_id data w r w',
     generate_image env user_id data w = (Response 200 (JAccepted r), w') ->
     ar_task_id r = uuid4 env /\ ar_status r = "processing" /\
     exists d prompt,
       data = Some d /\ image_valid d prompt /\
       celery_queue w' = celery_queue w ++ [image_job_of env user_id d prompt]) /\
  (forall env user_id data w r w',
     generate_video env user_id data w = (Response 200 (JAccepted r), w') ->
     ar_task_id r = uuid4 env /\ ar_status r = "processing" /\
     exists d prompt raw,
       data = Some d /\ video_valid d prompt raw /\
       celery_queue w' = celery_queue w ++ [video_job_of env user_id d prompt raw]) /\
  (forall env j w,
     redis_faults w = [] ->
     exists final,
       (final = "completed" \/ final = "failed") /\
       recorded_states (job_task_id j) (redis_log (snd (run_job env j w)))
         = recorded_states (job_task_id j) (redis_log w) ++ ["processing"; final]).
Proof.
  split; [|split; [|split; [|split; [|split; [|split]]]]].
  - intros env user_id data w w'.
    destruct (generate_image_registry env user_id data w) as [Hrec Hst].
    split; [exact Hrec|]. split; [exact Hst|].
    apply (fresh_id_not_found env user_id w w' Hrec).
  - intros env user_id data w w'.
    destruct (generate_video_registry env user_id data w) as [Hrec Hst].
    split; [exact Hrec|]. split; [exact Hst|].
    apply (fresh_id_not_found env user_id w w' Hrec).
  - intros env user_id d prompt w w1 w2 Hv Hc Hget resp w'. unfold resp, w'.
    pose proof (check_rate_limit_frame (clock env) (write_clock env) user_id "image" w) as Hframe.
    rewrite Hc in Hframe. cbn [snd] in Hframe. destruct Hframe as (Hqueue & _).
    destruct (get_cached_result_frame (cache_clock env) (image_cache_key d prompt) w1)
      as (fs & Hfs).
    rewrite Hget in Hfs. cbn [snd] in Hfs.
    assert (Hqueue2 : celery_queue w2 = celery_queue w) by (rewrite Hfs; exact Hqueue).
    rewrite (generate_image_admitted env user_id d prompt w w1 Hv Hc).
    unfold endpoint, image_after_validation. rewrite (bind_ret _ _ _ _ _ Hget).
    destruct (delay_cases (celery_uuid env) (image_job_of env user_id d prompt) w2)
      as [(Hd & fs' & _ & Hrun) | (Hd & Hrun)].
    + rewrite (bind_raise _ _ _ _ _ Hrun). split; intros Hs; [congruence|].
      split; [exact Hqueue2 | reflexivity].
    + rewrite (bind_ret _ _ _ _ _ Hrun). split; intros Hs; [|congruence].
      unfold bind, py.
      destruct (estimate_generation_time (image_width d) (image_height d) (image_steps d));
        cbn [fst snd]; unfold enqueue, with_faults; cbn [celery_queue]; rewrite Hqueue2;
        split; reflexivity.
  - intros env user_id d prompt raw w w1 Hv Hc resp w'. unfold resp, w'.
    pose proof (check_rate_limit_frame (clock env) (write_clock env) user_id "video" w) as Hframe.
    rewrite Hc in Hframe. cbn [snd] in Hframe. destruct Hframe as (Hqueue & _).
    rewrite (generate_video_admitted env user_id d prompt raw w w1 Hv Hc).
    destruct (video_after_validation_cases env user_id d prompt raw w1)
      as [(Hd & fs & ->) | (Hd & ->)].
    + split; intros Hs; [congruence|]. split; [exact Hqueue | reflexivity].
    + split; intros Hs; [|congruence]. cbn [fst snd].
      unfold enqueue, with_faults. cbn [celery_queue]. rewrite Hqueue.
      split; [reflexivity|].
      destruct (estimate_video_generation_time _ _ _ _); reflexivity.
  - intros env user_id data w r w' Hrun.
    destruct (generate_image_accepted env user_id data w r w' Hrun)
      as (d & p & est & Hd & Hv & -> & Hq).
    split; [reflexivity|]. split; [reflexivity|]. eauto.
  - intros env user_id data w r w' Hrun.
    destruct (generate_video_accepted env user_id data w r w' Hrun)
      as (d & p & raw & est & Hd & Hv & -> & Hq).
    split; [reflexivity|]. split; [reflexivity|]. exists d, p, raw. auto.
  - intros env j w Hq.
    destruct (run_job_history env j w) as (l & Hl & _ & Hquiet).
    unfold adds in Hl. rewrite Hl.
    destruct (Hquiet Hq) as [-> | ->]; [exists "completed" | exists "failed"]; auto.
Qed.

(** C1 on the red-cube request submitted to an empty store: the job is
    queued and the answer is 200. *)
Lemma C1_submission_witness :
  celery_queue submitted_world
    = celery_queue empty_world ++ [image_job_of (demo_env 0 "t1") "demo_user" red_cube
                                     "a red cube"] /\
  fst (generate_image (demo_env 0 "t1") "demo_user" (Some red_cube) empty_world)
    = match estimate_generation_time (image_width red_cube) (image_height red_cube)
              (image_steps red_cube) with
      | Some estimated =>
          Response 200 (JAccepted (AcceptedResponse (uuid4 (demo_env 0 "t1")) "processing"
                                     estimated (celery_uuid (demo_env 0 "t1"))))
      | None => Response 500 (JError msg_internal)
      end.
Proof.
  apply (proj1 (proj1 (proj2 (proj2 C1_submission_creates_no_task_record))
           (demo_env 0 "t1") "demo_user" red_cube "a red cube" empty_world
           (write (rate_key "demo_user" "image") (Entry (VInt 1) (Some 60)) empty_world)
           (write (rate_key "demo_user" "image") (Entry (VInt 1) (Some 60)) empty_world)
           ltac:(unfold image_valid; repeat split; try reflexivity; vm_compute; discriminate)
           ltac:(vm_compute; reflexivity)
           ltac:(vm_compute; reflexivity))).
  reflexivity.
Defined.

(** ** Cache hits *)

(** A cache hit: what was answered, and from which entry. *)
Lemma generate_image_cached env user_id data w r w' :
  generate_image env user_id data w = (Response 200 (JCached r), w') ->
  exists d prompt cached t w1 fs,
    data = Some d /\ image_valid d prompt /\
    check_rate_limit (clock env) (write_clock env) user_id "image" w = (Ret true, w1) /\
    w' = with_faults fs w1 /\
    redis_kv w !! image_cache_key d prompt = Some (Entry (VResult cached) t) /\
    live (cache_clock env) (Entry (VResult cached) t) = true /\
    r = CachedResponse (uuid4 env) "completed" (rd_image_url cached) true 0.
Proof.
  intros Hrun.
  pose proof (check_rate_limit_frame (clock env) (write_clock env) user_id "image" w) as Hframe.
  destruct (generate_image_cases env user_id data w)
    as (b & w1 & Hc & [(_ & H) | [(_ & (msg & H) & _) | (-> & d & p & Hd & Hv & H)]]);
    rewrite Hc in Hframe; cbn [snd] in Hframe; rewrite H in Hrun.
  - discriminate.
  - discriminate.
  - destruct (image_after_validation_cases env user_id d p w1)
      as (o & fs & Hget & [(cached & -> & Htail) | [(_ & _ & fs' & Htail) | (_ & _ & Htail)]]);
      rewrite Htail in Hrun.
    2:{ discriminate. }
    2:{ destruct (estimate_generation_time _ _ _); discriminate. }
    injection Hrun as <- <-.
    destruct (get_cached_result_hit _ _ _ _ _ Hget) as (t & Hkv & Hlive).
    exists d, p, cached, t, w1, fs.
    split; [exact Hd|]. split; [exact Hv|]. split; [exact Hc|]. split; [reflexivity|].
    split; [|split; [exact Hlive | reflexivity]].
    destruct Hframe as (_ & _ & Hsame & _). rewrite <- Hsame; [exact Hkv|].
    unfold image_cache_key. apply cache_key_not_rate_key.
Qed.

(** C9: on a cache hit the response carries the fresh task id and the
    status [completed], no job is queued and no task record is written;
    the id being fresh (no record under it before the call), polling its
    status or its result answers 404, and no later run of a job of
    another task changes that. *)
Theorem C9_cache_hit_task_id_is_unknown_to_the_registry :
  forall env user_id data (w : world) r w',
    generate_image env user_id data w = (Response 200 (JCached r), w') ->
    redis_kv w !! task_key (uuid4 env) = None ->
    cr_task_id r = uuid4 env /\
    cr_status r = "completed" /\
    celery_queue w' = celery_queue w /\
    redis_kv w' !! task_key (uuid4 env) = None /\
    (forall task_id, recorded_states task_id (redis_log w')
                     = recorded_states task_id (redis_log w)) /\
    (forall now,
       fst (get_task_status now user_id (uuid4 env) w')
         = Response 404 (JError msg_task_not_found) /\
       fst (get_task_result now user_id (uuid4 env) w')
         = Response 404 (JError msg_task_not_found)) /\
    (forall wenv j,
       job_task_id j <> uuid4 env ->
       job_cache_key j <> Some (task_key (uuid4 env)) ->
       redis_kv (snd (run_job wenv j w')) !! task_key (uuid4 env) = None).
Proof.
  intros env user_id data w r w' Hrun Hfresh.
  destruct (generate_image_cached env user_id data w r w' Hrun)
    as (d & p & cached & t & w1 & fs & Hd & Hv & Hc & -> & Hkv & Hlive & ->).
  pose proof (check_rate_limit_frame (clock env) (write_clock env) user_id "image" w) as Hframe.
  rewrite Hc in Hframe. cbn [snd] in Hframe.
  destruct Hframe as (Hq & _ & Hsame & _).
  pose proof (generate_image_registry env user_id data w) as Hreg.
  rewrite Hrun in Hreg. cbv zeta in Hreg. cbn [snd] in Hreg. destruct Hreg as [Hrec Hst].
  assert (Habsent : redis_kv (with_faults fs w1) !! task_key (uuid4 env) = None).
  { cbn [with_faults redis_kv]. rewrite Hsame; [exact Hfresh|]. apply task_key_not_rate_key. }
  split; [reflexivity|]. split; [reflexivity|]. split; [exact Hq|].
  split; [exact Habsent|]. split; [exact Hst|]. split.
  - intros now. apply polling_not_found. left.
    unfold task_record, live_entry. rewrite Habsent. reflexivity.
  - intros wenv j Hj Hck. rewrite run_job_kv; [exact Habsent | | exact Hck].
    intros E. apply task_key_inj in E. congruence.
Qed.

(** The world after the red-cube request was repeated at time 10. *)
Definition repeated_world : world :=
  snd (generate_image (demo_env 10 "t2") "demo_user" (Some red_cube) completed_world).

(** C9 on the red-cube request repeated after its first generation. *)
Lemma C9_cache_hit_witness :
  cr_task_id (CachedResponse "t2" "completed" "/task/t1/result" true 0)
    = uuid4 (demo_env 10 "t2") /\
  cr_status (CachedResponse "t2" "completed" "/task/t1/result" true 0) = "completed" /\
  celery_queue repeated_world = celery_queue completed_world /\
  redis_kv repeated_world !! task_key (uuid4 (demo_env 10 "t2")) = None /\
  (forall task_id,
     recorded_states task_id (redis_log repeated_world)
       = recorded_states task_id (redis_log completed_world)) /\
  (forall now,
     fst (get_task_status now "demo_user" (uuid4 (demo_env 10 "t2")) repeated_world)
       = Response 404 (JError msg_task_not_found) /\
     fst (get_task_result now "demo_user" (uuid4 (demo_env 10 "t2")) repeated_world)
       = Response 404 (JError msg_task_not_found)) /\
  (forall wenv j,
     job_task_id j <> uuid4 (demo_env 10 "t2") ->
     job_cache_key j <> Some (task_key (uuid4 (demo_env 10 "t2"))) ->
     redis_kv (snd (run_job wenv j repeated_world))
       !! task_key (uuid4 (demo_env 10 "t2")) = None).
Proof.
  apply (C9_cache_hit_task_id_is_unknown_to_the_registry
           (demo_env 10 "t2") "demo_user" (Some red_cube) completed_world
           (CachedResponse "t2" "completed" "/task/t1/result" true 0) repeated_world).
  - vm_compute. reflexivity.
  - vm_compute. reflexivity.
Defined.

(** Two identical requests in flight, then both generated, then a third. *)
Definition twice_submitted : world :=
  snd (generate_image (demo_env 1 "t2") "demo_user" (Some red_cube) submitted_world).
Definition first_done : world := worker_step (happy 2 5) twice_submitted.
Definition both_done : world := worker_step (happy 6 9) first_done.

(** The finished first generation, with "demo_user" at the ceiling. *)
Definition exhausted_world : world :=
  write (rate_key "demo_user" "image") (Entry (VInt 10) (Some 60)) completed_world.

(** C6, what the code does where the claim fails. Two identical requests
    are submitted before either is generated; the first completed
    generation writes the reference of task "t1" into the cache, the
    second overwrites it, and the third request is answered from the
    cache with the reference of "t2", not the one the first completed
    generation wrote. And a request whose fingerprint is in the cache,
    sent by a user at the ceiling, gets 429 and no [completed] answer. *)
Lemma C6_hit_returns_the_latest_reference :
  value <$> (redis_kv first_done !! image_cache_key red_cube "a red cube")
    = Some (VResult (ResultData "/task/t1/result" 3)) /\
  fst (generate_image (demo_env 10 "t3") "demo_user" (Some red_cube) both_done)
    = Response 200 (JCached (CachedResponse "t3" "completed" "/task/t2/result" true 0)) /\
  value <$> (redis_kv exhausted_world !! image_cache_key red_cube "a red cube")
    = Some (VResult (ResultData "/task/t1/result" 4)) /\
  fst (generate_image (demo_env 10 "t2") "demo_user" (Some red_cube) exhausted_world)
    = Response 429 (JError msg_rate_limit).
Proof. vm_compute. repeat split; reflexivity. Qed.

Lemma write_faults key e w : redis_faults (write key e w) = redis_faults w.
Proof. reflexivity. Qed.

(** C6, as amended: every cache-hit answer of [generate_image] has
    status [completed], [cached = True], [generation_time = 0] and the
    [image_url] held at that moment by the live cache entry of the
    request's fingerprint, and queues nothing; on a store that answers,
    a request that passes validation, from a user below the ceiling,
    whose fingerprint has a live entry, gets that answer; and a worker
    run that succeeds stores [/task/<task_id>/result] under the job's
    cache key for 24 hours, overwriting what was there, so the reference
    returned is that of the latest completed generation. *)
Theorem C6_cache_hit_returns_the_stored_reference :
  (forall env user_id data w r w',
     generate_image env user_id data w = (Response 200 (JCached r), w') ->
     cr_status r = "completed" /\ cr_cached r = true /\ cr_generation_time r = 0 /\
     celery_queue w' = celery_queue w /\
     exists d prompt cached t,
       data = Some d /\ image_valid d prompt /\
       redis_kv w !! image_cache_key d prompt = Some (Entry (VResult cached) t) /\
       live (cache_clock env) (Entry (VResult cached) t) = true /\
       cr_image_url r = rd_image_url cached) /\
  (forall env user_id d prompt w cached t,
     image_valid d prompt ->
     redis_faults w = [] ->
     (live_entry (clock env) (rate_key user_id "image") w = None \/
      exists c tc, live_entry (clock env) (rate_key user_id "image") w
                     = Some (Entry (VInt c) tc) /\ c < rate_limit_of user_id) ->
     redis_kv w !! image_cache_key d prompt = Some (Entry (VResult cached) t) ->
     live (cache_clock env) (Entry (VResult cached) t) = true ->
     exists w',
       generate_image env user_id (Some d) w
         = (Response 200 (JCached (CachedResponse (uuid4 env) "completed"
                                     (rd_image_url cached) true 0)), w') /\
       celery_queue w' = celery_queue w) /\
  (forall env a w,
     redis_faults w = [] ->
     image_failure env a = None ->
     ij_cache_key a <> task_key (ij_task_id a) ->
     redis_kv (snd (generate_image_task env a w)) !! ij_cache_key a
       = Some (Entry (VResult (ResultData (result_url (ij_task_id a))
                                 (finished_at env - started_at env)))
                     (Some (finished_at env + cache_ttl)))).
Proof.
  split; [|split].
  - intros env user_id data w r w' Hrun.
    destruct (generate_image_cached env user_id data w r w' Hrun)
      as (d & p & cached & t & w1 & fs & Hd & Hv & Hc & -> & Hkv & Hlive & ->).
    pose proof (check_rate_limit_frame (clock env) (write_clock env) user_id "image" w) as Hframe.
    rewrite Hc in Hframe. cbn [snd] in Hframe. destruct Hframe as (Hq & _).
    split; [reflexivity|]. split; [reflexivity|]. split; [reflexivity|].
    split; [exact Hq|]. exists d, p, cached, t. auto.
  - intros env user_id d prompt w cached t Hv Hquiet Hroom Hkv Hlive.
    assert (Hadm : exists e,
              check_rate_limit (clock env) (write_clock env) user_id "image" w
                = (Ret true, write (rate_key user_id "image") e w)).
    { destruct Hroom as [Hnone | (c & tc & Hl & Hc)].
      - eexists. apply check_rate_limit_first; assumption.
      - eexists. eapply check_rate_limit_next; eassumption. }
    destruct Hadm as (e & Hadm).
    set (w1 := write (rate_key user_id "image") e w) in *.
    assert (Hkv1 : redis_kv w1 !! image_cache_key d prompt = Some (Entry (VResult cached) t)).
    { unfold w1, write. cbn [redis_kv]. rewrite lookup_insert_ne; [exact Hkv|].
      intros E. symmetry in E. revert E. unfold image_cache_key.
      apply cache_key_not_rate_key. }
    pose proof (get_cached_result_quiet (cache_clock env) _ w1 cached t Hquiet Hkv1 Hlive) as Hget.
    exists w1. split; [|reflexivity].
    unfold generate_image, endpoint.
    rewrite (generate_image_try_valid env user_id d prompt Hv).
    rewrite (bind_ret _ _ _ _ _ Hadm). cbn [negb]. unfold image_after_validation.
    rewrite (bind_ret _ _ _ _ _ Hget). reflexivity.
  - intros env a w Hquiet Hok Hne.
    rewrite generate_image_task_run. cbv zeta. rewrite Hok. cbn [snd].
    rewrite update_task_status_kv by exact Hne.
    destruct (update_task_status_adds (started_at env) (ij_task_id a) "processing"
                (Kwargs (Some (ij_user_id a)) None None None) w) as (w1 & H1 & _ & Hq1 & _).
    rewrite H1. cbn [snd]. destruct (Hq1 Hquiet) as [_ Hquiet1].
    destruct (cache_result_adds (finished_at env) (ij_cache_key a) (image_result env a)
                (save_file (image_output_path a) w1)) as (w3 & H3 & _ & Hq3).
    rewrite H3. cbn [snd]. destruct (Hq3 Hquiet1) as [_ ->].
    unfold write. cbn [redis_kv]. apply lookup_insert_eq.
Qed.

(** C6 on the red-cube request repeated after its generation: the
    second submission is answered from the cache with the reference the
    worker stored. *)
Lemma C6_cache_hit_witness :
  exists w',
    generate_image (demo_env 10 "t2") "demo_user" (Some red_cube) completed_world
      = (Response 200
           (JCached (CachedResponse (uuid4 (demo_env 10 "t2")) "completed"
                       (rd_image_url (ResultData "/task/t1/result" 4)) true 0)), w') /\
    celery_queue w' = celery_queue completed_world.
Proof.
  apply (proj1 (proj2 C6_cache_hit_returns_the_stored_reference)
           (demo_env 10 "t2") "demo_user" red_cube "a red cube" completed_world
           (ResultData "/task/t1/result" 4) (Some (5 + cache_ttl))).
  - unfold image_valid. repeat split; try reflexivity; vm_compute; discriminate.
  - reflexivity.
  - right. exists 1, (Some 60). split; [vm_compute; reflexivity | vm_compute; reflexivity].
  - vm_compute. reflexivity.
  - vm_compute. reflexivity.
Defined.

(** ** The cache-key fingerprint *)

(** *** Order of the items *)

Lemma dict_get_perm (d1 d2 : dict) (k : string) :
  d1 ≡ₚ d2 -> NoDup (map fst d1) -> dict_get k d1 = dict_get k d2.
Proof.
  induction 1 as [|[k1 v1] l l' Hp IH|[k1 v1] [k2 v2] l|l l' l'' Hp1 IH1 Hp2 IH2];
    intros Hnd.
  - reflexivity.
  - simpl. destruct (String.eqb k k1); [reflexivity|].
    apply IH. simpl in Hnd. apply NoDup_cons in Hnd. tauto.
  - simpl. simpl in Hnd. apply NoDup_cons in Hnd. destruct Hnd as [Hin _].
    destruct (String.eqb_spec k k2) as [-> | _]; [|reflexivity].
    destruct (String.eqb_spec k2 k1) as [-> | _]; [|reflexivity].
    exfalso. apply Hin. left.
  - rewrite IH1 by exact Hnd. apply IH2. apply NoDup_ListNoDup.
    eapply Permutation_NoDup; [apply Permutation_map; exact Hp1|].
    apply NoDup_ListNoDup. exact Hnd.
Qed.

Lemma sorted_keys_perm (d1 d2 : dict) :
  d1 ≡ₚ d2 -> merge_sort String.le (map fst d1) = merge_sort String.le (map fst d2).
Proof.
  intros Hp. apply (Sorted_unique String.le).
  - apply Sorted_merge_sort, _.
  - apply Sorted_merge_sort, _.
  - rewrite !merge_sort_Permutation. apply Permutation_map. exact Hp.
Qed.

(** The serialization does not depend on the order in which the items
    were put in the dict. *)
Lemma dumps_sorted_perm (d1 d2 : dict) :
  NoDup (map fst d1) -> d1 ≡ₚ d2 -> dumps_sorted d1 = dumps_sorted d2.
Proof.
  intros Hnd Hp. unfold dumps_sorted. rewrite (sorted_keys_perm d1 d2 Hp).
  do 3 f_equal. apply map_ext. intros k. unfold dumps_item.
  rewrite (dict_get_perm d1 d2 k Hp Hnd). reflexivity.
Qed.

(** *** The canonical form *)

Definition item (key value : string) : string := dumps_str key +:+ ": " +:+ value.

Definition canonical (prompt : string) (width height steps : Z) (guidance : pyfloat)
    (seed : option Z) (lora_data : option string) : string :=
  "{" +:+ join ", "
    [ item "guidance" (repr_float guidance);
      item "height" (str_int height);
      item "lora" (dumps_val (lora_digest lora_data));
      item "prompt" (dumps_str prompt);
      item "seed" (dumps_val (opt_int seed));
      item "steps" (str_int steps);
      item "width" (str_int width) ] +:+ "}".

Lemma cache_keys_sorted :
  merge_sort String.le ["prompt"; "width"; "height"; "steps"; "guidance"; "seed"; "lora"]
    = ["guidance"; "height"; "lora"; "prompt"; "seed"; "steps"; "width"].
Proof. vm_compute. reflexivity. Qed.

Lemma cache_string_canonical prompt width height steps guidance seed lora_data :
  cache_string prompt width height steps guidance seed lora_data
    = canonical prompt width height steps guidance seed lora_data.
Proof.
  unfold cache_string, dumps_sorted, cache_data.
  change (map fst _) with ["prompt"; "width"; "height"; "steps"; "guidance"; "seed"; "lora"].
  rewrite cache_keys_sorted. reflexivity.
Qed.

(** *** Strings *)

Lemma app_cons c s r : String c s +:+ r = String c (s +:+ r).
Proof. reflexivity. Qed.

Lemma app_empty r : "" +:+ r = r.
Proof. reflexivity. Qed.

Lemma string_app_assoc a b c : (a +:+ b) +:+ c = a +:+ (b +:+ c).
Proof. induction a as [|x a IH]; [reflexivity|]. rewrite !app_cons, IH. reflexivity. Qed.

Lemma string_app_length a b :
  String.length (a +:+ b) = (String.length a + String.length b)%nat.
Proof. induction a as [|x a IH]; [reflexivity|]. rewrite app_cons. simpl. rewrite IH. reflexivity. Qed.

Lemma string_app_inv_tail a b r : a +:+ r = b +:+ r -> a = b.
Proof.
  revert b. induction a as [|x a IH]; intros [|y b] H.
  - reflexivity.
  - apply (f_equal String.length) in H. rewrite app_empty, string_app_length in H.
    simpl in H. lia.
  - apply (f_equal String.length) in H. rewrite app_empty, string_app_length in H.
    simpl in H. lia.
  - rewrite !app_cons in H. injection H as -> H. f_equal. apply IH. exact H.
Qed.

Lemma string_app_inv_head a x y : a +:+ x = a +:+ y -> x = y.
Proof. apply String.app_inj. Qed.

(** *** Escaped strings *)

Definition all_ascii : list ascii := map ascii_of_nat (seq 0 256).

Lemma in_all_ascii c : In c all_ascii.
Proof.
  unfold all_ascii. rewrite <- (ascii_nat_embedding c). apply in_map, in_seq.
  pose proof (nat_ascii_bounded c). lia.
Qed.

Lemma app_prefix s1 s2 x y :
  s1 +:+ x = s2 +:+ y -> String.prefix s1 s2 = true \/ String.prefix s2 s1 = true.
Proof.
  revert s2. induction s1 as [|c1 s1 IH]; intros [|c2 s2] H; simpl; auto.
  rewrite !app_cons in H. injection H as -> H.
  destruct (ascii_dec c2 c2); [|congruence]. apply IH. exact H.
Qed.

(** No escape sequence is the beginning of another one. *)
Definition prefix_free (c1 c2 : ascii) : bool :=
  implb (String.prefix (escape_char c1) (escape_char c2)) (Ascii.eqb c1 c2).

Lemma escape_char_prefix_free :
  forallb (fun c1 => forallb (prefix_free c1) all_ascii) all_ascii = true.
Proof. vm_compute. reflexivity. Qed.

Lemma escape_char_inj_app c1 c2 x y :
  escape_char c1 +:+ x = escape_char c2 +:+ y -> c1 = c2.
Proof.
  intros H. pose proof escape_char_prefix_free as Hall. rewrite forallb_forall in Hall.
  assert (Hpf : forall a b, prefix_free a b = true).
  { intros a b. specialize (Hall a (in_all_ascii a)). rewrite forallb_forall in Hall.
    apply Hall, in_all_ascii. }
  destruct (app_prefix _ _ _ _ H) as [Hp | Hp].
  - specialize (Hpf c1 c2). unfold prefix_free in Hpf. rewrite Hp in Hpf.
    apply Ascii.eqb_eq. exact Hpf.
  - specialize (Hpf c2 c1). unfold prefix_free in Hpf. rewrite Hp in Hpf.
    symmetry. apply Ascii.eqb_eq. exact Hpf.
Qed.

(** An escape sequence never starts with a quote. *)
Definition unquoted_head (c : ascii) : bool :=
  match escape_char c with
  | String a _ => negb (Ascii.eqb a QUOTE)
  | EmptyString => false
  end.

Lemma escape_char_unquoted : forallb unquoted_head all_ascii = true.
Proof. vm_compute. reflexivity. Qed.

Lemma escape_char_head c x r : escape_char c +:+ x <> String QUOTE r.
Proof.
  pose proof escape_char_unquoted as Hall. rewrite forallb_forall in Hall.
  specialize (Hall c (in_all_ascii c)). unfold unquoted_head in Hall.
  destruct (escape_char c) as [|a s]; [discriminate|].
  rewrite app_cons. intros [= -> _]. rewrite Ascii.eqb_refl in Hall. discriminate.
Qed.

(** An escaped string is read back up to its closing quote. *)
Lemma escape_inj s1 s2 r1 r2 :
  escape s1 +:+ String QUOTE r1 = escape s2 +:+ String QUOTE r2 -> s1 = s2 /\ r1 = r2.
Proof.
  revert s2. induction s1 as [|c1 s1 IH]; intros [|c2 s2] H; cbn [escape] in H.
  - rewrite !app_empty in H. injection H as ->. auto.
  - rewrite app_empty, string_app_assoc in H. symmetry in H.
    exfalso. exact (escape_char_head _ _ _ H).
  - rewrite app_empty, string_app_assoc in H.
    exfalso. exact (escape_char_head _ _ _ H).
  - rewrite !string_app_assoc in H.
    pose proof (escape_char_inj_app _ _ _ _ H) as ->.
    apply string_app_inv_head in H. destruct (IH _ H) as [-> ->]. auto.
Qed.

Lemma dumps_str_inj s1 s2 r1 r2 :
  dumps_str s1 +:+ r1 = dumps_str s2 +:+ r2 -> s1 = s2 /\ r1 = r2.
Proof.
  unfold dumps_str. rewrite !app_cons, !string_app_assoc, !app_cons, !app_empty.
  intros [= H]. apply escape_inj. exact H.
Qed.

(** *** Numbers *)

(** The characters that follow a number in the serialization: the comma
    of the item separator, the closing brace, and the point inside a
    float. *)
Definition delimiter (c : ascii) : Prop := (c = "," \/ c = "}" \/ c = ".")%char.

(** Digits are read back up to the delimiter. *)
Lemma uint_delim (c : ascii) (u1 u2 : Decimal.uint) (r1 r2 : string) :
  delimiter c ->
  NilEmpty.string_of_uint u1 +:+ String c r1 = NilEmpty.string_of_uint u2 +:+ String c r2 ->
  u1 = u2 /\ r1 = r2.
Proof.
  intros Hc. revert u2.
  induction u1 as [|u1 IH|u1 IH|u1 IH|u1 IH|u1 IH|u1 IH|u1 IH|u1 IH|u1 IH|u1 IH];
    intros [|u2|u2|u2|u2|u2|u2|u2|u2|u2|u2] H;
    cbn [NilEmpty.string_of_uint] in H; rewrite ?app_cons, ?app_empty in H;
    try (injection H as H; destruct (IH _ H) as [-> ->]; split; reflexivity);
    try (destruct Hc as [-> | [-> | ->]]; discriminate H).
  injection H as ->. split; reflexivity.
Qed.

Lemma uint_head (c x : ascii) (u : Decimal.uint) (r r' : string) :
  delimiter c -> (x = "-" \/ x = "n")%char ->
  NilEmpty.string_of_uint u +:+ String c r <> String x r'.
Proof.
  intros [-> | [-> | ->]] [-> | ->]; destruct u;
    cbn [NilEmpty.string_of_uint]; rewrite ?app_cons, ?app_empty; discriminate.
Qed.

Lemma int_delim (c : ascii) (i1 i2 : Decimal.int) (r1 r2 : string) :
  delimiter c ->
  NilEmpty.string_of_int i1 +:+ String c r1 = NilEmpty.string_of_int i2 +:+ String c r2 ->
  i1 = i2 /\ r1 = r2.
Proof.
  intros Hc. destruct i1 as [u1|u1], i2 as [u2|u2]; cbn [NilEmpty.string_of_int];
    rewrite ?app_cons; intros H.
  - destruct (uint_delim _ _ _ _ _ Hc H) as [-> ->]. auto.
  - exfalso. exact (uint_head _ _ _ _ _ Hc (or_introl eq_refl) H).
  - exfalso. symmetry in H. exact (uint_head _ _ _ _ _ Hc (or_introl eq_refl) H).
  - injection H as H. destruct (uint_delim _ _ _ _ _ Hc H) as [-> ->]. auto.
Qed.

Lemma int_head (c : ascii) (i : Decimal.int) (r r' : string) :
  delimiter c -> NilEmpty.string_of_int i +:+ String c r <> String "n" r'.
Proof.
  intros Hc. destruct i as [u|u]; cbn [NilEmpty.string_of_int]; rewrite ?app_cons.
  - exact (uint_head _ _ _ _ _ Hc (or_intror eq_refl)).
  - discriminate.
Qed.

Lemma str_int_delim (c : ascii) (z1 z2 : Z) (r1 r2 : string) :
  delimiter c ->
  str_int z1 +:+ String c r1 = str_int z2 +:+ String c r2 -> z1 = z2 /\ r1 = r2.
Proof.
  unfold str_int. intros Hc H. destruct (int_delim _ _ _ _ _ Hc H) as [Hz ->].
  apply (f_equal Z.of_int) in Hz. rewrite !DecimalZ.of_to in Hz. auto.
Qed.

Lemma repr_float_delim (c : ascii) (f1 f2 : pyfloat) (r1 r2 : string) :
  delimiter c ->
  repr_float f1 +:+ String c r1 = repr_float f2 +:+ String c r2 -> f1 = f2 /\ r1 = r2.
Proof.
  destruct f1 as [i1 d1], f2 as [i2 d2]. unfold repr_float. cbn [int_digits frac_digits].
  rewrite !string_app_assoc, !app_cons, !app_empty. intros Hc H.
  assert (Hdot : delimiter ".") by (right; right; reflexivity).
  destruct (int_delim _ _ _ _ _ Hdot H) as [-> Hd].
  destruct (uint_delim _ _ _ _ _ Hc Hd) as [-> ->]. auto.
Qed.

Lemma opt_int_delim (c : ascii) (o1 o2 : option Z) (r1 r2 : string) :
  delimiter c ->
  dumps_val (opt_int o1) +:+ String c r1 = dumps_val (opt_int o2) +:+ String c r2 ->
  o1 = o2 /\ r1 = r2.
Proof.
  intros Hc. destruct o1 as [z1|], o2 as [z2|]; cbn [opt_int dumps_val]; intros H.
  - destruct (str_int_delim _ _ _ _ _ Hc H) as [-> ->]. auto.
  - exfalso. unfold str_int in H. rewrite !app_cons in H. exact (int_head _ _ _ _ Hc H).
  - exfalso. unfold str_int in H. rewrite !app_cons in H. symmetry in H.
    exact (int_head _ _ _ _ Hc H).
  - apply string_app_inv_head in H. injection H as ->. auto.
Qed.

(** *** The adapter digest *)

Lemma lora_digest_cases (lora_data : option string) :
  lora_digest lora_data = PyNone \/ exists x, lora_digest lora_data = PyStr x.
Proof. destruct lora_data as [[|c r]|]; cbn [lora_digest]; eauto. Qed.

Lemma lora_digest_delim (l1 l2 : option string) (r1 r2 : string) :
  dumps_val (lora_digest l1) +:+ r1 = dumps_val (lora_digest l2) +:+ r2 ->
  lora_digest l1 = lora_digest l2 /\ r1 = r2.
Proof.
  destruct (lora_digest_cases l1) as [-> | [x1 ->]],
           (lora_digest_cases l2) as [-> | [x2 ->]]; cbn [dumps_val]; intros H.
  - apply string_app_inv_head in H. auto.
  - unfold dumps_str in H. rewrite !app_cons in H. discriminate H.
  - unfold dumps_str in H. rewrite !app_cons in H. discriminate H.
  - destruct (dumps_str_inj _ _ _ _ H) as [-> ->]. auto.
Qed.

(** The serialization determines every field, the adapter reference up
    to its digest. *)
Lemma cache_string_inj p w h s g seed lora p' w' h' s' g' seed' lora' :
  cache_string p w h s g seed lora = cache_string p' w' h' s' g' seed' lora' ->
  p = p' /\ w = w' /\ h = h' /\ s = s' /\ g = g' /\ seed = seed' /\
  lora_digest lora = lora_digest lora'.
Proof.
  intros H.
  rewrite (cache_string_canonical p w h s g seed lora),
          (cache_string_canonical p' w' h' s' g' seed' lora') in H.
  unfold canonical, item in H. cbn [join] in H.
  rewrite !string_app_assoc in H.
  do 3 apply string_app_inv_head in H.
  assert (Hcomma : delimiter ",") by (left; reflexivity).
  assert (Hbrace : delimiter "}") by (right; left; reflexivity).
  apply (repr_float_delim _ _ _ _ _ Hcomma) in H. destruct H as [-> H].
  injection H as H. repeat apply string_app_inv_head in H.
  apply (str_int_delim _ _ _ _ _ Hcomma) in H. destruct H as [-> H].
  injection H as H. repeat apply string_app_inv_head in H.
  apply lora_digest_delim in H. destruct H as [Hl H].
  do 3 apply string_app_inv_head in H.
  apply dumps_str_inj in H. destruct H as [-> H].
  do 3 apply string_app_inv_head in H.
  apply (opt_int_delim _ _ _ _ _ Hcomma) in H. destruct H as [-> H].
  injection H as H. repeat apply string_app_inv_head in H.
  apply (str_int_delim _ _ _ _ _ Hcomma) in H. destruct H as [-> H].
  injection H as H. repeat apply string_app_inv_head in H.
  apply (str_int_delim _ _ _ _ _ Hbrace) in H. destruct H as [-> _].
  repeat split; auto.
Qed.

Lemma cache_string_digest p w h s g seed lora lora' :
  lora_digest lora = lora_digest lora' ->
  cache_string p w h s g seed lora = cache_string p w h s g seed lora'.
Proof.
  intros Hl. rewrite !cache_string_canonical. unfold canonical. rewrite Hl. reflexivity.
Qed.

Lemma cache_data_keys p w h s g seed lora :
  NoDup (map fst (cache_data p w h s g seed lora)).
Proof. cbn [map fst cache_data]. apply (bool_decide_unpack _). vm_compute. exact I. Qed.

(** Two adapter references in the base64 alphabet with one MD5 digest. *)
Definition adapter_a : string :=
  "TEXTCOLLBYfGiJUETHQ4hAcKSMd5zYpgqf1YRDhkmxHkhPWptrkoyz28wnI9V0aHeAuaKnak".
Definition adapter_b : string :=
  "TEXTCOLLBYfGiJUETHQ4hEcKSMd5zYpgqf1YRDhkmxHkhPWptrkoyz28wnI9V0aHeAuaKnak".

(** C3, as stated, fails for the adapter reference: the two requests below
    differ in that field only and get the same key, because the reference
    enters the hashed text through its MD5 digest and the two references
    have the same digest. *)
Lemma C3_changed_adapter_same_key :
  adapter_a <> adapter_b /\
  generate_cache_key "a red cube" 512 512 50 default_guidance (Some 42) (Some adapter_a)
  = generate_cache_key "a red cube" 512 512 50 default_guidance (Some 42) (Some adapter_b).
Proof. split; [discriminate | vm_compute; reflexivity]. Qed.

(** C3 (amended). The key is ["flux_cache:"] followed by the SHA-256 hex
    digest of a canonical serialization of the seven request parameters:
    - the serialization does not depend on the order in which the fields
      were inserted in the dict;
    - it lists the fields by sorted key, an absent seed as [null], an
      absent or empty adapter reference as [null];
    - two parameter sets have the same serialization exactly when they
      agree on prompt, width, height, steps, guidance and seed and their
      adapter references have the same MD5 digest, so a change of one of
      the first six always changes the hashed text, and a change of the
      adapter reference changes it unless the digests coincide;
    - two keys are equal exactly when the SHA-256 digests of the two
      serializations are. *)
Theorem C3_key_hashes_a_canonical_serialization :
  (forall p w h s g seed lora (d : dict),
     d ≡ₚ cache_data p w h s g seed lora ->
     "flux_cache:" +:+ Hashlib.sha256_hexdigest (Bytes.encode (dumps_sorted d))
     = generate_cache_key p w h s g seed lora) /\
  (forall p w h s g seed lora,
     cache_string p w h s g seed lora = canonical p w h s g seed lora) /\
  (dumps_val (opt_int None) = "null" /\
   dumps_val (lora_digest None) = "null" /\
   dumps_val (lora_digest (Some "")) = "null") /\
  (forall p w h s g seed lora p' w' h' s' g' seed' lora',
     cache_string p w h s g seed lora = cache_string p' w' h' s' g' seed' lora' <->
     p = p' /\ w = w' /\ h = h' /\ s = s' /\ g = g' /\ seed = seed' /\
     lora_digest lora = lora_digest lora') /\
  (forall p w h s g seed lora p' w' h' s' g' seed' lora',
     generate_cache_key p w h s g seed lora = generate_cache_key p' w' h' s' g' seed' lora' <->
     Hashlib.sha256_hexdigest (Bytes.encode (cache_string p w h s g seed lora))
     = Hashlib.sha256_hexdigest (Bytes.encode (cache_string p' w' h' s' g' seed' lora'))).
Proof.
  split; [|split; [|split; [|split]]].
  - intros p w h s g seed lora d Hd. unfold generate_cache_key, cache_string.
    rewrite (dumps_sorted_perm _ _ (cache_data_keys p w h s g seed lora) (symmetry Hd)).
    reflexivity.
  - exact cache_string_canonical.
  - repeat split; reflexivity.
  - intros p w h s g seed lora p' w' h' s' g' seed' lora'. split.
    + apply cache_string_inj.
    + intros (-> & -> & -> & -> & -> & -> & Hl). apply cache_string_digest. exact Hl.
  - intros p w h s g seed lora p' w' h' s' g' seed' lora'. unfold generate_cache_key. split.
    + apply string_app_inv_head.
    + intros ->. reflexivity.
Qed.

Lemma C3_key_witness :
  "flux_cache:" +:+
  Hashlib.sha256_hexdigest
    (Bytes.encode (dumps_sorted
       (rev (cache_data "a red cube" 512 512 50 default_guidance (Some 42) None))))
  = generate_cache_key "a red cube" 512 512 50 default_guidance (Some 42) None.
Proof.
  apply (proj1 C3_key_hashes_a_canonical_serialization).
  symmetry. apply Permutation_rev.
Defined.

(** ** hashlib on known inputs *)

(** The digests of "abc" (RFC 1321, FIPS 180-4) and the key of the
    red-cube request. *)
Lemma hashlib_known_answers :
  Hashlib.md5_hexdigest (Bytes.encode "abc") = "900150983cd24fb0d6963f7d28e17f72" /\
  Hashlib.sha256_hexdigest (Bytes.encode "abc")
    = "ba7816bf8f01cfea414140de5dae2223b00361a396177a9cb410ff61f20015ad" /\
  generate_cache_key "a red cube" 512 512 50 default_guidance (Some 42) None
    = "flux_cache:49fd1cbc4116c9cbf8e2f8a7bff6d8c9d9feb1e96a55174cdde379944a87c3e5".
Proof. vm_compute. repeat split; reflexivity. Qed.

(* ===================================================================== *)
(** * Further properties of the registry, the polling endpoints and the
      workers *)
(* ===================================================================== *)

(** ** Polling on a store that answers *)

Lemma get_task_info_quiet now task_id w :
  redis_faults w = [] ->
  get_task_info now task_id w = (Ret (task_record now task_id w), w).
Proof.
  intros Hq. unfold get_task_info, try_except, get_task_info_try, bind, redis_get.
  rewrite (command_quiet _ w Hq). unfold task_record.
  destruct (live_entry now (task_key task_id) w) as [[[n|t|r] e]|]; reflexivity.
Qed.

(** What the two polling endpoints answer, as a function of the record
    the registry holds. *)
Definition status_answer (user_id : string) (o : option task_data) : response :=
  match o with
  | None => error_response 404 msg_task_not_found
  | Some t =>
      if not_owner t user_id then error_response 404 msg_task_not_found
      else ok_response (JTask t)
  end.

Definition result_answer (user_id task_id : string) (files : gset string)
    (o : option task_data) : response :=
  match o with
  | None => error_response 404 msg_task_not_found
  | Some t =>
      if not_owner t user_id then error_response 404 msg_task_not_found
      else if negb (String.eqb (td_status t) "completed")
      then error_response 400 msg_task_not_completed
      else match td_output_path t with
           | Some file_path =>
               if falsy (Some file_path) || negb (bool_decide (file_path ∈ files))
               then error_response 404 msg_file_not_found
               else ok_response (SendFile file_path
                                   (task_id +:+ "." +:+ after_last_dot file_path ""))
           | None => error_response 404 msg_file_not_found
           end
  end.

Lemma get_task_status_quiet now user_id task_id w :
  redis_faults w = [] ->
  get_task_status now user_id task_id w
    = (status_answer user_id (task_record now task_id w), w).
Proof.
  intros Hq. unfold get_task_status, endpoint, get_task_status_try.
  rewrite (bind_ret _ _ _ _ _ (get_task_info_quiet now task_id w Hq)).
  unfold status_answer.
  destruct (task_record now task_id w) as [t|]; [|reflexivity].
  destruct (not_owner t user_id); reflexivity.
Qed.

Lemma get_task_result_quiet now user_id task_id w :
  redis_faults w = [] ->
  get_task_result now user_id task_id w
    = (result_answer user_id task_id (output_files w) (task_record now task_id w), w).
Proof.
  intros Hq. unfold get_task_result, endpoint, get_task_result_try.
  rewrite (bind_ret _ _ _ _ _ (get_task_info_quiet now task_id w Hq)).
  unfold result_answer, path_exists.
  destruct (task_record now task_id w) as [t|]; [|reflexivity].
  destruct (not_owner t user_id); [reflexivity|].
  destruct (negb (String.eqb (td_status t) "completed")); [reflexivity|].
  destruct (td_output_path t) as [p|]; [|reflexivity].
  destruct (falsy (Some p) || negb (bool_decide (p ∈ output_files w))); reflexivity.
Qed.

Lemma task_record_task_written later now task_id status kw w :
  task_record later task_id (task_written now task_id status kw w)
    = if later <? now + task_ttl
      then Some (TaskData task_id status now (kw_user_id kw) (kw_output_path kw)
                   (kw_generation_time kw) (kw_error kw))
      else None.
Proof.
  unfold task_record, live_entry, task_written, write. cbn [redis_kv].
  rewrite lookup_insert_eq. unfold live. cbn [expiry value].
  destruct (later <? now + task_ttl); reflexivity.
Qed.

Lemma not_owner_self t user_id : td_user_id t = Some user_id -> not_owner t user_id = false.
Proof. unfold not_owner. intros ->. rewrite String.eqb_refl. reflexivity. Qed.

(** ** The registry: write, read back, expiry *)

(** X1. On a store that answers, what [update_task_status] writes is
    what [get_task_info] reads back for the next two hours (the fixed
    keys, [updated_at] the time of the write, and the keyword arguments),
    and the owner named in the update gets it from [get_task_status];
    from two hours after the write on, the record is gone: [get_task_info]
    answers [None] and the owner gets 404. *)
Theorem task_update_is_read_back_for_two_hours :
  forall now task_id status kw w,
    redis_faults w = [] ->
    let w' := snd (update_task_status now task_id status kw w) in
    let t := TaskData task_id status now (kw_user_id kw) (kw_output_path kw)
               (kw_generation_time kw) (kw_error kw) in
    (forall later, later < now + 7200 ->
       fst (get_task_info later task_id w') = Ret (Some t) /\
       forall user_id, kw_user_id kw = Some user_id ->
         fst (get_task_status later user_id task_id w') = Response 200 (JTask t)) /\
    (forall later user_id, now + 7200 <= later ->
       fst (get_task_info later task_id w') = Ret None /\
       fst (get_task_status later user_id task_id w')
         = Response 404 (JError msg_task_not_found)).
Proof.
  intros now task_id status kw w Hq w' t.
  destruct (update_task_status_cases now task_id status kw w)
    as [[_ Hrun] | [(fs & Hfs & _) | (fs & Hfs & _)]]; try congruence.
  assert (Hw' : w' = task_written now task_id status kw w) by (unfold w'; rewrite Hrun; reflexivity).
  assert (Hq' : redis_faults w' = []) by (rewrite Hw'; exact Hq).
  split.
  - intros later Hlater.
    assert (Hrec : task_record later task_id w' = Some t).
    { rewrite Hw', task_record_task_written.
      replace (later <? now + task_ttl) with true; [reflexivity|].
      symmetry. apply Z.ltb_lt. unfold task_ttl. lia. }
    split.
    + rewrite (get_task_info_quiet later task_id w' Hq'), Hrec. reflexivity.
    + intros user_id Hu. rewrite (get_task_status_quiet later user_id task_id w' Hq'), Hrec.
      unfold status_answer. rewrite (not_owner_self t user_id Hu). reflexivity.
  - intros later user_id Hlater.
    assert (Hrec : task_record later task_id w' = None).
    { rewrite Hw', task_record_task_written.
      replace (later <? now + task_ttl) with false; [reflexivity|].
      symmetry. apply Z.ltb_ge. unfold task_ttl. lia. }
    split.
    + rewrite (get_task_info_quiet later task_id w' Hq'), Hrec. reflexivity.
    + rewrite (get_task_status_quiet later user_id task_id w' Hq'), Hrec. reflexivity.
Qed.

Lemma task_update_is_read_back_witness :
  (forall later, later < 100 + 7200 ->
     fst (get_task_info later "t1"
            (snd (update_task_status 100 "t1" "processing"
                    (Kwargs (Some "demo_user") None None None) empty_world)))
       = Ret (Some (TaskData "t1" "processing" 100 (Some "demo_user") None None None)) /\
     forall user_id, Some "demo_user" = Some user_id ->
       fst (get_task_status later user_id "t1"
              (snd (update_task_status 100 "t1" "processing"
                      (Kwargs (Some "demo_user") None None None) empty_world)))
         = Response 200 (JTask (TaskData "t1" "processing" 100 (Some "demo_user")
                                  None None None))) /\
  (forall later user_id, 100 + 7200 <= later ->
     fst (get_task_info later "t1"
            (snd (update_task_status 100 "t1" "processing"
                    (Kwargs (Some "demo_user") None None None) empty_world))) = Ret None /\
     fst (get_task_status later user_id "t1"
            (snd (update_task_status 100 "t1" "processing"
                    (Kwargs (Some "demo_user") None None None) empty_world)))
       = Response 404 (JError msg_task_not_found)).
Proof.
  apply (task_update_is_read_back_for_two_hours 100 "t1" "processing"
           (Kwargs (Some "demo_user") None None None) empty_world).
  reflexivity.
Defined.

(** ** A worker run on a store that answers *)

Lemma update_task_status_quiet now task_id status kw w :
  redis_faults w = [] ->
  update_task_status now task_id status kw w = (Ret tt, task_written now task_id status kw w).
Proof.
  intros Hq.
  destruct (update_task_status_cases now task_id status kw w)
    as [[_ H] | [(fs & Hfs & _) | (fs & Hfs & _)]]; congruence.
Qed.

Lemma cache_result_quiet now key r w :
  redis_faults w = [] ->
  cache_result now key r w = (Ret tt, write key (Entry (VResult r) (Some (now + cache_ttl))) w).
Proof.
  intros Hq.
  destruct (cache_result_cases now key r w)
    as [[_ H] | [(fs & Hfs & _) | (fs & Hfs & _)]]; congruence.
Qed.

Definition processing_kw (user_id : string) : kwargs := Kwargs (Some user_id) None None None.
Definition failed_kw (user_id e : string) : kwargs := Kwargs (Some user_id) None None (Some e).
Definition completed_kw (user_id path : string) (generation_time : Z) : kwargs :=
  Kwargs (Some user_id) (Some path) (Some generation_time) None.

(** The store and the files after a successful image run. *)
Definition image_done (env : worker_env) (a : image_job) (w : world) : world :=
  task_written (finished_at env) (ij_task_id a) "completed"
    (completed_kw (ij_user_id a) (image_output_path a) (finished_at env - started_at env))
    (write (ij_cache_key a)
       (Entry (VResult (image_result env a)) (Some (finished_at env + cache_ttl)))
       (save_file (image_output_path a)
          (task_written (started_at env) (ij_task_id a) "processing"
             (processing_kw (ij_user_id a)) w))).

(** The store after a failed run of the task [task_id] of [user_id]. *)
Definition run_failed (env : worker_env) (task_id user_id e : string) (w : world) : world :=
  task_written (finished_at env) task_id "failed" (failed_kw user_id e)
    (task_written (started_at env) task_id "processing" (processing_kw user_id) w).

Definition video_done (env : worker_env) (a : video_job) (w : world) : world :=
  task_written (finished_at env) (vj_task_id a) "completed"
    (completed_kw (vj_user_id a) (video_output_path a) (finished_at env - started_at env))
    (save_file (video_output_path a)
       (task_written (started_at env) (vj_task_id a) "processing"
          (processing_kw (vj_user_id a)) w)).

Lemma image_run_quiet env a w :
  redis_faults w = [] ->
  generate_image_task env a w =
    match image_failure env a with
    | Some e => (Raise e, run_failed env (ij_task_id a) (ij_user_id a) e w)
    | None => (Ret (image_result env a), image_done env a w)
    end.
Proof.
  intros Hq. rewrite generate_image_task_run. cbv zeta.
  rewrite (update_task_status_quiet _ _ _ _ w Hq). cbn [snd].
  destruct (image_failure env a) as [e|].
  - rewrite update_task_status_quiet by exact Hq. reflexivity.
  - rewrite cache_result_quiet by exact Hq. cbn [snd].
    rewrite update_task_status_quiet by exact Hq. reflexivity.
Qed.

Lemma video_run_quiet env a w :
  redis_faults w = [] ->
  generate_video_task env a w =
    match video_failure env a with
    | Some e => (Raise e, run_failed env (vj_task_id a) (vj_user_id a) e w)
    | None =>
        (Ret (ResultData (result_url (vj_task_id a)) (finished_at env - started_at env)),
         video_done env a w)
    end.
Proof.
  intros Hq. rewrite generate_video_task_run. cbv zeta.
  rewrite (update_task_status_quiet _ _ _ _ w Hq). cbn [snd].
  destruct (video_failure env a) as [e|].
  - rewrite update_task_status_quiet by exact Hq. reflexivity.
  - rewrite update_task_status_quiet by exact Hq. reflexivity.
Qed.

(** *** The name of the download *)

Lemma after_last_dot_app s1 s2 acc :
  after_last_dot (s1 +:+ s2) acc = after_last_dot s2 (after_last_dot s1 acc).
Proof.
  revert acc. induction s1 as [|c s1 IH]; intros acc; [reflexivity|].
  rewrite app_cons. cbn [after_last_dot]. destruct (Ascii.eqb c "."); apply IH.
Qed.

Lemma output_path_cases (name : string) :
  os_path_join OUTPUT_DIR name
    = if String.prefix "/" name then name else OUTPUT_DIR +:+ "/" +:+ name.
Proof. unfold os_path_join. destruct (String.prefix "/" name); reflexivity. Qed.

Lemma extension_of_output (task_id ext : string) :
  after_last_dot ext "" = ext ->
  after_last_dot (os_path_join OUTPUT_DIR (task_id +:+ String "." ext)) "" = ext.
Proof.
  intros Hext. rewrite output_path_cases.
  destruct (String.prefix "/" (task_id +:+ String "." ext));
    rewrite !after_last_dot_app; cbn [after_last_dot Ascii.eqb Bool.eqb]; exact Hext.
Qed.

(** The output path is never the empty string. *)
Lemma output_path_truthy (task_id ext : string) :
  falsy (Some (os_path_join OUTPUT_DIR (task_id +:+ String "." ext))) = false.
Proof.
  rewrite output_path_cases.
  destruct (String.prefix "/" (task_id +:+ String "." ext)); [|reflexivity].
  destruct task_id; reflexivity.
Qed.

Lemma task_written_faults now task_id status kw w :
  redis_faults (task_written now task_id status kw w) = redis_faults w.
Proof. reflexivity. Qed.

Lemma result_answer_completed user_id task_id path generation_time updated files :
  falsy (Some path) = false ->
  path ∈ files ->
  result_answer user_id task_id files
    (Some (TaskData task_id "completed" updated (Some user_id) (Some path)
             (Some generation_time) None))
  = Response 200 (SendFile path (task_id +:+ "." +:+ after_last_dot path "")).
Proof.
  intros Hp Hin. unfold result_answer.
  rewrite not_owner_self by reflexivity. cbn [td_status td_output_path].
  replace (negb (String.eqb "completed" "completed")) with false by reflexivity.
  rewrite Hp. rewrite bool_decide_eq_true_2 by exact Hin. reflexivity.
Qed.

(** ** A finished task, seen by its owner *)

(** X2. After a worker run in which nothing fails, on a store that
    answers, the owner of the task gets from [get_task_status], for two
    hours, the [completed] record with the output path and the generation
    time [finished - started], and from [get_task_result] the file at
    [os.path.join(OUTPUT_DIR, '<task_id>.png')] under the download name
    [<task_id>.png] (for a video, [.mp4]). That path is
    [<OUTPUT_DIR>/<task_id>.png] for a task id that does not begin with
    [/]; for one that does, [os.path.join] drops the output directory and
    the file is [<task_id>.png] itself. *)
Theorem finished_task_is_served_to_its_owner :
  (forall env a w now,
     redis_faults w = [] ->
     image_failure env a = None ->
     now < finished_at env + 7200 ->
     let w' := snd (run_job env (ImageJob a) w) in
     let path := os_path_join OUTPUT_DIR (ij_task_id a +:+ ".png") in
     fst (get_task_status now (ij_user_id a) (ij_task_id a) w')
       = Response 200
           (JTask (TaskData (ij_task_id a) "completed" (finished_at env)
                     (Some (ij_user_id a)) (Some path)
                     (Some (finished_at env - started_at env)) None)) /\
     fst (get_task_result now (ij_user_id a) (ij_task_id a) w')
       = Response 200 (SendFile path (ij_task_id a +:+ ".png"))) /\
  (forall env a w now,
     redis_faults w = [] ->
     video_failure env a = None ->
     now < finished_at env + 7200 ->
     let w' := snd (run_job env (VideoJob a) w) in
     let path := os_path_join OUTPUT_DIR (vj_task_id a +:+ ".mp4") in
     fst (get_task_status now (vj_user_id a) (vj_task_id a) w')
       = Response 200
           (JTask (TaskData (vj_task_id a) "completed" (finished_at env)
                     (Some (vj_user_id a)) (Some path)
                     (Some (finished_at env - started_at env)) None)) /\
     fst (get_task_result now (vj_user_id a) (vj_task_id a) w')
       = Response 200 (SendFile path (vj_task_id a +:+ ".mp4"))) /\
  (forall name, String.prefix "/" name = false ->
     os_path_join OUTPUT_DIR name = OUTPUT_DIR +:+ "/" +:+ name) /\
  (forall name, String.prefix "/" name = true -> os_path_join OUTPUT_DIR name = name).
Proof.
  split; [|split; [|split]].
  - intros env a w now Hq Hok Hnow w' path.
    assert (Hw' : w' = image_done env a w).
    { unfold w'. cbn [run_job]. rewrite (image_run_quiet env a w Hq), Hok. reflexivity. }
    assert (Hq' : redis_faults w' = []) by (rewrite Hw'; exact Hq).
    assert (Hrec : task_record now (ij_task_id a) w'
                   = Some (TaskData (ij_task_id a) "completed" (finished_at env)
                             (Some (ij_user_id a)) (Some path)
                             (Some (finished_at env - started_at env)) None)).
    { rewrite Hw'. unfold image_done. rewrite task_record_task_written.
      replace (now <? finished_at env + task_ttl) with true; [reflexivity|].
      symmetry. apply Z.ltb_lt. unfold task_ttl. lia. }
    split.
    + rewrite (get_task_status_quiet _ _ _ w' Hq'), Hrec. unfold status_answer.
      rewrite not_owner_self by reflexivity. reflexivity.
    + rewrite (get_task_result_quiet _ _ _ w' Hq'), Hrec. cbn [fst].
      rewrite result_answer_completed.
      * unfold path. rewrite (extension_of_output (ij_task_id a) "png") by reflexivity.
        reflexivity.
      * apply (output_path_truthy (ij_task_id a) "png").
      * rewrite Hw'. unfold image_done, task_written, write, save_file. cbn [output_files].
        apply elem_of_union_l, elem_of_singleton. reflexivity.
  - intros env a w now Hq Hok Hnow w' path.
    assert (Hw' : w' = video_done env a w).
    { unfold w'. cbn [run_job]. rewrite (video_run_quiet env a w Hq), Hok. reflexivity. }
    assert (Hq' : redis_faults w' = []) by (rewrite Hw'; exact Hq).
    assert (Hrec : task_record now (vj_task_id a) w'
                   = Some (TaskData (vj_task_id a) "completed" (finished_at env)
                             (Some (vj_user_id a)) (Some path)
                             (Some (finished_at env - started_at env)) None)).
    { rewrite Hw'. unfold video_done. rewrite task_record_task_written.
      replace (now <? finished_at env + task_ttl) with true; [reflexivity|].
      symmetry. apply Z.ltb_lt. unfold task_ttl. lia. }
    split.
    + rewrite (get_task_status_quiet _ _ _ w' Hq'), Hrec. unfold status_answer.
      rewrite not_owner_self by reflexivity. reflexivity.
    + rewrite (get_task_result_quiet _ _ _ w' Hq'), Hrec. cbn [fst].
      rewrite result_answer_completed.
      * unfold path. rewrite (extension_of_output (vj_task_id a) "mp4") by reflexivity.
        reflexivity.
      * apply (output_path_truthy (vj_task_id a) "mp4").
      * rewrite Hw'. unfold video_done, task_written, write, save_file. cbn [output_files].
        apply elem_of_union_l, elem_of_singleton. reflexivity.
  - intros name Hname. rewrite output_path_cases, Hname. reflexivity.
  - intros name Hname. rewrite output_path_cases, Hname. reflexivity.
Qed.

(** X2 on the red-cube job, and on a job whose task id begins with [/]. *)
Lemma finished_task_witness :
  (fst (get_task_status 100 "demo_user" "t1"
          (snd (run_job (happy 1 5)
                  (image_job_of (demo_env 0 "t1") "demo_user" red_cube "a red cube")
                  empty_world)))
     = Response 200
         (JTask (TaskData "t1" "completed" 5 (Some "demo_user") (Some "/app/outputs/t1.png")
                   (Some 4) None)) /\
   fst (get_task_result 100 "demo_user" "t1"
          (snd (run_job (happy 1 5)
                  (image_job_of (demo_env 0 "t1") "demo_user" red_cube "a red cube")
                  empty_world)))
     = Response 200 (SendFile "/app/outputs/t1.png" "t1.png")) /\
  os_path_join OUTPUT_DIR "/etc/t1.png" = "/etc/t1.png".
Proof.
  split.
  - apply (proj1 finished_task_is_served_to_its_owner (happy 1 5)
             (ImageJobArgs "t1" "a red cube" 512 512 50 default_guidance (Some 42) None
                (image_cache_key red_cube "a red cube") "demo_user") empty_world 100).
    + reflexivity.
    + reflexivity.
    + vm_compute. reflexivity.
  - apply (proj2 (proj2 (proj2 finished_task_is_served_to_its_owner)) "/etc/t1.png").
    reflexivity.
Defined.

(** ** A failed run *)

Definition job_user_id (j : job) : string :=
  match j with
  | ImageJob a => ij_user_id a
  | VideoJob a => vj_user_id a
  end.

(** The first outside call of a job that raises, if any. *)
Definition job_failure (env : worker_env) (j : job) : option string :=
  match j with
  | ImageJob a => image_failure env a
  | VideoJob a => video_failure env a
  end.

Lemma run_job_failed env j w e :
  redis_faults w = [] ->
  job_failure env j = Some e ->
  run_job env j w = (Raise e, run_failed env (job_task_id j) (job_user_id j) e w).
Proof.
  intros Hq He. destruct j as [a | a]; cbn [run_job job_failure job_task_id job_user_id] in *.
  - rewrite (image_run_quiet env a w Hq), He. reflexivity.
  - rewrite (video_run_quiet env a w Hq), He. reflexivity.
Qed.

(** X3. When an outside call of a worker run raises [e] (model, adapter,
    generator or file system), on a store that answers: the run re-raises
    [e]; it leaves no file and changes no entry of the store but the
    record of its own task, so nothing is cached; for two hours the owner
    reads from [get_task_status] the [failed] record, which carries the
    text of the exception in [error] and neither an output path nor a
    generation time, and [get_task_result] answers 400. *)
Theorem failed_run_is_recorded_with_its_error :
  forall env j w e now,
    redis_faults w = [] ->
    job_failure env j = Some e ->
    now < finished_at env + 7200 ->
    let w' := snd (run_job env j w) in
    fst (run_job env j w) = Raise e /\
    output_files w' = output_files w /\
    (forall k, k <> task_key (job_task_id j) -> redis_kv w' !! k = redis_kv w !! k) /\
    fst (get_task_status now (job_user_id j) (job_task_id j) w')
      = Response 200
          (JTask (TaskData (job_task_id j) "failed" (finished_at env)
                    (Some (job_user_id j)) None None (Some e))) /\
    fst (get_task_result now (job_user_id j) (job_task_id j) w')
      = Response 400 (JError msg_task_not_completed).
Proof.
  intros env j w e now Hq He Hnow w'.
  pose proof (run_job_failed env j w e Hq He) as Hrun.
  assert (Hw' : w' = run_failed env (job_task_id j) (job_user_id j) e w)
    by (unfold w'; rewrite Hrun; reflexivity).
  assert (Hq' : redis_faults w' = []) by (rewrite Hw'; exact Hq).
  assert (Hrec : task_record now (job_task_id j) w'
                 = Some (TaskData (job_task_id j) "failed" (finished_at env)
                           (Some (job_user_id j)) None None (Some e))).
  { rewrite Hw'. unfold run_failed. rewrite task_record_task_written.
    replace (now <? finished_at env + task_ttl) with true; [reflexivity|].
    symmetry. apply Z.ltb_lt. unfold task_ttl. lia. }
  split; [rewrite Hrun; reflexivity|].
  split; [rewrite Hw'; reflexivity|].
  split.
  - intros k Hk. rewrite Hw'. unfold run_failed, task_written, write. cbn [redis_kv].
    rewrite !lookup_insert_ne by congruence. reflexivity.
  - split.
    + rewrite (get_task_status_quiet _ _ _ w' Hq'), Hrec. unfold status_answer.
      rewrite not_owner_self by reflexivity. reflexivity.
    + rewrite (get_task_result_quiet _ _ _ w' Hq'), Hrec. unfold result_answer.
      rewrite not_owner_self by reflexivity. reflexivity.
Qed.

Lemma failed_run_witness :
  fst (run_job (WorkerEnv 1 5 true None None (Some "CUDA out of memory") None)
         (image_job_of (demo_env 0 "t1") "demo_user" red_cube "a red cube") empty_world)
    = Raise "CUDA out of memory" /\
  output_files
    (snd (run_job (WorkerEnv 1 5 true None None (Some "CUDA out of memory") None)
            (image_job_of (demo_env 0 "t1") "demo_user" red_cube "a red cube") empty_world))
    = output_files empty_world /\
  (forall k, k <> task_key "t1" ->
     redis_kv
       (snd (run_job (WorkerEnv 1 5 true None None (Some "CUDA out of memory") None)
               (image_job_of (demo_env 0 "t1") "demo_user" red_cube "a red cube")
               empty_world)) !! k
     = redis_kv empty_world !! k) /\
  fst (get_task_status 100 "demo_user" "t1"
         (snd (run_job (WorkerEnv 1 5 true None None (Some "CUDA out of memory") None)
                 (image_job_of (demo_env 0 "t1") "demo_user" red_cube "a red cube")
                 empty_world)))
    = Response 200
        (JTask (TaskData "t1" "failed" 5 (Some "demo_user") None None
                  (Some "CUDA out of memory"))) /\
  fst (get_task_result 100 "demo_user" "t1"
         (snd (run_job (WorkerEnv 1 5 true None None (Some "CUDA out of memory") None)
                 (image_job_of (demo_env 0 "t1") "demo_user" red_cube "a red cube")
                 empty_world)))
    = Response 400 (JError msg_task_not_completed).
Proof.
  apply (failed_run_is_recorded_with_its_error
           (WorkerEnv 1 5 true None None (Some "CUDA out of memory") None)
           (image_job_of (demo_env 0 "t1") "demo_user" red_cube "a red cube")
           empty_world "CUDA out of memory" 100).
  - reflexivity.
  - reflexivity.
  - vm_compute. reflexivity.
Defined.

(** ** The reference a cache hit hands out *)

Lemma image_cache_key_not_task_key d prompt task_id :
  image_cache_key d prompt <> task_key task_id.
Proof.
  unfold image_cache_key. intros E. symmetry in E. revert E. apply task_key_not_cache_key.
Qed.

Lemma image_cache_key_not_rate_key d prompt user_id endpoint_type :
  image_cache_key d prompt <> rate_key user_id endpoint_type.
Proof. unfold image_cache_key. apply cache_key_not_rate_key. Qed.

Lemma not_owner_other t user_id owner :
  td_user_id t = Some owner -> owner <> user_id -> not_owner t user_id = true.
Proof.
  intros Ht Hne. apply not_owner_mismatch. rewrite Ht. congruence.
Qed.

(** The record of a task after a successful image run. *)
Lemma task_record_image_done now env a w :
  task_record now (ij_task_id a) (image_done env a w)
    = if now <? finished_at env + task_ttl
      then Some (TaskData (ij_task_id a) "completed" (finished_at env) (Some (ij_user_id a))
                   (Some (image_output_path a)) (Some (finished_at env - started_at env)) None)
      else None.
Proof. unfold image_done. apply task_record_task_written. Qed.

Lemma task_record_write_other now task_id key e w :
  key <> task_key task_id ->
  task_record now task_id (write key e w) = task_record now task_id w.
Proof.
  intros Hne. unfold task_record, live_entry, write. cbn [redis_kv].
  rewrite lookup_insert_ne by exact Hne. reflexivity.
Qed.

Lemma live_entry_write_other now key key' e w :
  key' <> key -> live_entry now key (write key' e w) = live_entry now key w.
Proof.
  intros Hne. unfold live_entry, write. cbn [redis_kv].
  rewrite lookup_insert_ne by exact Hne. reflexivity.
Qed.

Lemma result_answer_stranger user_id task_id files o owner :
  (forall t, o = Some t -> td_user_id t = Some owner) ->
  owner <> user_id ->
  result_answer user_id task_id files o = Response 404 (JError msg_task_not_found).
Proof.
  intros Ho Hne. unfold result_answer. destruct o as [t|]; [|reflexivity].
  rewrite (not_owner_other t user_id owner (Ho t eq_refl) Hne). reflexivity.
Qed.

(** X4. The reference stored in the result cache is [/task/<task_id>/result]
    of the task that generated the image, and the route behind it,
    [get_task_result], serves that task to its owner alone and for two
    hours, while the cache entry lives for twenty-four. So, after a
    successful run on a store that answers: an identical request of
    another user, admitted by the rate limiter before the entry expires,
    is answered [completed] from the cache with that reference, and
    [get_task_result] answers 404 to that user for the task it names, at
    any time; and from two hours after the run until the entry expires
    the cache still returns the reference while [get_task_result] answers
    404 to everyone, the owner included. *)
Theorem cached_reference_is_served_to_the_owner_only :
  forall wenv a w env user_id d prompt,
    redis_faults w = [] ->
    image_failure wenv a = None ->
    ij_cache_key a = image_cache_key d prompt ->
    image_valid d prompt ->
    user_id <> ij_user_id a ->
    cache_clock env < finished_at wenv + 86400 ->
    (live_entry (clock env) (rate_key user_id "image") w = None \/
     exists c tc, live_entry (clock env) (rate_key user_id "image") w
                    = Some (Entry (VInt c) tc) /\ c < rate_limit_of user_id) ->
    let w' := snd (run_job wenv (ImageJob a) w) in
    (exists w'',
       generate_image env user_id (Some d) w'
         = (Response 200 (JCached (CachedResponse (uuid4 env) "completed"
                                     (result_url (ij_task_id a)) true 0)), w'') /\
       forall now, fst (get_task_result now user_id (ij_task_id a) w'')
                   = Response 404 (JError msg_task_not_found)) /\
    (forall now caller,
       finished_at wenv + 7200 <= now < finished_at wenv + 86400 ->
       fst (get_cached_result now (ij_cache_key a) w')
         = Ret (Some (ResultData (result_url (ij_task_id a))
                        (finished_at wenv - started_at wenv))) /\
       fst (get_task_result now caller (ij_task_id a) w')
         = Response 404 (JError msg_task_not_found)).
Proof.
  intros wenv a w env user_id d prompt Hq Hok Hkey Hv Hne Hclock Hroom w'.
  assert (Hw' : w' = image_done wenv a w).
  { unfold w'. cbn [run_job]. rewrite (image_run_quiet wenv a w Hq), Hok. reflexivity. }
  assert (Hq' : redis_faults w' = []) by (rewrite Hw'; exact Hq).
  assert (Hkv : redis_kv w' !! image_cache_key d prompt
                = Some (Entry (VResult (image_result wenv a))
                          (Some (finished_at wenv + cache_ttl)))).
  { rewrite Hw'. unfold image_done, task_written, write. cbn [redis_kv].
    rewrite lookup_insert_ne by (apply not_eq_sym, image_cache_key_not_task_key).
    rewrite Hkey. apply lookup_insert_eq. }
  assert (Hlive : forall now, now < finished_at wenv + 86400 ->
            live now (Entry (VResult (image_result wenv a))
                        (Some (finished_at wenv + cache_ttl))) = true).
  { intros now Hnow. unfold live. cbn [expiry]. apply Z.ltb_lt. unfold cache_ttl. lia. }
  split.
  - assert (Hroom' :
      live_entry (clock env) (rate_key user_id "image") w' = None \/
      exists c tc, live_entry (clock env) (rate_key user_id "image") w'
                     = Some (Entry (VInt c) tc) /\ c < rate_limit_of user_id).
    { assert (E : live_entry (clock env) (rate_key user_id "image") w'
                  = live_entry (clock env) (rate_key user_id "image") w).
      { rewrite Hw'. unfold image_done, task_written.
        rewrite live_entry_write_other by apply task_key_not_rate_key.
        rewrite live_entry_write_other
          by (rewrite Hkey; apply image_cache_key_not_rate_key).
        change (live_entry (clock env) (rate_key user_id "image") (save_file ?p ?x))
          with (live_entry (clock env) (rate_key user_id "image") x).
        unfold task_written.
        rewrite live_entry_write_other by apply task_key_not_rate_key. reflexivity. }
      rewrite E. exact Hroom. }
    assert (Hadm : exists e,
              check_rate_limit (clock env) (write_clock env) user_id "image" w'
                = (Ret true, write (rate_key user_id "image") e w')).
    { destruct Hroom' as [Hnone | (c & tc & Hl & Hc)].
      - eexists. apply check_rate_limit_first; assumption.
      - eexists. eapply check_rate_limit_next; eassumption. }
    destruct Hadm as (e & Hadm).
    set (w1 := write (rate_key user_id "image") e w') in *.
    assert (Hkv1 : redis_kv w1 !! image_cache_key d prompt
                   = Some (Entry (VResult (image_result wenv a))
                             (Some (finished_at wenv + cache_ttl)))).
    { unfold w1, write. cbn [redis_kv].
      rewrite lookup_insert_ne by (apply not_eq_sym, image_cache_key_not_rate_key).
      exact Hkv. }
    pose proof (get_cached_result_quiet (cache_clock env) _ w1 _ _ Hq' Hkv1 (Hlive _ Hclock)) as Hget.
    exists w1. split.
    + unfold generate_image, endpoint.
      rewrite (generate_image_try_valid env user_id d prompt Hv).
      rewrite (bind_ret _ _ _ _ _ Hadm). cbn [negb]. unfold image_after_validation.
      rewrite (bind_ret _ _ _ _ _ Hget). reflexivity.
    + intros now. rewrite (get_task_result_quiet now user_id (ij_task_id a) w1 Hq'). cbn [fst].
      apply (result_answer_stranger _ _ _ _ (ij_user_id a)); [|congruence].
      intros t. unfold w1. rewrite task_record_write_other by apply not_eq_sym, task_key_not_rate_key.
      rewrite Hw', task_record_image_done.
      destruct (now <? finished_at wenv + task_ttl); [|discriminate].
      intros [= <-]. reflexivity.
  - intros now caller [Hlate Hnow]. split.
    + rewrite <- Hkey in Hkv.
      rewrite (get_cached_result_quiet now _ w' _ _ Hq' Hkv (Hlive now Hnow)). reflexivity.
    + rewrite (get_task_result_quiet now caller (ij_task_id a) w' Hq'). cbn [fst].
      rewrite Hw', task_record_image_done.
      replace (now <? finished_at wenv + task_ttl) with false; [reflexivity|].
      symmetry. apply Z.ltb_ge. unfold task_ttl. lia.
Qed.

(** The job of the red-cube request of "demo_user". *)
Definition red_cube_job : image_job :=
  ImageJobArgs "t1" "a red cube" 512 512 50 default_guidance (Some 42) None
    (image_cache_key red_cube "a red cube") "demo_user".

Lemma cached_reference_witness :
  (exists w'',
     generate_image (demo_env 10 "t2") "premium_user" (Some red_cube)
       (snd (run_job (happy 1 5) (ImageJob red_cube_job) empty_world))
       = (Response 200 (JCached (CachedResponse (uuid4 (demo_env 10 "t2")) "completed"
                                   (result_url (ij_task_id red_cube_job)) true 0)), w'') /\
     forall now, fst (get_task_result now "premium_user" (ij_task_id red_cube_job) w'')
                 = Response 404 (JError msg_task_not_found)) /\
  (forall now caller,
     finished_at (happy 1 5) + 7200 <= now < finished_at (happy 1 5) + 86400 ->
     fst (get_cached_result now (ij_cache_key red_cube_job)
            (snd (run_job (happy 1 5) (ImageJob red_cube_job) empty_world)))
       = Ret (Some (ResultData (result_url (ij_task_id red_cube_job))
                      (finished_at (happy 1 5) - started_at (happy 1 5)))) /\
     fst (get_task_result now caller (ij_task_id red_cube_job)
            (snd (run_job (happy 1 5) (ImageJob red_cube_job) empty_world)))
       = Response 404 (JError msg_task_not_found)).
Proof.
  apply (cached_reference_is_served_to_the_owner_only
           (happy 1 5) red_cube_job empty_world (demo_env 10 "t2") "premium_user"
           red_cube "a red cube").
  - reflexivity.
  - reflexivity.
  - reflexivity.
  - unfold image_valid. repeat split; try reflexivity; vm_compute; discriminate.
  - discriminate.
  - vm_compute. reflexivity.
  - left. reflexivity.
Defined.

(** ** Videos and the result cache *)

(** X5. No video is ever served from or written to the result cache.
    [generate_video] never gives the cache-hit answer and changes no
    entry of the store but the caller's rate-limit counter; a video
    worker run changes no entry but the record of its task. Every
    request that the rate limiter admits and validation accepts is
    published, whatever the store holds: the job joins the queue when the
    broker takes it, and when the publishing raises because the store is
    down the request is answered 500 and the queue is as before. *)
Theorem videos_are_never_cached :
  (forall env user_id data w,
     (forall r, payload (fst (generate_video env user_id data w)) <> JCached r) /\
     (forall k, k <> rate_key user_id "video" ->
        redis_kv (snd (generate_video env user_id data w)) !! k = redis_kv w !! k)) /\
  (forall env a w k,
     k <> task_key (vj_task_id a) ->
     redis_kv (snd (run_job env (VideoJob a) w)) !! k = redis_kv w !! k) /\
  (forall env user_id d prompt raw w w1,
     video_valid d prompt raw ->
     check_rate_limit (clock env) (write_clock env) user_id "video" w = (Ret true, w1) ->
     (store_is_down w1 = false ->
      celery_queue (snd (generate_video env user_id (Some d) w))
        = celery_queue w ++ [video_job_of env user_id d prompt raw]) /\
     (store_is_down w1 = true ->
      fst (generate_video env user_id (Some d) w) = Response 500 (JError msg_internal) /\
      celery_queue (snd (generate_video env user_id (Some d) w)) = celery_queue w)).
Proof.
  split; [|split].
  - intros env user_id data w.
    pose proof (check_rate_limit_frame (clock env) (write_clock env) user_id "video" w) as Hframe.
    destruct (generate_video_cases env user_id data w)
      as (b & w1 & Hc & [(-> & Hr) | [(-> & (msg & Hr) & _) | (-> & d & p & raw & -> & Hv & Hr)]]);
      rewrite Hc in Hframe; cbn [snd] in Hframe; destruct Hframe as (_ & _ & Hkv & _);
      rewrite Hr.
    + split; [intros r; discriminate | intros k Hk; apply Hkv; exact Hk].
    + split; [intros r; discriminate | intros k Hk; apply Hkv; exact Hk].
    + destruct (video_after_validation_cases env user_id d p raw w1)
        as [(_ & fs & ->) | (_ & ->)].
      * split; [intros r; discriminate | intros k Hk; apply Hkv; exact Hk].
      * split; [|intros k Hk; apply Hkv; exact Hk].
        intros r. destruct (estimate_video_generation_time _ _ _ _); discriminate.
  - intros env a w k Hk. apply run_job_kv; [exact Hk | discriminate].
  - intros env user_id d prompt raw w w1 Hv Hc.
    pose proof (check_rate_limit_frame (clock env) (write_clock env) user_id "video" w) as Hframe.
    rewrite Hc in Hframe. cbn [snd] in Hframe. destruct Hframe as (Hqueue & _).
    rewrite (generate_video_admitted env user_id d prompt raw w w1 Hv Hc).
    destruct (video_after_validation_cases env user_id d prompt raw w1)
      as [(Hd & fs & ->) | (Hd & ->)].
    + split; intros Hs; [congruence|]. split; [reflexivity | exact Hqueue].
    + split; intros Hs; [|congruence].
      cbn [snd]. unfold enqueue, with_faults. cbn [celery_queue]. rewrite Hqueue. reflexivity.
Qed.

Lemma videos_are_never_cached_witness :
  celery_queue (snd (generate_video (demo_env 0 "t2") "demo_user" (Some short_clip) empty_world))
    = celery_queue empty_world
      ++ [video_job_of (demo_env 0 "t2") "demo_user" short_clip "a red cube"
            (PyFloat64.of_int 4)].
Proof.
  apply (proj1 (proj2 (proj2 videos_are_never_cached)
           (demo_env 0 "t2") "demo_user" short_clip "a red cube" (PyFloat64.of_int 4)
           empty_world
           (write (rate_key "demo_user" "video") (Entry (VInt 1) (Some 60)) empty_world)
           ltac:(unfold video_valid; repeat split; try reflexivity; vm_compute; discriminate)
           ltac:(vm_compute; reflexivity))).
  reflexivity.
Defined.

(** ** What reaches the queue *)







(** ** A duration that is not a number *)

Lemma to_int_mul_nan (x : PyFloat64.float) :
  PyFloat64.to_int (PrimFloat.mul PrimFloat.nan x) = None.
Proof.
  unfold PyFloat64.to_int. rewrite FloatAxioms.mul_spec.
  replace (FloatOps.Prim2SF PrimFloat.nan) with SpecFloat.S754_nan by (vm_compute; reflexivity).
  reflexivity.
Qed.

(** X7. [float('nan')] passes the validation of [generate_video]: it is
    neither [<= 0] nor [> 30], and [min] leaves it as it is. With a
    prompt and a frame rate in range, once the rate limiter has admitted
    the request, the caller is answered 500 in every case. When the
    broker takes the job, it is put on the queue with that duration, and
    the answer is 500 because the estimate of the answer raises on
    [int(nan * fps)] after the job was queued; when the publishing
    raises, nothing is queued. *)
Theorem nan_duration_is_queued_then_answered_500 :
  forall env user_id d prompt w w1,
    vr_prompt d = Some prompt ->
    vr_duration d = Some PrimFloat.nan ->
    1 <= video_fps d <= 60 ->
    check_rate_limit (clock env) (write_clock env) user_id "video" w = (Ret true, w1) ->
    fst (generate_video env user_id (Some d) w) = Response 500 (JError msg_internal) /\
    (store_is_down w1 = false ->
     snd (generate_video env user_id (Some d) w)
       = enqueue (VideoJob (VideoJobArgs (uuid4 env) prompt PrimFloat.nan (video_width d)
                              (video_height d) (video_fps d) (vr_seed d)
                              (lora_path_of env (vr_lora d)) user_id))
           (with_faults (tail (redis_faults w1)) w1)) /\
    (store_is_down w1 = true ->
     celery_queue (snd (generate_video env user_id (Some d) w)) = celery_queue w1).
Proof.
  intros env user_id d prompt w w1 Hp Hd Hfps Hc.
  assert (Hclamp : clamp_duration PrimFloat.nan = PrimFloat.nan) by (vm_compute; reflexivity).
  assert (Hv : video_valid d prompt PrimFloat.nan).
  { unfold video_valid. split; [exact Hp|]. split; [exact Hd|]. split; [|exact Hfps].
    vm_compute. reflexivity. }
  rewrite (generate_video_admitted env user_id d prompt PrimFloat.nan w w1 Hv Hc).
  destruct (video_after_validation_cases env user_id d prompt PrimFloat.nan w1)
    as [(Hdown & fs & ->) | (Hup & ->)].
  - split; [reflexivity|]. split; intros Hs; [congruence | reflexivity].
  - unfold video_job_of. rewrite Hclamp.
    unfold estimate_video_generation_time, video_frames. rewrite to_int_mul_nan.
    split; [reflexivity|]. split; intros Hs; [reflexivity | congruence].
Qed.

(** The clip of [short_clip] with [duration = float('nan')]. *)
Definition nan_clip : video_request :=
  VideoRequest (Some "a red cube") (Some PrimFloat.nan) None None None None None.

Lemma nan_duration_witness :
  fst (generate_video (demo_env 0 "t2") "demo_user" (Some nan_clip) empty_world)
    = Response 500 (JError msg_internal) /\
  (store_is_down (write (rate_key "demo_user" "video") (Entry (VInt 1) (Some 60)) empty_world)
     = false ->
   snd (generate_video (demo_env 0 "t2") "demo_user" (Some nan_clip) empty_world)
     = enqueue (VideoJob (VideoJobArgs (uuid4 (demo_env 0 "t2")) "a red cube" PrimFloat.nan
                            (video_width nan_clip) (video_height nan_clip)
                            (video_fps nan_clip) (vr_seed nan_clip)
                            (lora_path_of (demo_env 0 "t2") (vr_lora nan_clip)) "demo_user"))
         (with_faults
            (tail (redis_faults (write (rate_key "demo_user" "video")
                                   (Entry (VInt 1) (Some 60)) empty_world)))
            (write (rate_key "demo_user" "video") (Entry (VInt 1) (Some 60)) empty_world))) /\
  (store_is_down (write (rate_key "demo_user" "video") (Entry (VInt 1) (Some 60)) empty_world)
     = true ->
   celery_queue (snd (generate_video (demo_env 0 "t2") "demo_user" (Some nan_clip) empty_world))
     = celery_queue (write (rate_key "demo_user" "video") (Entry (VInt 1) (Some 60))
                       empty_world)).
Proof.
  apply (nan_duration_is_queued_then_answered_500 (demo_env 0 "t2") "demo_user" nan_clip
           "a red cube" empty_world).
  - reflexivity.
  - reflexivity.
  - vm_compute. split; discriminate.
  - vm_compute. reflexivity.
Defined.

(** ** One window per user and endpoint class *)

Lemma app_inj_length (a b x y : string) :
  String.length a = String.length b -> a +:+ x = b +:+ y -> a = b /\ x = y.
Proof.
  revert b. induction a as [|c a IH]; intros [|c' b] Hlen H; try discriminate Hlen.
  - rewrite !app_empty in H. auto.
  - rewrite !app_cons in H. injection H as -> H. injection Hlen as Hlen.
    destruct (IH b Hlen H) as [-> ->]. auto.
Qed.

(** The keys of the two endpoint classes tell users and classes apart. *)
Lemma rate_key_inj user_id endpoint_type user' endpoint' :
  endpoint_type = "image" \/ endpoint_type = "video" ->
  endpoint' = "image" \/ endpoint' = "video" ->
  rate_key user_id endpoint_type = rate_key user' endpoint' ->
  user_id = user' /\ endpoint_type = endpoint'.
Proof.
  intros He He' H. unfold rate_key in H. apply string_app_inv_head in H.
  assert (Hlen : String.length user_id = String.length user').
  { apply (f_equal String.length) in H. rewrite !string_app_length in H.
    destruct He as [-> | ->], He' as [-> | ->]; simpl in H; lia. }
  destruct (app_inj_length _ _ _ _ Hlen H) as [-> Ht].
  apply string_app_inv_head in Ht. auto.
Qed.

(** What the rate limiter answers on a store that answers. *)
Definition admits (user_id : string) (e : option entry) : bool :=
  match e with
  | Some (Entry (VInt c) _) => negb (rate_limit_of user_id <=? c)
  | _ => true
  end.

Lemma check_rate_limit_mistyped now later user_id endpoint_type w v ex :
  redis_faults w = [] ->
  live_entry now (rate_key user_id endpoint_type) w = Some (Entry v ex) ->
  (forall c, v <> VInt c) ->
  check_rate_limit now later user_id endpoint_type w = (Ret true, w).
Proof.
  intros Hq Hl Hv. unfold check_rate_limit, try_except, check_rate_limit_try, bind, redis_get.
  rewrite (command_quiet _ w Hq), Hl.
  destruct v as [c|t|r]; [destruct (Hv c eq_refl) | reflexivity | reflexivity].
Qed.

Lemma check_rate_limit_quiet now later user_id endpoint_type w :
  redis_faults w = [] ->
  fst (check_rate_limit now later user_id endpoint_type w)
    = Ret (admits user_id (live_entry now (rate_key user_id endpoint_type) w)) /\
  redis_faults (snd (check_rate_limit now later user_id endpoint_type w)) = [].
Proof.
  intros Hq. unfold admits.
  destruct (live_entry now (rate_key user_id endpoint_type) w) as [[v ex]|] eqn:Hl.
  - destruct v as [c|t|r].
    + destruct (rate_limit_of user_id <=? c) eqn:Hc; cbn [negb].
      * apply Z.leb_le in Hc.
        rewrite (check_rate_limit_full now later user_id endpoint_type w c ex Hq Hl Hc).
        split; [reflexivity | exact Hq].
      * apply Z.leb_gt in Hc.
        rewrite (check_rate_limit_next now later user_id endpoint_type w c ex Hq Hl Hc).
        split; [reflexivity | exact Hq].
    + rewrite (check_rate_limit_mistyped now later user_id endpoint_type w _ _ Hq Hl)
        by discriminate.
      split; [reflexivity | exact Hq].
    + rewrite (check_rate_limit_mistyped now later user_id endpoint_type w _ _ Hq Hl)
        by discriminate.
      split; [reflexivity | exact Hq].
  - rewrite (check_rate_limit_first now later user_id endpoint_type w Hq Hl).
    split; [reflexivity | exact Hq].
Qed.

(** X8. The windows of the two endpoint classes ['image'] and ['video']
    and of different users are counted apart: a call of
    [check_rate_limit] for one user and class leaves the live entry of
    every other user or class as it was, at every time, and on a store
    that answers it does not change what the rate limiter answers for
    them, whenever the two commands of either call reach the store. *)
Theorem rate_limit_windows_are_counted_apart :
  forall now later user_id endpoint_type user' endpoint' w,
    endpoint_type = "image" \/ endpoint_type = "video" ->
    endpoint' = "image" \/ endpoint' = "video" ->
    (user' <> user_id \/ endpoint' <> endpoint_type) ->
    let w' := snd (check_rate_limit now later user_id endpoint_type w) in
    (forall t, live_entry t (rate_key user' endpoint') w'
               = live_entry t (rate_key user' endpoint') w) /\
    (redis_faults w = [] ->
     forall t t', fst (check_rate_limit t t' user' endpoint' w')
                  = fst (check_rate_limit t t' user' endpoint' w)).
Proof.
  intros now later user_id endpoint_type user' endpoint' w He He' Hne w'.
  assert (Hkey : rate_key user' endpoint' <> rate_key user_id endpoint_type).
  { intros E. destruct (rate_key_inj _ _ _ _ He' He E) as [-> ->]. destruct Hne; congruence. }
  assert (Hlive : forall t, live_entry t (rate_key user' endpoint') w'
                            = live_entry t (rate_key user' endpoint') w).
  { intros t. destruct (check_rate_limit_frame now later user_id endpoint_type w)
      as (_ & _ & Hkv & _).
    unfold live_entry. fold w' in Hkv. rewrite (Hkv _ Hkey). reflexivity. }
  split; [exact Hlive|].
  intros Hq t t'.
  destruct (check_rate_limit_quiet now later user_id endpoint_type w Hq) as [_ Hq'].
  fold w' in Hq'.
  destruct (check_rate_limit_quiet t t' user' endpoint' w' Hq') as [-> _].
  destruct (check_rate_limit_quiet t t' user' endpoint' w Hq) as [-> _].
  rewrite Hlive. reflexivity.
Qed.

(** "demo_user" at the ceiling of the image window. *)
Definition image_window_full : world :=
  write (rate_key "demo_user" "image") (Entry (VInt 10) (Some 60)) empty_world.

Lemma rate_limit_windows_witness :
  (forall t, live_entry t (rate_key "demo_user" "video")
               (snd (check_rate_limit 5 6 "demo_user" "image" image_window_full))
             = live_entry t (rate_key "demo_user" "video") image_window_full) /\
  (redis_faults image_window_full = [] ->
   forall t t', fst (check_rate_limit t t' "demo_user" "video"
                       (snd (check_rate_limit 5 6 "demo_user" "image" image_window_full)))
                = fst (check_rate_limit t t' "demo_user" "video" image_window_full)).
Proof.
  apply (rate_limit_windows_are_counted_apart 5 6 "demo_user" "image" "demo_user" "video"
           image_window_full).
  - left. reflexivity.
  - right. reflexivity.
  - right. discriminate.
Defined.

(** ** Tokens *)

Lemma api_key_lookup_some api_key info :
  api_key_lookup api_key = Ret (Some info) ->
  exists key, api_key = KeyString key /\ In (key, info) valid_api_keys.
Proof.
  destruct api_key as [|s| |]; cbn [api_key_lookup]; try discriminate.
  destruct (find (fun kv => String.eqb (fst kv) s) valid_api_keys) as [[k i]|] eqn:Hf;
    cbn [fmap option_fmap option_map snd]; [|discriminate].
  intros [= ->]. exists s. split; [reflexivity|].
  apply find_some in Hf. destruct Hf as [Hin Hk].
  apply String.eqb_eq in Hk. cbn [fst] in Hk. subst. exact Hin.
Qed.

Lemma api_key_lookup_listed key info :
  In (key, info) valid_api_keys -> api_key_lookup (KeyString key) = Ret (Some info).
Proof.
  intros [[= <- <-] | [[= <- <-] | []]]; reflexivity.
Qed.

(** The ceiling the rate limiter applies to the identity of a key is the
    rate limit listed with the key. *)
Lemma rate_limit_of_listed key info :
  In (key, info) valid_api_keys -> rate_limit_of (ui_user_id info) = ui_rate_limit info.
Proof.
  intros [[= <- <-] | [[= <- <-] | []]]; reflexivity.
Qed.

Lemma create_token_listed sign api_key info :
  api_key_lookup api_key = Ret (Some info) ->
  create_token sign (Some api_key)
    = match sign (ui_user_id info) (ui_tier info) (ui_rate_limit info) with
      | Some access_token => TokenResponse 200 (TokenIssued access_token info)
      | None => TokenResponse 500 (TokenError msg_internal)
      end.
Proof.
  intros H. unfold create_token, validate_api_key, get_user_info. rewrite H. reflexivity.
Qed.

Lemma create_token_unlisted sign api_key :
  api_key_lookup api_key = Ret None ->
  create_token sign (Some api_key) = TokenResponse 401 (TokenError msg_invalid_api_key).
Proof.
  intros H. unfold create_token, validate_api_key. rewrite H. reflexivity.
Qed.

Lemma api_key_lookup_cases api_key :
  (exists info, api_key_lookup api_key = Ret (Some info)) \/
  (api_key_lookup api_key = Ret None /\ api_key <> KeyUnhashable) \/
  (api_key = KeyUnhashable).
Proof.
  destruct api_key as [|s| |]; cbn [api_key_lookup].
  - right. left. split; [reflexivity | discriminate].
  - destruct (find _ valid_api_keys) as [[k i]|]; cbn [fmap option_fmap option_map].
    + left. eauto.
    + right. left. split; [reflexivity | discriminate].
  - right. left. split; [reflexivity | discriminate].
  - right. right. reflexivity.
Qed.

(** X9. [create_token] issues a token exactly for a string that is one
    of the listed API keys, when the signing call returns: the identity
    signed into the token is the [user_id] listed with the key, the
    [rate_limit] claim is the ceiling that [check_rate_limit] applies to
    that identity, and the answer carries the listed user record. A
    missing key, a key that is not listed and any other hashable value
    are answered 401; a body that is no JSON object, an unhashable key
    and a signing call that raises are answered 500. *)
Theorem tokens_are_issued_for_listed_keys_only :
  forall (sign : token_signer) data,
    (forall token info,
       create_token sign data = TokenResponse 200 (TokenIssued token info) <->
       exists key,
         data = Some (KeyString key) /\ In (key, info) valid_api_keys /\
         sign (ui_user_id info) (ui_tier info) (ui_rate_limit info) = Some token) /\
    (forall token info,
       create_token sign data = TokenResponse 200 (TokenIssued token info) ->
       rate_limit_of (ui_user_id info) = ui_rate_limit info) /\
    (create_token sign data = TokenResponse 401 (TokenError msg_invalid_api_key) <->
     exists api_key,
       data = Some api_key /\ api_key <> KeyUnhashable /\
       forall key info, api_key = KeyString key -> ~ In (key, info) valid_api_keys) /\
    (tr_status_code (create_token sign data) = 200 \/
     create_token sign data = TokenResponse 401 (TokenError msg_invalid_api_key) \/
     create_token sign data = TokenResponse 500 (TokenError msg_internal)).
Proof.
  intros sign data.
  assert (Hlisted : forall key info api_key,
            api_key = KeyString key -> In (key, info) valid_api_keys ->
            api_key_lookup api_key = Ret (Some info)).
  { intros key info api_key ->. apply api_key_lookup_listed. }
  split; [|split; [|split]].
  - intros token info. split.
    + destruct data as [api_key|]; [|discriminate].
      destruct (api_key_lookup_cases api_key) as [(i & Hl) | [(Hl & _) | ->]].
      * rewrite (create_token_listed sign api_key i Hl).
        destruct (sign _ _ _) as [tok|] eqn:Hs; [|discriminate].
        intros [= <- <-]. destruct (api_key_lookup_some _ _ Hl) as (key & -> & Hin).
        exists key. auto.
      * rewrite (create_token_unlisted sign api_key Hl). discriminate.
      * discriminate.
    + intros (key & -> & Hin & Hs).
      rewrite (create_token_listed sign _ info (api_key_lookup_listed key info Hin)), Hs.
      reflexivity.
  - intros token info. destruct data as [api_key|]; [|discriminate].
    destruct (api_key_lookup_cases api_key) as [(i & Hl) | [(Hl & _) | ->]].
    + rewrite (create_token_listed sign api_key i Hl).
      destruct (sign _ _ _) as [tok|]; [|discriminate].
      intros [= <- <-]. destruct (api_key_lookup_some _ _ Hl) as (key & _ & Hin).
      exact (rate_limit_of_listed key i Hin).
    + rewrite (create_token_unlisted sign api_key Hl). discriminate.
    + discriminate.
  - split.
    + destruct data as [api_key|]; [|discriminate].
      destruct (api_key_lookup_cases api_key) as [(i & Hl) | [(Hl & Hne) | ->]].
      * rewrite (create_token_listed sign api_key i Hl).
        destruct (sign _ _ _); discriminate.
      * intros _. exists api_key. split; [reflexivity|]. split; [exact Hne|].
        intros key info Hk Hin. rewrite (Hlisted key info api_key Hk Hin) in Hl. discriminate.
      * discriminate.
    + intros (api_key & -> & Hne & Hnot).
      destruct (api_key_lookup_cases api_key) as [(i & Hl) | [(Hl & _) | ->]].
      * destruct (api_key_lookup_some _ _ Hl) as (key & Hk & Hin).
        destruct (Hnot key i Hk Hin).
      * apply create_token_unlisted. exact Hl.
      * destruct (Hne eq_refl).
  - destruct data as [api_key|]; [|right; right; reflexivity].
    destruct (api_key_lookup_cases api_key) as [(i & Hl) | [(Hl & _) | ->]].
    + rewrite (create_token_listed sign api_key i Hl).
      destruct (sign _ _ _); [left | right; right]; reflexivity.
    + right. left. apply create_token_unlisted. exact Hl.
    + right. right. reflexivity.
Qed.

(** A signer for the examples. *)
Definition demo_signer : token_signer :=
  fun identity tier rate_limit => Some ("jwt:" +:+ identity).

Lemma tokens_witness :
  rate_limit_of (ui_user_id (UserInfo "premium_user" "premium" 100))
    = ui_rate_limit (UserInfo "premium_user" "premium" 100).
Proof.
  apply (proj1 (proj2 (tokens_are_issued_for_listed_keys_only demo_signer
                         (Some (KeyString "flux-api-key-premium"))))
           "jwt:premium_user" (UserInfo "premium_user" "premium" 100)).
  reflexivity.
Defined.

(** ** The model manager *)

Section ModelManager.
Import FluxModelManager.

(** The managers the program can reach from [__init__]. *)
Inductive reachable : manager -> Prop :=
| reach_init cpu_offload : reachable (init cpu_offload)
| reach_load env m : reachable m -> reachable (snd (load_base_model env m))
| reach_unload env m : reachable m -> reachable (snd (unload_model env m))
| reach_request env path m : reachable m -> reachable (initialize_models env path m).

(** A manager that says it is loaded holds a pipeline. *)
Definition consistent (m : manager) : Prop :=
  model_loaded m = true -> is_Some (pipeline m).

Lemma apply_optimizations_keeps env m :
  model_loaded (apply_optimizations env m) = model_loaded m /\
  (is_Some (pipeline m) -> is_Some (pipeline (apply_optimizations env m))) /\
  enable_cpu_offload (apply_optimizations env m) = enable_cpu_offload m.
Proof.
  unfold apply_optimizations. destruct (pipeline m) as [p|] eqn:Hp.
  - destruct (enable_attention_slicing m), (slicing env),
      (enable_memory_efficient_attention m && has_memory_efficient_attention env),
      (efficient_attention env), (has_compile env && cuda_available env), (compile env);
      cbn [with_pipeline model_loaded pipeline enable_cpu_offload]; eauto.
  - rewrite Hp. split; [reflexivity|]. split; [auto | reflexivity].
Qed.

Lemma load_base_model_consistent env m :
  consistent m -> consistent (snd (load_base_model env m)).
Proof.
  intros Hm. unfold load_base_model.
  destruct (from_pretrained env); [exact Hm|].
  set (m1 := with_pipeline (Some (Pipeline false false false false)) m).
  assert (H1 : consistent m1) by (intros _; cbn; eauto).
  assert (Hloaded : forall m2, is_Some (pipeline m2) ->
            consistent (with_loaded true (apply_optimizations env m2))).
  { intros m2 H2 _. cbn [with_loaded pipeline].
    apply (proj1 (proj2 (apply_optimizations_keeps env m2))). exact H2. }
  destruct (negb (enable_cpu_offload m1)).
  - destruct (to_device env); [exact H1|].
    destruct (cuda_available env); [destruct (memory_stats env)|];
      cbn [snd]; apply Hloaded; cbn; eauto.
  - destruct (cuda_available env); [destruct (memory_stats env)|];
      cbn [snd]; apply Hloaded; cbn; eauto.
Qed.

Lemma unload_model_consistent env m :
  consistent m -> consistent (snd (unload_model env m)).
Proof.
  intros Hm. unfold unload_model. destruct (pipeline m) eqn:Hp.
  - destruct (cuda_available env); [destruct (empty_cache env)|]; cbn [snd]; discriminate.
  - exact Hm.
Qed.

Lemma initialize_models_consistent env path m :
  consistent m -> consistent (initialize_models env path m).
Proof.
  intros Hm. unfold initialize_models.
  destruct (negb (is_loaded m)); [|exact Hm].
  destruct (String.eqb path "/health"); [exact Hm|].
  apply load_base_model_consistent. exact Hm.
Qed.

Lemma reachable_consistent m : reachable m -> consistent m.
Proof.
  induction 1 as [b | env m _ IH | env m _ IH | env path m _ IH].
  - discriminate.
  - apply load_base_model_consistent. exact IH.
  - apply unload_model_consistent. exact IH.
  - apply initialize_models_consistent. exact IH.
Qed.

(** X10. On every manager the program can reach from [__init__] by
    [load_base_model], [unload_model] and [initialize_models], whatever
    torch and diffusers do, [model_loaded] is set only while a pipeline
    is held. So [is_loaded()] and the flag [model_loaded] agree, the
    guard of [generate_image] refuses exactly the managers that are not
    loaded, and a loaded manager never calls a missing pipeline. *)
Theorem manager_flag_and_pipeline_agree :
  forall m, reachable m ->
    is_loaded m = model_loaded m /\
    (forall env, is_loaded m = false -> generate_image env m = Raise msg_not_loaded) /\
    (forall env, is_loaded m = true ->
       generate_image env m = match run_pipeline env with
                              | Some e => Raise e
                              | None => Ret tt
                              end).
Proof.
  intros m Hr. pose proof (reachable_consistent m Hr) as Hc. unfold consistent in Hc.
  assert (Hl : is_loaded m = model_loaded m).
  { unfold is_loaded. destruct (model_loaded m); [|reflexivity].
    rewrite bool_decide_eq_true_2 by auto. reflexivity. }
  split; [exact Hl|]. split.
  - intros env H. unfold generate_image. rewrite <- Hl, H. reflexivity.
  - intros env H. unfold generate_image. rewrite <- Hl, H. cbn [negb].
    rewrite Hl in H. destruct (Hc H) as [p ->]. reflexivity.
Qed.

(** A machine without CUDA on which every call succeeds. *)
Definition cpu_torch : torch_env :=
  TorchEnv false None None None true None true None None None None.

Lemma manager_witness :
  is_loaded (snd (load_base_model cpu_torch (init false)))
    = model_loaded (snd (load_base_model cpu_torch (init false))) /\
  (forall env, is_loaded (snd (load_base_model cpu_torch (init false))) = false ->
     generate_image env (snd (load_base_model cpu_torch (init false))) = Raise msg_not_loaded) /\
  (forall env, is_loaded (snd (load_base_model cpu_torch (init false))) = true ->
     generate_image env (snd (load_base_model cpu_torch (init false)))
       = match run_pipeline env with
         | Some e => Raise e
         | None => Ret tt
         end).
Proof.
  apply (manager_flag_and_pipeline_agree (snd (load_base_model cpu_torch (init false)))).
  apply reach_load, reach_init.
Defined.

(** X11. [load_base_model] leaves the manager loaded as soon as the
    pipeline was fetched and, unless CPU offload is on, moved to the
    device: no failure of attention slicing, memory-efficient attention
    or [torch.compile] undoes it, and when only the memory figures of the
    log raise, the call raises although the model is loaded. When
    fetching the pipeline raises, the manager is as before. Before a
    request, [initialize_models] loads nothing for the path [/health] and
    nothing on a loaded manager; on any other path it leaves the manager
    that [load_base_model] leaves, the exception dropped. *)
Theorem load_survives_failed_optimizations :
  (forall env m,
     from_pretrained env = None ->
     (enable_cpu_offload m = true \/ to_device env = None) ->
     is_loaded (snd (load_base_model env m)) = true /\
     (fst (load_base_model env m) = Ret tt \/
      exists e, cuda_available env = true /\ memory_stats env = Some e /\
                fst (load_base_model env m) = Raise e)) /\
  (forall env m e,
     from_pretrained env = Some e -> load_base_model env m = (Raise e, m)) /\
  (forall env path m,
     initialize_models env path m
       = if is_loaded m || String.eqb path "/health" then m
         else snd (load_base_model env m)).
Proof.
  split; [|split].
  - intros env m Hf Hto. unfold load_base_model. rewrite Hf.
    set (m1 := with_pipeline (Some (Pipeline false false false false)) m).
    assert (Hloaded : forall m2, is_Some (pipeline m2) ->
              is_loaded (with_loaded true (apply_optimizations env m2)) = true).
    { intros m2 H2. unfold is_loaded. cbn [with_loaded model_loaded pipeline andb].
      apply bool_decide_eq_true_2.
      apply (proj1 (proj2 (apply_optimizations_keeps env m2))). exact H2. }
    assert (Hmoved :
      (if negb (enable_cpu_offload m1)
       then match to_device env with
            | Some e => inr e
            | None => inl (with_pipeline (Some (Pipeline true false false false)) m1)
            end
       else inl m1)
      = inl (if negb (enable_cpu_offload m1)
             then with_pipeline (Some (Pipeline true false false false)) m1 else m1)).
    { destruct Hto as [Hoff | Hto].
      - unfold m1. cbn [with_pipeline enable_cpu_offload]. rewrite Hoff. reflexivity.
      - rewrite Hto. destruct (negb (enable_cpu_offload m1)); reflexivity. }
    rewrite Hmoved.
    set (m2 := if negb (enable_cpu_offload m1)
               then with_pipeline (Some (Pipeline true false false false)) m1 else m1).
    assert (H2 : is_Some (pipeline m2)).
    { unfold m2. destruct (negb (enable_cpu_offload m1)); cbn; eauto. }
    destruct (cuda_available env) eqn:Hcuda; [destruct (memory_stats env) as [e|] eqn:Hmem|];
      cbn [fst snd]; (split; [apply Hloaded; exact H2|]); eauto.
  - intros env m e Hf. unfold load_base_model. rewrite Hf. reflexivity.
  - intros env path m. unfold initialize_models.
    destruct (is_loaded m); [reflexivity|]. cbn [negb orb].
    destruct (String.eqb path "/health"); reflexivity.
Qed.

(** A GPU machine on which attention slicing and the memory figures
    raise. *)
Definition flaky_torch : torch_env :=
  TorchEnv true None None (Some "slicing failed") true None true None
           (Some "CUDA error") None None.

Lemma load_survives_witness :
  is_loaded (snd (load_base_model flaky_torch (init false))) = true /\
  (fst (load_base_model flaky_torch (init false)) = Ret tt \/
   exists e, cuda_available flaky_torch = true /\ memory_stats flaky_torch = Some e /\
             fst (load_base_model flaky_torch (init false)) = Raise e).
Proof.
  apply (proj1 load_survives_failed_optimizations flaky_torch (init false)).
  - reflexivity.
  - right. reflexivity.
Defined.

End ModelManager.

(** ** The video generator *)

Section VideoGeneratorFacts.
Import VideoGenerator.

(** The frames [i, i + count) of a video: their paths and the calls that
    make them. *)
Definition paths_from (env : video_env) (seed : option Z) (i count : nat) : list string :=
  map (fun k => frame_path (frame_time env k) (frame_seed seed k)) (seq i count).

Definition calls_from (prompt : string) (width height : Z) (seed : option Z)
    (total_frames : Z) (i count : nat) : list frame_call :=
  map (fun k => FrameCall (frame_prompt prompt k total_frames) width height (frame_seed seed k))
      (seq i count).

Lemma generate_frames_run env prompt width height seed total_frames :
  (forall k, frame_raises env k = None) ->
  forall count i d,
    generate_frames env prompt width height seed total_frames i count d
      = (Ret (paths_from env seed i count),
         Disk (list_to_set (paths_from env seed i count) ∪ frames d) (frame_list d)
              (frame_calls d ++ calls_from prompt width height seed total_frames i count)
              (ffmpeg_runs d)).
Proof.
  intros Hok. induction count as [|count IH]; intros i d.
  - cbn. destruct d as [F L C R]. cbn. f_equal. f_equal; [symmetry; apply union_empty_l_L | symmetry; apply app_nil_r].
  - cbn [generate_frames]. unfold generate_frame. rewrite Hok. rewrite IH.
    unfold paths_from, calls_from. cbn [seq map frames frame_list frame_calls ffmpeg_runs fc_seed].
    f_equal. f_equal.
    + rewrite list_to_set_cons, (assoc_L (∪)). f_equal. apply (comm_L (∪)).
    + rewrite <- app_assoc. reflexivity.
Qed.

(** The frames that the removal loop takes away, from the [i]-th on:
    those whose [os.remove] does not raise. *)
Fixpoint removed_from (env : video_env) (i : nat) (paths : list string) : list string :=
  match paths with
  | [] => []
  | p :: rest =>
      if frame_remove_raises env i then removed_from env (S i) rest
      else p :: removed_from env (S i) rest
  end.

Lemma remove_frames_spec env paths :
  forall i files,
    remove_frames env i paths files = files ∖ list_to_set (removed_from env i paths).
Proof.
  induction paths as [|p rest IH]; intros i files; cbn [remove_frames removed_from].
  - rewrite list_to_set_nil. symmetry. apply difference_empty_L.
  - destruct (frame_remove_raises env i); rewrite IH; [reflexivity|].
    rewrite list_to_set_cons. apply difference_difference_l_L.
Qed.

Lemma removed_from_elem env paths :
  forall i p,
    p ∈ removed_from env i paths <->
    exists k, paths !! k = Some p /\ frame_remove_raises env (i + k) = false.
Proof.
  induction paths as [|q rest IH]; intros i p; cbn [removed_from].
  - split; [intros H; inversion H | intros (k & Hk & _); discriminate Hk].
  - assert (Hrest : p ∈ removed_from env (S i) rest <->
                    exists k, rest !! k = Some p /\ frame_remove_raises env (i + S k) = false).
    { rewrite IH. split; intros (k & Hk & Hr); exists k; (split; [exact Hk|]);
        replace (i + S k)%nat with (S i + k)%nat in * by lia; exact Hr. }
    destruct (frame_remove_raises env i) eqn:Hi.
    + rewrite Hrest. split.
      * intros (k & Hk & Hr). exists (S k). split; [exact Hk | exact Hr].
      * intros ([|k] & Hk & Hr).
        -- rewrite Nat.add_0_r in Hr. congruence.
        -- exists k. split; [exact Hk | exact Hr].
    + rewrite elem_of_cons, Hrest. split.
      * intros [-> | (k & Hk & Hr)].
        -- exists 0%nat. rewrite Nat.add_0_r. split; [reflexivity | exact Hi].
        -- exists (S k). split; [exact Hk | exact Hr].
      * intros ([|k] & Hk & Hr).
        -- left. cbn in Hk. congruence.
        -- right. exists k. split; [exact Hk | exact Hr].
Qed.

Lemma removed_from_all env paths :
  (forall i, frame_remove_raises env i = false) ->
  forall i, removed_from env i paths = paths.
Proof.
  intros Hall. induction paths as [|p rest IH]; intros i; cbn [removed_from]; [reflexivity|].
  rewrite Hall, IH. reflexivity.
Qed.

(** X12. [generate_video], when [int(duration * fps)] is [n], no frame
    raises and the frame list is written: [_generate_frame] is called
    once per frame, [max(n, 0)] times, with the prompt
    [<prompt>, frame <i+1> of <n>] and the seed [seed + i], or with no
    seed when the seed is absent or 0; ffmpeg is run once on the list of
    the frame files in order. If ffmpeg returns 0 the call returns the
    output path, and the removal loop runs: a frame file is gone exactly
    when one of its [os.remove] calls did not raise, and a file whose
    removal raises is left behind without a word, as is the list; when
    no removal raises, all the frame files and the list are gone. If
    ffmpeg returns another code the call raises
    [Erro no ffmpeg: <stderr>] and the frame files and the list stay in
    the temporary directory. *)
Theorem frames_are_removed_only_after_ffmpeg_succeeds :
  forall env prompt duration width height fps seed output d n,
    video_frames duration fps = Some n ->
    (forall k, frame_raises env k = None) ->
    list_raises env = None ->
    list_write_raises env = None ->
    let count := Z.to_nat n in
    let paths := paths_from env seed 0 count in
    let calls := calls_from prompt width height seed n 0 count in
    let run := FfmpegRun (map list_line paths) (str_int fps) output in
    let r := fst (generate_video env prompt duration width height fps seed output d) in
    let d' := snd (generate_video env prompt duration width height fps seed output d) in
    frame_calls d' = frame_calls d ++ calls /\
    ffmpeg_runs d' = ffmpeg_runs d ++ [run] /\
    (forall stderr, ffmpeg env run = inr (0, stderr) ->
       r = Ret output /\
       (forall p, p ∈ frames d' <->
                  (p ∈ paths \/ p ∈ frames d) /\
                  ~ exists i, paths !! i = Some p /\ frame_remove_raises env i = false) /\
       ((forall i, frame_remove_raises env i = false) ->
        frames d' = frames d ∖ list_to_set paths) /\
       frame_list d' = (if list_remove_raises env then Some (map list_line paths) else None)) /\
    (forall code stderr, ffmpeg env run = inr (code, stderr) -> code <> 0 ->
       r = Raise (msg_ffmpeg stderr) /\
       frames d' = list_to_set paths ∪ frames d /\
       frame_list d' = Some (map list_line paths)) /\
    (seed = None \/ seed = Some 0 -> Forall (fun c => fc_seed c = None) calls) /\
    (forall s, seed = Some s -> s <> 0 ->
       map fc_seed calls = map (fun k => Some (s + Z.of_nat k)) (seq 0 count)).
Proof.
  intros env prompt duration width height fps seed output d n Hn Hok Hlist Hwrite
         count paths calls run r d'.
  assert (Hrun : generate_video env prompt duration width height fps seed output d
                 = frames_to_video env paths fps output
                     (Disk (list_to_set paths ∪ frames d) (frame_list d)
                        (frame_calls d ++ calls) (ffmpeg_runs d))).
  { unfold generate_video. rewrite Hn.
    rewrite (generate_frames_run env prompt width height seed n Hok). reflexivity. }
  unfold r, d'. rewrite Hrun. unfold frames_to_video. rewrite Hlist, Hwrite.
  cbn [frames frame_list frame_calls ffmpeg_runs]. fold run.
  split; [|split; [|split; [|split; [|split]]]].
  - destruct (ffmpeg env run) as [e | [code stderr]]; [reflexivity|].
    destruct (negb (code =? 0)); reflexivity.
  - destruct (ffmpeg env run) as [e | [code stderr]]; [reflexivity|].
    destruct (negb (code =? 0)); reflexivity.
  - intros stderr ->. cbn [negb Z.eqb fst snd frames frame_list].
    rewrite remove_frames_spec.
    split; [reflexivity|]. split; [|split; [|reflexivity]].
    + intros p. rewrite elem_of_difference, elem_of_union, !elem_of_list_to_set.
      rewrite (removed_from_elem env paths 0 p). reflexivity.
    + intros Hall. rewrite (removed_from_all env paths Hall).
      rewrite difference_union_distr_l_L, difference_diag_L. apply union_empty_l_L.
  - intros code stderr -> Hcode.
    replace (negb (code =? 0)) with true
      by (symmetry; apply negb_true_iff, Z.eqb_neq; exact Hcode).
    cbn [fst snd frames frame_list]. auto.
  - intros Hseed. unfold calls, calls_from. apply Forall_map, Forall_forall.
    intros k _. cbn [fc_seed]. destruct Hseed as [-> | ->]; reflexivity.
  - intros s -> Hs. unfold calls, calls_from. rewrite map_map. apply map_ext.
    intros k. cbn [fc_seed frame_seed].
    replace (s =? 0) with false by (symmetry; apply Z.eqb_neq; exact Hs). reflexivity.
Qed.

(** Two frames at one frame per second; ffmpeg succeeds; the first frame
    cannot be removed. *)
Definition still_env : video_env :=
  VideoEnv (fun i => "1700000000." +:+ str_int (Z.of_nat i)) (fun _ => None) None None
           (fun _ => inr (0, "")) (fun i => Nat.eqb i 0) false.

Definition empty_disk : disk := Disk ∅ None [] [].

Lemma frames_witness :
  fst (generate_video still_env "a red cube" (PyFloat64.of_int 2) 512 512 1 (Some 7)
         "/app/outputs/t1.mp4" empty_disk) = Ret "/app/outputs/t1.mp4" /\
  (forall p,
     p ∈ frames (snd (generate_video still_env "a red cube" (PyFloat64.of_int 2) 512 512 1
                        (Some 7) "/app/outputs/t1.mp4" empty_disk)) <->
     (p ∈ paths_from still_env (Some 7) 0 (Z.to_nat 2) \/ p ∈ frames empty_disk) /\
     ~ exists i, paths_from still_env (Some 7) 0 (Z.to_nat 2) !! i = Some p /\
                 frame_remove_raises still_env i = false) /\
  ((forall i, frame_remove_raises still_env i = false) ->
   frames (snd (generate_video still_env "a red cube" (PyFloat64.of_int 2) 512 512 1 (Some 7)
                  "/app/outputs/t1.mp4" empty_disk))
     = frames empty_disk ∖ list_to_set (paths_from still_env (Some 7) 0 (Z.to_nat 2))) /\
  frame_list (snd (generate_video still_env "a red cube" (PyFloat64.of_int 2) 512 512 1
                     (Some 7) "/app/outputs/t1.mp4" empty_disk))
    = (if list_remove_raises still_env
       then Some (map list_line (paths_from still_env (Some 7) 0 (Z.to_nat 2))) else None).
Proof.
  apply (proj1 (proj2 (proj2
           (frames_are_removed_only_after_ffmpeg_succeeds still_env "a red cube"
              (PyFloat64.of_int 2) 512 512 1 (Some 7) "/app/outputs/t1.mp4" empty_disk 2
              ltac:(vm_compute; reflexivity) ltac:(reflexivity) ltac:(reflexivity)
              ltac:(reflexivity)))) "").
  reflexivity.
Defined.

End VideoGeneratorFacts.

(** ** Adapter files *)

Section LoRAManagerFacts.
Import LoRAManager.

(** A fetch writes the adapter file of the task, or raises: before the
    file is there, writing nothing; or in [f.write], leaving the bytes
    written so far. *)
Definition fetch_result (env : lora_env) (task_id : string) (fs : gmap string (list Z))
    (r : outcome string * gmap string (list Z)) : Prop :=
  (exists e, r = (Raise e, fs)) \/
  (exists e content, write_raises env <> None /\
     r = (Raise e, <[lora_path task_id := content]> fs)) \/
  (exists content, r = (Ret (lora_path task_id), <[lora_path task_id := content]> fs)).

Lemma write_file_result env task_id content fs :
  fetch_result env task_id fs (write_file env (lora_path task_id) content fs).
Proof.
  unfold write_file, fetch_result. destruct (open_raises env); [left; eauto|].
  destruct (write_raises env) as [[e written]|] eqn:Hw.
  - right. left. exists e, (firstn written content). split; [discriminate | reflexivity].
  - right. right. eauto.
Qed.

Lemma download_lora_result env url task_id fs :
  fetch_result env task_id fs (download_lora env url task_id fs).
Proof.
  unfold download_lora. destruct (download env url).
  - apply write_file_result.
  - left. eauto.
Qed.

Lemma decode_base64_lora_result env data_url task_id fs :
  fetch_result env task_id fs (decode_base64_lora env data_url task_id fs).
Proof.
  unfold decode_base64_lora.
  destruct (if startswith data_url "data:" then after_first_comma data_url else Some data_url).
  - destruct (b64decode env s).
    + apply write_file_result.
    + left. eauto.
  - left. eauto.
Qed.

(** What [process_lora] does with a fetched file. *)
Definition settle (env : lora_env) (r : outcome string * gmap string (list Z)) : option string * gmap string (list Z) :=
  match r with
  | (Raise _, fs1) => (None, fs1)
  | (Ret p, fs1) =>
      if negb (falsy (Some p)) && bool_decide (is_Some (fs1 !! p))
      then if validate_lora_file env p fs1 then (Some p, fs1)
           else match remove_raises env with
                | Some _ => (None, fs1)
                | None => (None, delete p fs1)
                end
      else (None, fs1)
  end.

Lemma process_lora_settles env lora_data task_id fs :
  (exists r, fetch_result env task_id fs r /\
             process_lora env lora_data task_id fs = settle env r) \/
  process_lora env lora_data task_id fs = (None, fs).
Proof.
  destruct lora_data as [s | [[s|]|] | ].
  - left. unfold process_lora.
    set (r := if startswith s "http" then download_lora env s task_id fs
              else if startswith s "data:" then decode_base64_lora env s task_id fs
              else decode_base64_lora env (base64_header +:+ s) task_id fs).
    exists r. split.
    + unfold r. destruct (startswith s "http"); [apply download_lora_result|].
      destruct (startswith s "data:"); apply decode_base64_lora_result.
    + destruct r as [[p|e] fs1]; reflexivity.
  - left. unfold process_lora. exists (decode_base64_lora env s task_id fs).
    split; [apply decode_base64_lora_result|].
    destruct (decode_base64_lora env s task_id fs) as [[p|e] fs1]; reflexivity.
  - right. reflexivity.
  - right. reflexivity.
  - right. reflexivity.
Qed.

Lemma validate_lora_file_true env path fs :
  validate_lora_file env path fs = true ->
  exists content tensors,
    fs !! path = Some content /\ load_file env content = Ret tensors /\
    Exists (fun k => contains "lora" (lower k) = true) tensors.
Proof.
  unfold validate_lora_file. destruct (fs !! path) as [content|]; [|discriminate].
  destruct (load_file env content) as [tensors|] eqn:Hload; [|discriminate].
  destruct tensors as [|k ks]; [discriminate|].
  intros H. exists content, (k :: ks). split; [reflexivity|]. split; [exact Hload|].
  apply List.Exists_exists. apply existsb_exists in H. exact H.
Qed.

(** X13. [process_lora] returns a path only for the adapter file of the
    task itself, [/tmp/lora_<task_id>.safetensors], and only when that
    file is there and [load_file] finds in it a tensor whose name
    contains [lora] in some case of the letters. Whatever it returns, it
    leaves every other file as it was. When it returns [None], and
    neither [os.remove] nor [f.write] raises, either nothing was
    written or the file of the task is gone: a rejected adapter is not
    left behind. But the file is there as soon as it is opened: when
    [f.write] raises on a downloaded adapter, [process_lora] returns
    [None] and leaves the bytes written so far under the path of the
    task, without removing them. *)
Theorem only_a_validated_adapter_is_returned :
  forall env lora_data task_id fs,
    let r := fst (process_lora env lora_data task_id fs) in
    let fs' := snd (process_lora env lora_data task_id fs) in
    (forall q, q <> lora_path task_id -> fs' !! q = fs !! q) /\
    (forall p, r = Some p ->
       p = lora_path task_id /\
       exists content tensors,
         fs' !! p = Some content /\ load_file env content = Ret tensors /\
         Exists (fun k => contains "lora" (lower k) = true) tensors) /\
    (r = None -> remove_raises env = None -> write_raises env = None ->
       fs' = fs \/ fs' !! lora_path task_id = None) /\
    (forall url content e written,
       lora_data = LoraStr url ->
       startswith url "http" = true ->
       download env url = Ret content ->
       open_raises env = None ->
       write_raises env = Some (e, written) ->
       r = None /\ fs' = <[lora_path task_id := firstn written content]> fs).
Proof.
  intros env lora_data task_id fs r fs'. unfold r, fs'.
  split; [|split; [|split]].
  4:{ intros url content e written -> Hhttp Hdown Hopen Hwrite.
      unfold process_lora, download_lora, write_file.
      rewrite Hhttp, Hdown, Hopen, Hwrite. split; reflexivity. }
  all: destruct (process_lora_settles env lora_data task_id fs) as [(x & Hx & ->) | ->];
    [|cbn [fst snd]; first [reflexivity | discriminate | auto]].
  - destruct Hx as [(e & ->) | [(e & content & _ & ->) | (content & ->)]]; cbn [settle fst snd].
    + reflexivity.
    + intros q Hq. apply lookup_insert_ne. congruence.
    + destruct (negb _ && _); [|intros q Hq; apply lookup_insert_ne; congruence].
      destruct (validate_lora_file env _ _);
        [intros q Hq; apply lookup_insert_ne; congruence|].
      destruct (remove_raises env); cbn [snd]; intros q Hq.
      * apply lookup_insert_ne. congruence.
      * rewrite lookup_delete_ne by congruence. apply lookup_insert_ne. congruence.
  - destruct Hx as [(e & ->) | [(e & content & _ & ->) | (content & ->)]]; cbn [settle fst snd];
      try discriminate.
    destruct (negb _ && _); [|discriminate].
    destruct (validate_lora_file env _ _) eqn:Hv.
    + cbn [fst snd]. intros p' [= <-]. split; [reflexivity|].
      apply validate_lora_file_true. exact Hv.
    + destruct (remove_raises env); discriminate.
  - destruct Hx as [(e & ->) | [(e & content & Hw & ->) | (content & ->)]]; cbn [settle fst snd].
    + auto.
    + intros _ _ Hnone. destruct (Hw Hnone).
    + set (p := lora_path task_id). set (fs1 := <[p := content]> fs).
      assert (Hthere : negb (falsy (Some p)) && bool_decide (is_Some (fs1 !! p)) = true).
      { unfold fs1. rewrite lookup_insert_eq. rewrite bool_decide_eq_true_2 by eauto.
        reflexivity. }
      rewrite Hthere.
      destruct (validate_lora_file env p fs1); [discriminate|].
      intros _ Hrm _. rewrite Hrm. cbn [snd]. right. apply lookup_delete_eq.
Qed.

(** Nothing comes back from the network; every decoded file has a LoRA
    tensor. *)
Definition offline_env : lora_env :=
  LoraEnv (fun _ => Raise "ConnectionError") (fun s => Ret [1; 2; 3]) None None
          (fun _ => Ret ["transformer.lora_A.weight"]) None.

Lemma validated_adapter_witness :
  lora_path "t1" = lora_path "t1" /\
  exists content tensors,
    snd (process_lora offline_env (LoraStr "AQID") "t1" ∅) !! lora_path "t1" = Some content /\
    load_file offline_env content = Ret tensors /\
    Exists (fun k => contains "lora" (lower k) = true) tensors.
Proof.
  apply (proj1 (proj2 (only_a_validated_adapter_is_returned offline_env (LoraStr "AQID")
                         "t1" ∅)) (lora_path "t1")).
  vm_compute. reflexivity.
Defined.

(** *** The forms of a base64 adapter *)

Lemma after_header s : after_first_comma (base64_header +:+ s) = Some s.
Proof. reflexivity. Qed.

Lemma header_is_data s : startswith (base64_header +:+ s) "data:" = true.
Proof. reflexivity. Qed.

Lemma header_is_not_http s : startswith (base64_header +:+ s) "http" = false.
Proof. reflexivity. Qed.

Lemma decode_with_header env s task_id fs :
  startswith s "data:" = false ->
  decode_base64_lora env (base64_header +:+ s) task_id fs
    = decode_base64_lora env s task_id fs.
Proof.
  intros Hs. unfold decode_base64_lora. rewrite header_is_data, after_header, Hs. reflexivity.
Qed.

(** X14. A base64 adapter can be sent in four forms that [process_lora]
    treats alike: the bare base64 text [s], the text behind the header
    [data:application/octet-stream;base64,], and either of them as the
    ['data'] of an object. For a text [s] that begins neither with
    [http] nor with [data:], the four calls decode the same text [s],
    return the same answer and leave the same files. *)
Theorem base64_adapter_forms_agree :
  forall env s task_id fs,
    startswith s "http" = false ->
    startswith s "data:" = false ->
    process_lora env (LoraStr (base64_header +:+ s)) task_id fs
      = process_lora env (LoraStr s) task_id fs /\
    process_lora env (LoraDict (Some (Some s))) task_id fs
      = process_lora env (LoraStr s) task_id fs /\
    process_lora env (LoraDict (Some (Some (base64_header +:+ s)))) task_id fs
      = process_lora env (LoraStr s) task_id fs /\
    (forall e, b64decode env s = Raise e ->
       process_lora env (LoraStr s) task_id fs = (None, fs)).
Proof.
  intros env s task_id fs Hhttp Hdata. unfold process_lora.
  rewrite Hhttp, Hdata, header_is_not_http, header_is_data.
  rewrite !decode_with_header by exact Hdata.
  split; [reflexivity|]. split; [reflexivity|]. split; [reflexivity|].
  intros e He. unfold decode_base64_lora. rewrite Hdata, He. reflexivity.
Qed.

Lemma base64_adapter_forms_witness :
  process_lora offline_env (LoraStr (base64_header +:+ "AQID")) "t1" ∅
    = process_lora offline_env (LoraStr "AQID") "t1" ∅ /\
  process_lora offline_env (LoraDict (Some (Some "AQID"))) "t1" ∅
    = process_lora offline_env (LoraStr "AQID") "t1" ∅ /\
  process_lora offline_env (LoraDict (Some (Some (base64_header +:+ "AQID")))) "t1" ∅
    = process_lora offline_env (LoraStr "AQID") "t1" ∅ /\
  (forall e, b64decode offline_env "AQID" = Raise e ->
     process_lora offline_env (LoraStr "AQID") "t1" ∅ = (None, ∅)).
Proof.
  apply (base64_adapter_forms_agree offline_env "AQID" "t1" ∅); reflexivity.
Defined.

End LoRAManagerFacts.

(** ** The health check *)

Section HealthFacts.
Import Health.

Lemma redis_ping_cases w :
  exists fs,
    redis_ping w = (if store_is_down w then Raise "ConnectionError" else Ret tt,
                    with_faults fs w).
Proof.
  unfold redis_ping, store_is_down.
  destruct (command_cases (fun w => (Ret tt, w)) w)
    as [(fs & Hf & ->) | [(fs & Hf & ->) | (Hf & ->)]]; rewrite Hf.
  - eauto.
  - eauto.
  - exists []. destruct w; cbn in *. subst. reflexivity.
Qed.

Lemma gpu_memory_from_devices env count :
  forall i mem,
    gpu_memory_from env i count = Ret mem ->
    map ge_device mem = map (fun k => i + Z.of_nat k) (seq 0 count).
Proof.
  induction count as [|count IH]; intros i mem; cbn [gpu_memory_from].
  - intros [= <-]. reflexivity.
  - destruct (hc_memory_allocated env i); [|discriminate].
    destruct (hc_memory_reserved env i); [|discriminate].
    destruct (gpu_memory_from env (i + 1) count) as [rest|] eqn:Hrest; [|discriminate].
    intros [= <-]. cbn [map seq ge_device]. f_equal; [lia|].
    rewrite (IH (i + 1) rest Hrest), <- seq_shift, map_map. apply map_ext. intros k. lia.
Qed.

(** X15. [health_check] answers 200 with status [healthy] whenever the
    GPU figures can be read, whatever Redis does: a [ping] that raises
    only turns [redis_status] into [disconnected]. It never changes the
    store, the queue or the files. It answers 500 [unhealthy] exactly
    when a torch call raises, and then with the text of that exception.
    Without CUDA no device is asked and the report is [gpu_count = 0]
    with no entry; with CUDA there is one entry per device, numbered
    from 0. *)
Theorem health_does_not_depend_on_redis :
  forall env loaded w,
    (forall count mem,
       gpu_report env = Ret (count, mem) ->
       exists fs status,
         health_check env loaded w
           = (HealthResponse 200
                (Healthy (hc_time env) (hc_is_available env) count mem status loaded
                   (HealthConfig 1024 30 true)),
              with_faults fs w) /\
         status = (if store_is_down w then "disconnected" else "connected")) /\
    (forall e,
       gpu_report env = Raise e ->
       health_check env loaded w = (HealthResponse 500 (Unhealthy e (hc_time env)), w)) /\
    (hc_is_available env = false -> gpu_report env = Ret (0, [])) /\
    (forall count mem,
       hc_is_available env = true ->
       gpu_report env = Ret (count, mem) ->
       map ge_device mem = map Z.of_nat (seq 0 (Z.to_nat count))).
Proof.
  intros env loaded w. split; [|split; [|split]].
  - intros count mem Hg. unfold health_check. rewrite Hg.
    destruct (redis_ping_cases w) as (fs & ->).
    exists fs. destruct (store_is_down w); eexists; split; reflexivity.
  - intros e Hg. unfold health_check. rewrite Hg. reflexivity.
  - intros Ha. unfold gpu_report. rewrite Ha. reflexivity.
  - intros count mem Ha. unfold gpu_report. rewrite Ha.
    destruct (hc_device_count env) as [n|]; [|discriminate].
    destruct (gpu_memory_from env 0 (Z.to_nat n)) as [l|] eqn:Hl; [|discriminate].
    intros [= <- <-]. rewrite (gpu_memory_from_devices env _ 0 l Hl).
    apply map_ext. intros k. lia.
Qed.

(** A machine without CUDA. *)
Definition no_gpu : health_env :=
  HealthEnv 100 false (Raise "no CUDA") (fun _ => Raise "no CUDA") (fun _ => Raise "no CUDA")
            (fun x => x).

Lemma health_witness :
  exists fs status,
    health_check no_gpu false (with_faults [true] empty_world)
      = (HealthResponse 200
           (Healthy (hc_time no_gpu) (hc_is_available no_gpu) 0 [] status false
              (HealthConfig 1024 30 true)),
         with_faults fs (with_faults [true] empty_world)) /\
    status = (if store_is_down (with_faults [true] empty_world)
              then "disconnected" else "connected").
Proof.
  apply (proj1 (health_does_not_depend_on_redis no_gpu false (with_faults [true] empty_world))
           0 []).
  reflexivity.
Defined.

End HealthFacts.

(** ** A worker run while the store is down *)

Lemma update_task_status_down now task_id status kw w fs :
  redis_faults w = true :: fs ->
  update_task_status now task_id status kw w = (Ret tt, with_faults fs w).
Proof.
  intros Hf.
  destruct (update_task_status_cases now task_id status kw w)
    as [[Hq _] | [(fs' & Hfs & _) | (fs' & Hfs & H)]]; congruence.
Qed.

Lemma cache_result_down now key r w fs :
  redis_faults w = true :: fs ->
  cache_result now key r w = (Ret tt, with_faults fs w).
Proof.
  intros Hf.
  destruct (cache_result_cases now key r w)
    as [[Hq _] | [(fs' & Hfs & _) | (fs' & Hfs & H)]]; congruence.
Qed.

Definition job_output_path (j : job) : string :=
  match j with
  | ImageJob a => image_output_path a
  | VideoJob a => video_output_path a
  end.

(** What a run returns when nothing outside the store fails. *)
Definition job_result (env : worker_env) (j : job) : result_data :=
  ResultData (result_url (job_task_id j)) (finished_at env - started_at env).

Lemma update_task_status_files now task_id status kw w :
  output_files (snd (update_task_status now task_id status kw w)) = output_files w.
Proof.
  destruct (update_task_status_cases now task_id status kw w)
    as [[_ ->] | [(fs & _ & ->) | (fs & _ & ->)]]; reflexivity.
Qed.

Lemma cache_result_files now key r w :
  output_files (snd (cache_result now key r w)) = output_files w.
Proof.
  destruct (cache_result_cases now key r w)
    as [[_ ->] | [(fs & _ & ->) | (fs & _ & ->)]]; reflexivity.
Qed.

(** X16. No failure of the store fails a worker run: whatever Redis
    does, a run raises only what the model, the adapter, the generator
    or the file system raised, and otherwise returns its result with the
    output file written. The price is the record: when every command of
    the store fails during a successful run, the store is left as it
    was, so a task that had no record has none afterwards, although its
    file is there. *)
Theorem store_failures_never_fail_a_run :
  forall env j w,
    let w' := snd (run_job env j w) in
    fst (run_job env j w)
      = match job_failure env j with
        | Some e => Raise e
        | None => Ret (job_result env j)
        end /\
    output_files w'
      = match job_failure env j with
        | Some _ => output_files w
        | None => {[job_output_path j]} ∪ output_files w
        end /\
    (forall fs,
       job_failure env j = None ->
       redis_faults w = true :: true :: true :: fs ->
       redis_kv w' = redis_kv w /\
       forall now, task_record now (job_task_id j) w' = task_record now (job_task_id j) w).
Proof.
  intros env j w w'. unfold w'. destruct j as [a | a];
    cbn [run_job job_failure job_task_id job_output_path].
  - rewrite generate_image_task_run. cbv zeta.
    destruct (image_failure env a) as [e|] eqn:He; cbn [fst snd].
    + split; [reflexivity|]. split; [|discriminate].
      rewrite !update_task_status_files. reflexivity.
    + split; [reflexivity|]. split.
      * rewrite update_task_status_files, cache_result_files. cbn [save_file output_files].
        rewrite update_task_status_files. reflexivity.
      * intros fs _ Hf.
        rewrite (update_task_status_down _ _ _ _ w _ Hf). cbn [snd].
        rewrite (cache_result_down _ _ _ (save_file _ _) (true :: fs)) by reflexivity.
        cbn [snd].
        rewrite (update_task_status_down _ _ _ _ _ fs) by reflexivity.
        cbn [snd]. split; reflexivity.
  - rewrite generate_video_task_run. cbv zeta.
    destruct (video_failure env a) as [e|] eqn:He; cbn [fst snd].
    + split; [reflexivity|]. split; [|discriminate].
      rewrite !update_task_status_files. reflexivity.
    + split; [reflexivity|]. split.
      * rewrite update_task_status_files. cbn [save_file output_files].
        rewrite update_task_status_files. reflexivity.
      * intros fs _ Hf.
        rewrite (update_task_status_down _ _ _ _ w _ Hf). cbn [snd].
        rewrite (update_task_status_down _ _ _ _ _ (true :: fs)) by reflexivity.
        cbn [snd]. split; reflexivity.
Qed.

Lemma store_failures_witness :
  redis_kv (snd (run_job (happy 1 5) (ImageJob red_cube_job)
                   (with_faults [true; true; true] empty_world)))
    = redis_kv (with_faults [true; true; true] empty_world) /\
  forall now,
    task_record now (job_task_id (ImageJob red_cube_job))
      (snd (run_job (happy 1 5) (ImageJob red_cube_job)
              (with_faults [true; true; true] empty_world)))
    = task_record now (job_task_id (ImageJob red_cube_job))
        (with_faults [true; true; true] empty_world).
Proof.
  apply (proj2 (proj2 (store_failures_never_fail_a_run (happy 1 5) (ImageJob red_cube_job)
                         (with_faults [true; true; true] empty_world))) []).
  - reflexivity.
  - reflexivity.
Defined.

(** ** Polling while the store is down *)

Lemma get_task_info_down now task_id w fs :
  redis_faults w = true :: fs ->
  get_task_info now task_id w = (Ret None, with_faults fs w).
Proof.
  intros Hf. unfold get_task_info, try_except, get_task_info_try, bind, redis_get, command.
  rewrite Hf. reflexivity.
Qed.

(** X17. A store that fails is reported by the polling endpoints as a
    task that does not exist: when the command of [get_task_info]
    raises, [get_task_status] and [get_task_result] answer 404
    [Tarefa nao encontrada] (with its accent), not 500, to every caller,
    the owner of a finished task included, and leave the store as it
    was. *)
Theorem polling_answers_404_while_the_store_is_down :
  forall now user_id task_id w fs,
    redis_faults w = true :: fs ->
    get_task_status now user_id task_id w
      = (Response 404 (JError msg_task_not_found), with_faults fs w) /\
    get_task_result now user_id task_id w
      = (Response 404 (JError msg_task_not_found), with_faults fs w).
Proof.
  intros now user_id task_id w fs Hf.
  pose proof (get_task_info_down now task_id w fs Hf) as Hinfo. split.
  - unfold get_task_status, endpoint, get_task_status_try.
    rewrite (bind_ret _ _ _ _ _ Hinfo). reflexivity.
  - unfold get_task_result, endpoint, get_task_result_try.
    rewrite (bind_ret _ _ _ _ _ Hinfo). reflexivity.
Qed.

Lemma polling_down_witness :
  get_task_status 10 "demo_user" "t1" (with_faults [true] completed_world)
    = (Response 404 (JError msg_task_not_found),
       with_faults [] (with_faults [true] completed_world)) /\
  get_task_result 10 "demo_user" "t1" (with_faults [true] completed_world)
    = (Response 404 (JError msg_task_not_found),
       with_faults [] (with_faults [true] completed_world)).
Proof.
  apply (polling_answers_404_while_the_store_is_down 10 "demo_user" "t1"
           (with_faults [true] completed_world) []).
  reflexivity.
Defined.

(** ** Completed records and their files *)

(** A stored record that says [completed] names a file that is there. *)
Definition entry_backed (files : gset string) (e : entry) : Prop :=
  match value e with
  | VTask t =>
      td_status t = "completed" ->
      exists p, td_output_path t = Some p /\ falsy (Some p) = false /\ p ∈ files
  | _ => True
  end.

Definition backed (w : world) : Prop :=
  forall k e, redis_kv w !! k = Some e -> entry_backed (output_files w) e.

(** [w'] keeps the files of [w], and each of its entries is one of [w]
    or is backed. *)
Definition extends (w w' : world) : Prop :=
  output_files w ⊆ output_files w' /\
  forall k e, redis_kv w' !! k = Some e ->
    redis_kv w !! k = Some e \/ entry_backed (output_files w') e.

Lemma entry_backed_mono files files' e :
  files ⊆ files' -> entry_backed files e -> entry_backed files' e.
Proof.
  intros Hsub. unfold entry_backed. destruct (value e) as [n|t|r]; auto.
  intros H Hc. destruct (H Hc) as (p & Hp & Hn & Hin). eauto.
Qed.

Lemma extends_refl w : extends w w.
Proof. split; [reflexivity | auto]. Qed.

Lemma extends_trans w1 w2 w3 : extends w1 w2 -> extends w2 w3 -> extends w1 w3.
Proof.
  intros [Hf1 Hk1] [Hf2 Hk2]. split; [etrans; eassumption|].
  intros k e He. destruct (Hk2 k e He) as [H2 | H2]; [|auto].
  destruct (Hk1 k e H2) as [H1 | H1]; [auto|].
  right. eapply entry_backed_mono; eassumption.
Qed.

Lemma extends_backed w w' : backed w -> extends w w' -> backed w'.
Proof.
  intros Hb [Hf Hk] k e He. destruct (Hk k e He) as [H | H]; [|exact H].
  eapply entry_backed_mono; [exact Hf|]. exact (Hb k e H).
Qed.

Lemma extends_faults fs w : extends w (with_faults fs w).
Proof. split; [reflexivity | auto]. Qed.

Lemma extends_enqueue j w : extends w (enqueue j w).
Proof. split; [reflexivity | auto]. Qed.

Lemma extends_save_file path w : extends w (save_file path w).
Proof. split; [cbn; apply union_subseteq_r | auto]. Qed.

Lemma extends_write key e w :
  entry_backed (output_files w) e -> extends w (write key e w).
Proof.
  intros He. split; [reflexivity|]. intros k e' H. unfold write in H. cbn [redis_kv] in H.
  destruct (decide (k = key)) as [-> | Hne].
  - rewrite lookup_insert_eq in H. injection H as <-. right. exact He.
  - rewrite lookup_insert_ne in H by congruence. left. exact H.
Qed.

(** A computation that only extends the world. *)
Definition grows {A} (m : M A) : Prop := forall w, extends w (snd (m w)).

Lemma grows_ret {A} (a : A) : grows (ret a).
Proof. intros w. apply extends_refl. Qed.

Lemma grows_raise {A} e : grows (@raise A e).
Proof. intros w. apply extends_refl. Qed.

Lemma grows_bind {A B} (m : M A) (k : A -> M B) :
  grows m -> (forall a, grows (k a)) -> grows (bind m k).
Proof.
  intros Hm Hk w. unfold bind. specialize (Hm w).
  destruct (m w) as [[a|e] w1]; cbn [snd] in *; [|exact Hm].
  eapply extends_trans; [exact Hm | apply Hk].
Qed.

Lemma grows_try {A} (m : M A) (h : string -> M A) :
  grows m -> (forall e, grows (h e)) -> grows (try_except m h).
Proof.
  intros Hm Hh w. unfold try_except. specialize (Hm w).
  destruct (m w) as [[a|e] w1]; cbn [snd] in *; [exact Hm|].
  eapply extends_trans; [exact Hm | apply Hh].
Qed.

Lemma grows_command {A} (run : M A) : grows run -> grows (command run).
Proof.
  intros Hr w. destruct (command_cases run w) as [(fs & _ & ->) | [(fs & _ & ->) | (_ & ->)]].
  - apply extends_faults.
  - eapply extends_trans; [apply extends_faults | apply Hr].
  - apply Hr.
Qed.

Lemma grows_redis_get now key : grows (redis_get now key).
Proof. apply grows_command. intros w. apply extends_refl. Qed.

Lemma grows_redis_setex now key ttl v :
  (forall t, v <> VTask t) -> grows (redis_setex now key ttl v).
Proof.
  intros Hv. apply grows_command. intros w. cbn [snd]. apply extends_write.
  unfold entry_backed. cbn [value]. destruct v; [exact I | destruct (Hv t eq_refl) | exact I].
Qed.

Lemma grows_redis_incr now key : grows (redis_incr now key).
Proof.
  apply grows_command. intros w.
  destruct (live_entry now key w) as [[[n|t|r] ex]|]; cbn [snd];
    first [apply extends_refl | apply extends_write; exact I].
Qed.

Lemma grows_delay celery_id j : grows (delay celery_id j).
Proof. apply grows_command. intros w. apply extends_enqueue. Qed.

Lemma grows_py {A} e (o : option A) : grows (py e o).
Proof. destruct o; [apply grows_ret | apply grows_raise]. Qed.

Ltac grows_step :=
  first [ apply grows_ret | apply grows_raise | apply grows_delay | apply grows_py
        | apply grows_redis_get | apply grows_redis_incr
        | apply grows_redis_setex; discriminate
        | apply grows_bind | apply grows_try
        | match goal with
          | |- grows (match ?x with _ => _ end) => destruct x
          end ].

Lemma grows_check_rate_limit now later user_id endpoint_type :
  grows (check_rate_limit now later user_id endpoint_type).
Proof.
  unfold check_rate_limit, check_rate_limit_try. repeat (intros; grows_step).
Qed.

Lemma grows_get_cached_result now key : grows (get_cached_result now key).
Proof.
  unfold get_cached_result, get_cached_result_try. repeat (intros; grows_step).
Qed.

Lemma grows_cache_result now key r : grows (cache_result now key r).
Proof. unfold cache_result. repeat (intros; grows_step). Qed.

Lemma grows_generate_image_try env user_id data : grows (generate_image_try env user_id data).
Proof.
  unfold generate_image_try.
  apply grows_bind; [apply grows_check_rate_limit|]. intros admitted.
  destruct (negb admitted); [apply grows_ret|].
  destruct data as [d|]; [|apply grows_ret].
  destruct (ir_prompt d) as [prompt|]; [|apply grows_ret]. cbv zeta.
  destruct (1000 <? Z.of_nat (String.length prompt)); [apply grows_ret|].
  destruct (_ || _); [apply grows_ret|].
  apply grows_bind; [apply grows_get_cached_result|]. intros [cached|]; [apply grows_ret|].
  repeat (intros; grows_step).
Qed.

Lemma grows_generate_video_try env user_id data : grows (generate_video_try env user_id data).
Proof.
  unfold generate_video_try.
  apply grows_bind; [apply grows_check_rate_limit|]. intros admitted.
  destruct (negb admitted); [apply grows_ret|].
  destruct data as [d|]; [|apply grows_ret].
  destruct (vr_prompt d) as [prompt|], (vr_duration d) as [raw|]; try apply grows_ret.
  cbv zeta.
  destruct (_ || _); [apply grows_ret|].
  destruct (_ || _); [apply grows_ret|].
  repeat (intros; grows_step).
Qed.

Lemma endpoint_world (m : M response) w : snd (endpoint m w) = snd (m w).
Proof. unfold endpoint. destruct (m w) as [[r|e] w1]; reflexivity. Qed.

Lemma update_task_status_extends now task_id status kw w :
  (status = "completed" ->
   exists p, kw_output_path kw = Some p /\ falsy (Some p) = false /\ p ∈ output_files w) ->
  extends w (snd (update_task_status now task_id status kw w)).
Proof.
  intros Hs.
  assert (He : forall w0, output_files w0 = output_files w ->
            extends w0 (task_written now task_id status kw w0)).
  { intros w0 Hw0. apply extends_write. unfold entry_backed. cbn [value td_status td_output_path].
    rewrite Hw0. exact Hs. }
  destruct (update_task_status_cases now task_id status kw w)
    as [[_ ->] | [(fs & _ & ->) | (fs & _ & ->)]]; cbn [snd].
  - apply He. reflexivity.
  - eapply extends_trans; [apply extends_faults | apply He; reflexivity].
  - apply extends_faults.
Qed.

Lemma run_job_extends env j w : extends w (snd (run_job env j w)).
Proof.
  destruct j as [a | a]; cbn [run_job].
  - rewrite generate_image_task_run. cbv zeta.
    set (w1 := snd (update_task_status (started_at env) (ij_task_id a) "processing" _ w)).
    assert (H1 : extends w w1) by (apply update_task_status_extends; discriminate).
    destruct (image_failure env a) as [e|]; cbn [snd].
    + eapply extends_trans; [exact H1 | apply update_task_status_extends; discriminate].
    + eapply extends_trans; [exact H1|].
      eapply extends_trans; [apply (extends_save_file (image_output_path a))|].
      eapply extends_trans; [apply grows_cache_result|].
      apply update_task_status_extends. intros _. exists (image_output_path a).
      split; [reflexivity|]. split; [apply (output_path_truthy (ij_task_id a) "png")|].
      rewrite cache_result_files. cbn [save_file output_files].
      apply elem_of_union_l, elem_of_singleton. reflexivity.
  - rewrite generate_video_task_run. cbv zeta.
    set (w1 := snd (update_task_status (started_at env) (vj_task_id a) "processing" _ w)).
    assert (H1 : extends w w1) by (apply update_task_status_extends; discriminate).
    destruct (video_failure env a) as [e|]; cbn [snd].
    + eapply extends_trans; [exact H1 | apply update_task_status_extends; discriminate].
    + eapply extends_trans; [exact H1|].
      eapply extends_trans; [apply (extends_save_file (video_output_path a))|].
      apply update_task_status_extends. intros _. exists (video_output_path a).
      split; [reflexivity|]. split; [apply (output_path_truthy (vj_task_id a) "mp4")|].
      cbn [save_file output_files]. apply elem_of_union_l, elem_of_singleton. reflexivity.
Qed.

Lemma grows_get_task_info now task_id : grows (get_task_info now task_id).
Proof. unfold get_task_info, get_task_info_try. repeat (intros; grows_step). Qed.

Lemma task_record_stored now task_id w t :
  task_record now task_id w = Some t ->
  exists ex, redis_kv w !! task_key task_id = Some (Entry (VTask t) ex).
Proof.
  unfold task_record, live_entry.
  destruct (redis_kv w !! task_key task_id) as [[v ex]|]; [|discriminate].
  destruct (live now (Entry v ex)); [|discriminate].
  destruct v as [n|t'|r]; try discriminate. intros [= ->]. eauto.
Qed.

Lemma get_task_result_of_info now user_id task_id w o w' :
  get_task_info now task_id w = (Ret o, w') ->
  get_task_result now user_id task_id w
    = (result_answer user_id task_id (output_files w') o, w').
Proof.
  intros Hinfo. unfold get_task_result, endpoint, get_task_result_try.
  rewrite (bind_ret _ _ _ _ _ Hinfo). unfold result_answer, path_exists.
  destruct o as [t|]; [|reflexivity].
  destruct (not_owner t user_id); [reflexivity|].
  destruct (negb (String.eqb (td_status t) "completed")); [reflexivity|].
  destruct (td_output_path t) as [p|]; [|reflexivity].
  destruct (falsy (Some p) || negb (bool_decide (p ∈ output_files w'))); reflexivity.
Qed.

Lemma messages_differ :
  msg_task_not_found <> msg_file_not_found /\ msg_task_not_completed <> msg_file_not_found.
Proof. split; intros H; vm_compute in H; discriminate H. Qed.

(** X18. Every record of the registry that says [completed] names an
    output file that is there. This holds on the empty store and is kept
    by the two submission endpoints, by the polling endpoints and by
    every worker step, whatever the store and the outside calls do: a
    worker writes the file before the record, and nothing in the program
    removes a file. So [get_task_result] never answers
    [Arquivo de resultado nao encontrado] (with its accents), as long as
    nothing outside the program deletes an output file. *)
Theorem completed_records_name_files_that_exist :
  backed empty_world /\
  (forall env user_id data w,
     backed w -> backed (snd (generate_image env user_id data w))) /\
  (forall env user_id data w,
     backed w -> backed (snd (generate_video env user_id data w))) /\
  (forall env w, backed w -> backed (worker_step env w)) /\
  (forall now user_id task_id w,
     backed w ->
     backed (snd (get_task_status now user_id task_id w)) /\
     backed (snd (get_task_result now user_id task_id w)) /\
     payload (fst (get_task_result now user_id task_id w)) <> JError msg_file_not_found).
Proof.
  split; [|split; [|split; [|split]]].
  - intros k e H. cbn in H. rewrite lookup_empty in H. discriminate.
  - intros env user_id data w Hb. eapply extends_backed; [exact Hb|].
    unfold generate_image. rewrite endpoint_world. apply grows_generate_image_try.
  - intros env user_id data w Hb. eapply extends_backed; [exact Hb|].
    unfold generate_video. rewrite endpoint_world. apply grows_generate_video_try.
  - intros env w Hb. unfold worker_step. destruct (celery_queue w) as [|j q]; [exact Hb|].
    eapply extends_backed; [|apply run_job_extends].
    intros k e H. exact (Hb k e H).
  - intros now user_id task_id w Hb.
    destruct (get_task_info_cases now task_id w) as (w' & Hkv & Hfiles & Hinfo).
    assert (Hb' : backed w').
    { intros k e H. rewrite Hfiles. rewrite Hkv in H. exact (Hb k e H). }
    destruct messages_differ as [Hm1 Hm2].
    assert (Hanswer : forall o,
              (o = task_record now task_id w \/ o = None) ->
              payload (result_answer user_id task_id (output_files w) o)
                <> JError msg_file_not_found).
    { intros o Ho. unfold result_answer.
      destruct o as [t|]; [|intros [= H]; congruence].
      destruct Ho as [Ho | Ho]; [|discriminate].
      destruct (not_owner t user_id); [intros [= H]; congruence|].
      destruct (negb (String.eqb (td_status t) "completed")) eqn:Hs;
        [intros [= H]; congruence|].
      apply negb_false_iff, String.eqb_eq in Hs.
      symmetry in Ho. destruct (task_record_stored _ _ _ _ Ho) as (ex & Hstored).
      destruct (Hb _ _ Hstored Hs) as (p & -> & Hp & Hin).
      rewrite Hp, bool_decide_eq_true_2 by exact Hin. discriminate. }
    split; [|split].
    + eapply extends_backed; [exact Hb|].
      unfold get_task_status. rewrite endpoint_world. unfold get_task_status_try.
      apply grows_bind; [apply grows_get_task_info|]. intros o.
      repeat (intros; grows_step); destruct (not_owner _ _); apply grows_ret.
    + eapply extends_backed; [exact Hb|].
      unfold get_task_result. rewrite endpoint_world. unfold get_task_result_try.
      apply grows_bind; [apply grows_get_task_info|]. intros [t|]; [|apply grows_ret].
      destruct (not_owner _ _); [apply grows_ret|].
      destruct (negb _); [apply grows_ret|].
      intros w0. destruct (td_output_path t) as [p|]; [|apply extends_refl].
      destruct (_ || _); apply extends_refl.
    + destruct Hinfo as [Hinfo | Hinfo];
        rewrite (get_task_result_of_info _ _ _ _ _ _ Hinfo), Hfiles; cbn [fst];
        apply Hanswer; auto.
Qed.

Lemma completed_records_witness : backed completed_world.
Proof.
  apply (proj1 (proj2 (proj2 (proj2 completed_records_name_files_that_exist)))).
  apply (proj1 (proj2 completed_records_name_files_that_exist)).
  exact (proj1 completed_records_name_files_that_exist).
Defined.

(** ** The shape of the keys *)

Section KeyShape.
Import Bytes Hashlib.

Lemma sha256_round_length W v t : length (sha256_round W v t) = length v.
Proof.
  unfold sha256_round.
  destruct v as [|a [|b [|c [|d [|e [|f [|g [|h [|i v]]]]]]]]]; reflexivity.
Qed.

Lemma sha256_rounds_length W ts : forall v, length (fold_left (sha256_round W) ts v) = length v.
Proof.
  induction ts as [|t ts IH]; intros v; [reflexivity|].
  cbn [fold_left]. rewrite IH. apply sha256_round_length.
Qed.

Lemma add32_all_length xs : forall ys, length xs = length ys -> length (add32_all xs ys) = length xs.
Proof.
  induction xs as [|x xs IH]; intros [|y ys] H; try discriminate H; [reflexivity|].
  cbn [add32_all length]. f_equal. apply IH. injection H as H. exact H.
Qed.

Lemma sha256_block_length H M : length (sha256_block H M) = length H.
Proof.
  unfold sha256_block. apply add32_all_length. symmetry. apply sha256_rounds_length.
Qed.

Lemma sha256_blocks_length bl : forall H, length (fold_left sha256_block bl H) = length H.
Proof.
  induction bl as [|M bl IH]; intros H; [reflexivity|].
  cbn [fold_left]. rewrite IH. apply sha256_block_length.
Qed.

(** A byte. *)
Definition is_byte (b : Z) : Prop := 0 <= b < 256.

Lemma land_255_byte x : is_byte (Z.land x 255).
Proof.
  unfold is_byte. change 255 with (Z.ones 8). rewrite Z.land_ones by lia.
  apply Z.mod_pos_bound. reflexivity.
Qed.

Lemma word_be_bytes w : Forall is_byte (word_be w) /\ length (word_be w) = 4%nat.
Proof.
  unfold word_be, word_le. cbn [rev app length]. split; [|reflexivity].
  repeat constructor; apply land_255_byte.
Qed.

Lemma words_bytes ws :
  Forall is_byte (flat_map word_be ws) /\
  length (flat_map word_be ws) = (4 * length ws)%nat.
Proof.
  induction ws as [|w ws [IHb IHl]]; [split; [constructor | reflexivity]|].
  cbn [flat_map]. destruct (word_be_bytes w) as [Hb Hl]. split.
  - apply Forall_app. split; assumption.
  - rewrite length_app, Hl, IHl. cbn [length]. lia.
Qed.

(** The digits of [bytes.hex()]. *)
Definition is_hex (c : ascii) : bool :=
  let n := ord c in ((48 <=? n) && (n <=? 57)) || ((97 <=? n) && (n <=? 102)).

Fixpoint all_hex (s : string) : bool :=
  match s with
  | EmptyString => true
  | String c r => is_hex c && all_hex r
  end.

Lemma hex_digit_is_hex n : 0 <= n < 16 -> is_hex (hex_digit n) = true.
Proof.
  intros Hn.
  assert (H : forallb (fun k => is_hex (hex_digit (k - 1))) (lattice 16) = true)
    by (vm_compute; reflexivity).
  rewrite forallb_forall in H.
  specialize (H (n + 1) (in_lattice 16 (n + 1) ltac:(lia))).
  replace (n + 1 - 1) with n in H by lia. exact H.
Qed.

Lemma all_hex_app s1 s2 : all_hex (s1 +:+ s2) = all_hex s1 && all_hex s2.
Proof.
  induction s1 as [|c s1 IH]; [reflexivity|].
  rewrite app_cons. cbn [all_hex]. rewrite IH. apply andb_assoc.
Qed.

Lemma hex_shape bs :
  Forall is_byte bs ->
  all_hex (hex bs) = true /\ String.length (hex bs) = (2 * length bs)%nat.
Proof.
  induction 1 as [|b bs Hb _ [IHh IHl]]; [split; reflexivity|].
  cbn [hex]. rewrite all_hex_app, string_app_length, IHh, IHl. split.
  - unfold hex_byte. cbn [all_hex]. unfold is_byte in Hb.
    rewrite hex_digit_is_hex.
    + rewrite hex_digit_is_hex; [reflexivity|].
      change 15 with (Z.ones 4). rewrite Z.land_ones by lia.
      apply Z.mod_pos_bound. reflexivity.
    + rewrite Z.shiftr_div_pow2 by lia. change (2 ^ 4) with 16.
      split; [apply Z.div_pos; lia | apply Z.div_lt_upper_bound; lia].
  - unfold hex_byte. cbn [String.length length]. lia.
Qed.

Lemma sha256_hexdigest_shape msg :
  all_hex (sha256_hexdigest msg) = true /\ String.length (sha256_hexdigest msg) = 64%nat.
Proof.
  unfold sha256_hexdigest, sha256_digest. cbv zeta.
  set (bl := blocks _ _).
  destruct (words_bytes (fold_left sha256_block bl sha256_init)) as [Hb Hl].
  destruct (hex_shape _ Hb) as [Hh Hlen]. split; [exact Hh|].
  rewrite Hlen, Hl, sha256_blocks_length. reflexivity.
Qed.

(** X19. Every key of the result cache is [flux_cache:] followed by 64
    lower-case hexadecimal digits, 75 characters whatever the prompt and
    the adapter are, and the three families of keys of the store never
    meet: no cache key is the key of a task record or of a rate-limit
    counter, and no task key is a rate-limit key, whatever the prompt,
    the task id, the user id and the endpoint class are. *)
Theorem store_keys_never_collide :
  forall prompt width height steps guidance seed lora_data,
    let key := generate_cache_key prompt width height steps guidance seed lora_data in
    (exists digest,
       key = "flux_cache:" +:+ digest /\
       String.length digest = 64%nat /\ all_hex digest = true) /\
    String.length key = 75%nat /\
    (forall task_id, key <> task_key task_id) /\
    (forall user_id endpoint_type, key <> rate_key user_id endpoint_type) /\
    (forall task_id user_id endpoint_type,
       task_key task_id <> rate_key user_id endpoint_type).
Proof.
  intros prompt width height steps guidance seed lora_data key.
  destruct (sha256_hexdigest_shape
              (encode (cache_string prompt width height steps guidance seed lora_data)))
    as [Hh Hl].
  split; [|split; [|split; [|split]]].
  - eexists. split; [reflexivity|]. split; [exact Hl | exact Hh].
  - unfold key, generate_cache_key. rewrite string_app_length, Hl. reflexivity.
  - intros task_id E. symmetry in E. revert E. apply task_key_not_cache_key.
  - intros user_id endpoint_type. apply cache_key_not_rate_key.
  - intros task_id user_id endpoint_type. apply task_key_not_rate_key.
Qed.

End KeyShape.

(** ** From the accepted adapter to the loaded one *)

Section AdapterLoading.
Import LoRAManager.

Lemma process_lora_accepts env lora_data task_id fs p fs' :
  process_lora env lora_data task_id fs = (Some p, fs') ->
  p = lora_path task_id /\ exists content, fs' !! p = Some content.
Proof.
  destruct (process_lora_settles env lora_data task_id fs) as [(x & Hx & ->) | ->];
    [|discriminate].
  destruct Hx as [(e & ->) | [(e & content & _ & ->) | (content & ->)]]; cbn [settle];
    try discriminate.
  destruct (negb _ && _); [|discriminate].
  destruct (validate_lora_file env _ _) eqn:Hv.
  - intros [= <- <-]. split; [reflexivity|].
    destruct (validate_lora_file_true _ _ _ Hv) as (c & _ & Hc & _). eauto.
  - destruct (remove_raises env); discriminate.
Qed.

(** X20. The path that [process_lora] returns can be loaded: on the
    files it leaves, [load_lora] of that path succeeds and makes it the
    current adapter, and [unload_lora] then clears it. On a disk where
    the path is missing, as on a worker that does not share [/tmp] with
    the server, [load_lora] raises
    [Arquivo LoRA nao encontrado: <path>] (with its accent) and leaves
    the current adapter as it was. *)
Theorem accepted_adapter_can_be_loaded :
  (forall env lora_data task_id fs p fs' current_lora,
     process_lora env lora_data task_id fs = (Some p, fs') ->
     load_lora fs' p current_lora = (Ret tt, Some p) /\
     unload_lora (snd (load_lora fs' p current_lora)) = None) /\
  (forall (fs : gmap string (list Z)) p current_lora,
     fs !! p = None ->
     load_lora fs p current_lora = (Raise (msg_lora_not_found p), current_lora)).
Proof.
  split.
  - intros env lora_data task_id fs p fs' current_lora Hrun.
    destruct (process_lora_accepts env lora_data task_id fs p fs' Hrun)
      as (-> & content & Hfile).
    unfold load_lora. rewrite Hfile, bool_decide_eq_true_2 by eauto. cbn [negb snd].
    split; reflexivity.
  - intros fs p current_lora Hnone. unfold load_lora. rewrite Hnone.
    rewrite bool_decide_eq_false_2; [reflexivity|]. intros [x Hx]. discriminate Hx.
Qed.

Lemma accepted_adapter_witness :
  load_lora (snd (process_lora offline_env (LoraStr "AQID") "t1" ∅)) (lora_path "t1") None
    = (Ret tt, Some (lora_path "t1")) /\
  unload_lora (snd (load_lora (snd (process_lora offline_env (LoraStr "AQID") "t1" ∅))
                      (lora_path "t1") None)) = None.
Proof.
  apply (proj1 accepted_adapter_can_be_loaded offline_env (LoraStr "AQID") "t1" ∅).
  vm_compute. reflexivity.
Defined.

End AdapterLoading.

(** ** From the submission to the download *)

(** A computation that leaves a store that answers as such. *)
Definition calm {A} (m : M A) : Prop :=
  forall w, redis_faults w = [] -> redis_faults (snd (m w)) = [].

Lemma calm_ret {A} (a : A) : calm (ret a).
Proof. intros w H. exact H. Qed.

Lemma calm_raise {A} e : calm (@raise A e).
Proof. intros w H. exact H. Qed.

Lemma calm_bind {A B} (m : M A) (k : A -> M B) :
  calm m -> (forall a, calm (k a)) -> calm (bind m k).
Proof.
  intros Hm Hk w Hq. unfold bind. specialize (Hm w Hq).
  destruct (m w) as [[a|e] w1]; cbn [snd] in *; [|exact Hm]. apply Hk. exact Hm.
Qed.

Lemma calm_try {A} (m : M A) (h : string -> M A) :
  calm m -> (forall e, calm (h e)) -> calm (try_except m h).
Proof.
  intros Hm Hh w Hq. unfold try_except. specialize (Hm w Hq).
  destruct (m w) as [[a|e] w1]; cbn [snd] in *; [exact Hm|]. apply Hh. exact Hm.
Qed.

Lemma calm_command {A} (run : M A) : calm run -> calm (command run).
Proof. intros Hr w Hq. rewrite (command_quiet run w Hq). apply Hr. exact Hq. Qed.

Lemma calm_redis_get now key : calm (redis_get now key).
Proof. apply calm_command. intros w H. exact H. Qed.

Lemma calm_redis_setex now key ttl v : calm (redis_setex now key ttl v).
Proof. apply calm_command. intros w H. exact H. Qed.

Lemma calm_redis_incr now key : calm (redis_incr now key).
Proof.
  apply calm_command. intros w H.
  destruct (live_entry now key w) as [[[n|t|r] ex]|]; exact H.
Qed.

Lemma calm_delay celery_id j : calm (delay celery_id j).
Proof. apply calm_command. intros w H. exact H. Qed.

Lemma calm_py {A} e (o : option A) : calm (py e o).
Proof. destruct o; [apply calm_ret | apply calm_raise]. Qed.

Ltac calm_step :=
  first [ apply calm_ret | apply calm_raise | apply calm_delay | apply calm_py
        | apply calm_redis_get | apply calm_redis_incr | apply calm_redis_setex
        | apply calm_bind | apply calm_try
        | match goal with
          | |- calm (match ?x with _ => _ end) => destruct x
          end ].

Lemma calm_generate_image_try env user_id data : calm (generate_image_try env user_id data).
Proof.
  unfold generate_image_try, check_rate_limit, check_rate_limit_try.
  apply calm_bind; [repeat (intros; calm_step)|]. intros admitted.
  destruct (negb admitted); [apply calm_ret|].
  destruct data as [d|]; [|apply calm_ret].
  destruct (ir_prompt d) as [prompt|]; [|apply calm_ret]. cbv zeta.
  destruct (1000 <? Z.of_nat (String.length prompt)); [apply calm_ret|].
  destruct (_ || _); [apply calm_ret|].
  unfold get_cached_result, get_cached_result_try.
  apply calm_bind; [repeat (intros; calm_step)|]. intros [cached|]; [apply calm_ret|].
  repeat (intros; calm_step).
Qed.

(** X21. What is submitted can be downloaded. When [generate_image]
    accepts a request on a store that answers and an empty queue, and a
    worker then runs the oldest job without a failure of the model, the
    adapter, the generator or the file system, the queue is empty again
    and, for two hours after the run, [get_task_status] answers the
    caller [completed] for the task id of the answer and
    [get_task_result] sends the file at
    [os.path.join(OUTPUT_DIR, '<task_id>.png')] under the name
    [<task_id>.png]. *)
Theorem accepted_image_is_downloadable_after_the_run :
  forall env user_id data w r w' wenv now,
    redis_faults w = [] ->
    celery_queue w = [] ->
    generate_image env user_id data w = (Response 200 (JAccepted r), w') ->
    (forall a, image_failure wenv a = None) ->
    now < finished_at wenv + 7200 ->
    let w'' := worker_step wenv w' in
    celery_queue w'' = [] /\
    (exists t, fst (get_task_status now user_id (ar_task_id r) w'') = Response 200 (JTask t) /\
               td_status t = "completed") /\
    fst (get_task_result now user_id (ar_task_id r) w'')
      = Response 200 (SendFile (os_path_join OUTPUT_DIR (ar_task_id r +:+ ".png"))
                        (ar_task_id r +:+ ".png")).
Proof.
  intros env user_id data w r w' wenv now Hq Hempty Hrun Hok Hnow w''.
  destruct (generate_image_accepted env user_id data w r w' Hrun)
    as (d & prompt & estimated & -> & Hv & -> & Hqueue).
  rewrite Hempty in Hqueue. cbn [app] in Hqueue.
  assert (Hq' : redis_faults w' = []).
  { pose proof (calm_generate_image_try env user_id (Some d) w Hq) as H.
    unfold generate_image in Hrun. rewrite <- (endpoint_world _ w), Hrun in H. exact H. }
  unfold image_job_of in Hqueue.
  set (a := ImageJobArgs (uuid4 env) prompt (image_width d) (image_height d) (image_steps d)
              (image_guidance d) (ir_seed d) (lora_path_of env (ir_lora d))
              (image_cache_key d prompt) user_id) in *.
  set (w0 := World (redis_kv w') (redis_faults w') (redis_log w') [] (output_files w')).
  assert (Hstep : w'' = snd (run_job wenv (ImageJob a) w0)).
  { unfold w'', worker_step. rewrite Hqueue. reflexivity. }
  assert (Hq0 : redis_faults w0 = []) by exact Hq'.
  assert (Hdone : w'' = image_done wenv a w0).
  { rewrite Hstep. cbn [run_job]. rewrite (image_run_quiet wenv a w0 Hq0), (Hok a). reflexivity. }
  assert (Hq'' : redis_faults w'' = []) by (rewrite Hdone; exact Hq0).
  assert (Hrec : task_record now (uuid4 env) w''
                 = Some (TaskData (uuid4 env) "completed" (finished_at wenv) (Some user_id)
                           (Some (image_output_path a))
                           (Some (finished_at wenv - started_at wenv)) None)).
  { rewrite Hdone. change (uuid4 env) with (ij_task_id a) at 1.
    rewrite task_record_image_done.
    replace (now <? finished_at wenv + task_ttl) with true; [reflexivity|].
    symmetry. apply Z.ltb_lt. unfold task_ttl. lia. }
  cbn [ar_task_id]. split; [rewrite Hdone; reflexivity|]. split.
  - eexists. rewrite (get_task_status_quiet _ _ _ w'' Hq''), Hrec. unfold status_answer.
    rewrite not_owner_self by reflexivity. split; reflexivity.
  - rewrite (get_task_result_quiet _ _ _ w'' Hq''), Hrec. cbn [fst].
    rewrite result_answer_completed.
    + unfold image_output_path. cbn [ij_task_id a].
      rewrite (extension_of_output (uuid4 env) "png") by reflexivity. reflexivity.
    + apply (output_path_truthy (uuid4 env) "png").
    + rewrite Hdone. unfold image_done, task_written, write, save_file. cbn [output_files].
      apply elem_of_union_l, elem_of_singleton. reflexivity.
Qed.

Lemma accepted_image_witness :
  celery_queue (worker_step (happy 1 5) submitted_world) = [] /\
  (exists t,
     fst (get_task_status 100 "demo_user"
            (ar_task_id (AcceptedResponse "t1" "processing" 10 "celery-t1"))
            (worker_step (happy 1 5) submitted_world)) = Response 200 (JTask t) /\
     td_status t = "completed") /\
  fst (get_task_result 100 "demo_user"
         (ar_task_id (AcceptedResponse "t1" "processing" 10 "celery-t1"))
         (worker_step (happy 1 5) submitted_world))
    = Response 200
        (SendFile (os_path_join OUTPUT_DIR
                     (ar_task_id (AcceptedResponse "t1" "processing" 10 "celery-t1")
                      +:+ ".png"))
           (ar_task_id (AcceptedResponse "t1" "processing" 10 "celery-t1") +:+ ".png")).
Proof.
  apply (accepted_image_is_downloadable_after_the_run (demo_env 0 "t1") "demo_user"
           (Some red_cube) empty_world (AcceptedResponse "t1" "processing" 10 "celery-t1")
           submitted_world (happy 1 5) 100).
  - reflexivity.
  - reflexivity.
  - vm_compute. reflexivity.
  - intros a. unfold image_failure. simpl. destruct (falsy (ij_lora_path a)); reflexivity.
  - vm_compute. reflexivity.
Defined.

(** ** The settings of a GPU *)

Section ModelOptimizerFacts.
Import ModelOptimizer.

Definition base_keys : list string :=
  ["batch_size"; "enable_attention_slicing"; "enable_cpu_offload"; "precision";
   "max_memory_fraction"].

(** X22. Whatever device 0 is called and however much memory it has,
    the settings [get_optimal_settings] derives from [_get_gpu_info]
    hold the five base keys in their order, followed by
    [enable_flash_attention] exactly when the name contains [A100] (a
    name that contains [A100] is taken for an A100 even when it also
    contains [A10G], [V100] or [T4]); the precision is always [fp16],
    also without CUDA; CPU offload is never on together with a batch
    size of 2 or without attention slicing; and without CUDA the
    settings are the defaults. *)
Theorem gpu_settings_are_consistent :
  forall cuda,
    let s := get_optimal_settings (get_gpu_info cuda) in
    let is_a100 := match cuda with
                   | Some (gpu_name, _) => LoRAManager.contains "A100" gpu_name
                   | None => false
                   end in
    map fst s = base_keys ++ (if is_a100 then ["enable_flash_attention"] else []) /\
    get "precision" s = Some (SStr "fp16") /\
    (get "batch_size" s = Some (SInt (if is_a100 then 2 else 1))) /\
    (get "enable_cpu_offload" s = Some (SBool true) ->
     get "enable_attention_slicing" s = Some (SBool true) /\
     get "batch_size" s = Some (SInt 1)) /\
    (cuda = None ->
     get "enable_cpu_offload" s = Some (SBool false) /\
     get "enable_attention_slicing" s = Some (SBool true) /\
     get "max_memory_fraction" s = Some (SFloat (fraction (Decimal.D8 Decimal.Nil)))).
Proof.
  intros [[gpu_name total_memory]|]; cbv zeta.
  - unfold get_gpu_info. cbv zeta.
    destruct (LoRAManager.contains "A100" gpu_name).
    + repeat split; try reflexivity; discriminate.
    + destruct (LoRAManager.contains "A10G" gpu_name).
      * unfold get_optimal_settings. cbn [gi_type gi_memory_gb].
        replace (String.eqb "a10g" "a100") with false by reflexivity.
        replace (String.eqb "a10g" "a10g") with true by reflexivity.
        destruct (PrimFloat.ltb _ _); repeat split; try reflexivity; discriminate.
      * destruct (LoRAManager.contains "V100" gpu_name);
          [repeat split; try reflexivity; discriminate|].
        destruct (LoRAManager.contains "T4" gpu_name);
          repeat split; try reflexivity; discriminate.
  - repeat split; reflexivity.
Qed.

Lemma gpu_settings_witness :
  get "enable_cpu_offload" (get_optimal_settings (get_gpu_info None)) = Some (SBool false) /\
  get "enable_attention_slicing" (get_optimal_settings (get_gpu_info None)) = Some (SBool true) /\
  get "max_memory_fraction" (get_optimal_settings (get_gpu_info None))
    = Some (SFloat (fraction (Decimal.D8 Decimal.Nil))).
Proof.
  apply (proj2 (proj2 (proj2 (proj2 (gpu_settings_are_consistent None))))).
  reflexivity.
Defined.

End ModelOptimizerFacts.
